(* ===== verification/_CoqProject ===== *)
-Q . S2P
Prelude.v
Netip.v
Utf8.v
Tlv.v
Reader.v
UdpFlows.v
Handoff.v
Datagram.v
Stream.v
Auth.v
Iam.v
Dtls.v
CstpFrame.v
CstpSessions.v
CstpConfig.v
CstpTunnel.v
HttpLib.v
CstpXml.v
CstpHeaders.v
CstpHttp.v
CstpHttpRuns.v
Clat.v
SiitBuf.v
Siit46.v
Siit46Image.v
Siit64.v
Siit64Image.v
Icmp6.v
Clatxlat.v
Bridge.v
BridgeRefine.v
Netlink.v
Tun.v
RequestCtx.v
Udsserve.v
Main.v
Shutdown.v
SocketBind.v
CstpBinding.v
DtlsListen.v
