(* ===== verification/Prelude.v ===== *)
(** * A verification library for era-ocserv

    era-ocserv is the backend of an AnyConnect VPN gateway. A front end, the
    facade, terminates TLS and DTLS and hands decrypted traffic over Unix
    sockets; every hand-off starts with a PROXY-protocol v2 header that carries
    the client's addresses and typed records (TLVs) with its identity. The
    server authenticates the device, resolves its inner addresses, and moves
    packets between the client's CSTP tunnel or DTLS session and a TUN device,
    translating addresses for clients that speak IPv4 only.

    ** Files, parts and sources (paths under [src/])

    Foundations:
    - [Prelude]: this file; Go values, readers, automation, generic lemmas.
    - [Netip], [Utf8], [HttpLib]: the parts of [net/netip], [unicode/utf8],
      [strings], [net/http], ... the program calls, from their definition in the
      Go library.

    The hand-off:
    - [Tlv]: [internal/proxyproto/tlv.go]. The record decoder, the value rule of
      each type, and the writer of [udshandoff/datagram_listener.go].
    - [Reader]: [internal/proxyproto/reader.go], [proxyproto.go]. The header with
      records, its encoder, the address-only header and the listener that
      strips it.
    - [UdpFlows]: [internal/proxyproto/udp_listener.go]. The flow cache that
      restores the real source of spliced UDP, with LRU and idle eviction.
    - [Handoff]: [internal/udshandoff/protocol.go], [sort.go], [metrics.go],
      [logging.go]. The matrix of mandatory, optional and forbidden records of
      each protocol, the validator, the counters.
    - [Datagram], [Stream]: [internal/udshandoff/datagram.go],
      [datagram_listener.go], [listener.go], [accepted.go]. One datagram and one
      accepted connection, from its bytes to the handler, and the replies.
    - [SocketBind]: [bindStream] and [bindDatagram], with their system calls.

    Identity:
    - [Auth]: [internal/auth]. Subject DN parsing, certificates, the portal
      verifier.
    - [Iam]: [internal/iam]. The class [Resolver] and its instances: the TPM
      resolver with its cache, and the in-memory one.
    - [RequestCtx]: [internal/certctx], [internal/logredact].

    The DTLS transport:
    - [Dtls]: [internal/dtlsuds]. Sessions and their table, and the listener, over
      any instance of [Resolver]. [DtlsListen]: its start and close.

    The CSTP transport ([internal/cstp]):
    - [CstpFrame], [CstpSessions]: [frame.go], [cookie.go]. The framing of the
      tunnel and the table of login sessions.
    - [CstpConfig]: [cstp.go], [profile.go]. The configuration and the queue of
      finished tunnels.
    - [CstpTunnel]: [tunnel.go]. The reader, the heartbeat and the callers.
    - [CstpXml], [CstpHeaders], [CstpHttp]: [xml.go], [connect.go], [server.go].
      The messages, the CONNECT answer, and the handlers as programs of table
      operations; [CstpHttpRuns] runs them, alone and interleaved.
    - [CstpBinding]: [dtls_binding.go]. What is published for the DTLS path.
    - [Udsserve]: [internal/udsserve]. From the stream listener to the HTTP
      server: metadata, middleware and the queue of connections.

    Packets:
    - [Clat]: [internal/clat/nat.go], [mapping.go], the constants. Prefix and
      NAT66/NAT44 rewriting.
    - [SiitBuf], [Siit46], [Siit64]: [siit46.go], [siit64.go]. The in-place
      translators; [Siit46Image] and [Siit64Image] say what they make of a packet.
    - [Clatxlat]: [internal/clatxlat]. The driver of a session, against the class
      [SIIT], whose instance is the translators. [Icmp6]: [internal/icmp6].
    - [Bridge], [BridgeRefine]: [cmd/era-ocserv/bridge.go], [ptb.go]. The registry
      of clients and the data path, and the registry against its contract.
    - [Netlink], [Tun]: [internal/tun].

    The program:
    - [Main], [Shutdown]: [cmd/era-ocserv/main.go]. Flags, modes, wiring; the
      goroutines at the end of the process.

    A stream goes [Stream], [Udsserve], [CstpHttp], [CstpTunnel], [Bridge]; a DTLS
    datagram [Datagram], [Dtls], [Bridge]; both ask [Auth] or the certificate for
    a device and a [Resolver] for its addresses. [Bridge] calls [Clatxlat] on
    every packet of a client that has a CLAT address and moves it to or from
    [Tun]. [Main] wires them and [CstpBinding] carries what the DTLS path must
    know of a CSTP login.

    ** What is shown

    - Wire formats ([Tlv], [Reader], [Datagram], [CstpFrame], [CstpBinding]): each
      decoder accepts exactly the images of well-formed values and returns the
      value and the unread rest ([*_iff]); writers and readers are inverse, and
      where a writer is not (the 16-bit length of [Reader.Encode]) a lemma says so.
    - Dispatch ([Handoff], [Datagram], [Stream], [Udsserve]): the handler runs
      exactly for the input that decodes and validates, each input moves one
      counter, and a connection is served once, in order, and released.
    - State ([UdpFlows], [Iam], [Dtls], [CstpSessions], [CstpTunnel], [Bridge],
      [Udsserve]): invariants of every reachable state, by induction over the
      operations or the atomic steps of the goroutines; exact eviction; what a
      lookup can return; what is final.
    - Identity ([Auth], [Iam], [Dtls], [CstpHttpRuns], [Main]): the device id is
      the first CN of the subject; whatever is served was fetched and in the pool;
      a session never changes hands; a tunnel needs a password the verifier
      accepted; which mode compares which identities.
    - Refinement: a tunnel delivers and sends the client's and the bridge's
      streams ([CstpTunnel.tunnel_streams]); handlers that do not overlap implement
      a table of transports by address ([BridgeRefine.routing_refines]).
    - Translation ([Clat], [Siit46], [Siit64], [Clatxlat]): the buffer contract,
      the exact bytes of the result, and when the transport checksum stays right;
      what the driver emits and what it drops.
    - The kernel ([Netlink], [Tun]): the exact requests, in a format written out
      byte by byte, the answer an exchange returns, where the interface's index
      comes from, and which descriptors are open after each outcome.
    - The process ([Main], [Shutdown]): what is acquired is released in reverse
      order, and all the ways the process can end.

    Where the code does something other than what it or its comments say, the
    theorem states what it does, and an [Example] or a lemma runs the case
    ([Dtls.late_admit], [Udsserve.push_close_race], [Udsserve.close_returns_early],
    [Auth.trailing_escaped_space], [Clatxlat.udp_zero_checksum],
    [Netlink.parse_unaligned_panics], [SocketBind.dir_not_setgid], ...).

    ** How the program is modelled

    - a byte, [uint16], [int], ... is a [Z]; [bytes_ok] says that a list holds
      bytes, and [u8]/[u16]/[u32] write a conversion's wrap-around out;
    - [[]byte] and [string] are both [list Z]; [bs] turns a literal into one. The
      translators, whose slices alias one buffer, are computations on the buffer
      ([SiitBuf]), and [None] is the panic of a slice out of range;
    - an [error] result is a value of [result], with a constructor per error the
      code tells apart;
    - an [io.Reader] is the bytes it will deliver followed by the error it
      reports when they run out ([Reader], [read_full] = [io.ReadFull]);
    - a [time.Time] is a [Z] of nanoseconds, and the clock is an argument;
    - a pointer to a shared row ([*flowEntry], [*Session], [*session],
      [*activeClient]) is a number into a heap, so that the indexes alias it as
      the code's maps do;
    - what a lock covers, or a single channel or atomic operation, is one step,
      and the step relations ([Dtls.dtls_step], [CstpTunnel.tun_step],
      [Bridge.thread_step], [Udsserve.step], [Shutdown.step]) let the steps of
      concurrent goroutines interleave; a CSTP handler is a program of table
      operations that [CstpHttpRuns] interleaves with others. In [Dtls] the
      insertion of a session and its [OnAdmit] are two steps, with
      [Dtls.ls_admitting] in between; in [Udsserve] the stream listener's closing
      flag can be taken by either of its two callers. The other files describe
      one call after another;
    - the kernel is a function of the calls made so far ([Netlink.Kernel]); an
      HTTP exchange, a socket's answer, a random draw or a packet sink is an
      argument: theorems hold for any behaviour of it;
    - code outside the repository (gvisor's header accessors, JSON and XML
      decoders, SHA-256) is an argument or a class whose laws are its documented
      behaviour ([Clat.Gvisor], [SiitBuf.GvisorHeader], [Icmp6.GvisorIcmp]), each
      with an instance.

    Recursion is structural except for
    - the record decoder: its fuel is the length of the block, and each record
      takes at least three bytes of it;
    - the extension headers of [Siit64]: fuel [S (length packet)], enough by
      [Siit64.walk_terminates];
    - the netlink walk: fuel [S (length buf)], enough by [Netlink.parse_finishes];
    - the wait for the kernel's answer, which the code may never end: the bound on
      the datagrams read is an argument, and [Netlink.exchange_answer] says which
      is enough.

    ** What is not modelled

    - the start of goroutines, timers and their periods, [SetDeadline] calls; the
      [http.Server], which is a client of [Udsserve]'s queue that accepts, uses and
      closes; the logging back ends, of which only the records emitted are;
    - [loadTLS] of [main.go], which reads key files: its outcome is an answer of
      the environment in [Main], like the outcomes of opening the TUN device and of
      the listeners, which [Tun], [DtlsListen] and [Udsserve] model;
    - the senders of datagrams without a name: [Datagram.processFrame]'s peer is a
      socket path, where the code's may be nil; a queue count that
      [make([]*Queue, 0, n)] refuses in [Tun.Open];
    - [internal/tun/tun_other.go], a stub for systems other than Linux;
    - accessors that return a field, and helpers nothing but tests call
      ([dtlsAddressForRequest], [serverCertHashBase64], [parsePrefix] of
      [connect.go], [connectError] of [server.go]).

    This file also holds the automation ([simpl_bool], [go_cases], [solve_len],
    [decide_closed], the hint databases [bytes] and [len]) and the generic lemmas
    on lists, readers and big-endian integers that the components share. *)

From Stdlib Require Export ZArith Lia String Ascii.
From stdpp Require Export base decidable numbers option list list_numbers gmap strings.

#[export] Set Default Goal Selector "!".
Global Open Scope Z_scope.
Global Open Scope list_scope.
#[export] Set Warnings "-notation-overridden".

(** * Results *)

Inductive result (E A : Type) : Type :=
| Ok (a : A)
| Err (e : E).
Arguments Ok {E A} a.
Arguments Err {E A} e.

Declare Scope go_scope.
Delimit Scope go_scope with go.
Global Open Scope go_scope.

Notation "'let?' p ':=' e 'in' k" :=
  (match e with Ok p => k | Err err__ => Err err__ end)
  (at level 10, p pattern, e at level 200, k at level 200,
   format "'[v' 'let?'  p  ':='  e  'in' '/' k ']'") : go_scope.

#[export] Instance result_eq_dec {E A} `{EqDecision E} `{EqDecision A} :
  EqDecision (result E A).
Proof. solve_decision. Defined.

Definition is_ok {E A} (r : result E A) : bool :=
  match r with Ok _ => true | Err _ => false end.

(** * Bytes and strings *)

Abbreviation byte := Z (only parsing).
Abbreviation bytes := (list Z) (only parsing).
Abbreviation gostring := (list Z) (only parsing).

Definition is_byte (b : Z) : Prop := 0 <= b < 256.
#[export] Instance is_byte_dec b : Decision (is_byte b).
Proof. unfold is_byte. apply _. Defined.

Definition bytes_ok (l : bytes) : Prop := Forall is_byte l.
#[export] Instance bytes_ok_dec l : Decision (bytes_ok l).
Proof. unfold bytes_ok. apply _. Defined.

Definition is_nil {A} (l : list A) : bool := match l with [] => true | _ => false end.

(** A string literal as the bytes of the Go string. *)
Fixpoint bs (s : string) : bytes :=
  match s with
  | EmptyString => []
  | String c s' => Z.of_N (N_of_ascii c) :: bs s'
  end.

Definition u8 (z : Z) : Z := z mod 2 ^ 8.
Definition u16 (z : Z) : Z := z mod 2 ^ 16.
Definition u32 (z : Z) : Z := z mod 2 ^ 32.

(** [l[i]] where the code has established [i < len(l)]. *)
Definition byte_at (l : bytes) (i : nat) : Z := nth i l 0.
(** [l[i:j]] where the code has established [i <= j <= len(l)]. *)
Definition slice {A} (l : list A) (i j : nat) : list A := take (j - i) (drop i l).

(** [binary.BigEndian.Uint16] / [AppendUint16] *)
Definition be16 (l : bytes) : Z := byte_at l 0 * 256 + byte_at l 1.
Definition put16 (v : Z) : bytes := [u8 (v / 256); u8 v].

(** [bytes.HasPrefix] / [strings.HasPrefix] *)
Fixpoint has_prefix (p s : bytes) : bool :=
  match p, s with
  | [], _ => true
  | a :: p', b :: s' => (a =? b) && has_prefix p' s'
  | _ :: _, [] => false
  end.

(** * Readers *)

Inductive IOErr : Type := EOF | ErrUnexpectedEOF | ErrOther.
#[export] Instance IOErr_eq_dec : EqDecision IOErr.
Proof. solve_decision. Defined.

(** The bytes still to come and the error reported after the last of them. *)
Record Reader := mkReader { rd_data : bytes; rd_err : IOErr }.

(** [io.ReadFull(r, buf)] with [len(buf) = n]: all [n] bytes and the advanced
    reader, or [EOF] when the stream ended before the first byte,
    [ErrUnexpectedEOF] when it ended in the middle, the stream's own error
    when it failed otherwise. *)
Definition read_full (r : Reader) (n : nat) : result IOErr (bytes * Reader) :=
  if (n <=? length (rd_data r))%nat
  then Ok (take n (rd_data r), mkReader (drop n (rd_data r)) (rd_err r))
  else match rd_err r with
       | EOF => Err (if (length (rd_data r) =? 0)%nat then EOF else ErrUnexpectedEOF)
       | e => Err e
       end.

(** * Automation *)

Create HintDb bytes.
Create Rewrite HintDb len.

(** Turns boolean tests in hypotheses and goal into propositions. *)
Ltac simpl_bool :=
  repeat match goal with
  | H : (_ && _)%bool = true |- _ => apply andb_true_iff in H as [? ?]
  | H : (_ || _)%bool = false |- _ => apply orb_false_iff in H as [? ?]
  | H : negb _ = true |- _ => apply negb_true_iff in H
  | H : negb _ = false |- _ => apply negb_false_iff in H
  | H : (_ <=? _)%nat = true |- _ => apply Nat.leb_le in H
  | H : (_ <=? _)%nat = false |- _ => apply Nat.leb_gt in H
  | H : (_ <? _)%nat = true |- _ => apply Nat.ltb_lt in H
  | H : (_ <? _)%nat = false |- _ => apply Nat.ltb_ge in H
  | H : (_ =? _)%nat = true |- _ => apply Nat.eqb_eq in H
  | H : (_ =? _)%nat = false |- _ => apply Nat.eqb_neq in H
  | H : (_ <=? _) = true |- _ => apply Z.leb_le in H
  | H : (_ <=? _) = false |- _ => apply Z.leb_gt in H
  | H : (_ <? _) = true |- _ => apply Z.ltb_lt in H
  | H : (_ <? _) = false |- _ => apply Z.ltb_ge in H
  | H : (_ =? _) = true |- _ => apply Z.eqb_eq in H
  | H : (_ =? _) = false |- _ => apply Z.eqb_neq in H
  | H : bool_decide _ = true |- _ => apply bool_decide_eq_true in H
  | H : bool_decide _ = false |- _ => apply bool_decide_eq_false in H
  end.

(** Case analysis on every test of the goal or of [H], with the branch
    conditions as propositions. *)
Ltac go_cases := repeat (case_match; simpl_bool; simplify_eq/=; try done).
Ltac go_cases_in H :=
  repeat (match type of H with context [match ?x with _ => _ end] =>
            destruct x eqn:?; simpl_bool; simplify_eq/=; try done end).

(** Closed decidable facts by evaluation. *)
Ltac decide_closed := apply (bool_decide_unpack _); vm_compute; exact I.

(** * Lists *)

Section lists.
Context {A : Type}.
Implicit Types l k : list A.

Lemma length_slice l i j :
  (i <= j)%nat -> (j <= length l)%nat -> length (slice l i j) = (j - i)%nat.
Proof. intros. unfold slice. rewrite length_take, length_drop. lia. Qed.

Lemma slice_0 l n : slice l 0 n = take n l.
Proof. unfold slice. by rewrite Nat.sub_0_r, drop_0. Qed.

Lemma slice_slice l a b i j : (a + j <= b)%nat -> slice (slice l a b) i j = slice l (a + i) (a + j).
Proof.
  intros H. unfold slice. rewrite skipn_firstn_comm, take_take, drop_drop. f_equal. lia.
Qed.
Lemma slice_take_eq l n i j : (j <= n)%nat -> slice (take n l) i j = slice l i j.
Proof. intros H. rewrite <- slice_0. by apply slice_slice. Qed.
Lemma slice_drop_eq l n i j : slice (drop n l) i j = slice l (n + i) (n + j).
Proof. unfold slice. rewrite drop_drop. f_equal. lia. Qed.

Lemma slice_app_exact l1 l2 l3 :
  slice (l1 ++ l2 ++ l3) (length l1) (length l1 + length l2) = l2.
Proof.
  unfold slice. rewrite drop_app_length.
  replace (length l1 + length l2 - length l1)%nat with (length l2) by lia.
  apply take_app_length.
Qed.

Lemma take_slice_drop l i j :
  (i <= j)%nat -> take i l ++ slice l i j ++ drop j l = l.
Proof.
  intros. unfold slice.
  replace (drop j l) with (drop (j - i) (drop i l))
    by (rewrite drop_drop; f_equal; lia).
  by rewrite take_drop, take_drop.
Qed.

Lemma slice_app_eq l1 l2 l3 i j :
  i = length l1 -> j = (length l1 + length l2)%nat -> slice (l1 ++ l2 ++ l3) i j = l2.
Proof. intros -> ->. apply slice_app_exact. Qed.

Lemma slice_drop l i j : (i <= j)%nat -> slice l i j ++ drop j l = drop i l.
Proof.
  intros. unfold slice. replace (drop j l) with (drop (j - i) (drop i l))
    by (rewrite drop_drop; f_equal; lia).
  apply take_drop.
Qed.

Lemma is_nil_true l : is_nil l = true <-> l = [].
Proof. by destruct l. Qed.

Lemma is_nil_app l k : is_nil (l ++ k) = is_nil l && is_nil k.
Proof. by destruct l. Qed.

Lemma app_inj_len l1 l2 k1 k2 :
  length l1 = length k1 -> l1 ++ l2 = k1 ++ k2 -> l1 = k1 /\ l2 = k2.
Proof. intros Hl He. by apply app_inj_1 in He. Qed.
End lists.

#[export] Hint Rewrite @length_app @length_take @length_drop @length_cons @length_nil : len.
Ltac solve_len := autorewrite with len in *; simpl in *; lia.

(** * Bytes *)

Lemma bytes_ok_app l k : bytes_ok (l ++ k) <-> bytes_ok l /\ bytes_ok k.
Proof. apply Forall_app. Qed.

Lemma bytes_ok_take n l : bytes_ok l -> bytes_ok (take n l).
Proof. apply Forall_take. Qed.

Lemma bytes_ok_drop n l : bytes_ok l -> bytes_ok (drop n l).
Proof. apply Forall_drop. Qed.

Lemma bytes_ok_slice l i j : bytes_ok l -> bytes_ok (slice l i j).
Proof. intros. by apply bytes_ok_take, bytes_ok_drop. Qed.

Lemma bytes_ok_at l i : bytes_ok l -> is_byte (byte_at l i).
Proof.
  intros H. unfold byte_at. destruct (nth_in_or_default i l 0) as [Hi| ->].
  - unfold bytes_ok in H. rewrite Forall_forall in H. apply H. by apply list_elem_of_In.
  - unfold is_byte. lia.
Qed.

Lemma u8_byte z : is_byte (u8 z).
Proof. apply Z.mod_pos_bound. lia. Qed.

Lemma put16_ok v : bytes_ok (put16 v).
Proof. repeat constructor; apply u8_byte. Qed.

Lemma length_put16 v : length (put16 v) = 2%nat.
Proof. done. Qed.

#[export] Hint Resolve bytes_ok_take bytes_ok_drop bytes_ok_slice bytes_ok_at
  u8_byte put16_ok : bytes.
#[export] Hint Rewrite length_put16 : len.

Lemma be16_bound l : bytes_ok l -> 0 <= be16 l < 2 ^ 16.
Proof.
  intros H. unfold be16.
  pose proof (bytes_ok_at l 0 H) as H0. pose proof (bytes_ok_at l 1 H) as H1.
  unfold is_byte in *. lia.
Qed.

Lemma be16_put16 v rest : 0 <= v < 2 ^ 16 -> be16 (put16 v ++ rest) = v.
Proof.
  intros. unfold be16, put16, byte_at, u8. simpl.
  rewrite (Z.mod_small (v / 256)).
  - pose proof (Z.div_mod v 256). change (2 ^ 8) with 256. lia.
  - split; [apply Z.div_pos; lia | apply Z.div_lt_upper_bound; lia].
Qed.

Lemma put16_be16 l : length l = 2%nat -> bytes_ok l -> put16 (be16 l) = l.
Proof.
  intros Hl Hok. destruct l as [|a [|b [|]]]; try done.
  unfold bytes_ok in Hok. rewrite !Forall_cons in Hok. destruct Hok as (Ha & Hb & _).
  unfold is_byte in *. unfold put16, be16, byte_at, u8. simpl.
  rewrite Z.div_add_l by lia. rewrite (Z.div_small b) by lia.
  rewrite Z.add_0_r. f_equal; [by apply Z.mod_small|].
  f_equal. rewrite Z.add_comm, Z.mod_add by lia. by apply Z.mod_small.
Qed.

(** * Readers *)

Lemma read_full_app p q e :
  read_full (mkReader (p ++ q) e) (length p) = Ok (p, mkReader q e).
Proof.
  unfold read_full. simpl. rewrite length_app.
  rewrite (proj2 (Nat.leb_le _ _)) by lia.
  by rewrite take_app_length, drop_app_length.
Qed.

Lemma read_full_at p q e n : length p = n -> read_full (mkReader (p ++ q) e) n = Ok (p, mkReader q e).
Proof. intros <-. apply read_full_app. Qed.

Lemma read_full_ok r n p r' :
  read_full r n = Ok (p, r') ->
  length p = n /\ rd_data r = p ++ rd_data r' /\ rd_err r' = rd_err r.
Proof.
  unfold read_full. intros H. destruct (n <=? length (rd_data r))%nat eqn:Hn; simpl_bool.
  - simplify_eq/=. rewrite take_drop, length_take. split; [lia|done].
  - by destruct (rd_err r).
Qed.

Lemma read_full_short r n :
  (length (rd_data r) < n)%nat -> exists e, read_full r n = Err e.
Proof.
  intros. unfold read_full. rewrite (proj2 (Nat.leb_gt _ _)) by done.
  destruct (rd_err r); eauto.
Qed.

Lemma has_prefix_app p s : has_prefix p (p ++ s) = true.
Proof. induction p; simpl; [done|]. by rewrite Z.eqb_refl. Qed.

Lemma has_prefix_spec p s : has_prefix p s = true <-> exists q, s = p ++ q.
Proof.
  revert s. induction p as [|a p IH]; intros s; simpl.
  - split; eauto.
  - destruct s as [|b s].
    + split; [done|]. by intros (q & Hq).
    + rewrite andb_true_iff, IH, Z.eqb_eq. split.
      * intros (-> & q & ->). eauto.
      * intros (q & Hq). simplify_eq/=. eauto.
Qed.
