(* ===== verification/Netip.v ===== *)
(** The parts of Go's [net/netip] the program uses: [Addr], [AddrPort] and
    [Prefix] values, the classification predicates and the textual parsers. *)

From S2P Require Import Prelude.

(** * Byte searches of [strings] / [bytes] *)

Fixpoint index_byte (c : byte) (s : bytes) : option nat :=
  match s with
  | [] => None
  | b :: s' => if b =? c then Some 0%nat else S <$> index_byte c s'
  end.

Fixpoint last_index_byte (c : byte) (s : bytes) : option nat :=
  match s with
  | [] => None
  | b :: s' =>
    match last_index_byte c s' with
    | Some i => Some (S i)
    | None => if b =? c then Some 0%nat else None
    end
  end.

Definition is_digit (b : byte) : bool := (48 <=? b) && (b <=? 57).

(** Value of a nonempty all-digit string ([strconv.ParseUint] base 10 before
    its range check). *)
Fixpoint dec_value (acc : Z) (s : bytes) : option Z :=
  match s with
  | [] => Some acc
  | b :: s' => if is_digit b then dec_value (acc * 10 + (b - 48)) s' else None
  end.
Definition parse_uint (s : bytes) : option Z :=
  match s with [] => None | _ => dec_value 0 s end.

(** * Addresses *)

(** [netip.Addr]: the zero value, an IPv4 address, an IPv6 address with its
    zone. An IPv4-mapped IPv6 address is an [Addr6]. *)
Inductive Addr : Type :=
| AddrNone
| Addr4 (a : bytes)
| Addr6 (a : bytes) (zone : bytes).

#[export] Instance Addr_eq_dec : EqDecision Addr.
Proof. solve_decision. Defined.
#[export] Instance Addr_countable : Countable Addr.
Proof.
  apply (inj_countable'
    (fun a => match a with AddrNone => inl tt | Addr4 b => inr (inl b) | Addr6 b z => inr (inr (b, z)) end)
    (fun x => match x with inl _ => AddrNone | inr (inl b) => Addr4 b | inr (inr (b, z)) => Addr6 b z end)).
  by intros [].
Defined.

Definition AddrFrom4 (b : bytes) : Addr := Addr4 b.
Definition AddrFrom16 (b : bytes) : Addr := Addr6 b [].

Definition mapped_prefix : bytes := [0;0;0;0;0;0;0;0;0;0;255;255].

Definition IsValid (a : Addr) : bool := match a with AddrNone => false | _ => true end.
Definition Is4 (a : Addr) : bool := match a with Addr4 _ => true | _ => false end.
Definition Is6 (a : Addr) : bool := match a with Addr6 _ _ => true | _ => false end.
Definition Is4In6 (a : Addr) : bool :=
  match a with Addr6 b _ => bool_decide (take 12 b = mapped_prefix) | _ => false end.
Definition Unmap (a : Addr) : Addr :=
  match a with
  | Addr6 b _ => if Is4In6 a then Addr4 (drop 12 b) else a
  | _ => a
  end.

(** [As4]/[As16] panic ([None]) where Go does. *)
Definition As4 (a : Addr) : option bytes :=
  match a with
  | Addr4 b => Some b
  | Addr6 b _ => if Is4In6 a then Some (drop 12 b) else None
  | AddrNone => None
  end.
Definition As16 (a : Addr) : option bytes :=
  match a with
  | Addr4 b => Some (mapped_prefix ++ b)
  | Addr6 b _ => Some b
  | AddrNone => Some (repeat 0 16)
  end.
Definition AsSlice (a : Addr) : bytes :=
  match a with AddrNone => [] | Addr4 b => b | Addr6 b _ => b end.
Definition AddrFromSlice (b : bytes) : option Addr :=
  if (length b =? 4)%nat then Some (AddrFrom4 b)
  else if (length b =? 16)%nat then Some (AddrFrom16 b)
  else None.

Definition addr_ok (a : Addr) : Prop :=
  match a with
  | AddrNone => True
  | Addr4 b => length b = 4%nat /\ bytes_ok b
  | Addr6 b _ => length b = 16%nat /\ bytes_ok b
  end.

(** ** Classification *)

Definition v6loopback : bytes := repeat 0 15 ++ [1].

Definition IsLoopback (a : Addr) : bool :=
  match Unmap a with
  | Addr4 b => byte_at b 0 =? 127
  | Addr6 b _ => bool_decide (b = v6loopback)
  | AddrNone => false
  end.
Definition IsLinkLocalUnicast (a : Addr) : bool :=
  match Unmap a with
  | Addr4 b => (byte_at b 0 =? 169) && (byte_at b 1 =? 254)
  | Addr6 b _ => (byte_at b 0 =? 254) && (Z.land (byte_at b 1) 192 =? 128)
  | AddrNone => false
  end.
Definition IsLinkLocalMulticast (a : Addr) : bool :=
  match Unmap a with
  | Addr4 b => (byte_at b 0 =? 224) && (byte_at b 1 =? 0) && (byte_at b 2 =? 0)
  | Addr6 b _ => (byte_at b 0 =? 255) && (Z.land (byte_at b 1) 15 =? 2)
  | AddrNone => false
  end.
Definition IsMulticast (a : Addr) : bool :=
  match Unmap a with
  | Addr4 b => Z.land (byte_at b 0) 240 =? 224
  | Addr6 b _ => byte_at b 0 =? 255
  | AddrNone => false
  end.
Definition IsUnspecified (a : Addr) : bool :=
  bool_decide (a = Addr4 (repeat 0 4)) || bool_decide (a = Addr6 (repeat 0 16) []).

(** * AddrPort *)

Record AddrPort := mkAddrPort { ap_addr : Addr; ap_port : Z }.
#[export] Instance AddrPort_eq_dec : EqDecision AddrPort.
Proof. solve_decision. Defined.
#[export] Instance AddrPort_countable : Countable AddrPort.
Proof.
  apply (inj_countable' (fun a => (ap_addr a, ap_port a)) (fun x => mkAddrPort x.1 x.2)).
  by intros [].
Defined.
Definition AddrPortZero : AddrPort := mkAddrPort AddrNone 0.
Definition unmapAP (p : AddrPort) : AddrPort := mkAddrPort (Unmap (ap_addr p)) (ap_port p).

(** * Parsing *)

(** [parseIPv4Fields]: [prev_dot] is [s[i-1] == '.'] or [i == 0]. *)
Fixpoint parse_v4_fields (s : bytes) (prev_dot : bool) (val : Z) (diglen : nat)
    (fields : bytes) : option bytes :=
  match s with
  | [] => if (length fields <? 3)%nat then None else Some (fields ++ [val])
  | c :: s' =>
    if is_digit c then
      if (diglen =? 1)%nat && (val =? 0) then None
      else let val' := val * 10 + (c - 48) in
        if 255 <? val' then None else parse_v4_fields s' false val' (S diglen) fields
    else if c =? 46 then
      if prev_dot || match s' with [] => true | _ => false end then None
      else if (length fields =? 3)%nat then None
      else parse_v4_fields s' true 0 0 (fields ++ [val])
    else None
  end.
Definition parseIPv4 (s : bytes) : option Addr :=
  Addr4 <$> parse_v4_fields s true 0 0 [].

Definition hex_digit (c : byte) : option Z :=
  if (48 <=? c) && (c <=? 57) then Some (c - 48)
  else if (97 <=? c) && (c <=? 102) then Some (c - 97 + 10)
  else if (65 <=? c) && (c <=? 70) then Some (c - 65 + 10)
  else None.

(** The hex group at the front of [s]: its value and digit count, or [None]
    when it has more than four digits. *)
Fixpoint hex_group (s : bytes) (off : nat) (acc : Z) : option (Z * nat) :=
  match s with
  | [] => Some (acc, off)
  | c :: s' =>
    match hex_digit c with
    | None => Some (acc, off)
    | Some d => if (3 <? off)%nat then None else hex_group s' (S off) (acc * 16 + d)
    end
  end.

(** The group loop of [parseIPv6]; at most eight groups are read. *)
Fixpoint parse_v6_groups (fuel : nat) (s : bytes) (ip : bytes) (ellipsis : option nat)
  : option (bytes * bytes * option nat) :=
  match fuel with
  | O => Some (s, ip, ellipsis)
  | S fuel' =>
    match hex_group s 0 0 with
    | None => None
    | Some (acc, off) =>
      if (off =? 0)%nat then None
      else
        let rest := drop off s in
        match rest with
        | 46 :: _ =>
          if (match ellipsis with None => true | _ => false end && negb (length ip =? 12)%nat)
             || (16 <? length ip + 4)%nat then None
          else match parse_v4_fields s true 0 0 [] with
               | None => None
               | Some f => Some ([], ip ++ f, ellipsis)
               end
        | [] => Some ([], ip ++ put16 acc, ellipsis)
        | 58 :: [] => None
        | 58 :: 58 :: s' =>
          match ellipsis with
          | Some _ => None
          | None =>
            let ip' := ip ++ put16 acc in
            match s' with
            | [] => Some ([], ip', Some (length ip'))
            | _ =>
              if (16 <=? length ip')%nat then Some (s', ip', Some (length ip'))
              else parse_v6_groups fuel' s' ip' (Some (length ip'))
            end
          end
        | 58 :: s' =>
          let ip' := ip ++ put16 acc in
          if (16 <=? length ip')%nat then Some (s', ip', ellipsis)
          else parse_v6_groups fuel' s' ip' ellipsis
        | _ => None
        end
    end
  end.

Definition parse_v6_body (s : bytes) : option bytes :=
  let '(s, ell, only) :=
    match s with
    | 58 :: 58 :: s' => (s', Some 0%nat, match s' with [] => true | _ => false end)
    | _ => (s, None, false)
    end in
  if only then Some (repeat 0 16)
  else match parse_v6_groups 8 s [] ell with
  | None => None
  | Some (rest, ip, ell) =>
    if negb (length rest =? 0)%nat then None
    else if (length ip <? 16)%nat then
      match ell with
      | None => None
      | Some e => Some (take e ip ++ repeat 0 (16 - length ip) ++ drop e ip)
      end
    else match ell with Some _ => None | None => Some ip end
  end.

Definition parseIPv6 (s : bytes) : option Addr :=
  match index_byte 37 s with
  | Some i =>
    let zone := drop (S i) s in
    if (length zone =? 0)%nat then None
    else (fun b => Addr6 b zone) <$> parse_v6_body (take i s)
  | None => (fun b => Addr6 b []) <$> parse_v6_body s
  end.

(** [netip.ParseAddr]: the first of '.', ':' and '%' decides the family. *)
Fixpoint first_sep (s : bytes) : option byte :=
  match s with
  | [] => None
  | c :: s' => if (c =? 46) || (c =? 58) || (c =? 37) then Some c else first_sep s'
  end.
Definition ParseAddr (s : bytes) : option Addr :=
  match first_sep s with
  | Some c => if c =? 46 then parseIPv4 s else if c =? 58 then parseIPv6 s else None
  | None => None
  end.

Definition ParseAddrPort (s : bytes) : option AddrPort :=
  match last_index_byte 58 s with
  | None => None
  | Some i =>
    let ip := take i s in
    let port := drop (S i) s in
    if (length ip =? 0)%nat || (length port =? 0)%nat then None
    else
      let bracketed := byte_at ip 0 =? 91 in
      if bracketed && ((length ip <? 2)%nat || negb (byte_at ip (length ip - 1) =? 93)) then None
      else
        let ip := if bracketed then slice ip 1 (length ip - 1) else ip in
        match parse_uint port with
        | None => None
        | Some p =>
          if 65535 <? p then None
          else match ParseAddr ip with
               | None => None
               | Some a =>
                 if (bracketed && Is4 a) || (negb bracketed && Is6 a) then None
                 else Some (mkAddrPort a p)
               end
        end
  end.

(** * Prefixes *)

(** [netip.Prefix]; the zero value is [PrefixZero]. *)
Record Prefix := mkPrefix { pf_addr : Addr; pf_bits : Z }.
#[export] Instance Prefix_eq_dec : EqDecision Prefix.
Proof. solve_decision. Defined.
Definition PrefixZero : Prefix := mkPrefix AddrNone (-1).
Definition prefix_valid (p : Prefix) : bool := (0 <=? pf_bits p) && IsValid (pf_addr p).

Definition bit_len (a : Addr) : Z :=
  match a with AddrNone => 0 | Addr4 _ => 32 | Addr6 _ _ => 128 end.
Definition has_zone (a : Addr) : bool :=
  match a with Addr6 _ (_ :: _) => true | _ => false end.

Definition ParsePrefix (s : bytes) : option Prefix :=
  match last_index_byte 47 s with
  | None => None
  | Some i =>
    match ParseAddr (take i s) with
    | None => None
    | Some ip =>
      if has_zone ip then None
      else
        let bits_str := drop (S i) s in
        if (1 <? length bits_str)%nat
           && ((byte_at bits_str 0 <? 49) || (57 <? byte_at bits_str 0)) then None
        else match parse_uint bits_str with
             | None => None
             | Some bits => if bit_len ip <? bits then None else Some (mkPrefix ip bits)
             end
    end
  end.

(** The address as a big-endian integer. *)
Fixpoint be_value (acc : Z) (b : bytes) : Z :=
  match b with [] => acc | x :: b' => be_value (acc * 256 + x) b' end.

(** [Prefix.Contains] *)
Definition Contains (p : Prefix) (a : Addr) : bool :=
  if negb (prefix_valid p) || has_zone a then false
  else if negb (bit_len (pf_addr p) =? bit_len a) || (bit_len a =? 0) then false
  else
    let sh := bit_len a - pf_bits p in
    Z.shiftr (be_value 0 (AsSlice (pf_addr p))) sh =? Z.shiftr (be_value 0 (AsSlice a)) sh.

(** * Lemmas *)

Lemma As4_Addr4 b : As4 (AddrFrom4 b) = Some b. Proof. done. Qed.
Lemma As16_AddrFrom16 b : As16 (AddrFrom16 b) = Some b. Proof. done. Qed.

Lemma Unmap_idem a : Unmap (Unmap a) = Unmap a.
Proof.
  destruct a as [| |b z]; try done. unfold Unmap at 2 3.
  destruct (Is4In6 (Addr6 b z)) eqn:E; [done|]. unfold Unmap. by rewrite E.
Qed.

Lemma unmapAP_idem p : unmapAP (unmapAP p) = unmapAP p.
Proof. unfold unmapAP. simpl. by rewrite Unmap_idem. Qed.

Lemma AddrFromSlice_4 b : length b = 4%nat -> AddrFromSlice b = Some (Addr4 b).
Proof. intros H. unfold AddrFromSlice. by rewrite H. Qed.

Lemma AddrFromSlice_16 b : length b = 16%nat -> AddrFromSlice b = Some (Addr6 b []).
Proof. intros H. unfold AddrFromSlice. by rewrite H. Qed.

(** *** What the parsers return is well formed *)

Lemma dec_value_nonneg acc s v : 0 <= acc -> dec_value acc s = Some v -> 0 <= v.
Proof.
  revert acc. induction s as [|c s IH]; simpl; intros acc Ha H; [by simplify_eq|].
  unfold is_digit in H. case_match eqn:E; [|done]. simpl_bool. eapply IH; [|exact H]. lia.
Qed.

Lemma parse_uint_nonneg s v : parse_uint s = Some v -> 0 <= v.
Proof. destruct s; [done|]. by apply dec_value_nonneg. Qed.

Lemma parse_v4_fields_ok s pd val dl fields f :
  (length fields <= 3)%nat -> 0 <= val <= 255 -> bytes_ok fields ->
  parse_v4_fields s pd val dl fields = Some f -> length f = 4%nat /\ bytes_ok f.
Proof.
  assert (Hsnoc : forall fs v, bytes_ok fs -> 0 <= v <= 255 -> bytes_ok (fs ++ [v])).
  { intros. apply bytes_ok_app. split; [done|]. repeat constructor; lia. }
  revert pd val dl fields. induction s as [|c s IH]; intros pd val dl fields Hl Hv Hf H; simpl in H.
  - go_cases_in H. rewrite length_app. simpl. split; [lia|auto].
  - destruct (is_digit c) eqn:Ed; unfold is_digit in Ed; simpl_bool.
    + go_cases_in H. eapply IH; [done| |done|exact H]. lia.
    + destruct (c =? 46); [|done]. destruct (_ || _)%bool; [done|].
      destruct (length fields =? 3)%nat eqn:E3; [done|]. simpl_bool.
      eapply IH; [..|exact H]; [rewrite length_app; simpl; lia|lia|auto].
Qed.

(** The groups read so far have an even length below 16. *)
Lemma parse_v6_groups_ok fuel s ip ell rest out ell' :
  (exists k, length ip = 2 * k)%nat -> (length ip < 16)%nat -> bytes_ok ip ->
  parse_v6_groups fuel s ip ell = Some (rest, out, ell') ->
  (length out <= 16)%nat /\ bytes_ok out.
Proof.
  revert s ip ell. induction fuel as [|fuel IH]; intros s ip ell [k Hk] Hl Hok H;
    cbn [parse_v6_groups] in H.
  { simplify_eq. split; [lia|done]. }
  assert (Happ : forall v, (length (ip ++ put16 v) <= 16)%nat /\ bytes_ok (ip ++ put16 v)).
  { intros v. rewrite length_app, length_put16. split; [lia|].
    apply bytes_ok_app. auto with bytes. }
  assert (Hrec : forall v s e, (16 <=? length (ip ++ put16 v))%nat = false ->
    parse_v6_groups fuel s (ip ++ put16 v) e = Some (rest, out, ell') ->
    (length out <= 16)%nat /\ bytes_ok out).
  { intros v s' e Hn Hp. simpl_bool. eapply IH; [|done|apply Happ|exact Hp].
    exists (S k). rewrite length_app, length_put16. lia. }
  destruct (hex_group s 0 0) as [[acc off]|]; [|done].
  destruct (off =? 0)%nat; [done|]. destruct (drop off s) as [|c r]; [simplify_eq; auto|].
  destruct (decide (c = 46)) as [->|].
  - destruct (_ || (16 <? _)%nat)%bool eqn:Hc; [done|]. simpl_bool.
    destruct (parse_v4_fields s true 0 0 []) as [f|] eqn:Ef; [|done]. simplify_eq.
    apply parse_v4_fields_ok in Ef as [? ?]; [|simpl; lia|lia|constructor].
    rewrite length_app. split; [lia|by apply bytes_ok_app].
  - destruct (decide (c = 58)) as [->|].
    + destruct r as [|c2 r]; [done|]. destruct (decide (c2 = 58)) as [->|].
      * destruct ell; [done|]. destruct r; [simplify_eq; auto|].
        destruct (16 <=? _)%nat eqn:E; [simplify_eq; auto|eauto].
      * assert (H' : (if (16 <=? length (ip ++ put16 acc))%nat then Some (c2 :: r, ip ++ put16 acc, ell)
          else parse_v6_groups fuel (c2 :: r) (ip ++ put16 acc) ell) = Some (rest, out, ell'))
          by (destruct c2 as [|c2|c2]; [done| |done]; repeat (destruct c2 as [c2|c2|]; try done)).
        destruct (16 <=? _)%nat eqn:E; [simplify_eq; auto|eauto].
    + exfalso. destruct c as [|c|c]; [done| |done]; repeat (destruct c as [c|c|]; try done).
Qed.

Lemma parse_v6_body_ok s b : parse_v6_body s = Some b -> length b = 16%nat /\ bytes_ok b.
Proof.
  intros H. unfold parse_v6_body in H.
  assert (Hz : forall n, bytes_ok (repeat 0 n)) by (induction n; constructor; [unfold is_byte; lia|done]).
  destruct (match s with 58 :: 58 :: s' => _ | _ => _ end) as [[s1 ell] only].
  destruct only; [injection H as <-; split; [done|apply (Hz 16%nat)]|].
  destruct (parse_v6_groups 8 s1 [] ell) as [[[rest ip] ell']|] eqn:E; [|done].
  apply parse_v6_groups_ok in E as [Hl Hok]; [|by exists 0%nat|simpl; lia|constructor].
  destruct (negb _); [done|]. destruct (length ip <? 16)%nat eqn:Hlt; simpl_bool.
  - destruct ell' as [e|]; [|done]. injection H as <-.
    rewrite !length_app, repeat_length, length_take, length_drop. split; [lia|].
    apply bytes_ok_app. split; [auto with bytes|]. apply bytes_ok_app. auto with bytes.
  - destruct ell'; [done|]. injection H as <-. split; [lia|done].
Qed.

Lemma ParseAddr_ok s a : ParseAddr s = Some a -> addr_ok a /\ IsValid a = true.
Proof.
  unfold ParseAddr. destruct (first_sep s) as [c|]; [|done].
  destruct (c =? 46); [|destruct (c =? 58); [|done]].
  - unfold parseIPv4. intros (f & H & ->)%fmap_Some. split; [|done].
    eapply parse_v4_fields_ok; [..|exact H]; [simpl; lia|lia|constructor].
  - unfold parseIPv6. intros H.
    destruct (index_byte 37 s); [destruct (length _ =? 0)%nat; [done|]|];
      apply fmap_Some in H as (b & Hb & ->); (split; [|done]); by eapply parse_v6_body_ok.
Qed.

Lemma ParseAddrPort_ok s ap :
  ParseAddrPort s = Some ap ->
  addr_ok (ap_addr ap) /\ IsValid (ap_addr ap) = true /\ 0 <= ap_port ap < 2 ^ 16.
Proof.
  unfold ParseAddrPort. intros H. destruct (last_index_byte 58 s); [|done].
  destruct (_ || _)%bool; [done|]. destruct (_ && (_ || _))%bool; [done|]. cbv zeta in H.
  destruct (parse_uint _) as [p|] eqn:Ep; [|done]. destruct (65535 <? p) eqn:Hp; [done|].
  destruct (ParseAddr _) as [a|] eqn:Ea; [|done]. destruct (_ || _)%bool; [done|].
  injection H as <-. simpl. apply ParseAddr_ok in Ea as [? ?]. apply parse_uint_nonneg in Ep.
  simpl_bool. split_and!; [done..|lia].
Qed.

Lemma Unmap_ok a : addr_ok a -> addr_ok (Unmap a) /\ IsValid (Unmap a) = IsValid a.
Proof.
  intros H. destruct a as [|b|b z]; [done..|]. unfold Unmap. destruct (Is4In6 _); [|done].
  destruct H as [Hl Hb]. split; [|done]. simpl. rewrite length_drop. split; [lia|auto with bytes].
Qed.

(** Parser samples. *)
Example parse_v4 : ParseAddr (bs "192.0.0.1") = Some (Addr4 [192; 0; 0; 1]).
Proof. reflexivity. Qed.
Example parse_v6 : ParseAddr (bs "64:ff9b::192.0.0.1") =
  Some (Addr6 [0;100;255;155;0;0;0;0;0;0;0;0;192;0;0;1] []).
Proof. reflexivity. Qed.
Example parse_v6_full : ParseAddr (bs "1:2:3:4:5:6:7:8") =
  Some (Addr6 [0;1;0;2;0;3;0;4;0;5;0;6;0;7;0;8] []).
Proof. reflexivity. Qed.
Example parse_v6_bad : ParseAddr (bs "1::2::3") = None /\ ParseAddr (bs "1.2.3") = None.
Proof. split; reflexivity. Qed.
Example parse_ap : ParseAddrPort (bs "[::1]:443") =
  Some (mkAddrPort (Addr6 (repeat 0 15 ++ [1]) []) 443).
Proof. reflexivity. Qed.
