(* ===== verification/Utf8.v ===== *)
(** UTF-8 decoding as Go's [unicode/utf8] does it: [utf8.Valid] and the runes
    of a [for _, r := range s] loop. *)

From S2P Require Import Prelude.

Definition RuneError : Z := 0xFFFD.

Definition in_range (lo hi b : Z) : bool := (lo <=? b) && (b <=? hi).
Definition is_cont (b : Z) : bool := in_range 0x80 0xBF b.

(** One rune at the front of a nonempty string: the rune, its width in bytes
    and whether the encoding is well formed (an ill-formed one is [RuneError]
    of width one). *)
Definition decode_rune (s : bytes) : Z * nat * bool :=
  match s with
  | [] => (RuneError, 0%nat, false)
  | b0 :: r =>
    if b0 <? 0x80 then (b0, 1%nat, true)
    else
      let bad := (RuneError, 1%nat, false) in
      match r with
      | b1 :: r1 =>
        if in_range 0xC2 0xDF b0 then
          if is_cont b1 then (Z.land b0 0x1F * 64 + Z.land b1 0x3F, 2%nat, true) else bad
        else
          match r1 with
          | b2 :: r2 =>
            if in_range 0xE0 0xEF b0 then
              let lo := if b0 =? 0xE0 then 0xA0 else 0x80 in
              let hi := if b0 =? 0xED then 0x9F else 0xBF in
              if in_range lo hi b1 && is_cont b2
              then (Z.land b0 0x0F * 4096 + Z.land b1 0x3F * 64 + Z.land b2 0x3F, 3%nat, true)
              else bad
            else
              match r2 with
              | b3 :: _ =>
                let lo := if b0 =? 0xF0 then 0x90 else 0x80 in
                let hi := if b0 =? 0xF4 then 0x8F else 0xBF in
                if in_range 0xF0 0xF4 b0 && in_range lo hi b1 && is_cont b2 && is_cont b3
                then (Z.land b0 0x07 * 262144 + Z.land b1 0x3F * 4096
                      + Z.land b2 0x3F * 64 + Z.land b3 0x3F, 4%nat, true)
                else bad
              | [] => bad
              end
          | [] => bad
          end
      | [] => bad
      end
  end.

(** The runes of a string with their validity flags; every step consumes at
    least one byte, so [length s] steps are enough. *)
Fixpoint runes_aux (fuel : nat) (s : bytes) : list (Z * bool) :=
  match fuel with
  | O => []
  | S fuel' =>
    match s with
    | [] => []
    | _ => let '(r, w, ok) := decode_rune s in (r, ok) :: runes_aux fuel' (drop w s)
    end
  end.
Definition runes (s : bytes) : list (Z * bool) := runes_aux (length s) s.

(** [utf8.Valid] *)
Definition utf8_valid (s : bytes) : bool := forallb snd (runes s).
(** the values of [range s] *)
Definition range_runes (s : bytes) : list Z := map fst (runes s).

Lemma runes_ascii_aux s n :
  Forall (fun b => 0 <= b < 0x80) s -> (length s <= n)%nat ->
  runes_aux n s = map (fun b => (b, true)) s.
Proof.
  intros Hs. revert n. induction Hs as [|b s Hb Hs IH]; intros n Hn.
  - by destruct n.
  - destruct n; simpl in Hn; [lia|]. cbn [runes_aux decode_rune].
    destruct (Z.ltb_spec b 0x80); [|lia]. simpl. f_equal. apply IH. lia.
Qed.

Lemma runes_ascii s :
  Forall (fun b => 0 <= b < 0x80) s -> runes s = map (fun b => (b, true)) s.
Proof. intros. by apply runes_ascii_aux. Qed.

Lemma utf8_valid_ascii s : Forall (fun b => 0 <= b < 0x80) s -> utf8_valid s = true.
Proof.
  intros H. unfold utf8_valid. rewrite runes_ascii by done.
  clear H. by induction s.
Qed.

Lemma range_runes_ascii s : Forall (fun b => 0 <= b < 0x80) s -> range_runes s = s.
Proof.
  intros. unfold range_runes. rewrite runes_ascii, map_map by done. apply map_id.
Qed.

Example utf8_samples :
  map utf8_valid [bs "abc"; [0xC3; 0xA9]; [0xC0; 0x80]; [0xED; 0xA0; 0x80]; [0xF0; 0x9F; 0x98; 0x80]; [0xE2; 0x82]]
  = [true; true; false; false; true; false].
Proof. reflexivity. Qed.

(** * [strings.TrimSpace] *)

(** [unicode.IsSpace] *)
Definition is_space (r : Z) : bool :=
  (in_range 9 13 r) || (r =? 0x20) || (r =? 0x85) || (r =? 0xA0) || (r =? 0x1680)
  || (in_range 0x2000 0x200A r) || (r =? 0x2028) || (r =? 0x2029) || (r =? 0x202F)
  || (r =? 0x205F) || (r =? 0x3000).

(** The string cut into runes: the rune and its bytes. *)
Fixpoint segments_aux (fuel : nat) (s : bytes) : list (Z * bytes) :=
  match fuel with
  | O => []
  | S fuel' =>
    match s with
    | [] => []
    | _ => let '(r, w, _) := decode_rune s in (r, take w s) :: segments_aux fuel' (drop w s)
    end
  end.
Definition segments (s : bytes) : list (Z * bytes) := segments_aux (length s) s.

Fixpoint drop_space (l : list (Z * bytes)) : list (Z * bytes) :=
  match l with
  | [] => []
  | (r, b) :: l' => if is_space r then drop_space l' else l
  end.
Definition TrimSpace (s : bytes) : bytes :=
  concat (map snd (rev (drop_space (rev (drop_space (segments s)))))).

Lemma segments_ascii_aux s n :
  Forall (fun b => 0 <= b < 0x80) s -> (length s <= n)%nat ->
  segments_aux n s = map (fun b => (b, [b])) s.
Proof.
  intros Hs. revert n. induction Hs as [|b s Hb Hs IH]; intros n Hn; [by destruct n|].
  destruct n; simpl in Hn; [lia|]. cbn [segments_aux decode_rune].
  destruct (Z.ltb_spec b 0x80); [|lia]. simpl. f_equal. apply IH. lia.
Qed.

Lemma concat_singletons (s : bytes) : concat (map snd (map (fun b => (b, [b])) s)) = s.
Proof. induction s; simpl; [done|]. by f_equal. Qed.

(** An ASCII string without white space is its own trim. *)
Lemma TrimSpace_id s : Forall (fun b => 0x20 < b < 0x80) s -> TrimSpace s = s.
Proof.
  intros Hs. unfold TrimSpace, segments.
  rewrite segments_ascii_aux by (first [lia | eapply Forall_impl; [exact Hs|]; simpl; lia]).
  assert (Hd : forall l, Forall (fun b => 0x20 < b < 0x80) l ->
    drop_space (map (fun b => (b, [b])) l) = map (fun b => (b, [b])) l).
  { intros l Hl. destruct Hl as [|b l Hb _]; [done|]. simpl.
    assert (Hn : is_space b = false) by (unfold is_space, in_range; lia). by rewrite Hn. }
  rewrite Hd by done. rewrite <- map_rev, Hd.
  - rewrite <- map_rev, rev_involutive. apply concat_singletons.
  - apply Forall_rev. done.
Qed.

Example trim_samples :
  TrimSpace (bs "  a b ") = bs "a b" /\ TrimSpace ([0xC2; 0xA0] ++ bs "x" ++ [0xE3; 0x80; 0x80]) = bs "x".
Proof. split; reflexivity. Qed.
