(* ===== verification/Tlv.v ===== *)
(** [internal/proxyproto/tlv.go]: the TLV registry, the block decoder
    [DecodeTLVs], the per-type value rules of [ValidateTLV], and the writer
    [encodeTLVs] of [internal/udshandoff/datagram_listener.go].

    The reader's loop takes at least three bytes off the block per iteration,
    so [length block] iterations are enough; the code's unreachable
    trailing-garbage test is what a loop cut short would hit, and
    [DecodeTLVs_error_prefix] shows that it never does. *)

From S2P Require Import Prelude Netip Utf8.

(** * Types *)

Abbreviation TLVType := Z (only parsing).

Definition PP2TypeALPN : TLVType := 0x01.
Definition PP2TypeAuthority : TLVType := 0x02.
Definition PP2TypeSSL : TLVType := 0x20.

Definition EraTLVRouteTag : TLVType := 0xE0.
Definition EraTLVOrigSNI : TLVType := 0xE1.
Definition EraTLVALPNDetail : TLVType := 0xE2.
Definition EraTLVToken : TLVType := 0xE3.
Definition EraTLVDeviceID : TLVType := 0xE4.
Definition EraTLVUserID : TLVType := 0xE5.
Definition EraTLVVLESSTarget : TLVType := 0xE6.
Definition EraTLVVLESSUUID : TLVType := 0xE7.
Definition EraTLVVLESSFlow : TLVType := 0xE8.
Definition EraTLVQUICConnID : TLVType := 0xE9.
Definition EraTLVQUICStreamID : TLVType := 0xEA.
Definition EraTLVDTLSPSK : TLVType := 0xEB.
Definition EraTLVSourceHintV6 : TLVType := 0xEC.
Definition EraTLVMTLSSubjectDN : TLVType := 0xED.
Definition EraTLVTraceID : TLVType := 0xEE.
Definition EraTLVSpecVersion : TLVType := 0xEF.

Definition SpecVersionStage1 : byte := 0x01.

Record TLV := mkTLV { tlv_type : TLVType; tlv_value : bytes }.
#[export] Instance TLV_eq_dec : EqDecision TLV.
Proof. solve_decision. Defined.

Definition IsERACustom (t : TLVType) : bool := (0xE0 <=? t) && (t <=? 0xEF).
Definition IsStandardPP2 (t : TLVType) : bool := t <=? 0x7F.
Definition IsReserved (t : TLVType) : bool :=
  if (0x80 <=? t) && (t <=? 0xDF) then true
  else if 0xF0 <=? t then true
  else false.

(** * Decoding *)

Inductive TLVErr : Type :=
| ErrTLVTruncated
| ErrTLVDuplicate
| ErrTLVReservedRange
| ErrTLVTrailingGarbage.
#[export] Instance TLVErr_eq_dec : EqDecision TLVErr.
Proof. solve_decision. Defined.

(** The loop of [DecodeTLVs]; [rest] is [block[off:]]. *)
Fixpoint decode_loop (fuel : nat) (rest : bytes) (off : nat) (seen : gset Z) (out : list TLV)
  : result (nat * TLVErr) (list TLV * nat) :=
  match fuel with
  | O => Ok (out, off)
  | S fuel' =>
    if (length rest =? 0)%nat then Ok (out, off)
    else if (length rest <? 3)%nat then Err (off, ErrTLVTruncated)
    else
      let t := byte_at rest 0 in
      let l := Z.to_nat (be16 (slice rest 1 3)) in
      if (length rest <? 3 + l)%nat then Err (off, ErrTLVTruncated)
      else if bool_decide (t ∈ seen) then Err (off, ErrTLVDuplicate)
      else
        let seen := {[t]} ∪ seen in
        if IsReserved t then Err (off, ErrTLVReservedRange)
        else
          let val := slice rest 3 (3 + l) in
          decode_loop fuel' (drop (3 + l) rest) (off + 3 + l) seen (out ++ [mkTLV t val])
  end.

(** [DecodeTLVs]: the records and the bytes consumed, or the error with the
    offset of the record it was found at. *)
Definition DecodeTLVs (block : bytes) : result (nat * TLVErr) (list TLV * nat) :=
  let? (out, off) := decode_loop (length block) block 0 ∅ [] in
  if negb (off =? length block)%nat then Err (off, ErrTLVTrailingGarbage)
  else Ok (out, off).

(** * Encoding *)

Inductive EncErr : Type := EncTLVTooLong | EncUnsupportedFamily | EncPanic.
#[export] Instance EncErr_eq_dec : EqDecision EncErr.
Proof. solve_decision. Defined.

Fixpoint encode_loop (tlvs : list TLV) (buf : bytes) : result EncErr bytes :=
  match tlvs with
  | [] => Ok buf
  | t :: tlvs' =>
    if 0xFFFF <? Z.of_nat (length (tlv_value t)) then Err EncTLVTooLong
    else encode_loop tlvs'
           (buf ++ [u8 (tlv_type t)] ++ put16 (Z.of_nat (length (tlv_value t))) ++ tlv_value t)
  end.
Definition encodeTLVs (tlvs : list TLV) : result EncErr bytes := encode_loop tlvs [].

(** The wire image of one record and of a list of records. *)
Definition tlv_bytes (t : TLV) : bytes :=
  [u8 (tlv_type t)] ++ put16 (Z.of_nat (length (tlv_value t))) ++ tlv_value t.
Definition tlvs_bytes (ts : list TLV) : bytes := concat (map tlv_bytes ts).

(** A record that a decoded block can hold, and a list of them. *)
Definition tlv_ok (t : TLV) : Prop :=
  is_byte (tlv_type t) /\ IsReserved (tlv_type t) = false
  /\ Z.of_nat (length (tlv_value t)) <= 0xFFFF /\ bytes_ok (tlv_value t).
Definition tlvs_ok (ts : list TLV) : Prop :=
  NoDup (map tlv_type ts) /\ Forall tlv_ok ts.
#[export] Instance tlv_ok_dec t : Decision (tlv_ok t).
Proof. unfold tlv_ok. apply _. Defined.
#[export] Instance tlvs_ok_dec ts : Decision (tlvs_ok ts).
Proof. unfold tlvs_ok. apply _. Defined.

(** * Value rules *)

Inductive HostPortErr : Type :=
| HPNotHostPort | HPHostLength | HPHostControl | HPPortNotNumeric | HPPortTooBig | HPPortZero.

Inductive ValErr : Type :=
| VLength        (* length out of the type's bounds *)
| VUTF8          (* invalid UTF-8 *)
| VNonASCII      (* SNI holds a non-ASCII rune *)
| VUpper         (* SNI holds an upper-case letter *)
| VDeviceID      (* neither a canonical UUID nor a legacy device id *)
| VUUID          (* not a canonical lower-case UUID *)
| VUserByte      (* user id byte not printable ASCII *)
| VHostPort (e : HostPortErr)
| VFlow          (* unknown VLESS flow *)
| VVarint        (* length is not one of a QUIC varint *)
| VAddrClass     (* loopback, link-local, multicast, unspecified *)
| VAddrRange     (* neither 2000::/3 nor fc00::/7 *)
| VTraceByte     (* not Crockford base32 *)
| VSpecVersion.  (* spec version byte other than Stage 1 (matrix check) *)
#[export] Instance HostPortErr_eq_dec : EqDecision HostPortErr.
Proof. solve_decision. Defined.
#[export] Instance ValErr_eq_dec : EqDecision ValErr.
Proof. solve_decision. Defined.

Definition is_lower_hex (b : byte) : bool :=
  ((48 <=? b) && (b <=? 57)) || ((97 <=? b) && (b <=? 102)).

(** The loop of [isCanonicalUUID], from position [i] on. *)
Fixpoint uuid_loop (i : nat) (v : bytes) : bool :=
  match v with
  | [] => true
  | b :: v' =>
    if (i =? 8)%nat || (i =? 13)%nat || (i =? 18)%nat || (i =? 23)%nat
    then if negb (b =? 45) then false else uuid_loop (S i) v'
    else if negb (is_lower_hex b) then false else uuid_loop (S i) v'
  end.
Definition isCanonicalUUID (v : bytes) : bool :=
  if negb (length v =? 36)%nat then false else uuid_loop 0 v.

Definition legacy_id_byte (c : byte) : bool :=
  ((97 <=? c) && (c <=? 122)) || ((48 <=? c) && (c <=? 57)) || (c =? 45) || (c =? 95).
Definition isLegacyDeviceID (v : bytes) : bool :=
  if (length v <? 5)%nat || (64 <? length v)%nat then false
  else if negb (has_prefix (bs "dev-") v) && negb (has_prefix (bs "dev_") v) then false
  else forallb legacy_id_byte (drop 4 v).

(** The digit loop of [validateHostPort]. *)
Fixpoint port_loop (port : Z) (s : bytes) : result HostPortErr Z :=
  match s with
  | [] => Ok port
  | b :: s' =>
    if (b <? 48) || (57 <? b) then Err HPPortNotNumeric
    else
      let port := port * 10 + (b - 48) in
      if 65535 <? port then Err HPPortTooBig else port_loop port s'
  end.

Definition validateHostPort (s : bytes) : result HostPortErr unit :=
  match ParseAddrPort s with
  | Some _ => Ok tt
  | None =>
    match last_index_byte 58 s with
    | None => Err HPNotHostPort
    | Some idx =>
      if (idx <? 1)%nat || (idx =? length s - 1)%nat then Err HPNotHostPort
      else
        let host := take idx s in
        let portStr := drop (S idx) s in
        if (length host =? 0)%nat || (253 <? length host)%nat then Err HPHostLength
        else if existsb (fun r => (r <=? 0x20) || (r =? 0x7F)) (range_runes host)
        then Err HPHostControl
        else
          let? port := port_loop 0 (range_runes portStr) in
          if port <? 1 then Err HPPortZero else Ok tt
    end
  end.

Definition isCrockfordBase32 (b : byte) : bool :=
  if (48 <=? b) && (b <=? 57) then true
  else if (b =? 73) || (b =? 76) || (b =? 79) || (b =? 85) then false
  else if (65 <=? b) && (b <=? 90) then true
  else false.

(** The rune loop of the SNI rule. *)
Fixpoint sni_loop (rs : list Z) : result ValErr unit :=
  match rs with
  | [] => Ok tt
  | r :: rs' =>
    if 0x7F <? r then Err VNonASCII
    else if (65 <=? r) && (r <=? 90) then Err VUpper
    else sni_loop rs'
  end.

(** [len(t.Value)] out of [lo]-[hi], and the UTF-8 rule, as most arms use
    them. *)
Definition check_len (lo hi : nat) (v : bytes) (k : result ValErr unit) : result ValErr unit :=
  if (length v <? lo)%nat || (hi <? length v)%nat then Err VLength else k.
Definition check_utf8 (v : bytes) (k : result ValErr unit) : result ValErr unit :=
  if negb (utf8_valid v) then Err VUTF8 else k.

Definition ValidateTLV (t : TLV) : result ValErr unit :=
  let v := tlv_value t in
  let ty := tlv_type t in
  if ty =? PP2TypeALPN then check_len 1 255 v (Ok tt)
  else if ty =? PP2TypeAuthority then check_len 1 255 v (check_utf8 v (Ok tt))
  else if ty =? PP2TypeSSL then if (length v <? 5)%nat then Err VLength else Ok tt
  else if ty =? EraTLVRouteTag then check_len 1 255 v (check_utf8 v (Ok tt))
  else if ty =? EraTLVOrigSNI then check_len 1 253 v (check_utf8 v (sni_loop (range_runes v)))
  else if ty =? EraTLVALPNDetail then check_len 1 32 v (check_utf8 v (Ok tt))
  else if ty =? EraTLVToken then if negb (length v =? 12)%nat then Err VLength else Ok tt
  else if ty =? EraTLVDeviceID then
    if negb (isCanonicalUUID v) && negb (isLegacyDeviceID v) then Err VDeviceID else Ok tt
  else if ty =? EraTLVVLESSUUID then
    if negb (length v =? 36)%nat then Err VLength
    else if negb (isCanonicalUUID v) then Err VUUID else Ok tt
  else if ty =? EraTLVUserID then
    check_len 1 64 v
      (if existsb (fun b => (b <=? 0x20) || (0x7F <=? b)) v then Err VUserByte else Ok tt)
  else if ty =? EraTLVVLESSTarget then
    check_len 3 260 v (check_utf8 v
      (match validateHostPort v with Err e => Err (VHostPort e) | Ok _ => Ok tt end))
  else if ty =? EraTLVVLESSFlow then
    if (32 <? length v)%nat then Err VLength
    else check_utf8 v
      (if bool_decide (v = []) || bool_decide (v = bs "xtls-rprx-vision-seed")
       then Ok tt else Err VFlow)
  else if ty =? EraTLVQUICConnID then check_len 8 20 v (Ok tt)
  else if ty =? EraTLVQUICStreamID then
    if (length v =? 1)%nat || (length v =? 2)%nat || (length v =? 4)%nat || (length v =? 8)%nat
    then Ok tt else Err VVarint
  else if ty =? EraTLVDTLSPSK then if negb (length v =? 32)%nat then Err VLength else Ok tt
  else if ty =? EraTLVSourceHintV6 then
    if negb (length v =? 16)%nat then Err VLength
    else
      let ip := AddrFrom16 v in
      if IsLoopback ip || IsLinkLocalUnicast ip || IsLinkLocalMulticast ip
         || IsMulticast ip || IsUnspecified ip
      then Err VAddrClass
      else
        let b := byte_at v 0 in
        if negb (((0x20 <=? b) && (b <=? 0x3F)) || (b =? 0xFC) || (b =? 0xFD))
        then Err VAddrRange else Ok tt
  else if ty =? EraTLVMTLSSubjectDN then check_len 1 1024 v (check_utf8 v (Ok tt))
  else if ty =? EraTLVTraceID then
    if negb (length v =? 26)%nat then Err VLength
    else if existsb (fun b => negb (isCrockfordBase32 b)) v then Err VTraceByte else Ok tt
  else if ty =? EraTLVSpecVersion then if negb (length v =? 1)%nat then Err VLength else Ok tt
  else Ok tt.

(** What is wrong with the record at the front of [rest], after records of the
    types [seen]: the declarative reading of one error of the decoder. *)
Definition record_error (seen : list Z) (rest : bytes) (e : TLVErr) : Prop :=
  let short := (length rest < 3)%nat \/ (length rest < 3 + Z.to_nat (be16 (slice rest 1 3)))%nat in
  match e with
  | ErrTLVTruncated => rest <> [] /\ short
  | ErrTLVDuplicate => ~ short /\ byte_at rest 0 ∈ seen
  | ErrTLVReservedRange => ~ short /\ byte_at rest 0 ∉ seen /\ IsReserved (byte_at rest 0) = true
  | ErrTLVTrailingGarbage => False
  end.

(** * The codec *)

Lemma length_tlv_bytes t : length (tlv_bytes t) = (3 + length (tlv_value t))%nat.
Proof. done. Qed.

Lemma tlvs_bytes_cons t ts : tlvs_bytes (t :: ts) = tlv_bytes t ++ tlvs_bytes ts.
Proof. done. Qed.

Lemma tlvs_bytes_app ts1 ts2 : tlvs_bytes (ts1 ++ ts2) = tlvs_bytes ts1 ++ tlvs_bytes ts2.
Proof. unfold tlvs_bytes. by rewrite map_app, concat_app. Qed.

Lemma tlvs_bytes_snoc ts t : tlvs_bytes (ts ++ [t]) = tlvs_bytes ts ++ tlv_bytes t.
Proof. rewrite tlvs_bytes_app. unfold tlvs_bytes at 2. simpl. by rewrite app_nil_r. Qed.

Lemma encode_loop_spec ts buf :
  encode_loop ts buf =
  (if forallb (fun t => Z.of_nat (length (tlv_value t)) <=? 0xFFFF) ts
   then Ok (buf ++ tlvs_bytes ts) else Err EncTLVTooLong).
Proof.
  revert buf. induction ts as [|t ts IH]; intros buf; cbn [encode_loop forallb].
  - unfold tlvs_bytes. simpl. by rewrite app_nil_r.
  - destruct (Z.ltb_spec 0xFFFF (Z.of_nat (length (tlv_value t)))) as [Hl|Hl].
    + destruct (Z.leb_spec (Z.of_nat (length (tlv_value t))) 0xFFFF); [lia|done].
    + destruct (Z.leb_spec (Z.of_nat (length (tlv_value t))) 0xFFFF); [|lia].
      rewrite IH. simpl andb. by rewrite <- app_assoc.
Qed.

Lemma encodeTLVs_ok ts :
  Forall (fun t => Z.of_nat (length (tlv_value t)) <= 0xFFFF) ts ->
  encodeTLVs ts = Ok (tlvs_bytes ts).
Proof.
  intros H. unfold encodeTLVs. rewrite encode_loop_spec.
  destruct (forallb _ ts) eqn:E; [done|]. exfalso.
  enough (Hc : forallb (fun t => Z.of_nat (length (tlv_value t)) <=? 0xFFFF) ts = true)
    by congruence.
  apply forallb_forall. intros t Ht. apply Z.leb_le.
  rewrite Forall_forall in H. by apply H, list_elem_of_In.
Qed.

Lemma encodeTLVs_inv ts b :
  encodeTLVs ts = Ok b ->
  b = tlvs_bytes ts /\ Forall (fun t => Z.of_nat (length (tlv_value t)) <= 0xFFFF) ts.
Proof.
  unfold encodeTLVs. rewrite encode_loop_spec. destruct (forallb _ ts) eqn:E; [|done].
  intros H. simplify_eq/=. split; [done|].
  rewrite forallb_forall in E. apply Forall_forall. intros t Ht.
  by apply Z.leb_le, E, list_elem_of_In.
Qed.

Lemma tlvs_ok_sizes ts :
  tlvs_ok ts -> Forall (fun t => Z.of_nat (length (tlv_value t)) <= 0xFFFF) ts.
Proof. intros [_ H]. eapply Forall_impl; [exact H|]. intros t (_ & _ & ? & _). done. Qed.

Lemma tlvs_bytes_ok ts : tlvs_ok ts -> bytes_ok (tlvs_bytes ts).
Proof.
  intros [_ H]. unfold tlvs_bytes. induction H as [|t ts (_ & _ & _ & Hv) _ IH]; simpl; [by constructor|].
  constructor; [apply u8_byte|]. constructor; [apply u8_byte|]. constructor; [apply u8_byte|].
  by apply bytes_ok_app.
Qed.

(** The front of a long enough block is the image of a record. *)
Lemma record_split rest :
  bytes_ok rest -> (3 <= length rest)%nat ->
  (3 + Z.to_nat (be16 (slice rest 1 3)) <= length rest)%nat ->
  let l := Z.to_nat (be16 (slice rest 1 3)) in
  let t := mkTLV (byte_at rest 0) (slice rest 3 (3 + l)) in
  rest = tlv_bytes t ++ drop (3 + l) rest /\ length (tlv_value t) = l /\
  Z.of_nat (length (tlv_value t)) <= 0xFFFF /\ bytes_ok (tlv_value t) /\ is_byte (tlv_type t).
Proof.
  intros Hok H3 Hl l t.
  assert (Hlen : length (tlv_value t) = l) by (simpl; rewrite length_slice; lia).
  pose proof (be16_bound (slice rest 1 3) (bytes_ok_slice _ _ _ Hok)) as Hb.
  split_and!; [|done|lia|by apply bytes_ok_slice|by apply bytes_ok_at].
  unfold tlv_bytes. rewrite Hlen. unfold l at 1. rewrite Z2Nat.id by lia.
  rewrite put16_be16 by (first [by apply bytes_ok_slice | rewrite length_slice; lia]).
  change (tlv_value t) with (slice rest 3 (3 + l)).
  change (tlv_type t) with (byte_at rest 0).
  unfold u8. rewrite Z.mod_small by (apply bytes_ok_at; done).
  destruct rest as [|a [|b [|c rest]]]; simpl in H3; try lia.
  clearbody l. clear. unfold slice, byte_at. cbn [nth].
  replace (3 + l - 3)%nat with l by lia. simpl. by rewrite take_drop.
Qed.

Lemma decode_loop_S fuel rest off seen out :
  rest <> [] ->
  decode_loop (S fuel) rest off seen out =
    if (length rest <? 3)%nat then Err (off, ErrTLVTruncated)
    else
      let t := byte_at rest 0 in
      let l := Z.to_nat (be16 (slice rest 1 3)) in
      if (length rest <? 3 + l)%nat then Err (off, ErrTLVTruncated)
      else if bool_decide (t ∈ seen) then Err (off, ErrTLVDuplicate)
      else if IsReserved t then Err (off, ErrTLVReservedRange)
      else decode_loop fuel (drop (3 + l) rest) (off + 3 + l) ({[t]} ∪ seen)
             (out ++ [mkTLV t (slice rest 3 (3 + l))]).
Proof. intros. destruct rest; done. Qed.

Lemma decode_loop_nil fuel off seen out : decode_loop fuel [] off seen out = Ok (out, off).
Proof. by destruct fuel. Qed.

(** The loop's invariant, for both outcomes: the records found so far, the
    offset they end at, and either the end of the block or a faulty record. *)
(** What the loop makes of a rest: its records, then a clean end or a fault. *)
Definition loop_outcome (seen : gset Z) (rest : bytes) (off : nat) (out : list TLV)
    (res : result (nat * TLVErr) (list TLV * nat)) : Prop :=
  exists ts tail,
    rest = tlvs_bytes ts ++ tail /\ tlvs_ok ts /\
    (forall t, t ∈ ts -> tlv_type t ∉ seen) /\
    ((tail = [] /\ res = Ok (out ++ ts, (off + length rest)%nat))
     \/ exists e, res = Err ((off + length (tlvs_bytes ts))%nat, e)
                  /\ record_error (elements seen ++ map tlv_type ts) tail e).

Lemma loop_outcome_end seen off out : loop_outcome seen [] off out (Ok (out, off)).
Proof.
  exists [], []. split_and!; try done; [split; constructor|set_solver|].
  left. simpl. by rewrite app_nil_r, Nat.add_0_r.
Qed.

Lemma loop_outcome_fault seen rest off out e :
  record_error (elements seen) rest e -> loop_outcome seen rest off out (Err (off, e)).
Proof.
  intros He. exists [], rest. split_and!; [done|split; constructor|set_solver|].
  right. exists e. simpl. by rewrite Nat.add_0_r, app_nil_r.
Qed.

Lemma loop_outcome_cons seen t rest off out res :
  tlv_ok t -> tlv_type t ∉ seen ->
  loop_outcome ({[tlv_type t]} ∪ seen) rest (off + length (tlv_bytes t)) (out ++ [t]) res ->
  loop_outcome seen (tlv_bytes t ++ rest) off out res.
Proof.
  intros Ht Hseen (ts & tail & Hrest & [Hnd Hall] & Hfresh & Hcase).
  exists (t :: ts), tail. split_and!.
  - rewrite Hrest. unfold tlvs_bytes. simpl. by rewrite <- app_assoc.
  - split; [|by constructor].
    simpl. constructor; [|done]. intros Hin. apply list_elem_of_fmap in Hin as (t' & Heq & Hin).
    apply (Hfresh t' Hin). set_solver.
  - intros t' [->|Hin]%elem_of_cons; [done|]. specialize (Hfresh t' Hin). set_solver.
  - destruct Hcase as [[-> ->]|(e & -> & He)]; [left|right].
    + split; [done|]. rewrite <- app_assoc, length_app. do 2 f_equal. lia.
    + exists e. split.
      * do 2 f_equal. change (tlvs_bytes (t :: ts)) with (tlv_bytes t ++ tlvs_bytes ts).
        rewrite length_app. lia.
      * assert (Hel : forall x, x ∈ elements ({[tlv_type t]} ∪ seen) ++ map tlv_type ts
           <-> x ∈ elements seen ++ map tlv_type (t :: ts)).
        { intros x. simpl. rewrite !elem_of_app, !elem_of_elements, elem_of_cons. set_solver. }
        destruct e; unfold record_error in *; [done| | |done]; rewrite Hel in He; exact He.
Qed.

Lemma decode_loop_sound fuel rest off seen out :
  bytes_ok rest -> (length rest <= fuel)%nat ->
  loop_outcome seen rest off out (decode_loop fuel rest off seen out).
Proof.
  revert rest off seen out. induction fuel as [|fuel IH]; intros rest off seen out Hok Hlen.
  { destruct rest; [apply loop_outcome_end|simpl in Hlen; lia]. }
  destruct (decide (rest = [])) as [->|Hne]; [apply loop_outcome_end|].
  rewrite decode_loop_S by done.
  destruct (length rest <? 3)%nat eqn:H3; simpl_bool; [apply loop_outcome_fault; simpl; auto|].
  cbv zeta. set (l := Z.to_nat (be16 (slice rest 1 3))).
  destruct (length rest <? 3 + l)%nat eqn:Hl; simpl_bool; [apply loop_outcome_fault; simpl; auto|].
  assert (Hns : ~ ((length rest < 3)%nat \/ (length rest < 3 + Z.to_nat (be16 (slice rest 1 3)))%nat))
    by (fold l; lia).
  case_bool_decide as Hseen; [apply loop_outcome_fault; split; [done|set_solver]|].
  destruct (IsReserved (byte_at rest 0)) eqn:Hres.
  { apply loop_outcome_fault; split; [done|split; [set_solver|done]]. }
  destruct (record_split rest Hok H3 Hl) as (Hsplit & Hvl & Hmax & Hvok & Hty).
  fold l in Hsplit, Hvl, Hmax, Hvok, Hty.
  set (t := mkTLV (byte_at rest 0) (slice rest 3 (3 + l))) in *.
  rewrite Hsplit at 1. apply loop_outcome_cons; [by split_and!|done|].
  replace (off + length (tlv_bytes t))%nat with (off + 3 + l)%nat by (rewrite length_tlv_bytes, Hvl; lia).
  apply IH; [auto with bytes|solve_len].
Qed.

(** Images are uniquely decodable: of two parses of the same bytes one
    continues the other. *)
Lemma tlv_bytes_inj t1 t2 r1 r2 :
  tlv_ok t1 -> tlv_ok t2 -> tlv_bytes t1 ++ r1 = tlv_bytes t2 ++ r2 -> t1 = t2 /\ r1 = r2.
Proof.
  destruct t1 as [y1 v1], t2 as [y2 v2].
  intros (Hb1 & _ & Hl1 & _) (Hb2 & _ & Hl2 & _) He. unfold tlv_bytes in He. simpl in *.
  injection He as E1 E2 E3 E4.
  assert (Hlv : be16 (put16 (Z.of_nat (length v1)) ++ []) = be16 (put16 (Z.of_nat (length v2)) ++ []))
    by (unfold put16; by rewrite E2, E3).
  rewrite !be16_put16 in Hlv by lia.
  unfold u8 in E1. unfold is_byte in *. rewrite !Z.mod_small in E1 by lia. subst y2.
  apply app_inj_len in E4 as [-> ->]; [done|lia].
Qed.

Lemma tlvs_bytes_comparable ts1 ts2 tail1 tail2 :
  Forall tlv_ok ts1 -> Forall tlv_ok ts2 ->
  tlvs_bytes ts1 ++ tail1 = tlvs_bytes ts2 ++ tail2 ->
  (exists ts3, ts2 = ts1 ++ ts3 /\ tail1 = tlvs_bytes ts3 ++ tail2)
  \/ (exists ts3, ts1 = ts2 ++ ts3 /\ tail2 = tlvs_bytes ts3 ++ tail1).
Proof.
  intros H1. revert ts2. induction H1 as [|t1 ts1 Ht1 _ IH]; intros ts2 H2 He.
  - left. eauto.
  - destruct H2 as [|t2 ts2 Ht2 H2]; [right; eauto|].
    unfold tlvs_bytes in He. simpl in He. rewrite <- !app_assoc in He.
    apply tlv_bytes_inj in He as [-> He]; [|done..].
    destruct (IH ts2 H2 He) as [(ts3 & -> & ->)|(ts3 & -> & ->)]; [left|right]; by exists ts3.
Qed.

(** A well-formed record of a fresh type is no fault. *)
Lemma record_error_ok seen t rest e :
  tlv_ok t -> tlv_type t ∉ seen -> ~ record_error seen (tlv_bytes t ++ rest) e.
Proof.
  intros (Hb & Hr & Hl & _) Hseen. unfold is_byte in Hb.
  assert (Ht : byte_at (tlv_bytes t ++ rest) 0 = tlv_type t)
    by (unfold byte_at, tlv_bytes, u8; simpl; by apply Z.mod_small).
  assert (Hn : be16 (slice (tlv_bytes t ++ rest) 1 3) = Z.of_nat (length (tlv_value t)))
    by (apply (be16_put16 _ []); lia).
  destruct e; unfold record_error; rewrite ?Ht, ?Hn, ?Nat2Z.id, ?length_app, ?length_tlv_bytes.
  - intros [_ ?]. lia.
  - tauto.
  - rewrite Hr. intros (_ & _ & ?). done.
  - tauto.
Qed.

Lemma record_error_nil seen e : ~ record_error seen [] e.
Proof. destruct e; simpl; intros H; destruct_and?; (done || lia). Qed.

Lemma record_error_det seen rest e1 e2 :
  record_error seen rest e1 -> record_error seen rest e2 -> e1 = e2.
Proof. destruct e1, e2; simpl; tauto. Qed.

(** No fault can follow records that are followed by more good ones. *)
Lemma record_error_end ts1 ts3 tail e :
  tlvs_ok (ts1 ++ ts3) -> record_error (map tlv_type ts1) (tlvs_bytes ts3 ++ tail) e -> ts3 = [].
Proof.
  intros [Hnd Hall] He. destruct ts3 as [|t ts3]; [done|]. exfalso.
  unfold tlvs_bytes in He. simpl in He. rewrite <- app_assoc in He.
  eapply record_error_ok; [..|exact He].
  - rewrite Forall_app, Forall_cons in Hall. tauto.
  - rewrite map_app in Hnd. apply NoDup_app in Hnd as (_ & Hnd & _). simpl in Hnd.
    intros Hin. eapply Hnd; [exact Hin|]. set_solver.
Qed.

Lemma DecodeTLVs_sound b :
  bytes_ok b ->
  exists ts tail, b = tlvs_bytes ts ++ tail /\ tlvs_ok ts /\
    ((tail = [] /\ DecodeTLVs b = Ok (ts, length b))
     \/ exists e, DecodeTLVs b = Err (length (tlvs_bytes ts), e)
                  /\ record_error (map tlv_type ts) tail e).
Proof.
  intros Hok. unfold DecodeTLVs.
  destruct (decode_loop_sound (length b) b 0 ∅ [] Hok (le_n _)) as (ts & tail & Hb & Hts & _ & Hc).
  exists ts, tail. split_and!; [done..|].
  destruct Hc as [[-> ->]|(e & -> & He)].
  - left. simpl. by rewrite Nat.eqb_refl.
  - right. exists e. rewrite elements_empty in He. done.
Qed.

Lemma DecodeTLVs_inv b ts n :
  bytes_ok b -> DecodeTLVs b = Ok (ts, n) -> tlvs_ok ts /\ b = tlvs_bytes ts.
Proof.
  intros Hb HD. destruct (DecodeTLVs_sound b Hb) as (ts' & tail & Hs & Hts & [[-> HD']|(e & HD' & _)]);
    rewrite HD in HD'; simplify_eq. by rewrite app_nil_r.
Qed.

Lemma DecodeTLVs_complete ts :
  tlvs_ok ts -> DecodeTLVs (tlvs_bytes ts) = Ok (ts, length (tlvs_bytes ts)).
Proof.
  intros Hts.
  destruct (DecodeTLVs_sound _ (tlvs_bytes_ok ts Hts)) as (ts' & tail & Hsplit & Hts' & Hc).
  assert (Hcmp := Hsplit). rewrite <- (app_nil_r (tlvs_bytes ts)) in Hcmp.
  apply tlvs_bytes_comparable in Hcmp; [|apply Hts|apply Hts'].
  destruct Hcmp as [(ts3 & -> & H3)|(ts3 & -> & H3)].
  - destruct ts3 as [|t ts3]; [|by destruct (tlvs_bytes (t :: ts3)) eqn:?].
    destruct Hc as [[-> HD]|(e & _ & He)]; [by rewrite app_nil_r in HD|].
    simpl in H3. subst tail. by apply record_error_nil in He.
  - destruct Hc as [[-> HD]|(e & _ & He)].
    + destruct ts3; [by rewrite app_nil_r in *|done].
    + exfalso. pose proof He as He'. rewrite H3 in He'.
      apply record_error_end in He' as ->; [|done].
      simpl in H3. subst tail. by apply record_error_nil in He.
Qed.

(** C17: The block decoder and the writer are inverse: for every byte string
    [b], [DecodeTLVs] returns the records [ts] (and then consumes the whole
    block) exactly when [ts] is a list of records of distinct non-reserved
    types with 16-bit sizes whose encoding by [encodeTLVs] is [b]. *)
Theorem DecodeTLVs_iff b ts n (Hb : bytes_ok b) :
  DecodeTLVs b = Ok (ts, n) <-> n = length b /\ tlvs_ok ts /\ encodeTLVs ts = Ok b.
Proof.
  split.
  - intros HD. destruct (DecodeTLVs_inv _ _ _ Hb HD) as [Hts ->].
    rewrite (DecodeTLVs_complete ts Hts) in HD. simplify_eq.
    split_and!; [done..|]. by apply encodeTLVs_ok, tlvs_ok_sizes.
  - intros (-> & Hts & He). apply encodeTLVs_inv in He as [-> _]. by apply DecodeTLVs_complete.
Qed.

(** Every rejection is explained: [DecodeTLVs b] fails with error [e] at
    offset [off] exactly when the [off] bytes before are the encoding of
    well-formed records and the bytes from [off] on start with a record that
    is cut short, repeats a type, or is of a reserved type, as [e] says; the
    trailing-garbage error never occurs. *)
Theorem DecodeTLVs_error_iff b off e (Hb : bytes_ok b) :
  DecodeTLVs b = Err (off, e) <->
  exists ts tail, b = tlvs_bytes ts ++ tail /\ off = length (tlvs_bytes ts) /\ tlvs_ok ts
    /\ record_error (map tlv_type ts) tail e.
Proof.
  destruct (DecodeTLVs_sound b Hb) as (ts' & tail' & Hsplit' & Hts' & Hc). split.
  - intros HD. destruct Hc as [[_ HD']|(e' & HD' & He)]; [congruence|].
    rewrite HD in HD'. simplify_eq. eauto 10.
  - intros (ts & tail & Hsplit & -> & Hts & He).
    assert (Hcmp := Hsplit). rewrite Hsplit' in Hcmp.
    apply tlvs_bytes_comparable in Hcmp; [|apply Hts'|apply Hts].
    destruct Hcmp as [(ts3 & -> & ->)|(ts3 & -> & ->)].
    + destruct Hc as [[Ht _]|(e' & HD & He')].
      * destruct ts3; [|done]. destruct tail; [|done]. by apply record_error_nil in He.
      * pose proof He' as Hend. apply record_error_end in Hend as ->; [|done].
        rewrite app_nil_r in *. rewrite HD. do 2 f_equal.
        by eapply record_error_det.
    + pose proof He as Hend. apply record_error_end in Hend as ->; [|done].
      rewrite app_nil_r in *. simpl in *.
      destruct Hc as [[-> _]|(e' & HD & He')]; [by apply record_error_nil in He|].
      rewrite HD. do 2 f_equal. by eapply record_error_det.
Qed.

(** The value rules and the address classes. *)
Lemma AddrFrom16_classes v :
  length v = 16%nat ->
  0x20 <= byte_at v 0 <= 0x3F \/ byte_at v 0 = 0xFC \/ byte_at v 0 = 0xFD ->
  let ip := AddrFrom16 v in
  IsLoopback ip = false /\ IsLinkLocalUnicast ip = false /\ IsLinkLocalMulticast ip = false
  /\ IsMulticast ip = false /\ IsUnspecified ip = false.
Proof.
  intros Hl Hb ip. destruct v as [|b v]; [done|]. unfold byte_at in Hb. simpl in Hb.
  assert (Hm : Unmap ip = Addr6 (b :: v) []).
  { unfold ip, AddrFrom16, Unmap, Is4In6. rewrite bool_decide_false; [done|].
    intros Ht. injection Ht as Ht _. lia. }
  unfold IsLoopback, IsLinkLocalUnicast, IsLinkLocalMulticast, IsMulticast, IsUnspecified.
  rewrite Hm. unfold ip, AddrFrom16, byte_at. cbn [nth].
  assert (Hne : forall a c z, a <> b -> Addr6 (b :: v) z <> Addr6 (a :: c) z) by (intros; congruence).
  rewrite !bool_decide_false; [|apply Hne; lia|done|intros Hv; injection Hv as ? _; lia].
  destruct (Z.eqb_spec b 254), (Z.eqb_spec b 255); done || lia.
Qed.

(** The source-hint rule accepts exactly the 16-byte addresses of
    2000::/3 (first byte 0x20-0x3F) and fc00::/7 (0xFC, 0xFD): the explicit
    tests for loopback, link-local, multicast and unspecified addresses reject
    nothing more, and accept nothing outside the two ranges. *)
Theorem ValidateTLV_source_hint v :
  ValidateTLV (mkTLV EraTLVSourceHintV6 v) = Ok tt <->
  length v = 16%nat
  /\ (0x20 <= byte_at v 0 <= 0x3F \/ byte_at v 0 = 0xFC \/ byte_at v 0 = 0xFD).
Proof.
  set (ip := AddrFrom16 v). set (b := byte_at v 0).
  assert (HV : ValidateTLV (mkTLV EraTLVSourceHintV6 v) =
    if negb (length v =? 16)%nat then Err VLength
    else if IsLoopback ip || IsLinkLocalUnicast ip || IsLinkLocalMulticast ip
            || IsMulticast ip || IsUnspecified ip then Err VAddrClass
    else if negb (((0x20 <=? b) && (b <=? 0x3F)) || (b =? 0xFC) || (b =? 0xFD))
         then Err VAddrRange else Ok tt) by reflexivity.
  rewrite HV. clear HV. subst ip b. split.
  - intros H. go_cases_in H.
    rewrite !orb_true_iff, andb_true_iff, !Z.leb_le, !Z.eqb_eq in *. tauto.
  - intros [Hl Hb]. destruct (AddrFrom16_classes v Hl Hb) as (-> & -> & -> & -> & ->).
    rewrite Hl. simpl orb. simpl negb. cbv iota.
    replace (_ || _)%bool with true; [done|]. symmetry.
    rewrite !orb_true_iff, andb_true_iff, !Z.leb_le, !Z.eqb_eq. tauto.
Qed.

(** An IP literal may announce port 0, a DNS name may not. *)
Lemma validateHostPort_port_zero :
  validateHostPort (bs "192.0.2.1:0") = Ok tt
  /\ validateHostPort (bs "host.example:0") = Err HPPortZero.
Proof. split; reflexivity. Qed.

(** * Witnesses *)

Definition tlv_sample : list TLV :=
  [mkTLV EraTLVOrigSNI (bs "a.example"); mkTLV EraTLVSpecVersion [SpecVersionStage1]].

Lemma DecodeTLVs_iff_witness :
  bytes_ok (tlvs_bytes tlv_sample)
  /\ DecodeTLVs (tlvs_bytes tlv_sample) = Ok (tlv_sample, length (tlvs_bytes tlv_sample)).
Proof.
  assert (H : bytes_ok (tlvs_bytes tlv_sample)) by decide_closed.
  split; [exact H|]. apply (DecodeTLVs_iff _ _ _ H).
  split; [reflexivity|]. split; [decide_closed|reflexivity].
Defined.

Lemma DecodeTLVs_error_iff_witness :
  let b := tlvs_bytes tlv_sample ++ [EraTLVSpecVersion; 0; 1; 1] in
  bytes_ok b /\ DecodeTLVs b = Err (16%nat, ErrTLVDuplicate).
Proof.
  intros b. assert (H : bytes_ok b) by decide_closed.
  split; [exact H|]. apply (DecodeTLVs_error_iff _ _ _ H).
  exists tlv_sample, [EraTLVSpecVersion; 0; 1; 1].
  split; [reflexivity|]. split; [reflexivity|]. split; [decide_closed|].
  split; [vm_compute; intros [Hx|Hx]; lia|decide_closed].
Defined.
