(* ===== verification/Reader.v ===== *)
(** [internal/proxyproto/reader.go] and [proxyproto.go]: the PROXY-v2 header
    with TLVs ([HeaderV2], its reader and [Encode]), the address-only header of
    the stream splicer ([WriteHeaderV2], [ReadHeaderV2]) and the listener that
    strips it. *)

From S2P Require Import Prelude Netip Utf8 Tlv.

(** * Data *)

Definition v2Signature : bytes :=
  [0x0D; 0x0A; 0x0D; 0x0A; 0x00; 0x0D; 0x0A; 0x51; 0x55; 0x49; 0x54; 0x0A].
Definition verCmdProxy : byte := 0x21.
Definition verCmdLocal : byte := 0x20.
Definition famTCP4 : byte := 0x11.
Definition famTCP6 : byte := 0x21.
Definition famUDP4 : byte := 0x12.
Definition famUDP6 : byte := 0x22.
Definition addrPairV4 : nat := 12.
Definition addrPairV6 : nat := 36.

Record HeaderV2 := mkHeaderV2 {
  hFamily : byte;
  hSrc : AddrPort;
  hDst : AddrPort;
  hTLVs : list TLV
}.
#[export] Instance HeaderV2_eq_dec : EqDecision HeaderV2.
Proof. solve_decision. Defined.

Definition Transport (h : HeaderV2) : gostring :=
  if (hFamily h =? famTCP4) || (hFamily h =? famTCP6) then bs "tcp"
  else if (hFamily h =? famUDP4) || (hFamily h =? famUDP6) then bs "udp"
  else [].

Definition IsIPv6 (h : HeaderV2) : bool :=
  (hFamily h =? famTCP6) || (hFamily h =? famUDP6).

(** The first record of type [t]; [None] is Go's [nil] for "absent". *)
Fixpoint lookup_tlv (ts : list TLV) (t : Z) : option bytes :=
  match ts with
  | [] => None
  | x :: ts' => if tlv_type x =? t then Some (tlv_value x) else lookup_tlv ts' t
  end.
Definition Lookup (h : HeaderV2) (t : Z) : option bytes := lookup_tlv (hTLVs h) t.

Inductive HeaderErrKind : Type :=
| ErrSignatureInvalid
| ErrIncompleteHeader
| ErrUnsupportedVersionCmd
| ErrUnsupportedFamily
| ErrAddressBlockShort
| ErrTLVMalformed.
#[export] Instance HeaderErrKind_eq_dec : EqDecision HeaderErrKind.
Proof. solve_decision. Defined.

(** The wrapped cause of a [HeaderErr]. *)
Inductive HeaderCause : Type :=
| CauseNone | CauseIO (e : IOErr) | CauseTLV (e : TLVErr).
#[export] Instance HeaderCause_eq_dec : EqDecision HeaderCause.
Proof. solve_decision. Defined.
Record HeaderErr := mkHeaderErr { heKind : HeaderErrKind; heErr : HeaderCause }.
#[export] Instance HeaderErr_eq_dec : EqDecision HeaderErr.
Proof. solve_decision. Defined.

Definition kind_string (k : HeaderErrKind) : gostring :=
  match k with
  | ErrSignatureInvalid => bs "signature_invalid"
  | ErrIncompleteHeader => bs "incomplete_header"
  | ErrUnsupportedVersionCmd => bs "unsupported_version_cmd"
  | ErrUnsupportedFamily => bs "unsupported_family"
  | ErrAddressBlockShort => bs "address_block_short"
  | ErrTLVMalformed => bs "tlv_malformed"
  end.

(** * Reading *)

Definition fam_known (fam : byte) : bool :=
  (fam =? famTCP4) || (fam =? famTCP6) || (fam =? famUDP4) || (fam =? famUDP6).
Definition fam_v6 (fam : byte) : bool := (fam =? famTCP6) || (fam =? famUDP6).

Definition read_addrs (isV6 : bool) (body : bytes) : AddrPort * AddrPort :=
  if isV6 then
    (mkAddrPort (AddrFrom16 (slice body 0 16)) (be16 (slice body 32 34)),
     mkAddrPort (AddrFrom16 (slice body 16 32)) (be16 (slice body 34 36)))
  else
    (mkAddrPort (AddrFrom4 (slice body 0 4)) (be16 (slice body 8 10)),
     mkAddrPort (AddrFrom4 (slice body 4 8)) (be16 (slice body 10 12))).

(** The parsed header and the reader behind it. *)
Definition ReadHeaderV2WithTLVs (r : Reader) : result HeaderErr (HeaderV2 * Reader) :=
  match read_full r 16 with
  | Err e => Err (mkHeaderErr ErrIncompleteHeader (CauseIO e))
  | Ok (hdr, r) =>
    if negb (bool_decide (slice hdr 0 12 = v2Signature))
    then Err (mkHeaderErr ErrSignatureInvalid CauseNone)
    else
      let verCmd := byte_at hdr 12 in
      if negb (verCmd =? verCmdProxy)
      then Err (mkHeaderErr ErrUnsupportedVersionCmd CauseNone)
      else
        let fam := byte_at hdr 13 in
        if negb (fam_known fam) then Err (mkHeaderErr ErrUnsupportedFamily CauseNone)
        else
          let alen := Z.to_nat (be16 (slice hdr 14 16)) in
          match read_full r alen with
          | Err e => Err (mkHeaderErr ErrIncompleteHeader (CauseIO e))
          | Ok (body, r) =>
            let isV6 := fam_v6 fam in
            let addrLen := if isV6 then addrPairV6 else addrPairV4 in
            if (alen <? addrLen)%nat then Err (mkHeaderErr ErrAddressBlockShort CauseNone)
            else
              let '(src, dst) := read_addrs isV6 body in
              if (addrLen <? alen)%nat then
                match DecodeTLVs (drop addrLen body) with
                | Err (_, e) => Err (mkHeaderErr ErrTLVMalformed (CauseTLV e))
                | Ok (decoded, _) => Ok (mkHeaderV2 fam src dst decoded, r)
                end
              else Ok (mkHeaderV2 fam src dst [], r)
          end
  end.

Definition ReadHeaderV2WithTLVsBuffered (br : Reader) : result HeaderErr (HeaderV2 * Reader) :=
  ReadHeaderV2WithTLVs br.

(** * Encoding *)

(** The size loop of [Encode]. *)
Fixpoint tlv_size (ts : list TLV) (acc : nat) : result EncErr nat :=
  match ts with
  | [] => Ok acc
  | t :: ts' =>
    if 0xFFFF <? Z.of_nat (length (tlv_value t)) then Err EncTLVTooLong
    else tlv_size ts' (acc + (3 + length (tlv_value t)))
  end.

(** The append loop of [Encode]. *)
Fixpoint append_tlvs (out : bytes) (ts : list TLV) : bytes :=
  match ts with
  | [] => out
  | t :: ts' =>
    append_tlvs (out ++ [u8 (tlv_type t)] ++ put16 (Z.of_nat (length (tlv_value t))) ++ tlv_value t) ts'
  end.

(** [append(out, s[:]...)] where the conversion to an array may panic. *)
Definition append_addr (out : bytes) (a : option bytes) : result EncErr bytes :=
  match a with Some b => Ok (out ++ b) | None => Err EncPanic end.

Definition Encode (h : HeaderV2) : result EncErr bytes :=
  let? addrLen :=
    (if (hFamily h =? famTCP4) || (hFamily h =? famUDP4) then Ok addrPairV4
     else if (hFamily h =? famTCP6) || (hFamily h =? famUDP6) then Ok addrPairV6
     else Err EncUnsupportedFamily) in
  let? tlvSize := tlv_size (hTLVs h) 0 in
  let out := v2Signature ++ [verCmdProxy] ++ [hFamily h]
             ++ put16 (u16 (Z.of_nat (addrLen + tlvSize))) in
  let as_ := if IsIPv6 h then As16 else As4 in
  let? out := append_addr out (as_ (ap_addr (hSrc h))) in
  let? out := append_addr out (as_ (ap_addr (hDst h))) in
  let out := out ++ put16 (ap_port (hSrc h)) ++ put16 (ap_port (hDst h)) in
  Ok (append_tlvs out (hTLVs h)).

(** A header the format can hold: the addresses are of the family's version
    and without zone, the ports are 16-bit, the records are decodable and the
    address block fits its 16-bit length. *)
Definition fam_addr_ok (v6 : bool) (a : Addr) : Prop :=
  match a with
  | Addr4 b => v6 = false /\ length b = 4%nat /\ bytes_ok b
  | Addr6 b z => v6 = true /\ length b = 16%nat /\ bytes_ok b /\ z = []
  | AddrNone => False
  end.
Definition port_ok (p : Z) : Prop := 0 <= p < 2 ^ 16.
Definition block_len (h : HeaderV2) : nat :=
  (if fam_v6 (hFamily h) then addrPairV6 else addrPairV4) + length (tlvs_bytes (hTLVs h)).
Definition header_ok (h : HeaderV2) : Prop :=
  fam_known (hFamily h) = true
  /\ fam_addr_ok (fam_v6 (hFamily h)) (ap_addr (hSrc h))
  /\ fam_addr_ok (fam_v6 (hFamily h)) (ap_addr (hDst h))
  /\ port_ok (ap_port (hSrc h)) /\ port_ok (ap_port (hDst h))
  /\ tlvs_ok (hTLVs h)
  /\ Z.of_nat (block_len h) <= 0xFFFF.
#[export] Instance fam_addr_ok_dec v6 a : Decision (fam_addr_ok v6 a).
Proof. destruct a; unfold fam_addr_ok; apply _. Defined.
#[export] Instance port_ok_dec p : Decision (port_ok p).
Proof. unfold port_ok. apply _. Defined.
#[export] Instance header_ok_dec h : Decision (header_ok h).
Proof. unfold header_ok. apply _. Defined.

(** * The splicer's header *)

(** [net.Addr]: nil, a [*net.TCPAddr], or anything else by its [String()]. *)
Inductive NetAddr : Type :=
| NilAddr
| TCPAddr (ip : bytes) (port : Z)
| OtherAddr (s : gostring).

Inductive WriteErr : Type := WNilAddr | WBadIP | WBadAddr | WFamilyMismatch | WPanic.
#[export] Instance WriteErr_eq_dec : EqDecision WriteErr.
Proof. solve_decision. Defined.

Definition toAddrPort (a : NetAddr) : result WriteErr AddrPort :=
  match a with
  | NilAddr => Err WNilAddr
  | TCPAddr ip port =>
    match AddrFromSlice ip with
    | None => Err WBadIP
    | Some a => Ok (mkAddrPort (Unmap a) (u16 port))
    end
  | OtherAddr s =>
    match ParseAddrPort s with
    | None => Err WBadAddr
    | Some ap => Ok (mkAddrPort (Unmap (ap_addr ap)) (ap_port ap))
    end
  end.

(** The bytes [WriteHeaderV2] writes. *)
Definition WriteHeaderV2 (src dst : NetAddr) : result WriteErr bytes :=
  let? sa := toAddrPort src in
  let? da := toAddrPort dst in
  if negb (Bool.eqb (Is4 (ap_addr sa)) (Is4 (ap_addr da))) then Err WFamilyMismatch
  else
    let buf := v2Signature ++ [verCmdProxy] in
    let '(fam, alen, as_) :=
      if Is4 (ap_addr sa) then (famTCP4, 12, As4) else (famTCP6, 36, As16) in
    let buf := buf ++ [fam] ++ put16 alen in
    match as_ (ap_addr sa), as_ (ap_addr da) with
    | Some s, Some d => Ok (buf ++ s ++ d ++ put16 (ap_port sa) ++ put16 (ap_port da))
    | _, _ => Err WPanic
    end.

Inductive ReadErr : Type :=
| RHeader (e : IOErr) | RSignature | RAddrBlock (e : IOErr) | RVersionCmd | RShort.
#[export] Instance ReadErr_eq_dec : EqDecision ReadErr.
Proof. solve_decision. Defined.

(** The announced source ([None]: keep the real peer) and the reader behind
    the header. *)
Definition ReadHeaderV2 (r : Reader) : result ReadErr (option (bytes * Z) * Reader) :=
  match read_full r 16 with
  | Err e => Err (RHeader e)
  | Ok (hdr, r) =>
    if negb (bool_decide (slice hdr 0 12 = v2Signature)) then Err RSignature
    else
      let verCmd := byte_at hdr 12 in
      let fam := byte_at hdr 13 in
      let alen := Z.to_nat (be16 (slice hdr 14 16)) in
      match read_full r alen with
      | Err e => Err (RAddrBlock e)
      | Ok (addr, r) =>
        if verCmd =? verCmdLocal then Ok (None, r)
        else if negb (verCmd =? verCmdProxy) then Err RVersionCmd
        else if fam =? famTCP4 then
          if (alen <? 12)%nat then Err RShort
          else Ok (Some (slice addr 0 4, be16 (slice addr 8 10)), r)
        else if fam =? famTCP6 then
          if (alen <? 36)%nat then Err RShort
          else Ok (Some (slice addr 0 16, be16 (slice addr 32 34)), r)
        else Ok (None, r)
      end
  end.

(** * The listener *)

(** A connection the inner listener accepts: its peer and its stream. *)
Record RawConn := mkRawConn { rc_id : nat; rc_peer : NetAddr; rc_stream : Reader }.
(** The wrapped connection: reads come from [wc_stream]. *)
Record WrappedConn := mkWrappedConn { wc_conn : RawConn; wc_stream : Reader; wc_remote : option NetAddr }.

(** What the inner [Accept] returns, call by call. *)
Inductive Accepted : Type := AcceptConn (c : RawConn) | AcceptErr.
(** What one call of [Listener.Accept] does: the connections it closes with
    the reason given to [OnError], in order. *)
Definition Drops := list (nat * ReadErr).

(** The accept loop; it ends with a connection or the listener's error, or is
    still waiting ([None]) when the inner listener delivers nothing more. *)
Fixpoint Accept (inner : list Accepted) (drops : Drops)
  : Drops * option (option WrappedConn) * list Accepted :=
  match inner with
  | [] => (drops, None, [])
  | AcceptErr :: inner' => (drops, Some None, inner')
  | AcceptConn c :: inner' =>
    match ReadHeaderV2 (rc_stream c) with
    | Err herr => Accept inner' (drops ++ [(rc_id c, herr)])
    | Ok (src, br) =>
      (drops, Some (Some (mkWrappedConn c br
         (match src with Some (ip, port) => Some (TCPAddr ip port) | None => None end))), inner')
    end
  end.

Definition conn_RemoteAddr (c : WrappedConn) : NetAddr :=
  match wc_remote c with Some a => a | None => rc_peer (wc_conn c) end.

(** [AddrPortToTCP] / [AddrPortToUDP]: IP bytes and port, [None] for [nil]. *)
Definition AddrPortToTCP (ap : AddrPort) : option (bytes * Z) :=
  if negb (IsValid (ap_addr ap)) then None else Some (AsSlice (ap_addr ap), ap_port ap).
Definition AddrPortToUDP (ap : AddrPort) : option (bytes * Z) :=
  if negb (IsValid (ap_addr ap)) then None else Some (AsSlice (ap_addr ap), ap_port ap).

(** * Images of headers *)

Definition prefix_bytes (fam alen : Z) : bytes := v2Signature ++ [verCmdProxy; fam] ++ put16 alen.
Definition addrs_bytes (src dst : AddrPort) : bytes :=
  AsSlice (ap_addr src) ++ AsSlice (ap_addr dst) ++ put16 (ap_port src) ++ put16 (ap_port dst).
Definition addr_len (v6 : bool) : nat := if v6 then addrPairV6 else addrPairV4.
Definition header_bytes (h : HeaderV2) : bytes :=
  prefix_bytes (hFamily h) (u16 (Z.of_nat (block_len h)))
  ++ addrs_bytes (hSrc h) (hDst h) ++ tlvs_bytes (hTLVs h).

Lemma append_tlvs_spec out ts : append_tlvs out ts = out ++ tlvs_bytes ts.
Proof.
  revert out. induction ts as [|t ts IH]; intros out; simpl.
  - unfold tlvs_bytes. simpl. by rewrite app_nil_r.
  - by rewrite IH, <- app_assoc.
Qed.

Lemma tlv_size_spec ts acc :
  Forall (fun t => Z.of_nat (length (tlv_value t)) <= 0xFFFF) ts ->
  tlv_size ts acc = Ok (acc + length (tlvs_bytes ts))%nat.
Proof.
  intros H. revert acc. induction H as [|t ts Ht _ IH]; intros acc; cbn [tlv_size].
  - by rewrite Nat.add_0_r.
  - destruct (Z.ltb_spec 0xFFFF (Z.of_nat (length (tlv_value t)))); [lia|].
    rewrite IH, tlvs_bytes_cons, length_app, length_tlv_bytes. f_equal. lia.
Qed.

Lemma tlv_size_inv ts acc n :
  tlv_size ts acc = Ok n ->
  n = (acc + length (tlvs_bytes ts))%nat
  /\ Forall (fun t => Z.of_nat (length (tlv_value t)) <= 0xFFFF) ts.
Proof.
  intros H. enough (Hf : Forall (fun t => Z.of_nat (length (tlv_value t)) <= 0xFFFF) ts).
  - split; [|done]. rewrite tlv_size_spec in H by done. by simplify_eq.
  - revert acc H. induction ts as [|t ts IH]; intros acc H; [by constructor|].
    cbn [tlv_size] in H. destruct (Z.ltb_spec 0xFFFF (Z.of_nat (length (tlv_value t)))); [done|].
    constructor; [done|]. by eapply IH.
Qed.

Lemma fam_cases fam :
  fam_known fam = true ->
  (fam = famTCP4 \/ fam = famUDP4) /\ fam_v6 fam = false
  \/ (fam = famTCP6 \/ fam = famUDP6) /\ fam_v6 fam = true.
Proof.
  unfold fam_known. rewrite !orb_true_iff, !Z.eqb_eq.
  intros [[[->| ->]| ->]| ->]; [left|right|left|right]; split; auto.
Qed.

Lemma fam_addr_ok_conv v6 a :
  fam_addr_ok v6 a -> (if v6 then As16 else As4) a = Some (AsSlice a).
Proof. by destruct a; simpl; [| intros (-> & _) | intros (-> & _)]. Qed.

Lemma fam_addr_ok_len v6 a :
  fam_addr_ok v6 a -> length (AsSlice a) = (if v6 then 16 else 4)%nat /\ bytes_ok (AsSlice a).
Proof. destruct a; simpl; [done|intros (-> & ? & ?)|intros (-> & ? & ? & _)]; done. Qed.

Lemma addrs_bytes_len v6 src dst :
  fam_addr_ok v6 (ap_addr src) -> fam_addr_ok v6 (ap_addr dst) ->
  length (addrs_bytes src dst) = addr_len v6.
Proof.
  intros Hs Hd. apply fam_addr_ok_len in Hs as [Hs _], Hd as [Hd _].
  unfold addrs_bytes. rewrite !length_app, Hs, Hd, !length_put16. by destruct v6.
Qed.

(** The encoder with the length field left as the code computes it. *)
Lemma Encode_header h :
  fam_known (hFamily h) = true ->
  fam_addr_ok (fam_v6 (hFamily h)) (ap_addr (hSrc h)) ->
  fam_addr_ok (fam_v6 (hFamily h)) (ap_addr (hDst h)) ->
  Forall (fun t => Z.of_nat (length (tlv_value t)) <= 0xFFFF) (hTLVs h) ->
  Encode h = Ok (header_bytes h).
Proof.
  intros Hf Hs Hd Ht. unfold Encode, header_bytes, block_len, IsIPv6, addrs_bytes, prefix_bytes.
  change ((hFamily h =? famTCP6) || (hFamily h =? famUDP6))%bool with (fam_v6 (hFamily h)).
  rewrite tlv_size_spec by done.
  pose proof (fam_addr_ok_conv _ _ Hs) as Hs'. pose proof (fam_addr_ok_conv _ _ Hd) as Hd'.
  apply fam_cases in Hf as [[Hf E]|[Hf E]]; rewrite E in *;
    destruct Hf as [-> | ->];
    cbn -[app u16 put16 append_tlvs Z.of_nat Nat.add v2Signature addrPairV4 addrPairV6 tlvs_bytes];
    rewrite Hs'; cbn [append_addr]; rewrite Hd'; cbn [append_addr];
    by rewrite append_tlvs_spec, <- !app_assoc.
Qed.

Lemma read_addrs_build v6 src dst tl :
  fam_addr_ok v6 (ap_addr src) -> fam_addr_ok v6 (ap_addr dst) ->
  port_ok (ap_port src) -> port_ok (ap_port dst) ->
  read_addrs v6 (addrs_bytes src dst ++ tl) = (src, dst).
Proof.
  intros Hs Hd Hps Hpd. pose proof (fam_addr_ok_len _ _ Hs) as [Ls _].
  pose proof (fam_addr_ok_len _ _ Hd) as [Ld _].
  destruct src as [sa sp], dst as [da dp]. unfold addrs_bytes. cbn [ap_addr ap_port] in *.
  set (s := AsSlice sa) in *. set (d := AsSlice da) in *.
  assert (H1 : forall i j, i = length s -> j = (i + length d)%nat ->
    slice ((s ++ d ++ put16 sp ++ put16 dp) ++ tl) i j = d).
  { intros i j -> ->. rewrite <- !app_assoc. by apply slice_app_eq. }
  assert (H2 : forall i j, i = (length s + length d)%nat -> j = (i + 2)%nat ->
    slice ((s ++ d ++ put16 sp ++ put16 dp) ++ tl) i j = put16 sp).
  { intros i j -> ->. rewrite <- !app_assoc, (app_assoc s).
    apply slice_app_eq; rewrite ?length_app, ?length_put16; done. }
  assert (H3 : forall i j, i = (length s + length d + 2)%nat -> j = (i + 2)%nat ->
    slice ((s ++ d ++ put16 sp ++ put16 dp) ++ tl) i j = put16 dp).
  { intros i j -> ->. rewrite <- !app_assoc, (app_assoc s), (app_assoc (s ++ d)).
    apply slice_app_eq; rewrite ?length_app, ?length_put16; done. }
  assert (H0 : forall j, j = length s -> slice ((s ++ d ++ put16 sp ++ put16 dp) ++ tl) 0 j = s).
  { intros j ->. rewrite slice_0, <- !app_assoc. apply take_app_length. }
  unfold read_addrs. destruct v6; cbv iota in Ls, Ld |- *.
  1: rewrite (H0 16%nat), (H1 16%nat 32%nat), (H2 32%nat 34%nat), (H3 34%nat 36%nat) by lia.
  2: rewrite (H0 4%nat), (H1 4%nat 8%nat), (H2 8%nat 10%nat), (H3 10%nat 12%nat) by lia.
  all: rewrite <- (app_nil_r (put16 sp)), <- (app_nil_r (put16 dp)), !be16_put16 by done.
  all: subst s d; destruct sa, da; simpl in *; destruct_and?; simplify_eq; done.
Qed.

Lemma read_addrs_parse v6 body src dst :
  bytes_ok body -> (addr_len v6 <= length body)%nat -> read_addrs v6 body = (src, dst) ->
  fam_addr_ok v6 (ap_addr src) /\ fam_addr_ok v6 (ap_addr dst)
  /\ port_ok (ap_port src) /\ port_ok (ap_port dst)
  /\ body = addrs_bytes src dst ++ drop (addr_len v6) body.
Proof.
  intros Hok Hl H. unfold read_addrs in H. unfold port_ok, addrs_bytes, addr_len, addrPairV4, addrPairV6 in *.
  destruct v6; simplify_eq; cbn [fam_addr_ok ap_addr ap_port AsSlice AddrFrom16 AddrFrom4];
    rewrite !length_slice by lia.
  all: split_and!; auto with bytes; try apply be16_bound; auto with bytes.
  all: rewrite !put16_be16 by (rewrite ?length_slice; auto with bytes; lia).
  all: rewrite <- !app_assoc, !slice_drop, drop_0 by lia; done.
Qed.

(** * Reading back *)

Lemma prefix_parse hdr :
  length hdr = 16%nat -> bytes_ok hdr -> slice hdr 0 12 = v2Signature ->
  hdr = v2Signature ++ [byte_at hdr 12; byte_at hdr 13] ++ put16 (be16 (slice hdr 14 16)).
Proof.
  intros Hl Hok Hs.
  rewrite put16_be16 by (rewrite ?length_slice; auto with bytes; lia).
  rewrite <- Hs. clear Hs. do 16 (destruct hdr as [|? hdr]; [done|]). by destruct hdr.
Qed.

Lemma read_prefix fam alen rest e :
  read_full (mkReader (prefix_bytes fam alen ++ rest) e) 16
  = Ok (prefix_bytes fam alen, mkReader rest e).
Proof. apply (read_full_app (prefix_bytes fam alen)). Qed.

Lemma prefix_alen fam alen :
  0 <= alen < 2 ^ 16 -> be16 (slice (prefix_bytes fam alen) 14 16) = alen.
Proof. intros. change (slice _ 14 16) with (put16 alen ++ []). by apply be16_put16. Qed.

Lemma header_body_len h :
  header_ok h -> length (addrs_bytes (hSrc h) (hDst h) ++ tlvs_bytes (hTLVs h)) = block_len h.
Proof.
  intros (_ & Hs & Hd & _). by rewrite length_app, (addrs_bytes_len _ _ _ Hs Hd).
Qed.

Lemma ReadHeader_complete h rest e :
  header_ok h ->
  ReadHeaderV2WithTLVs (mkReader (header_bytes h ++ rest) e) = Ok (h, mkReader rest e).
Proof.
  intros Hok. pose proof (header_body_len h Hok) as Hbl.
  destruct Hok as (Hf & Hs & Hd & Hps & Hpd & Ht & Hlen).
  assert (Hal : 0 <= Z.of_nat (block_len h) < 2 ^ 16) by (change (2 ^ 16) with 65536; lia).
  unfold ReadHeaderV2WithTLVs, header_bytes. unfold u16. rewrite Z.mod_small by done.
  rewrite <- app_assoc, read_prefix, prefix_alen by done.
  change (byte_at _ 12 =? verCmdProxy) with true.
  change (byte_at _ 13) with (hFamily h).
  rewrite bool_decide_true by done. rewrite Hf. cbn [negb]. cbv zeta.
  rewrite Nat2Z.id, <- Hbl, read_full_app.
  rewrite read_addrs_build by done.
  fold (addr_len (fam_v6 (hFamily h))). rewrite <- (addrs_bytes_len _ _ _ Hs Hd).
  rewrite drop_app_length, length_app.
  rewrite (proj2 (Nat.ltb_ge _ _)) by lia.
  destruct (Nat.ltb_spec (length (addrs_bytes (hSrc h) (hDst h)))
    (length (addrs_bytes (hSrc h) (hDst h)) + length (tlvs_bytes (hTLVs h)))) as [Hlt|Hge].
  - rewrite (DecodeTLVs_complete _ Ht). by destruct h.
  - destruct h as [fam src dst [|t ts]]; [done|]. simpl in Hge. lia.
Qed.

Lemma lookup_tlv_app ts1 ts2 t :
  lookup_tlv (ts1 ++ ts2) t = match lookup_tlv ts1 t with Some v => Some v | None => lookup_tlv ts2 t end.
Proof. induction ts1 as [|x ts1 IH]; [done|]. cbn. by destruct (tlv_type x =? t). Qed.

Lemma lookup_tlv_in ts t : t ∈ map tlv_type ts -> exists v, lookup_tlv ts t = Some v /\ mkTLV t v ∈ ts.
Proof.
  induction ts as [|[ty v] ts IH]; cbn [map]; [by intros ?%not_elem_of_nil|].
  intros Ht. cbn. destruct (Z.eqb_spec ty t) as [<-|Hne].
  - exists v. split; [done|by left].
  - apply elem_of_cons in Ht as [->|Ht]; [done|]. destruct (IH Ht) as (v' & ? & ?).
    exists v'. split; [done|by right].
Qed.

Lemma ReadHeader_sound data e h r' :
  bytes_ok data -> ReadHeaderV2WithTLVs (mkReader data e) = Ok (h, r') ->
  header_ok h /\ data = header_bytes h ++ rd_data r' /\ rd_err r' = e.
Proof.
  intros Hok H. unfold ReadHeaderV2WithTLVs in H.
  destruct (read_full _ 16) as [[hdr r1]|] eqn:E1; [|done].
  apply read_full_ok in E1 as (L1 & D1 & R1). simpl in D1, R1. subst data.
  apply bytes_ok_app in Hok as [Hhdr Hok].
  case_bool_decide as Hsig; simpl in H; [|done].
  destruct (byte_at hdr 12 =? verCmdProxy) eqn:Hvc; simpl in H; simpl_bool; [|done].
  destruct (fam_known (byte_at hdr 13)) eqn:Hf; simpl in H; [|done].
  pose proof (prefix_parse hdr L1 Hhdr Hsig) as Hp. rewrite Hvc in Hp.
  pose proof (be16_bound (slice hdr 14 16) (bytes_ok_slice _ _ _ Hhdr)) as Ha.
  set (fam := byte_at hdr 13) in *. set (alen := be16 (slice hdr 14 16)) in *.
  destruct (read_full r1 (Z.to_nat alen)) as [[body r2]|] eqn:E2; [|done].
  apply read_full_ok in E2 as (L2 & D2 & R2). rewrite D2 in Hok.
  apply bytes_ok_app in Hok as [Hbody _].
  fold (addr_len (fam_v6 fam)) in H.
  destruct (Z.to_nat alen <? addr_len (fam_v6 fam))%nat eqn:Hlt; simpl_bool; [done|].
  destruct (read_addrs (fam_v6 fam) body) as [src dst] eqn:Era.
  apply read_addrs_parse in Era as (Hs & Hd & Hps & Hpd & Hb); [|done|lia].
  assert (Hdone : forall ts, h = mkHeaderV2 fam src dst ts -> r' = r2 -> tlvs_ok ts ->
    drop (addr_len (fam_v6 fam)) body = tlvs_bytes ts ->
    header_ok h /\ hdr ++ rd_data r1 = header_bytes h ++ rd_data r' /\ rd_err r' = e).
  { intros ts -> -> Hts Htl. rewrite Htl in Hb.
    assert (Hbl : block_len (mkHeaderV2 fam src dst ts) = Z.to_nat alen).
    { rewrite <- L2, Hb, length_app, (addrs_bytes_len _ _ _ Hs Hd). done. }
    split_and!; [|..|congruence].
    - unfold header_ok. rewrite Hbl. simpl. split_and!; try done. lia.
    - unfold header_bytes. rewrite Hbl, Z2Nat.id by lia. simpl hFamily.
      unfold u16. rewrite Z.mod_small by done. unfold prefix_bytes.
      rewrite D2, Hb. cbn [hSrc hDst hTLVs]. rewrite <- !app_assoc. rewrite Hp at 1.
      by rewrite <- !app_assoc. }
  destruct (addr_len (fam_v6 fam) <? Z.to_nat alen)%nat eqn:Hgt; simpl_bool.
  - destruct (DecodeTLVs _) as [[ts n]|[? ?]] eqn:ED; [|done]. simplify_eq.
    apply DecodeTLVs_inv in ED as [Hts Htl]; [|auto with bytes]. by eapply Hdone.
  - simplify_eq. eapply Hdone; [done..|split; constructor|].
    unfold tlvs_bytes. simpl. apply nil_length_inv. rewrite length_drop. lia.
Qed.

Lemma header_ok_Encode h : header_ok h -> Encode h = Ok (header_bytes h).
Proof.
  intros (Hf & Hs & Hd & _ & _ & Ht & _). apply Encode_header; try done. by apply tlvs_ok_sizes.
Qed.

(** C1: The header reader is exactly the inverse of [Encode] on a stream: it
    returns a header [h] and leaves the reader at [r'] if and only if [h] is a
    header the format can hold, and the stream is [Encode h] followed by what
    [r'] still delivers. So every encodable header reads back, every accepted
    header re-encodes to the very bytes that were consumed, and no byte past
    the header is taken. *)
Theorem ReadHeaderV2WithTLVs_iff data e h r' (Hdata : bytes_ok data) :
  ReadHeaderV2WithTLVs (mkReader data e) = Ok (h, r') <->
  header_ok h /\ rd_err r' = e /\ exists b, Encode h = Ok b /\ data = b ++ rd_data r'.
Proof.
  split.
  - intros H. apply ReadHeader_sound in H as (Hok & -> & He); [|done].
    split_and!; [done..|]. exists (header_bytes h). by rewrite header_ok_Encode.
  - intros (Hok & <- & b & Hb & ->). rewrite header_ok_Encode in Hb by done. simplify_eq.
    rewrite ReadHeader_complete by done. by destruct r'.
Qed.

(** [Encode] bounds each record but not their sum: whenever the family is
    known, the addresses fit it and every value is at most 65535 bytes, it
    succeeds with all the bytes, and writes the length of the address block
    modulo 2^16. *)
Theorem Encode_length h
  (Hfam : fam_known (hFamily h) = true)
  (Hsrc : fam_addr_ok (fam_v6 (hFamily h)) (ap_addr (hSrc h)))
  (Hdst : fam_addr_ok (fam_v6 (hFamily h)) (ap_addr (hDst h)))
  (Hsz : Forall (fun t => Z.of_nat (length (tlv_value t)) <= 0xFFFF) (hTLVs h)) :
  exists b, Encode h = Ok b /\ length b = (16 + block_len h)%nat
    /\ be16 (slice b 14 16) = Z.of_nat (block_len h) mod 2 ^ 16
    /\ (0xFFFF < Z.of_nat (block_len h) -> forall rest e r', bytes_ok (b ++ rest) ->
          ReadHeaderV2WithTLVs (mkReader (b ++ rest) e) <> Ok (h, r')).
Proof.
  exists (header_bytes h). split_and!.
  - by apply Encode_header.
  - unfold header_bytes. rewrite !length_app, (addrs_bytes_len _ _ _ Hsrc Hdst).
    unfold block_len, addr_len. change (length (prefix_bytes _ _)) with 16%nat.
    destruct (fam_v6 _); lia.
  - unfold header_bytes. set (tl := addrs_bytes _ _ ++ _).
    change (slice _ 14 16) with (put16 (u16 (Z.of_nat (block_len h))) ++ []).
    rewrite be16_put16; [done|]. apply Z.mod_pos_bound. lia.
  - intros Hbig rest e r' Hok H. apply ReadHeader_sound in H as ((_ & _ & _ & _ & _ & _ & Hl) & _); [|done].
    lia.
Qed.

(** * The splicer's header *)

Lemma toAddrPort_len a ap :
  toAddrPort a = Ok ap ->
  IsValid (ap_addr ap) = true
  /\ length (AsSlice (ap_addr ap)) = (if Is4 (ap_addr ap) then 4 else 16)%nat
  /\ port_ok (ap_port ap).
Proof.
  destruct a as [|ip port|s]; simpl; [done| |].
  - unfold AddrFromSlice. intros H.
    assert (Hp : port_ok (u16 port)) by (apply Z.mod_pos_bound; lia).
    destruct (length ip =? 4)%nat eqn:E4; [|destruct (length ip =? 16)%nat eqn:E16; [|done]];
      injection H as <-; simpl_bool; [done|].
    cbn [ap_addr ap_port]. unfold Unmap, AddrFrom16, Is4In6. case_bool_decide;
      cbn [IsValid Is4 AsSlice]; [|by split_and!].
    rewrite length_drop. split_and!; [done|lia|done].
  - destruct (ParseAddrPort s) as [ap'|] eqn:E; [|done]. intros H. injection H as <-.
    apply ParseAddrPort_ok in E as (Hok & Hv & Hp). simpl.
    apply Unmap_ok in Hok as [Hok Hv']. rewrite Hv' in *.
    destruct (Unmap (ap_addr ap')); [by rewrite Hv in Hv'|..]; split_and!; try done; apply Hok.
Qed.

Lemma WriteHeaderV2_image src dst b :
  WriteHeaderV2 src dst = Ok b ->
  exists fam sa da,
    toAddrPort src = Ok sa
    /\ length (AsSlice (ap_addr sa)) = (if (fam =? famTCP4)%Z then 4 else 16)%nat
    /\ length (AsSlice (ap_addr da)) = (if (fam =? famTCP4)%Z then 4 else 16)%nat
    /\ port_ok (ap_port sa)
    /\ b = prefix_bytes fam (if fam =? famTCP4 then 12 else 36) ++ addrs_bytes sa da
    /\ (fam = famTCP4 \/ fam = famTCP6).
Proof.
  unfold WriteHeaderV2. intros Hw. destruct (toAddrPort src) as [sa|] eqn:Es; [|done].
  destruct (toAddrPort dst) as [da|] eqn:Ed; [|done].
  destruct (negb _) eqn:E4; [done|]. simpl_bool. apply eqb_prop in E4.
  pose proof (toAddrPort_len _ _ Es) as (Vs & Ls & Ps).
  apply toAddrPort_len in Ed as (Vd & Ld & _).
  rewrite <- E4 in Ld. destruct sa as [s sp], da as [d dp]. cbn [ap_addr ap_port] in *.
  destruct s as [|s|s sz], d as [|d|d dz]; try done; injection Hw as <-.
  - exists famTCP4, (mkAddrPort (Addr4 s) sp), (mkAddrPort (Addr4 d) dp). split_and!; try done. by left.
  - exists famTCP6, (mkAddrPort (Addr6 s sz) sp), (mkAddrPort (Addr6 d dz) dp). split_and!; try done. by right.
Qed.

Lemma ReadHeaderV2_body fam alen body rest e :
  0 <= alen < 2 ^ 16 -> length body = Z.to_nat alen ->
  ReadHeaderV2 (mkReader (prefix_bytes fam alen ++ body ++ rest) e) =
  (if fam =? famTCP4 then
     if (Z.to_nat alen <? 12)%nat then Err RShort
     else Ok (Some (slice body 0 4, be16 (slice body 8 10)), mkReader rest e)
   else if fam =? famTCP6 then
     if (Z.to_nat alen <? 36)%nat then Err RShort
     else Ok (Some (slice body 0 16, be16 (slice body 32 34)), mkReader rest e)
   else Ok (None, mkReader rest e)).
Proof.
  intros Ha Hl. unfold ReadHeaderV2. rewrite read_prefix, prefix_alen by done.
  rewrite <- Hl, read_full_app. rewrite bool_decide_true by done. done.
Qed.

(** The splicer's header round-trips: whenever [WriteHeaderV2] writes a
    header for [src], [ReadHeaderV2] returns [src]'s address, unmapped to its
    native family, and its 16-bit port, and leaves exactly the bytes that
    follow. *)
Theorem WriteHeaderV2_ReadHeaderV2 src dst b rest e
  (Hw : WriteHeaderV2 src dst = Ok b) :
  exists sa, toAddrPort src = Ok sa
    /\ ReadHeaderV2 (mkReader (b ++ rest) e)
       = Ok (Some (AsSlice (ap_addr sa), ap_port sa), mkReader rest e).
Proof.
  destruct (WriteHeaderV2_image _ _ _ Hw) as (fam & sa & da & Es & Ls & Ld & Ps & -> & Hf).
  exists sa. split; [done|].
  rewrite <- app_assoc, ReadHeaderV2_body.
  - set (s := AsSlice (ap_addr sa)) in *. set (d := AsSlice (ap_addr da)) in *.
    assert (Hp : forall i j, i = (length s + length d)%nat -> j = (i + 2)%nat ->
      be16 (slice (s ++ d ++ put16 (ap_port sa) ++ put16 (ap_port da) ++ []) i j) = ap_port sa).
    { intros i j -> ->. rewrite (app_assoc s). rewrite slice_app_eq;
        rewrite ?length_app, ?length_put16; try done.
      rewrite <- (app_nil_r (put16 (ap_port sa))). by apply be16_put16. }
    assert (Hs : forall j, j = length s ->
      slice (s ++ d ++ put16 (ap_port sa) ++ put16 (ap_port da) ++ []) 0 j = s).
    { intros j ->. rewrite slice_0. apply take_app_length. }
    unfold addrs_bytes. fold s d. rewrite <- (app_nil_r (put16 (ap_port da))).
    destruct Hf as [-> | ->]; simpl in Ls, Ld.
    + rewrite (Hs 4%nat), (Hp 8%nat 10%nat) by lia. done.
    + rewrite (Hs 16%nat), (Hp 32%nat 34%nat) by lia. done.
  - by destruct Hf as [-> | ->].
  - unfold addrs_bytes. rewrite !length_app, !length_put16, Ls, Ld. by destruct Hf as [-> | ->].
Qed.

(** * The listener *)

Definition drop_of (c : RawConn) (d : nat * ReadErr) : Prop :=
  d.1 = rc_id c /\ ReadHeaderV2 (rc_stream c) = Err d.2.

Lemma Accept_spec inner drops drops' w rest :
  Accept inner drops = (drops', Some (Some w), rest) ->
  exists pre new src,
    drops' = drops ++ new
    /\ inner = map AcceptConn pre ++ AcceptConn (wc_conn w) :: rest
    /\ Forall2 drop_of pre new
    /\ ReadHeaderV2 (rc_stream (wc_conn w)) = Ok (src, wc_stream w)
    /\ wc_remote w = (match src with Some (ip, port) => Some (TCPAddr ip port) | None => None end).
Proof.
  revert drops. induction inner as [|a inner IH]; intros drops H; [done|].
  cbn [Accept] in H. destruct a as [c|]; [|done].
  destruct (ReadHeaderV2 (rc_stream c)) as [[src br]|e] eqn:E.
  - injection H as <- <- <-. exists [], [], src. rewrite app_nil_r. split_and!; done || constructor.
  - apply IH in H as (pre & new & src & -> & -> & Hf & Hr & Hw).
    exists (c :: pre), ((rc_id c, e) :: new), src. rewrite <- app_assoc. split_and!; try done.
    by constructor.
Qed.

(** [Listener.Accept] returns the first connection whose PROXY header is
    valid: every connection accepted before it had an invalid one and was
    closed and reported with that error, in order; the connection returned
    reads from the byte after its header, and its remote address is the
    announced one, or the real peer for a LOCAL or unsupported header. *)
Theorem Accept_first_valid inner drops w rest
  (Hacc : Accept inner [] = (drops, Some (Some w), rest)) :
  exists pre src,
    inner = map AcceptConn pre ++ AcceptConn (wc_conn w) :: rest
    /\ Forall2 drop_of pre drops
    /\ ReadHeaderV2 (rc_stream (wc_conn w)) = Ok (src, wc_stream w)
    /\ conn_RemoteAddr w = match src with
         | Some (ip, port) => TCPAddr ip port
         | None => rc_peer (wc_conn w)
         end.
Proof.
  apply Accept_spec in Hacc as (pre & new & src & -> & -> & Hf & Hr & Hw).
  exists pre, src. split_and!; [done..|].
  unfold conn_RemoteAddr. rewrite Hw. by destruct src as [[]|].
Qed.

(** * Witnesses *)

Definition ap4_sample (n port : Z) : AddrPort := mkAddrPort (Addr4 [192; 0; 2; n]) port.
Definition header_sample : HeaderV2 :=
  mkHeaderV2 famUDP4 (ap4_sample 1 40000) (ap4_sample 2 443) tlv_sample.

Lemma ReadHeaderV2WithTLVs_iff_witness :
  bytes_ok (header_bytes header_sample ++ [1; 2])
  /\ ReadHeaderV2WithTLVs (mkReader (header_bytes header_sample ++ [1; 2]) EOF)
     = Ok (header_sample, mkReader [1; 2] EOF).
Proof.
  assert (H : bytes_ok (header_bytes header_sample ++ [1; 2])) by decide_closed.
  split; [exact H|]. apply (ReadHeaderV2WithTLVs_iff _ _ _ _ H).
  split; [decide_closed|]. split; [reflexivity|].
  exists (header_bytes header_sample). split; reflexivity.
Defined.

Lemma Encode_length_witness :
  exists b, Encode header_sample = Ok b /\ length b = (16 + block_len header_sample)%nat.
Proof.
  destruct (Encode_length header_sample) as (b & H1 & H2 & _).
  - reflexivity.
  - decide_closed.
  - decide_closed.
  - decide_closed.
  - exists b. split; [exact H1|exact H2].
Defined.

Definition src_sample : NetAddr := TCPAddr [203; 0; 113; 9] 50000.
Definition dst_sample : NetAddr := OtherAddr (bs "198.51.100.1:443").

Lemma WriteHeaderV2_ReadHeaderV2_witness :
  exists b sa, WriteHeaderV2 src_sample dst_sample = Ok b /\ toAddrPort src_sample = Ok sa
    /\ ReadHeaderV2 (mkReader (b ++ [7]) EOF)
       = Ok (Some (AsSlice (ap_addr sa), ap_port sa), mkReader [7] EOF).
Proof.
  assert (H : WriteHeaderV2 src_sample dst_sample
    = Ok (prefix_bytes famTCP4 12 ++ [203; 0; 113; 9; 198; 51; 100; 1] ++ put16 50000 ++ put16 443))
    by reflexivity.
  destruct (WriteHeaderV2_ReadHeaderV2 _ _ _ [7] EOF H) as (sa & H1 & H2).
  eexists _, sa. split; [exact H|]. split; [exact H1|exact H2].
Defined.

Lemma Accept_first_valid_witness :
  let bad := mkRawConn 1 NilAddr (mkReader [71; 69; 84] EOF) in
  let good := mkRawConn 2 NilAddr (mkReader
    (prefix_bytes famTCP4 12 ++ [203; 0; 113; 9; 198; 51; 100; 1] ++ put16 50000 ++ put16 443) EOF) in
  let w := mkWrappedConn good (mkReader [] EOF) (Some (TCPAddr [203; 0; 113; 9] 50000)) in
  Accept [AcceptConn bad; AcceptConn good] [] = ([(1%nat, RHeader ErrUnexpectedEOF)], Some (Some w), [])
  /\ exists pre src, [AcceptConn bad; AcceptConn good] = map AcceptConn pre ++ [AcceptConn (wc_conn w)]
       /\ ReadHeaderV2 (rc_stream (wc_conn w)) = Ok (src, wc_stream w).
Proof.
  intros bad good w.
  assert (H : Accept [AcceptConn bad; AcceptConn good] []
    = ([(1%nat, RHeader ErrUnexpectedEOF)], Some (Some w), [])) by reflexivity.
  split; [exact H|]. destruct (Accept_first_valid _ _ _ _ H) as (pre & src & H1 & _ & H2 & _).
  exists pre, src. split; [exact H1|exact H2].
Defined.
