(* ===== verification/UdpFlows.v ===== *)
(** [internal/proxyproto/udp_listener.go]: the flow table that maps a kernel
    source to the source its first datagram announced, its LRU list and reverse
    map, the header parser and writer for UDP, and the [ReadFrom]/[WriteTo]
    pair.

    A [*list.Element] is a number; the map and the list hold such numbers, so
    that the pointer comparisons of the code ([rel == el]) are comparisons of
    numbers. Every call of [l.now] is an argument; the mutex makes each
    operation atomic. *)

From Stdlib Require Import Sorted.
From S2P Require Import Prelude Netip Utf8 Tlv Reader.

(** * Data *)

Definition udpHeaderFixed : nat := 16.
Definition DefaultUDPIdleTimeout : Z := 60 * 1000000000.
Definition DefaultUDPMaxFlows : Z := 100000.

Record UDPAddr := mkUDPAddr { ua_ip : bytes; ua_port : Z }.
#[export] Instance UDPAddr_eq_dec : EqDecision UDPAddr.
Proof. solve_decision. Defined.

(** A packet address: a [*net.UDPAddr] or another [net.Addr] by its string. *)
Inductive PktAddr : Type := PUDP (a : UDPAddr) | POther (s : gostring).
#[export] Instance PktAddr_eq_dec : EqDecision PktAddr.
Proof. solve_decision. Defined.

Record flowEntry := mkFlow {
  fe_key : AddrPort;
  fe_realAddr : UDPAddr;
  fe_realAddrKey : AddrPort;
  fe_kernelAddr : UDPAddr;
  fe_lastSeen : Z
}.

(** The listener: [ul_elems] is the content of the list elements allocated so
    far, [ul_next] the next one; [ul_lru] is front (most recent) first. *)
Record UDPListener := mkUL {
  ul_idleTimeout : Z;
  ul_maxFlows : Z;
  ul_elems : gmap nat flowEntry;
  ul_next : nat;
  ul_flows : gmap AddrPort nat;
  ul_reverse : gmap AddrPort nat;
  ul_lru : list nat
}.

Record UDPListenerOptions := mkULOpts { opt_idleTimeout : Z; opt_maxFlows : Z }.

Definition NewUDPListener (opts : UDPListenerOptions) : UDPListener :=
  let idle := if opt_idleTimeout opts <=? 0 then DefaultUDPIdleTimeout else opt_idleTimeout opts in
  let max := if opt_maxFlows opts <=? 0 then DefaultUDPMaxFlows else opt_maxFlows opts in
  mkUL idle max ∅ 0 ∅ ∅ [].

(** * The table *)

Definition lru_remove (el : nat) (l : list nat) : list nat := filter (fun x => x <> el) l.
Definition lru_move_front (el : nat) (l : list nat) : list nat := el :: lru_remove el l.

(** [fe.lastSeen = now; l.lru.MoveToFront(el)], as [lookup] and
    [reverseLookup] end. *)
Definition touch (l : UDPListener) (el : nat) (fe : flowEntry) (now : Z) : UDPListener :=
  mkUL (ul_idleTimeout l) (ul_maxFlows l)
    (<[el := mkFlow (fe_key fe) (fe_realAddr fe) (fe_realAddrKey fe) (fe_kernelAddr fe) now]> (ul_elems l))
    (ul_next l) (ul_flows l) (ul_reverse l) (lru_move_front el (ul_lru l)).

(** [if rel, ok := l.reverse[k]; ok && rel == el { delete(l.reverse, k) }] *)
Definition delete_reverse (rev : gmap AddrPort nat) (k : AddrPort) (el : nat) : gmap AddrPort nat :=
  match rev !! k with
  | Some rel => if (rel =? el)%nat then delete k rev else rev
  | None => rev
  end.

Definition removeEntry (l : UDPListener) (el : nat) (fe : flowEntry) : UDPListener :=
  mkUL (ul_idleTimeout l) (ul_maxFlows l) (ul_elems l) (ul_next l)
    (delete (fe_key fe) (ul_flows l))
    (delete_reverse (ul_reverse l) (fe_realAddrKey fe) el)
    (lru_remove el (ul_lru l)).

Definition lookup_flow (l : UDPListener) (now : Z) (key : AddrPort) : option UDPAddr * UDPListener :=
  match ul_flows l !! key with
  | None => (None, l)
  | Some el =>
    match ul_elems l !! el with
    | None => (None, l)
    | Some fe =>
      if ul_idleTimeout l <? now - fe_lastSeen fe then (None, removeEntry l el fe)
      else (Some (fe_realAddr fe), touch l el fe now)
    end
  end.

Definition addrKey (a : PktAddr) : option AddrPort :=
  match a with
  | PUDP ua =>
    match AddrFromSlice (ua_ip ua) with
    | None => None
    | Some ip => Some (mkAddrPort (Unmap ip) (u16 (ua_port ua)))
    end
  | POther s =>
    match ParseAddrPort s with
    | None => None
    | Some ap => Some (mkAddrPort (Unmap (ap_addr ap)) (ap_port ap))
    end
  end.

Definition reverseLookup (l : UDPListener) (now : Z) (addr : PktAddr) : option UDPAddr * UDPListener :=
  match addrKey addr with
  | None => (None, l)
  | Some key =>
    match ul_reverse l !! key with
    | None => (None, l)
    | Some el =>
      match ul_elems l !! el with
      | None => (None, l)
      | Some fe =>
        if ul_idleTimeout l <? now - fe_lastSeen fe then (None, removeEntry l el fe)
        else (Some (fe_kernelAddr fe), touch l el fe now)
      end
    end
  end.

(** [l.lru.Back()] *)
Definition lru_back (l : UDPListener) : option nat := last (ul_lru l).

(** The overflow loop of [remember]; every iteration takes an element off the
    list, so its length bounds them. *)
Fixpoint evict_overflow (fuel : nat) (l : UDPListener) : UDPListener :=
  match fuel with
  | O => l
  | S fuel' =>
    if ul_maxFlows l <=? Z.of_nat (size (ul_flows l)) then
      match lru_back l with
      | None => l
      | Some back =>
        match ul_elems l !! back with
        | None => l
        | Some bfe => evict_overflow fuel' (removeEntry l back bfe)
        end
      end
    else l
  end.

Definition remember (l : UDPListener) (now : Z) (kernelKey : AddrPort) (kernelAddr real : UDPAddr)
  : UDPListener :=
  match addrKey (PUDP real) with
  | None => l
  | Some realKey =>
    match ul_flows l !! kernelKey with
    | Some el =>
      match ul_elems l !! el with
      | None => l
      | Some fe =>
        let changed := negb (bool_decide (fe_realAddrKey fe = realKey)) in
        let rev := if changed
          then <[realKey := el]> (delete_reverse (ul_reverse l) (fe_realAddrKey fe) el)
          else ul_reverse l in
        let fe' := mkFlow (fe_key fe) (if changed then real else fe_realAddr fe)
          (if changed then realKey else fe_realAddrKey fe) kernelAddr now in
        mkUL (ul_idleTimeout l) (ul_maxFlows l) (<[el := fe']> (ul_elems l)) (ul_next l)
          (ul_flows l) rev (lru_move_front el (ul_lru l))
      end
    | None =>
      let l := evict_overflow (S (length (ul_lru l))) l in
      let fe := mkFlow kernelKey real realKey kernelAddr now in
      let el := ul_next l in
      mkUL (ul_idleTimeout l) (ul_maxFlows l) (<[el := fe]> (ul_elems l)) (S el)
        (<[kernelKey := el]> (ul_flows l)) (<[realKey := el]> (ul_reverse l)) (el :: ul_lru l)
    end
  end.

Definition flowCount (l : UDPListener) : nat := size (ul_flows l).

(** The loop of [evictIdle], with the list's length as bound. *)
Fixpoint evict_idle_loop (fuel : nat) (now : Z) (l : UDPListener) : UDPListener :=
  match fuel with
  | O => l
  | S fuel' =>
    match lru_back l with
    | None => l
    | Some back =>
      match ul_elems l !! back with
      | None => l
      | Some fe =>
        if now - fe_lastSeen fe <=? ul_idleTimeout l then l
        else evict_idle_loop fuel' now (removeEntry l back fe)
      end
    end
  end.
Definition evictIdle (l : UDPListener) (now : Z) : UDPListener :=
  evict_idle_loop (S (length (ul_lru l))) now l.

(** * The header *)

Inductive UDPHdrErr : Type :=
| errNotProxyV2 | errUDPTruncated | errUDPVersionCmd | errUDP4Short | errUDP6Short | errUDPFamily.
#[export] Instance UDPHdrErr_eq_dec : EqDecision UDPHdrErr.
Proof. solve_decision. Defined.

Definition parseProxyV2UDPHeader (buf : bytes) : result UDPHdrErr (option UDPAddr * nat) :=
  if (length buf <? udpHeaderFixed)%nat then Err errNotProxyV2
  else if negb (bool_decide (slice buf 0 12 = v2Signature)) then Err errNotProxyV2
  else
    let verCmd := byte_at buf 12 in
    let fam := byte_at buf 13 in
    let addrLen := Z.to_nat (be16 (slice buf 14 16)) in
    let total := (udpHeaderFixed + addrLen)%nat in
    if (length buf <? total)%nat then Err errUDPTruncated
    else if verCmd =? verCmdLocal then Ok (None, total)
    else if negb (verCmd =? verCmdProxy) then Err errUDPVersionCmd
    else
      let addr := slice buf udpHeaderFixed (udpHeaderFixed + addrLen) in
      if fam =? famUDP4 then
        if (addrLen <? addrPairV4)%nat then Err errUDP4Short
        else Ok (Some (mkUDPAddr (slice addr 0 4) (be16 (slice addr 8 10))), total)
      else if fam =? famUDP6 then
        if (addrLen <? addrPairV6)%nat then Err errUDP6Short
        else Ok (Some (mkUDPAddr (slice addr 0 16) (be16 (slice addr 32 34))), total)
      else Err errUDPFamily.

Inductive UDPWriteErr : Type := UWNil | UWBadAddr | UWFamily | UWPanic.

(** [None] is a nil [*net.UDPAddr]. *)
Definition WriteHeaderV2UDP (src dst : option UDPAddr) : result UDPWriteErr bytes :=
  match src, dst with
  | Some src, Some dst =>
    match AddrFromSlice (ua_ip src), AddrFromSlice (ua_ip dst) with
    | Some sip, Some dip =>
      let sip := Unmap sip in
      let dip := Unmap dip in
      if negb (Bool.eqb (Is4 sip) (Is4 dip)) then Err UWFamily
      else
        let buf := v2Signature ++ [verCmdProxy] in
        let '(fam, alen, as_) :=
          if Is4 sip then (famUDP4, Z.of_nat addrPairV4, As4) else (famUDP6, Z.of_nat addrPairV6, As16) in
        let buf := buf ++ [fam] ++ put16 alen in
        match as_ sip, as_ dip with
        | Some s, Some d =>
          Ok (buf ++ s ++ d ++ put16 (u16 (ua_port src)) ++ put16 (u16 (ua_port dst)))
        | _, _ => Err UWPanic
        end
    | _, _ => Err UWBadAddr
    end
  | _, _ => Err UWNil
  end.

(** * Reads and writes *)

(** One datagram from the inner socket, with what [l.now] would return in
    [lookup] and in [remember]. *)
Record Datagram := mkDatagram {
  dg_data : bytes; dg_addr : PktAddr; dg_now_lookup : Z; dg_now_remember : Z
}.

(** One iteration of [ReadFrom]: the datagram handed to the caller, or [None]
    when the loop continues; and the error given to [onError]. *)
Definition ReadFrom_step (l : UDPListener) (d : Datagram)
  : option (bytes * PktAddr) * option UDPHdrErr * UDPListener :=
  let p := dg_data d in
  let addr := dg_addr d in
  match addrKey addr, addr with
  | Some key, PUDP kernelUDP =>
    let '(cached, l) := lookup_flow l (dg_now_lookup d) key in
    match cached with
    | Some real => (Some (p, PUDP real), None, l)
    | None =>
      match parseProxyV2UDPHeader p with
      | Err errNotProxyV2 => (Some (p, addr), None, l)
      | Err parseErr => (Some (p, addr), Some parseErr, l)
      | Ok (None, hdrLen) =>
        if (hdrLen =? length p)%nat then (None, None, l)
        else (Some (drop hdrLen p, addr), None, l)
      | Ok (Some realAddr, hdrLen) =>
        let l := remember l (dg_now_remember d) key kernelUDP realAddr in
        if (hdrLen =? length p)%nat then (None, None, l)
        else (Some (drop hdrLen p, PUDP realAddr), None, l)
      end
    end
  | _, _ => (Some (p, addr), None, l)
  end.

(** [ReadFrom] on the datagrams to come: the one it returns, or [None] when it
    is still waiting (or gets the socket's error) after all of them. *)
Fixpoint ReadFrom (l : UDPListener) (ds : list Datagram)
  : option (bytes * PktAddr) * UDPListener * list Datagram :=
  match ds with
  | [] => (None, l, [])
  | d :: ds' =>
    match ReadFrom_step l d with
    | (Some r, _, l) => (Some r, l, ds')
    | (None, _, l) => ReadFrom l ds'
    end
  end.

(** [WriteTo]: the address the datagram is sent to. *)
Definition WriteTo (l : UDPListener) (now : Z) (addr : PktAddr) : PktAddr * UDPListener :=
  match reverseLookup l now addr with
  | (Some target, l) => (PUDP target, l)
  | (None, l) => (addr, l)
  end.

(** * Reachable states *)

(** The states of a listener over time, with a clock that never runs
    backwards: the listener's age is the time of the last call. *)
Inductive ul_reach (opts : UDPListenerOptions) : Z -> UDPListener -> Prop :=
| reach_new T : ul_reach opts T (NewUDPListener opts)
| reach_read T l d r e l' :
    ul_reach opts T l -> T <= dg_now_lookup d -> dg_now_lookup d <= dg_now_remember d ->
    ReadFrom_step l d = (r, e, l') -> ul_reach opts (dg_now_remember d) l'
| reach_write T l t a b l' :
    ul_reach opts T l -> T <= t -> WriteTo l t a = (b, l') -> ul_reach opts t l'
| reach_evict T l t :
    ul_reach opts T l -> T <= t -> ul_reach opts t (evictIdle l t).

(** * The invariant *)

Definition seen_at (l : UDPListener) (e : nat) : Z :=
  match ul_elems l !! e with Some fe => fe_lastSeen fe | None => 0 end.

(** The map, the reverse map and the list agree, and the list is ordered by
    the time of last use. *)
Record ul_inv (T : Z) (l : UDPListener) : Prop := mkInv {
  inv_max : 0 < ul_maxFlows l;
  inv_size : Z.of_nat (size (ul_flows l)) <= ul_maxFlows l;
  inv_nodup : NoDup (ul_lru l);
  inv_flows : forall k e, ul_flows l !! k = Some e <->
    e ∈ ul_lru l /\ exists fe, ul_elems l !! e = Some fe /\ fe_key fe = k;
  inv_elems : forall e, e ∈ ul_lru l -> exists fe, ul_elems l !! e = Some fe
    /\ addrKey (PUDP (fe_realAddr fe)) = Some (fe_realAddrKey fe) /\ fe_lastSeen fe <= T;
  inv_rev : forall r e, ul_reverse l !! r = Some e ->
    e ∈ ul_lru l /\ exists fe, ul_elems l !! e = Some fe /\ fe_realAddrKey fe = r;
  inv_fresh : forall e fe, ul_elems l !! e = Some fe -> (e < ul_next l)%nat;
  inv_sorted : StronglySorted (fun e1 e2 => seen_at l e2 <= seen_at l e1) (ul_lru l)
}.

Lemma elem_of_lru_remove el x l : x ∈ lru_remove el l <-> x <> el /\ x ∈ l.
Proof. unfold lru_remove. by rewrite list_elem_of_filter. Qed.

Lemma StronglySorted_lru_remove (R : nat -> nat -> Prop) el l :
  StronglySorted R l -> StronglySorted R (lru_remove el l).
Proof.
  induction 1 as [|a l Hs IH Ha]; unfold lru_remove in *; [constructor|].
  rewrite filter_cons. case_decide; [|done]. constructor; [done|].
  rewrite Forall_forall in *. intros x [_ Hx]%list_elem_of_filter. auto.
Qed.

Lemma sorted_seen_ext (f g : nat -> Z) l :
  (forall x, x ∈ l -> f x = g x) ->
  StronglySorted (fun a b => f b <= f a) l -> StronglySorted (fun a b => g b <= g a) l.
Proof.
  intros Hfg Hs. induction Hs as [|a l Hs IH Ha]; [constructor|]. constructor.
  - apply IH. intros. apply Hfg. set_solver.
  - rewrite Forall_forall in *. intros x Hx. rewrite <- !Hfg by set_solver. auto.
Qed.

(** In a sorted list every element is related to the last one. *)
Lemma StronglySorted_last (R : nat -> nat -> Prop) l el :
  StronglySorted R (l ++ [el]) -> forall x, x ∈ l -> R x el.
Proof.
  induction l as [|a l IH]; simpl; intros Hs x Hx; [set_solver|].
  inv Hs. apply elem_of_cons in Hx as [->|Hx]; [|by apply IH].
  rewrite Forall_forall in *. apply H2. set_solver.
Qed.

Lemma delete_reverse_lookup rev k el r e :
  delete_reverse rev k el !! r = Some e <-> rev !! r = Some e /\ ~ (r = k /\ e = el).
Proof.
  unfold delete_reverse. destruct (rev !! k) as [rel|] eqn:E.
  - destruct (Nat.eqb_spec rel el) as [->|Hne].
    + rewrite lookup_delete_Some. split.
      * intros [? ?]. split; [done|]. naive_solver.
      * intros [Hr Hn]. split; [|done]. intros ->. naive_solver.
    + split; [|tauto]. intros Hr. split; [done|]. intros [-> ->]. naive_solver.
  - split; [|tauto]. intros Hr. split; [done|]. intros [-> ->]. naive_solver.
Qed.

Lemma ul_inv_weaken T T' l : T <= T' -> ul_inv T l -> ul_inv T' l.
Proof.
  intros HT []. constructor; try done. intros e He.
  destruct (inv_elems0 e He) as (fe & ? & ? & ?). exists fe. split_and!; [done..|lia].
Qed.

Lemma NewUDPListener_inv opts T : ul_inv T (NewUDPListener opts).
Proof.
  unfold NewUDPListener. constructor; simpl.
  - destruct (Z.leb_spec (opt_maxFlows opts) 0); unfold DefaultUDPMaxFlows; lia.
  - rewrite map_size_empty. destruct (Z.leb_spec (opt_maxFlows opts) 0); unfold DefaultUDPMaxFlows; lia.
  - constructor.
  - intros. split; [by rewrite lookup_empty|set_solver].
  - set_solver.
  - intros. by rewrite lookup_empty in *.
  - intros. by rewrite lookup_empty in *.
  - constructor.
Qed.

Lemma removeEntry_inv T l el fe :
  ul_inv T l -> el ∈ ul_lru l -> ul_elems l !! el = Some fe -> ul_inv T (removeEntry l el fe).
Proof.
  intros [] Hin Hel. constructor; simpl; try done.
  - etrans; [|exact inv_size0]. apply Nat2Z.inj_le.
    apply map_subseteq_size, delete_subseteq.
  - by apply NoDup_filter.
  - intros k e. rewrite lookup_delete_Some, inv_flows0, elem_of_lru_remove. split.
    + intros (Hk & He & fe' & Hfe & <-). split_and!; [|done|eauto]. intros ->. naive_solver.
    + intros ((Hne & He) & fe' & Hfe & <-). split_and!; [|done|eauto]. intros Hk.
      apply Hne. assert (H1 : ul_flows l !! fe_key fe' = Some e) by (apply inv_flows0; eauto).
      assert (H2 : ul_flows l !! fe_key fe' = Some el) by (apply inv_flows0; eauto). congruence.
  - intros e [_ He]%elem_of_lru_remove. auto.
  - intros r e [Hr Hn]%delete_reverse_lookup. destruct (inv_rev0 r e Hr) as (He & fe' & Hfe & Hk).
    split; [|eauto]. apply elem_of_lru_remove. split; [|done]. intros ->. naive_solver.
  - by apply StronglySorted_lru_remove.
Qed.

(** Rewriting an element's content, with its key kept and its time set to
    now, and moving it to the front. *)
Lemma refresh_inv T l el fe fe' rev now :
  ul_inv T l -> T <= now -> ul_elems l !! el = Some fe -> el ∈ ul_lru l ->
  fe_key fe' = fe_key fe -> fe_lastSeen fe' = now ->
  addrKey (PUDP (fe_realAddr fe')) = Some (fe_realAddrKey fe') ->
  (forall r e, rev !! r = Some e -> (e = el /\ r = fe_realAddrKey fe') \/ (e <> el /\ ul_reverse l !! r = Some e)) ->
  ul_inv now (mkUL (ul_idleTimeout l) (ul_maxFlows l) (<[el := fe']> (ul_elems l)) (ul_next l)
    (ul_flows l) rev (lru_move_front el (ul_lru l))).
Proof.
  intros [] HT Hel Hin Hkey Hseen Hak Hrev.
  assert (Hmem : forall e, e ∈ lru_move_front el (ul_lru l) <-> e ∈ ul_lru l).
  { intros e. unfold lru_move_front. rewrite elem_of_cons, elem_of_lru_remove.
    destruct (decide (e = el)) as [->|]; tauto. }
  constructor; simpl; try done.
  - unfold lru_move_front. constructor; [|by apply NoDup_filter]. rewrite elem_of_lru_remove. tauto.
  - intros k e. rewrite Hmem, inv_flows0. apply and_iff_compat_l. split.
    + intros (fe0 & Hfe & <-). destruct (decide (e = el)) as [->|Hne].
      * exists fe'. rewrite lookup_insert_eq. naive_solver.
      * exists fe0. by rewrite lookup_insert_ne.
    + intros (fe0 & Hfe & <-). apply lookup_insert_Some in Hfe as [[<- <-]|[Hne Hfe]]; eauto.
  - intros e He. rewrite Hmem in He. destruct (decide (e = el)) as [->|Hne].
    + exists fe'. rewrite lookup_insert_eq. split_and!; [done..|lia].
    + destruct (inv_elems0 e He) as (fe0 & ? & ? & ?). exists fe0. rewrite lookup_insert_ne by done.
      split_and!; [done..|lia].
  - intros r e Hr. rewrite Hmem. destruct (Hrev r e Hr) as [[-> ->]|[Hne Hr']].
    + split; [done|]. exists fe'. by rewrite lookup_insert_eq.
    + destruct (inv_rev0 r e Hr') as (He & fe0 & Hfe & Hk). split; [done|]. exists fe0.
      by rewrite lookup_insert_ne.
  - intros e fe0. rewrite lookup_insert_Some. intros [[<- <-]|[_ ?]]; eauto.
  - unfold lru_move_front, seen_at. simpl. constructor.
    + eapply sorted_seen_ext; [|apply StronglySorted_lru_remove, inv_sorted0].
      intros x [Hx _]%elem_of_lru_remove. unfold seen_at. by rewrite lookup_insert_ne.
    + apply Forall_forall. intros x [Hx He]%elem_of_lru_remove.
      rewrite lookup_insert_eq, lookup_insert_ne by done.
      destruct (inv_elems0 x He) as (fe0 & -> & _ & ?). lia.
Qed.

Lemma lru_remove_last el l : NoDup (l ++ [el]) -> lru_remove el (l ++ [el]) = l.
Proof.
  intros Hnd. unfold lru_remove. rewrite filter_app. rewrite filter_cons_False by tauto.
  rewrite app_nil_r. apply NoDup_app in Hnd as (_ & Hn & _).
  assert (Hne : Forall (fun x => x <> el) l).
  { apply Forall_forall. intros x Hx ->. apply (Hn el Hx). set_solver. }
  clear Hn. induction Hne as [|x l Hx _ IH]; [done|]. rewrite filter_cons_True by done. by f_equal.
Qed.

(** The back of the list under the invariant. *)
Lemma inv_back T l back :
  ul_inv T l -> lru_back l = Some back ->
  exists fe pre, ul_elems l !! back = Some fe /\ ul_lru l = pre ++ [back]
    /\ lru_remove back (ul_lru l) = pre /\ ul_inv T (removeEntry l back fe).
Proof.
  intros Hinv Hb. unfold lru_back in Hb. apply last_Some in Hb as [pre Hpre].
  assert (Hin : back ∈ ul_lru l) by (rewrite Hpre; set_solver).
  destruct (inv_elems T l Hinv back Hin) as (fe & Hfe & _).
  exists fe, pre. split_and!; [done..| |by eapply removeEntry_inv].
  rewrite Hpre. apply lru_remove_last. rewrite <- Hpre. by eapply inv_nodup.
Qed.

(** The loop is bounded and makes room: what it keeps is the front of the
    list. *)
Lemma evict_overflow_spec fuel T l :
  ul_inv T l -> (length (ul_lru l) < fuel)%nat ->
  let l' := evict_overflow fuel l in
  ul_inv T l' /\ Z.of_nat (size (ul_flows l')) < ul_maxFlows l'
  /\ ul_elems l' = ul_elems l /\ ul_next l' = ul_next l /\ ul_idleTimeout l' = ul_idleTimeout l
  /\ ul_maxFlows l' = ul_maxFlows l
  /\ (exists gone, ul_lru l = ul_lru l' ++ gone)
  /\ ul_flows l' ⊆ ul_flows l.
Proof.
  revert l. induction fuel as [|fuel IH]; intros l Hinv Hlen; [lia|]. cbn [evict_overflow].
  destruct (Z.leb_spec (ul_maxFlows l) (Z.of_nat (size (ul_flows l)))) as [Hfull|Hroom].
  - destruct (lru_back l) as [back|] eqn:Eb.
    + destruct (inv_back _ _ _ Hinv Eb) as (fe & pre & Hfe & Hpre & Hrem & Hinv').
      rewrite Hfe. specialize (IH _ Hinv'). simpl in IH. rewrite Hrem in IH.
      destruct IH as (H1 & H2 & H3 & H4 & H5 & H6 & [gone Hg] & H8).
      { rewrite Hpre, length_app in Hlen. simpl in Hlen. lia. }
      split_and!; try done.
      * exists (gone ++ [back]). by rewrite app_assoc, <- Hg.
      * etrans; [exact H8|]. apply delete_subseteq.
    + exfalso. unfold lru_back in Eb. apply last_None in Eb. destruct Hinv.
      assert (He : ul_flows l = ∅).
      { apply map_empty. intros k. destruct (ul_flows l !! k) as [e|] eqn:Ek; [|done].
        apply inv_flows0 in Ek as [Hin _]. rewrite Eb in Hin. set_solver. }
      rewrite He, map_size_empty in Hfull. lia.
  - split_and!; try done. exists []. by rewrite app_nil_r.
Qed.

(** A fresh element for a new key, where there is room. *)
Lemma insert_inv T l k rk ka real now :
  ul_inv T l -> T <= now -> Z.of_nat (size (ul_flows l)) < ul_maxFlows l ->
  ul_flows l !! k = None -> addrKey (PUDP real) = Some rk ->
  let el := ul_next l in
  ul_inv now (mkUL (ul_idleTimeout l) (ul_maxFlows l)
    (<[el := mkFlow k real rk ka now]> (ul_elems l)) (S el)
    (<[k := el]> (ul_flows l)) (<[rk := el]> (ul_reverse l)) (el :: ul_lru l)).
Proof.
  intros Hinv HT Hroom Hk Hrk el. destruct Hinv.
  assert (Hfr : el ∉ ul_lru l).
  { intros Hin. destruct (inv_elems0 _ Hin) as (fe & Hfe & _). apply inv_fresh0 in Hfe. lia. }
  assert (Hold : forall e fe, e ∈ ul_lru l -> (<[el := fe]> (ul_elems l)) !! e = ul_elems l !! e).
  { intros e fe Hin. rewrite lookup_insert_ne; [done|]. intros ->. done. }
  constructor; simpl; try done.
  - rewrite map_size_insert_None by done. lia.
  - by constructor.
  - intros k' e. rewrite lookup_insert_Some, elem_of_cons. split.
    + intros [[<- <-]|[Hne Hk']].
      * split; [by left|]. eexists. by rewrite lookup_insert_eq.
      * apply inv_flows0 in Hk' as (Hin & fe & ? & ?). split; [by right|]. exists fe.
        by rewrite Hold.
    + intros ([->|Hin] & fe & Hfe & <-).
      * rewrite lookup_insert_eq in Hfe. simplify_eq. by left.
      * rewrite Hold in Hfe by done. right.
        assert (Hf : ul_flows l !! fe_key fe = Some e) by (apply inv_flows0; eauto).
        split; [|done]. intros ->. congruence.
  - intros e [->|Hin]%elem_of_cons.
    + eexists. rewrite lookup_insert_eq. split_and!; [done..|simpl; lia].
    + rewrite Hold by done. destruct (inv_elems0 e Hin) as (fe & ? & ? & ?). exists fe.
      split_and!; [done..|lia].
  - intros r e. rewrite lookup_insert_Some, elem_of_cons. intros [[<- <-]|[Hne Hr]].
    + split; [by left|]. eexists. by rewrite lookup_insert_eq.
    + destruct (inv_rev0 r e Hr) as (Hin & fe & ? & ?). split; [by right|]. exists fe. by rewrite Hold.
  - intros e fe. rewrite lookup_insert_Some. intros [[<- _]|[_ Hfe]]; [lia|].
    apply inv_fresh0 in Hfe. lia.
  - constructor.
    + eapply sorted_seen_ext; [|exact inv_sorted0]. intros x Hx. unfold seen_at. simpl. by rewrite Hold.
    + apply Forall_forall. intros e Hin. unfold seen_at. simpl. rewrite lookup_insert_eq, Hold by done.
      destruct (inv_elems0 e Hin) as (fe & -> & _ & ?). simpl. lia.
Qed.

Lemma remember_inv T l now k ka real :
  ul_inv T l -> T <= now -> ul_inv now (remember l now k ka real).
Proof.
  intros Hinv HT. unfold remember.
  destruct (addrKey (PUDP real)) as [rk|] eqn:Erk; [|by eapply ul_inv_weaken].
  destruct (ul_flows l !! k) as [el|] eqn:Ek.
  - destruct (ul_elems l !! el) as [fe|] eqn:Efe; [|by eapply ul_inv_weaken].
    assert (Hel := Ek). apply (inv_flows T l Hinv) in Hel as (Hin & _).
    destruct (inv_elems T l Hinv el Hin) as (fe0 & Hfe0 & Hak & _).
    rewrite Efe in Hfe0. injection Hfe0 as <-.
    eapply refresh_inv; try done; simpl; [by case_bool_decide|].
    intros r e Hr. case_bool_decide as Hsame; simpl in *.
    + destruct (decide (e = el)) as [->|]; [left|by right]. split; [done|].
      destruct (inv_rev T l Hinv r el Hr) as (_ & fe0 & Hfe0 & <-). by rewrite Efe in Hfe0; simplify_eq.
    + apply lookup_insert_Some in Hr as [[<- <-]|[Hne Hr]]; [by left|].
      apply delete_reverse_lookup in Hr as [Hr Hn]. right. split; [|done]. intros ->.
      destruct (inv_rev T l Hinv r el Hr) as (_ & fe0 & Hfe0 & <-). rewrite Efe in Hfe0.
      simplify_eq. tauto.
  - destruct (evict_overflow_spec (S (length (ul_lru l))) T l Hinv) as (Hinv' & Hroom & _ & _ & _ & _ & _ & Hsub);
      [lia|].
    apply (insert_inv T); try done.
    destruct (ul_flows (evict_overflow _ l) !! k) as [e|] eqn:E; [|done]. exfalso.
    eapply lookup_weaken in E; [|exact Hsub]. congruence.
Qed.

Lemma touch_inv T l el fe now :
  ul_inv T l -> T <= now -> el ∈ ul_lru l -> ul_elems l !! el = Some fe ->
  ul_inv now (touch l el fe now).
Proof.
  intros Hinv HT Hin Hfe. destruct (inv_elems T l Hinv el Hin) as (fe0 & Hfe0 & Hak & _).
  rewrite Hfe in Hfe0. injection Hfe0 as <-.
  eapply refresh_inv; try done. simpl. intros r e Hr.
  destruct (decide (e = el)) as [->|]; [left|by right]. split; [done|].
  destruct (inv_rev T l Hinv r el Hr) as (_ & fe0 & Hfe0 & <-). by rewrite Hfe in Hfe0; simplify_eq.
Qed.

Lemma lookup_flow_inv T l now k :
  ul_inv T l -> T <= now -> ul_inv now (lookup_flow l now k).2.
Proof.
  intros Hinv HT. unfold lookup_flow.
  destruct (ul_flows l !! k) as [el|] eqn:Ek; [|by eapply ul_inv_weaken].
  destruct (ul_elems l !! el) as [fe|] eqn:Efe; [|by eapply ul_inv_weaken].
  apply (inv_flows T l Hinv) in Ek as (Hin & _).
  case_match; simpl; [|by eapply touch_inv].
  eapply ul_inv_weaken; [exact HT|]. by apply removeEntry_inv.
Qed.

Lemma reverseLookup_inv T l now a :
  ul_inv T l -> T <= now -> ul_inv now (reverseLookup l now a).2.
Proof.
  intros Hinv HT. unfold reverseLookup.
  destruct (addrKey a) as [k|]; [|by eapply ul_inv_weaken].
  destruct (ul_reverse l !! k) as [el|] eqn:Ek; [|by eapply ul_inv_weaken].
  destruct (ul_elems l !! el) as [fe|] eqn:Efe; [|by eapply ul_inv_weaken].
  apply (inv_rev T l Hinv) in Ek as (Hin & _).
  case_match; simpl; [|by eapply touch_inv].
  eapply ul_inv_weaken; [exact HT|]. by apply removeEntry_inv.
Qed.

Lemma ReadFrom_step_inv T l d r e l' :
  ul_inv T l -> T <= dg_now_lookup d -> dg_now_lookup d <= dg_now_remember d ->
  ReadFrom_step l d = (r, e, l') -> ul_inv (dg_now_remember d) l'.
Proof.
  intros Hinv H1 H2 H. unfold ReadFrom_step in H.
  destruct (addrKey (dg_addr d)) as [k|];
    [|simplify_eq; eapply ul_inv_weaken; [|exact Hinv]; lia].
  destruct (dg_addr d) as [ka|]; [|simplify_eq; eapply ul_inv_weaken; [|exact Hinv]; lia].
  pose proof (lookup_flow_inv T l (dg_now_lookup d) k Hinv H1) as Hl.
  destruct (lookup_flow l (dg_now_lookup d) k) as [cached l1]. simpl in Hl.
  assert (Hw : ul_inv (dg_now_remember d) l1) by (eapply ul_inv_weaken; [|exact Hl]; lia).
  assert (Hr : forall real, ul_inv (dg_now_remember d) (remember l1 (dg_now_remember d) k ka real))
    by (intros; by eapply remember_inv).
  repeat (case_match; simplify_eq; auto).
Qed.

(** [evictIdle] stops at the first entry from the back that is not idle; what
    it leaves is exactly the prefix of the list that is not idle. *)
Lemma evict_idle_loop_spec fuel T l now :
  ul_inv T l -> (length (ul_lru l) < fuel)%nat ->
  let l' := evict_idle_loop fuel now l in
  ul_inv T l' /\ ul_elems l' = ul_elems l /\ ul_idleTimeout l' = ul_idleTimeout l
  /\ exists gone, ul_lru l = ul_lru l' ++ gone
     /\ Forall (fun e => now - seen_at l e > ul_idleTimeout l) gone
     /\ Forall (fun e => now - seen_at l e <= ul_idleTimeout l) (ul_lru l').
Proof.
  revert l. induction fuel as [|fuel IH]; intros l Hinv Hlen; [lia|]. cbn [evict_idle_loop].
  destruct (lru_back l) as [back|] eqn:Eb.
  - destruct (inv_back _ _ _ Hinv Eb) as (fe & pre & Hfe & Hpre & Hrem & Hinv'). rewrite Hfe.
    destruct (Z.leb_spec (now - fe_lastSeen fe) (ul_idleTimeout l)) as [Hle|Hgt].
    + split_and!; try done. exists []. split_and!; [by rewrite app_nil_r|constructor|].
      pose proof (inv_sorted T l Hinv) as Hs. rewrite Hpre in *.
      apply Forall_app. split; [|constructor; [unfold seen_at; rewrite Hfe; lia|constructor]].
      apply Forall_forall. intros e He. pose proof (StronglySorted_last _ _ _ Hs e He) as Hse. simpl in Hse. unfold seen_at in *. rewrite Hfe in *. lia.
    + specialize (IH _ Hinv'). simpl in IH. rewrite Hrem in IH.
      destruct IH as (H1 & H2 & H3 & gone & Hg & Hgone & Hkeep).
      { rewrite Hpre, length_app in Hlen. simpl in Hlen. lia. }
      split_and!; try done. exists (gone ++ [back]). split_and!.
      * by rewrite app_assoc, <- Hg.
      * apply Forall_app. split; [done|]. constructor; [|constructor].
        unfold seen_at. rewrite Hfe. lia.
      * done.
  - unfold lru_back in Eb. apply last_None in Eb. rewrite Eb. split_and!; try done.
    exists []. split_and!; [done|constructor..].
Qed.

Lemma evictIdle_spec T l now :
  ul_inv T l ->
  ul_inv T (evictIdle l now) /\ ul_elems (evictIdle l now) = ul_elems l
  /\ exists gone, ul_lru l = ul_lru (evictIdle l now) ++ gone
     /\ Forall (fun e => now - seen_at l e > ul_idleTimeout l) gone
     /\ Forall (fun e => now - seen_at l e <= ul_idleTimeout l) (ul_lru (evictIdle l now)).
Proof.
  intros Hinv. unfold evictIdle.
  destruct (evict_idle_loop_spec (S (length (ul_lru l))) T l now Hinv) as (? & ? & _ & ?); [lia|done].
Qed.

Lemma ul_reach_inv_lemma opts T l : ul_reach opts T l -> ul_inv T l.
Proof.
  induction 1 as [T|T l d r e l' _ IH H1 H2 H|T l t a b l' _ IH HT H|T l t _ IH HT].
  - apply NewUDPListener_inv.
  - by eapply ReadFrom_step_inv.
  - unfold WriteTo in H. pose proof (reverseLookup_inv T l t a IH HT) as Hr.
    destruct (reverseLookup l t a) as [[target|] l1]; by simplify_eq.
  - eapply ul_inv_weaken; [exact HT|]. by apply evictIdle_spec.
Qed.

(** C3: In every reachable state, after any sequence of reads, writes and idle
    sweeps under a clock that does not run backwards, the flow table holds at
    most [maxFlows] entries, the map's elements are exactly the list's, each
    under its own key; a reverse entry leads to a live element that announced
    that address; and the list is ordered by last use. *)
Theorem UDPListener_reach_inv opts T l (Hreach : ul_reach opts T l) : ul_inv T l.
Proof. by eapply ul_reach_inv_lemma. Qed.

(** The idle sweep is exact: although [evictIdle] stops at the first entry
    from the back that is fresh enough, it removes all the flows that have been
    idle for longer than the timeout, and no others. *)
Theorem evictIdle_exact opts T l now k e (Hreach : ul_reach opts T l) :
  ul_flows (evictIdle l now) !! k = Some e <->
  ul_flows l !! k = Some e /\ now - seen_at l e <= ul_idleTimeout l.
Proof.
  pose proof (ul_reach_inv_lemma _ _ _ Hreach) as Hinv.
  destruct (evictIdle_spec T l now Hinv) as (Hinv' & He & gone & Hg & Hgone & Hkeep).
  rewrite (inv_flows T _ Hinv), (inv_flows T _ Hinv'), He, Hg, elem_of_app.
  rewrite Forall_forall in Hgone, Hkeep. split.
  - intros [Hin Hex]. auto.
  - intros [[[Hin|Hin] Hex] Hle]; [done|]. specialize (Hgone e Hin). simpl in Hgone. lia.
Qed.

(** At capacity, remembering a new flow evicts exactly the least recently
    used one: the back of the list goes, every other flow stays, the new flow
    is in front, and no flow that stays was used before the one that went. *)
Theorem remember_evicts_lru opts T l now k rk ka real
  (Hreach : ul_reach opts T l) (Hk : ul_flows l !! k = None)
  (Hrk : addrKey (PUDP real) = Some rk)
  (Hfull : Z.of_nat (size (ul_flows l)) = ul_maxFlows l) :
  exists pre back,
    ul_lru l = pre ++ [back]
    /\ ul_lru (remember l now k ka real) = ul_next l :: pre
    /\ (forall k' e, ul_flows (remember l now k ka real) !! k' = Some e <->
          (k' = k /\ e = ul_next l) \/ (k' <> k /\ e <> back /\ ul_flows l !! k' = Some e))
    /\ (forall e, e ∈ pre -> seen_at l back <= seen_at l e).
Proof.
  pose proof (ul_reach_inv_lemma _ _ _ Hreach) as Hinv.
  destruct (lru_back l) as [back|] eqn:Eb.
  - destruct (inv_back _ _ _ Hinv Eb) as (fe & pre & Hfe & Hpre & Hrem & Hinv').
    assert (Hbk : ul_flows l !! fe_key fe = Some back).
    { apply (inv_flows T l Hinv). rewrite Hpre. split; [set_solver|eauto]. }
    exists pre, back. unfold remember. rewrite Hrk, Hk.
    assert (Hev : evict_overflow (S (length (ul_lru l))) l = removeEntry l back fe).
    { rewrite Hpre, length_app, Nat.add_comm. cbn [length Nat.add evict_overflow].
      rewrite (proj2 (Z.leb_le _ _)) by lia. rewrite Eb, Hfe.
      rewrite (proj2 (Z.leb_gt _ _)); [done|]. simpl. rewrite map_size_delete_Some by done.
      pose proof (inv_max T l Hinv). lia. }
    rewrite Hev. simpl. rewrite Hrem. split_and!; [done..| |].
    + intros k' e. rewrite lookup_insert_Some, lookup_delete_Some. split.
      * intros [[<- <-]|(Hne & Hn & He)]; [by left|]. right. split_and!; [done| |done]. intros ->.
        apply (inv_flows T l Hinv) in He as (_ & fe' & Hfe' & <-). naive_solver.
      * intros [[-> ->]|(Hne & Hn & He)]; [by left|]. right. split_and!; [done| |done].
        intros Heq. rewrite <- Heq in He. naive_solver.
    + intros e He. pose proof (inv_sorted T l Hinv) as Hs. rewrite Hpre in Hs.
      by apply (StronglySorted_last _ _ _ Hs).
  - exfalso. unfold lru_back in Eb. apply last_None in Eb.
    assert (Hempty : ul_flows l = ∅).
    { apply map_empty. intros k'. destruct (ul_flows l !! k') as [e|] eqn:Ek; [|done].
      apply (inv_flows T l Hinv) in Ek as [Hin _]. rewrite Eb in Hin. set_solver. }
    rewrite Hempty, map_size_empty in Hfull. pose proof (inv_max T l Hinv). lia.
Qed.

(** * Header round trip *)

(** The address a header written for [src] announces: unmapped, 16-bit port. *)
Definition announced (src : UDPAddr) : UDPAddr :=
  match AddrFromSlice (ua_ip src) with
  | Some ip => mkUDPAddr (AsSlice (Unmap ip)) (u16 (ua_port src))
  | None => src
  end.

Lemma AddrFromSlice_unmap ip a :
  AddrFromSlice ip = Some a ->
  IsValid (Unmap a) = true /\ length (AsSlice (Unmap a)) = (if Is4 (Unmap a) then 4 else 16)%nat
  /\ exists b, AddrFromSlice (AsSlice (Unmap a)) = Some b /\ Unmap b = Unmap a.
Proof.
  unfold AddrFromSlice. intros H.
  destruct (length ip =? 4)%nat eqn:E4; [|destruct (length ip =? 16)%nat eqn:E16; [|done]];
    injection H as <-; simpl_bool.
  - simpl. split_and!; [done..|]. exists (Addr4 ip). unfold AddrFrom4. by rewrite E4.
  - unfold AddrFrom16. destruct (Is4In6 (Addr6 ip [])) eqn:Hm.
    + assert (HU : Unmap (Addr6 ip []) = Addr4 (drop 12 ip)) by (unfold Unmap; by rewrite Hm).
      assert (Hl : length (drop 12 ip) = 4%nat) by (rewrite length_drop; lia).
      rewrite HU. cbn [AsSlice Is4 IsValid]. split_and!; [done..|].
      exists (Addr4 (drop 12 ip)). by rewrite Hl.
    + assert (HU : Unmap (Addr6 ip []) = Addr6 ip []) by (unfold Unmap; by rewrite Hm).
      rewrite HU. cbn [AsSlice Is4 IsValid]. split_and!; [done..|].
      exists (Addr6 ip []). by rewrite E16, HU.
Qed.

Lemma WriteHeaderV2UDP_image src dst hdr :
  WriteHeaderV2UDP (Some src) (Some dst) = Ok hdr ->
  exists fam sip dip,
    AddrFromSlice (ua_ip src) = Some sip
    /\ length (AsSlice (Unmap sip)) = (if (fam =? famUDP4)%Z then 4 else 16)%nat
    /\ length (AsSlice (Unmap dip)) = (if (fam =? famUDP4)%Z then 4 else 16)%nat
    /\ hdr = prefix_bytes fam (if fam =? famUDP4 then 12 else 36)
             ++ addrs_bytes (mkAddrPort (Unmap sip) (u16 (ua_port src)))
                            (mkAddrPort (Unmap dip) (u16 (ua_port dst)))
    /\ (fam = famUDP4 \/ fam = famUDP6).
Proof.
  unfold WriteHeaderV2UDP. intros Hw.
  destruct (AddrFromSlice (ua_ip src)) as [sip|] eqn:Es; [|done].
  destruct (AddrFromSlice (ua_ip dst)) as [dip|] eqn:Ed; [|done]. cbv zeta in Hw.
  destruct (negb _) eqn:E4; [done|]. simpl_bool. apply eqb_prop in E4.
  apply AddrFromSlice_unmap in Es as (Vs & Ls & _), Ed as (Vd & Ld & _).
  rewrite <- E4 in Ld. unfold addrs_bytes. cbn [ap_addr ap_port].
  destruct (Unmap sip) as [|s|s sz] eqn:Us, (Unmap dip) as [|d|d dz] eqn:Ud; try done; injection Hw as <-.
  - exists famUDP4, sip, dip. rewrite Us, Ud. split_and!; try done. by left.
  - exists famUDP6, sip, dip. rewrite Us, Ud. split_and!; try done. by right.
Qed.

Lemma parse_body fam alen body payload :
  0 <= alen < 2 ^ 16 -> length body = Z.to_nat alen ->
  parseProxyV2UDPHeader (prefix_bytes fam alen ++ body ++ payload) =
  (if fam =? famUDP4 then
     if (length body <? addrPairV4)%nat then Err errUDP4Short
     else Ok (Some (mkUDPAddr (slice body 0 4) (be16 (slice body 8 10))), (16 + length body)%nat)
   else if fam =? famUDP6 then
     if (length body <? addrPairV6)%nat then Err errUDP6Short
     else Ok (Some (mkUDPAddr (slice body 0 16) (be16 (slice body 32 34))), (16 + length body)%nat)
   else Err errUDPFamily).
Proof.
  intros Ha Hl. unfold parseProxyV2UDPHeader.
  change (slice (prefix_bytes fam alen ++ _) 14 16) with (put16 alen ++ []).
  rewrite be16_put16 by done.
  change (slice (prefix_bytes fam alen ++ _) 0 12) with v2Signature.
  change (byte_at (prefix_bytes fam alen ++ _) 12) with verCmdProxy.
  change (byte_at (prefix_bytes fam alen ++ _) 13) with fam.
  rewrite bool_decide_true by done.
  rewrite (slice_app_eq (prefix_bytes fam alen) body payload) by (rewrite ?Hl; done).
  rewrite !length_app. change (length (prefix_bytes fam alen)) with 16%nat.
  unfold udpHeaderFixed. rewrite (proj2 (Nat.ltb_ge _ 16)) by lia.
  rewrite <- Hl. rewrite (proj2 (Nat.ltb_ge (16 + (length body + length payload)) _)) by lia.
  done.
Qed.

Lemma parse_write src dst hdr payload :
  WriteHeaderV2UDP (Some src) (Some dst) = Ok hdr ->
  parseProxyV2UDPHeader (hdr ++ payload) = Ok (Some (announced src), length hdr)
  /\ exists rk, addrKey (PUDP (announced src)) = Some rk.
Proof.
  intros Hw. apply WriteHeaderV2UDP_image in Hw as (fam & sip & dip & Es & Ls & Ld & -> & Hf).
  unfold announced. rewrite Es. split.
  - rewrite <- app_assoc, parse_body.
    + rewrite (length_app (prefix_bytes _ _)). change (length (prefix_bytes _ _)) with 16%nat.
      unfold addrs_bytes. cbn [ap_addr ap_port]. rewrite !length_app, !length_put16, Ls, Ld.
      set (s := AsSlice (Unmap sip)) in *. set (d := AsSlice (Unmap dip)) in *.
      assert (Hp : forall i j, i = (length s + length d)%nat -> j = (i + 2)%nat ->
        be16 (slice (s ++ d ++ put16 (u16 (ua_port src)) ++ put16 (u16 (ua_port dst))) i j) = u16 (ua_port src)).
      { intros i j -> ->. rewrite (app_assoc s). rewrite slice_app_eq;
          rewrite ?length_app, ?length_put16; try done.
        rewrite <- (app_nil_r (put16 _)). apply be16_put16, Z.mod_pos_bound. lia. }
      assert (Hs : forall j, j = length s ->
        slice (s ++ d ++ put16 (u16 (ua_port src)) ++ put16 (u16 (ua_port dst))) 0 j = s).
      { intros j ->. rewrite slice_0. apply take_app_length. }
      destruct Hf as [-> | ->]; simpl in Ls, Ld.
      * rewrite (Hs 4%nat), (Hp 8%nat 10%nat) by lia. done.
      * rewrite (Hs 16%nat), (Hp 32%nat 34%nat) by lia. done.
    + by destruct Hf as [-> | ->].
    + unfold addrs_bytes. rewrite !length_app, !length_put16. cbn [ap_addr]. rewrite Ls, Ld.
      by destruct Hf as [-> | ->].
  - apply AddrFromSlice_unmap in Es as (_ & _ & b & Hb & _). unfold addrKey. cbn [ua_ip].
    rewrite Hb. eauto.
Qed.

Lemma lookup_flow_miss T l now k l' :
  ul_inv T l -> lookup_flow l now k = (None, l') -> T <= now -> ul_flows l' !! k = None.
Proof.
  intros Hinv H _. unfold lookup_flow in H. destruct (ul_flows l !! k) as [el|] eqn:Ek; [|by simplify_eq].
  apply (inv_flows T l Hinv) in Ek as (Hin & fe & Hfe & <-). rewrite Hfe in H.
  case_match; [|done]. simplify_eq. simpl. apply lookup_delete_eq.
Qed.

Lemma remember_new T l now k rk ka real :
  ul_inv T l -> T <= now -> ul_flows l !! k = None -> addrKey (PUDP real) = Some rk ->
  exists el, let l' := remember l now k ka real in
    ul_flows l' !! k = Some el /\ ul_reverse l' !! rk = Some el
    /\ ul_elems l' !! el = Some (mkFlow k real rk ka now)
    /\ ul_idleTimeout l' = ul_idleTimeout l.
Proof.
  intros Hinv HT Hk Hrk. unfold remember. rewrite Hrk, Hk.
  destruct (evict_overflow_spec (S (length (ul_lru l))) T l Hinv) as (_ & _ & _ & _ & Hi & _); [lia|].
  eexists. simpl. rewrite !lookup_insert_eq. done.
Qed.

(** A spliced session end to end: when the first datagram of an uncached
    kernel source is a written header followed by a payload, [ReadFrom] returns
    the payload alone with the announced source; from then on, within the idle
    timeout, every datagram of that kernel source, whatever its bytes, is
    returned whole with the announced source, and what is written to the
    announced source is sent to the kernel source. *)
Theorem spliced_session opts T l src dst hdr payload ka k t1 t2 l1 ds
  (Hreach : ul_reach opts T l)
  (Hw : WriteHeaderV2UDP (Some src) (Some dst) = Ok hdr)
  (Hpay : payload <> [])
  (Hka : addrKey (PUDP ka) = Some k)
  (Ht : T <= t1 /\ t1 <= t2)
  (Hmiss : lookup_flow l t1 k = (None, l1)) :
  exists l2,
    ReadFrom l (mkDatagram (hdr ++ payload) (PUDP ka) t1 t2 :: ds)
    = (Some (payload, PUDP (announced src)), l2, ds)
    /\ forall t3, t3 - t2 <= ul_idleTimeout l ->
         (forall p t4 ds', exists l3, ReadFrom l2 (mkDatagram p (PUDP ka) t3 t4 :: ds')
            = (Some (p, PUDP (announced src)), l3, ds'))
         /\ (WriteTo l2 t3 (PUDP (announced src))).1 = PUDP ka.
Proof.
  pose proof (ul_reach_inv_lemma _ _ _ Hreach) as Hinv.
  destruct (parse_write _ _ _ payload Hw) as [Hparse [rk Hrk]].
  pose proof (lookup_flow_inv T l t1 k Hinv (proj1 Ht)) as Hinv1. rewrite Hmiss in Hinv1.
  pose proof (lookup_flow_miss T l t1 k l1 Hinv Hmiss (proj1 Ht)) as Hk1.
  assert (Hidle : ul_idleTimeout l1 = ul_idleTimeout l).
  { unfold lookup_flow in Hmiss. repeat case_match; by simplify_eq. }
  destruct (remember_new t1 l1 t2 k rk ka (announced src) Hinv1 (proj2 Ht) Hk1 Hrk) as (el & Hf & Hr & He & Hi).
  set (l2 := remember l1 t2 k ka (announced src)) in *. exists l2. split.
  - cbn [ReadFrom]. unfold ReadFrom_step. cbn [dg_data dg_addr dg_now_lookup dg_now_remember].
    rewrite Hka, Hmiss, Hparse. cbv zeta. fold l2.
    rewrite length_app. destruct payload as [|b payload]; [done|].
    rewrite (proj2 (Nat.eqb_neq _ _)) by (simpl; lia). by rewrite drop_app_length.
  - intros t3 H3. split.
    + intros p t4 ds'. cbn [ReadFrom]. unfold ReadFrom_step. cbn [dg_data dg_addr dg_now_lookup dg_now_remember].
      rewrite Hka. unfold lookup_flow. rewrite Hf, He. cbn [fe_lastSeen fe_realAddr].
      rewrite (proj2 (Z.ltb_ge _ _)) by lia. eauto.
    + unfold WriteTo, reverseLookup. rewrite Hrk, Hr, He. cbn [fe_lastSeen fe_kernelAddr].
      rewrite (proj2 (Z.ltb_ge _ _)) by lia. done.
Qed.

(** * Witnesses *)

Definition udp_src : UDPAddr := mkUDPAddr [203; 0; 113; 9] 50000.
Definition udp_dst : UDPAddr := mkUDPAddr [198; 51; 100; 1] 443.
Definition kernel_addr : UDPAddr := mkUDPAddr [127; 0; 0; 1] 7000.
Definition kernel_key (port : Z) : AddrPort := mkAddrPort (Addr4 [127; 0; 0; 1]) port.
Definition opts1 : UDPListenerOptions := mkULOpts 0 1.
Definition hdr_sample : bytes :=
  prefix_bytes famUDP4 12 ++ [203; 0; 113; 9; 198; 51; 100; 1] ++ put16 50000 ++ put16 443.
Definition first_datagram : Datagram := mkDatagram (hdr_sample ++ [1; 2; 3]) (PUDP kernel_addr) 5 5.
Definition one_flow : UDPListener := (ReadFrom_step (NewUDPListener opts1) first_datagram).2.

Lemma one_flow_reach : ul_reach opts1 5 one_flow.
Proof.
  change 5 with (dg_now_remember first_datagram).
  set (r := ReadFrom_step (NewUDPListener opts1) first_datagram).
  apply (reach_read opts1 0 (NewUDPListener opts1) first_datagram r.1.1 r.1.2);
    [apply reach_new|simpl; lia|simpl; lia|].
  unfold one_flow. fold r. by destruct r as [[? ?] ?].
Qed.

Lemma UDPListener_reach_inv_witness : ul_reach opts1 5 one_flow /\ ul_inv 5 one_flow.
Proof. split; [exact one_flow_reach|exact (UDPListener_reach_inv _ _ _ one_flow_reach)]. Defined.

Lemma evictIdle_exact_witness :
  ul_flows one_flow !! kernel_key 7000 = Some 0%nat
  /\ ul_flows (evictIdle one_flow 6) !! kernel_key 7000 = Some 0%nat.
Proof.
  assert (H : ul_flows one_flow !! kernel_key 7000 = Some 0%nat) by (vm_compute; reflexivity).
  split; [exact H|]. apply (evictIdle_exact _ _ _ 6 _ _ one_flow_reach).
  split; [exact H|]. vm_compute. discriminate.
Defined.

Lemma remember_evicts_lru_witness :
  exists pre back, ul_lru one_flow = pre ++ [back]
    /\ ul_lru (remember one_flow 6 (kernel_key 7001) kernel_addr udp_src) = ul_next one_flow :: pre.
Proof.
  destruct (remember_evicts_lru opts1 5 one_flow 6 (kernel_key 7001)
    (mkAddrPort (Addr4 [203; 0; 113; 9]) 50000) kernel_addr udp_src one_flow_reach)
    as (pre & back & H1 & H2 & _).
  - vm_compute. reflexivity.
  - vm_compute. reflexivity.
  - vm_compute. reflexivity.
  - exists pre, back. split; [exact H1|exact H2].
Defined.

Lemma spliced_session_witness :
  exists l2, ReadFrom (NewUDPListener opts1) [first_datagram]
    = (Some ([1; 2; 3], PUDP (announced udp_src)), l2, [])
    /\ (WriteTo l2 6 (PUDP (announced udp_src))).1 = PUDP kernel_addr.
Proof.
  destruct (spliced_session opts1 0 (NewUDPListener opts1) udp_src udp_dst hdr_sample [1; 2; 3]
    kernel_addr (kernel_key 7000) 5 5 (NewUDPListener opts1) []) as (l2 & H1 & H2).
  - apply reach_new.
  - vm_compute. reflexivity.
  - discriminate.
  - vm_compute. reflexivity.
  - lia.
  - vm_compute. reflexivity.
  - exists l2. split; [exact H1|]. apply H2. vm_compute. discriminate.
Defined.
