(* ===== verification/Handoff.v ===== *)
(** [internal/udshandoff/protocol.go], [sort.go], [metrics.go] and
    [logging.go]: the per-protocol TLV matrix and its validator, the counters
    and the structured-log fields shared by the stream and the datagram
    listener. *)

From S2P Require Import Prelude Netip Utf8 Tlv.

(** * The matrix *)

Abbreviation ProtocolName := (list Z) (only parsing).
Abbreviation TLVTypes := (list Z) (only parsing).

Definition ProtoVLESSRealityVisionSeed : ProtocolName := bs "vless-reality-vision-seed".
Definition ProtoAnyTLS : ProtocolName := bs "anytls".
Definition ProtoVLESSWSSync : ProtocolName := bs "vless-ws-sync".
Definition ProtoVLESSWSTransfer : ProtocolName := bs "vless-ws-transfer".
Definition ProtoVLESSWSLive : ProtocolName := bs "vless-ws-live".
Definition ProtoTTConnect : ProtocolName := bs "tt-connect".
Definition ProtoAnyConnectCSTP : ProtocolName := bs "anyconnect-cstp".
Definition ProtoAnyConnectDTLS : ProtocolName := bs "anyconnect-dtls".
Definition ProtoShadowTLS : ProtocolName := bs "shadow-tls".
Definition ProtoHysteria2 : ProtocolName := bs "hy2".
Definition ProtoJuicity : ProtocolName := bs "juicity".
Definition ProtoTTH3 : ProtocolName := bs "tt-h3".
Definition ProtoBrowserH3 : ProtocolName := bs "browser-h3".
Definition ProtoDriveWeb : ProtocolName := bs "drive-web".

Record Spec := mkSpec {
  spName : ProtocolName;
  spL4 : gostring;
  spMandatory : TLVTypes;
  spOptional : TLVTypes;
  spForbidden : TLVTypes
}.
#[export] Instance Spec_eq_dec : EqDecision Spec.
Proof. solve_decision. Defined.

Definition universalMandatory : TLVTypes := [EraTLVSpecVersion; EraTLVTraceID].
Definition universalOptional : TLVTypes := [PP2TypeALPN; PP2TypeAuthority; PP2TypeSSL].

Definition vlessWSSpec (name : ProtocolName) : Spec :=
  mkSpec name (bs "tcp")
    [EraTLVToken; EraTLVDeviceID; EraTLVUserID; EraTLVALPNDetail; EraTLVSourceHintV6]
    [EraTLVOrigSNI]
    [EraTLVVLESSTarget; EraTLVVLESSUUID; EraTLVVLESSFlow; EraTLVQUICConnID;
     EraTLVQUICStreamID; EraTLVDTLSPSK; EraTLVMTLSSubjectDN].

Definition quicEgressSpec (name : ProtocolName) : Spec :=
  mkSpec name (bs "udp")
    [EraTLVToken; EraTLVDeviceID; EraTLVUserID; EraTLVALPNDetail; EraTLVQUICConnID;
     EraTLVSourceHintV6]
    [EraTLVOrigSNI; EraTLVQUICStreamID]
    [EraTLVVLESSTarget; EraTLVVLESSUUID; EraTLVVLESSFlow; EraTLVDTLSPSK; EraTLVMTLSSubjectDN].

(** The map literal, in source order. *)
Definition matrix_rows : list (ProtocolName * Spec) :=
  [ (ProtoVLESSRealityVisionSeed,
     mkSpec ProtoVLESSRealityVisionSeed (bs "tcp")
       [EraTLVDeviceID; EraTLVUserID; EraTLVVLESSTarget; EraTLVVLESSUUID; EraTLVVLESSFlow;
        EraTLVSourceHintV6]
       [EraTLVOrigSNI; EraTLVALPNDetail]
       [EraTLVToken; EraTLVQUICConnID; EraTLVQUICStreamID; EraTLVDTLSPSK; EraTLVMTLSSubjectDN]);
    (ProtoAnyTLS,
     mkSpec ProtoAnyTLS (bs "tcp")
       [EraTLVToken; EraTLVDeviceID; EraTLVUserID; EraTLVSourceHintV6]
       [EraTLVOrigSNI; EraTLVALPNDetail]
       [EraTLVVLESSTarget; EraTLVVLESSUUID; EraTLVVLESSFlow; EraTLVQUICConnID;
        EraTLVQUICStreamID; EraTLVDTLSPSK; EraTLVMTLSSubjectDN]);
    (ProtoVLESSWSSync, vlessWSSpec ProtoVLESSWSSync);
    (ProtoVLESSWSTransfer, vlessWSSpec ProtoVLESSWSTransfer);
    (ProtoVLESSWSLive, vlessWSSpec ProtoVLESSWSLive);
    (ProtoTTConnect,
     mkSpec ProtoTTConnect (bs "tcp")
       [EraTLVToken; EraTLVDeviceID; EraTLVUserID; EraTLVALPNDetail; EraTLVSourceHintV6]
       [EraTLVOrigSNI]
       [EraTLVVLESSTarget; EraTLVVLESSUUID; EraTLVVLESSFlow; EraTLVQUICConnID;
        EraTLVQUICStreamID; EraTLVDTLSPSK; EraTLVMTLSSubjectDN]);
    (ProtoAnyConnectCSTP,
     mkSpec ProtoAnyConnectCSTP (bs "tcp")
       [EraTLVToken; EraTLVDeviceID; EraTLVUserID; EraTLVSourceHintV6; EraTLVMTLSSubjectDN]
       [EraTLVOrigSNI; EraTLVALPNDetail]
       [EraTLVVLESSTarget; EraTLVVLESSUUID; EraTLVVLESSFlow; EraTLVQUICConnID;
        EraTLVQUICStreamID; EraTLVDTLSPSK]);
    (ProtoAnyConnectDTLS,
     mkSpec ProtoAnyConnectDTLS (bs "udp")
       [EraTLVToken; EraTLVDeviceID; EraTLVUserID; EraTLVDTLSPSK; EraTLVSourceHintV6;
        EraTLVMTLSSubjectDN]
       []
       [EraTLVOrigSNI; EraTLVALPNDetail; EraTLVVLESSTarget; EraTLVVLESSUUID; EraTLVVLESSFlow;
        EraTLVQUICConnID; EraTLVQUICStreamID]);
    (ProtoShadowTLS,
     mkSpec ProtoShadowTLS (bs "tcp")
       [EraTLVToken; EraTLVDeviceID; EraTLVUserID; EraTLVSourceHintV6]
       [EraTLVOrigSNI; EraTLVALPNDetail]
       [EraTLVVLESSTarget; EraTLVVLESSUUID; EraTLVVLESSFlow; EraTLVQUICConnID;
        EraTLVQUICStreamID; EraTLVDTLSPSK; EraTLVMTLSSubjectDN]);
    (ProtoHysteria2, quicEgressSpec ProtoHysteria2);
    (ProtoJuicity, quicEgressSpec ProtoJuicity);
    (ProtoTTH3, quicEgressSpec ProtoTTH3);
    (ProtoBrowserH3,
     mkSpec ProtoBrowserH3 (bs "udp")
       [EraTLVALPNDetail; EraTLVQUICConnID]
       [EraTLVOrigSNI; EraTLVQUICStreamID]
       [EraTLVToken; EraTLVDeviceID; EraTLVUserID; EraTLVVLESSTarget; EraTLVVLESSUUID;
        EraTLVVLESSFlow; EraTLVDTLSPSK; EraTLVSourceHintV6; EraTLVMTLSSubjectDN]);
    (ProtoDriveWeb,
     mkSpec ProtoDriveWeb (bs "tcp")
       []
       [EraTLVOrigSNI; EraTLVALPNDetail]
       [EraTLVToken; EraTLVDeviceID; EraTLVUserID; EraTLVVLESSTarget; EraTLVVLESSUUID;
        EraTLVVLESSFlow; EraTLVQUICConnID; EraTLVQUICStreamID; EraTLVDTLSPSK;
        EraTLVSourceHintV6; EraTLVMTLSSubjectDN]) ].
Definition matrix : gmap (list Z) Spec := list_to_map matrix_rows.

Definition LookupProtocol (name : ProtocolName) : option Spec := matrix !! name.

(** [string(s[i]) < string(s[j])] *)
Fixpoint bytes_ltb (a b : bytes) : bool :=
  match a, b with
  | [], [] => false
  | [], _ :: _ => true
  | _ :: _, [] => false
  | x :: a', y :: b' => if x =? y then bytes_ltb a' b' else x <? y
  end.
Fixpoint sort_insert (x : ProtocolName) (l : list (list Z)) : list (list Z) :=
  match l with
  | [] => [x]
  | y :: l' => if bytes_ltb y x then y :: sort_insert x l' else x :: l
  end.
Definition sortProtocolNames (l : list (list Z)) : list (list Z) := foldr sort_insert [] l.
(** The map's iteration order is [map_to_list]'s; the sort makes the result
    independent of it. *)
Definition AllProtocols : list (list Z) := sortProtocolNames (map fst (map_to_list matrix)).

(** * Validation *)

Record ValidateResult := mkVR {
  vrOK : bool;
  vrMissingMandatory : TLVTypes;
  vrPresentForbidden : TLVTypes;
  vrValueErrors : list (Z * ValErr);
  vrUnknownERA : TLVTypes
}.

(** The set of types present, the last record of a type winning. *)
Definition present_map (parsed : list TLV) : gmap Z TLV :=
  foldl (fun m t => <[tlv_type t := t]> m) ∅ parsed.

(** [if _, ok := present[t]; !ok { OK = false; Missing = append(...) }] over a list *)
Definition check_mandatory (present : gmap Z TLV) (ts : TLVTypes) (res : ValidateResult) : ValidateResult :=
  foldl (fun res t =>
    match present !! t with
    | Some _ => res
    | None => mkVR false (vrMissingMandatory res ++ [t]) (vrPresentForbidden res) (vrValueErrors res) (vrUnknownERA res)
    end) res ts.
Definition check_forbidden (present : gmap Z TLV) (ts : TLVTypes) (res : ValidateResult) : ValidateResult :=
  foldl (fun res t =>
    match present !! t with
    | Some _ => mkVR false (vrMissingMandatory res) (vrPresentForbidden res ++ [t]) (vrValueErrors res) (vrUnknownERA res)
    | None => res
    end) res ts.
Definition add_value_error (res : ValidateResult) (t : Z) (e : ValErr) : ValidateResult :=
  mkVR false (vrMissingMandatory res) (vrPresentForbidden res) (vrValueErrors res ++ [(t, e)]) (vrUnknownERA res).
Definition check_values (parsed : list TLV) (res : ValidateResult) : ValidateResult :=
  foldl (fun res t =>
    match ValidateTLV t with
    | Err e => add_value_error res (tlv_type t) e
    | Ok _ => res
    end) res parsed.
Definition check_spec_version (present : gmap Z TLV) (res : ValidateResult) : ValidateResult :=
  match present !! EraTLVSpecVersion with
  | Some v =>
    if negb (length (tlv_value v) =? 1)%nat || negb (byte_at (tlv_value v) 0 =? SpecVersionStage1)
    then add_value_error res EraTLVSpecVersion VSpecVersion
    else res
  | None => res
  end.
Definition classify_unknown (allowed : gset Z) (parsed : list TLV) (res : ValidateResult) : ValidateResult :=
  foldl (fun res t =>
    if bool_decide (tlv_type t ∈ allowed) then res
    else if IsERACustom (tlv_type t)
    then mkVR (vrOK res) (vrMissingMandatory res) (vrPresentForbidden res) (vrValueErrors res)
           (vrUnknownERA res ++ [tlv_type t])
    else res) res parsed.

Definition allowed_types (s : Spec) : gset Z :=
  list_to_set universalMandatory ∪ list_to_set universalOptional ∪ {[EraTLVRouteTag]}
  ∪ list_to_set (spMandatory s) ∪ list_to_set (spOptional s) ∪ list_to_set (spForbidden s).

Definition Validate (s : Spec) (parsed : list TLV) : ValidateResult :=
  let res := mkVR true [] [] [] [] in
  let present := present_map parsed in
  let res := check_mandatory present universalMandatory res in
  let res := check_mandatory present (spMandatory s) res in
  let res := check_forbidden present (spForbidden s) res in
  let res := check_values parsed res in
  let res := check_spec_version present res in
  classify_unknown (allowed_types s) parsed res.

(** * Metrics *)

Definition u64 (z : Z) : Z := z mod 2 ^ 64.

Record Metrics := mkMetrics {
  mIncompleteHeader : Z;
  mProxyV2InvalidSignature : Z;
  mOversizeDgram : Z;
  mUnknownERATLV : gmap (Z * list Z) Z;
  mHandoffInvalid : gmap (list Z) Z;
  mHandoffAccept : gmap (list Z) Z;
  mFrameRejected : gmap (list Z) Z
}.
Definition NewMetrics : Metrics := mkMetrics 0 0 0 ∅ ∅ ∅ ∅.

(** A counter of a map, created at zero when absent. *)
Definition inc_key {K} `{Countable K} (m : gmap K Z) (k : K) : gmap K Z :=
  <[k := u64 (default 0 (m !! k) + 1)]> m.

(** The receiver is a pointer: [None] is [nil], on which every method is a
    no-op. *)
Definition on_metrics (f : Metrics -> Metrics) (m : option Metrics) : option Metrics := f <$> m.

Definition IncIncompleteHeader : option Metrics -> option Metrics :=
  on_metrics (fun m => mkMetrics (u64 (mIncompleteHeader m + 1)) (mProxyV2InvalidSignature m)
    (mOversizeDgram m) (mUnknownERATLV m) (mHandoffInvalid m) (mHandoffAccept m) (mFrameRejected m)).
Definition IncProxyV2InvalidSignature : option Metrics -> option Metrics :=
  on_metrics (fun m => mkMetrics (mIncompleteHeader m) (u64 (mProxyV2InvalidSignature m + 1))
    (mOversizeDgram m) (mUnknownERATLV m) (mHandoffInvalid m) (mHandoffAccept m) (mFrameRejected m)).
Definition IncOversizeDatagram : option Metrics -> option Metrics :=
  on_metrics (fun m => mkMetrics (mIncompleteHeader m) (mProxyV2InvalidSignature m)
    (u64 (mOversizeDgram m + 1)) (mUnknownERATLV m) (mHandoffInvalid m) (mHandoffAccept m) (mFrameRejected m)).
Definition IncUnknownERATLV (t : Z) (p : ProtocolName) : option Metrics -> option Metrics :=
  on_metrics (fun m => mkMetrics (mIncompleteHeader m) (mProxyV2InvalidSignature m) (mOversizeDgram m)
    (inc_key (mUnknownERATLV m) (t, p)) (mHandoffInvalid m) (mHandoffAccept m) (mFrameRejected m)).
Definition IncHandoffInvalid (p : ProtocolName) : option Metrics -> option Metrics :=
  on_metrics (fun m => mkMetrics (mIncompleteHeader m) (mProxyV2InvalidSignature m) (mOversizeDgram m)
    (mUnknownERATLV m) (inc_key (mHandoffInvalid m) p) (mHandoffAccept m) (mFrameRejected m)).
Definition IncHandoffAccept (p : ProtocolName) : option Metrics -> option Metrics :=
  on_metrics (fun m => mkMetrics (mIncompleteHeader m) (mProxyV2InvalidSignature m) (mOversizeDgram m)
    (mUnknownERATLV m) (mHandoffInvalid m) (inc_key (mHandoffAccept m) p) (mFrameRejected m)).
Definition IncFrameRejected (p : ProtocolName) : option Metrics -> option Metrics :=
  on_metrics (fun m => mkMetrics (mIncompleteHeader m) (mProxyV2InvalidSignature m) (mOversizeDgram m)
    (mUnknownERATLV m) (mHandoffInvalid m) (mHandoffAccept m) (inc_key (mFrameRejected m) p)).

(** [Snapshot]: a copy, zero-valued for a nil receiver. *)
Definition Snapshot (m : option Metrics) : Metrics := default NewMetrics m.
Definition LookupUnknownERATLV (m : option Metrics) (t : Z) (p : ProtocolName) : Z :=
  match m with
  | None => 0
  | Some m => default 0 (mUnknownERATLV m !! (t, p))
  end.

(** * Log fields *)

Inductive Event : Type :=
| EventNone | EventHandoffStart | EventHandoffInvalid | EventFlowClosed | EventFlowError.
#[export] Instance Event_eq_dec : EqDecision Event.
Proof. solve_decision. Defined.
Definition event_string (e : Event) : gostring :=
  match e with
  | EventNone => []
  | EventHandoffStart => bs "handoff_start"
  | EventHandoffInvalid => bs "handoff_invalid"
  | EventFlowClosed => bs "flow_closed"
  | EventFlowError => bs "flow_error"
  end.

Inductive AttrValue : Type :=
| AString (s : gostring)
| AInt (n : Z)
| AAddr (a : AddrPort)                     (* [a.String()] *)
| ATypes (ts : TLVTypes)                   (* [typesToHex(ts)] *)
| AValueErrors (es : list (Z * ValErr)).   (* ["0x%02x:%s"] of each *)
Definition Attr : Type := gostring * AttrValue.

Record LogFields := mkLF {
  lfTraceID : gostring;
  lfProtocol : ProtocolName;
  lfClientSrc : AddrPort;
  lfOriginalDst : AddrPort;
  lfDeviceID : gostring;
  lfUserID : gostring;
  lfEvent : Event;
  lfBytesIn : Z;
  lfBytesOut : Z;
  lfDuration : Z;
  lfExtra : list Attr
}.

(** The attributes [EmitTo] writes. *)
Definition EmitTo (f : LogFields) : list Attr :=
  let terminal := bool_decide (lfEvent f = EventFlowClosed) || bool_decide (lfEvent f = EventFlowError) in
  (if bool_decide (lfEvent f = EventNone) then [] else [(bs "event", AString (event_string (lfEvent f)))])
  ++ (if bool_decide (lfTraceID f = []) then [] else [(bs "trace_id", AString (lfTraceID f))])
  ++ (if bool_decide (lfProtocol f = []) then [] else [(bs "protocol", AString (lfProtocol f))])
  ++ (if IsValid (ap_addr (lfClientSrc f)) then [(bs "client_src", AAddr (lfClientSrc f))] else [])
  ++ (if IsValid (ap_addr (lfOriginalDst f)) then [(bs "original_dst", AAddr (lfOriginalDst f))] else [])
  ++ (if bool_decide (lfDeviceID f = []) then [] else [(bs "device_id", AString (lfDeviceID f))])
  ++ (if bool_decide (lfUserID f = []) then [] else [(bs "user_id", AString (lfUserID f))])
  ++ (if negb (lfBytesIn f =? 0) || terminal then [(bs "bytes_in", AInt (lfBytesIn f))] else [])
  ++ (if negb (lfBytesOut f =? 0) || terminal then [(bs "bytes_out", AInt (lfBytesOut f))] else [])
  ++ (if (0 <? lfDuration f) || terminal
      then [(bs "duration_ms", AInt (lfDuration f ÷ 1000000))] else [])
  ++ lfExtra f.

Definition set_ids (f : LogFields) (trace dev user : gostring) : LogFields :=
  mkLF trace (lfProtocol f) (lfClientSrc f) (lfOriginalDst f) dev user (lfEvent f)
    (lfBytesIn f) (lfBytesOut f) (lfDuration f) (lfExtra f).

Definition FromTLVs (f : LogFields) (ts : list TLV) : LogFields :=
  foldl (fun f t =>
    if tlv_type t =? EraTLVTraceID then set_ids f (tlv_value t) (lfDeviceID f) (lfUserID f)
    else if tlv_type t =? EraTLVDeviceID then set_ids f (lfTraceID f) (tlv_value t) (lfUserID f)
    else if tlv_type t =? EraTLVUserID then set_ids f (lfTraceID f) (lfDeviceID f) (tlv_value t)
    else f) f ts.

Definition set_event (f : LogFields) (e : Event) (extra : list Attr) : LogFields :=
  mkLF (lfTraceID f) (lfProtocol f) (lfClientSrc f) (lfOriginalDst f) (lfDeviceID f) (lfUserID f)
    e (lfBytesIn f) (lfBytesOut f) (lfDuration f) extra.

(** The extra attributes of a failed validation, as both listeners build
    them. *)
Definition failure_attrs (res : ValidateResult) : list Attr :=
  (match vrMissingMandatory res with [] => [] | ts => [(bs "missing_mandatory", ATypes ts)] end)
  ++ (match vrPresentForbidden res with [] => [] | ts => [(bs "present_forbidden", ATypes ts)] end)
  ++ (match vrValueErrors res with [] => [] | es => [(bs "value_errors", AValueErrors es)] end).

Inductive Level : Type := LevelDebug | LevelInfo | LevelWarn.
Record LogEntry := mkLog { leLevel : Level; leMsg : gostring; leAttrs : list Attr }.

(** * The validator *)

Section validate.
Context (s : Spec) (parsed : list TLV).

Lemma present_map_snoc ts t : present_map (ts ++ [t]) = <[tlv_type t := t]> (present_map ts).
Proof. unfold present_map. by rewrite foldl_app. Qed.

(** The last record of a type is the one present. *)
Lemma present_map_Some k v :
  present_map parsed !! k = Some v <->
  exists ts1 ts2, parsed = ts1 ++ v :: ts2 /\ tlv_type v = k /\ k ∉ map tlv_type ts2.
Proof.
  induction parsed as [|t ts IH] using rev_ind.
  - split; [done|]. intros ([] & ts2 & ? & _); done.
  - rewrite present_map_snoc, lookup_insert_Some, IH. split.
    + intros [[<- <-]|(Hne & ts1 & ts2 & -> & Hk & Hn)].
      * exists ts, []. split_and!; [done..|set_solver].
      * exists ts1, (ts2 ++ [t]). rewrite <- app_assoc. split_and!; [done..|].
        rewrite map_app, elem_of_app. simpl. set_solver.
    + intros (ts1 & ts2 & Heq & Hk & Hn). destruct ts2 as [|t' ts2 _] using rev_ind.
      * apply app_inj_tail in Heq as [-> ->]. by left.
      * rewrite app_comm_cons, app_assoc in Heq. apply app_inj_tail in Heq as [-> ->].
        rewrite map_app, elem_of_app in Hn. right. split; [set_solver|].
        exists ts1, ts2. split_and!; [done..|set_solver].
Qed.

Lemma present_map_None k : present_map parsed !! k = None <-> k ∉ map tlv_type parsed.
Proof.
  induction parsed as [|t ts IH] using rev_ind.
  - split; [set_solver|done].
  - rewrite present_map_snoc, lookup_insert_None, IH, map_app, elem_of_app. simpl. set_solver.
Qed.

Lemma check_mandatory_spec ts res :
  check_mandatory (present_map parsed) ts res =
  let missing := filter (fun t => t ∉ map tlv_type parsed) ts in
  mkVR (vrOK res && is_nil missing) (vrMissingMandatory res ++ missing)
    (vrPresentForbidden res) (vrValueErrors res) (vrUnknownERA res).
Proof.
  unfold check_mandatory. revert res. induction ts as [|t ts IH]; intros res; cbn [foldl].
  - destruct res. simpl. by rewrite app_nil_r, andb_true_r.
  - rewrite IH, filter_cons. destruct (present_map parsed !! t) as [v|] eqn:E.
    + rewrite decide_False; [done|]. rewrite <- present_map_None. by rewrite E.
    + apply present_map_None in E. rewrite decide_True by done. simpl.
      by rewrite andb_false_r, <- app_assoc.
Qed.

Lemma check_forbidden_spec ts res :
  check_forbidden (present_map parsed) ts res =
  let bad := filter (fun t => t ∈ map tlv_type parsed) ts in
  mkVR (vrOK res && is_nil bad) (vrMissingMandatory res)
    (vrPresentForbidden res ++ bad) (vrValueErrors res) (vrUnknownERA res).
Proof.
  unfold check_forbidden. revert res. induction ts as [|t ts IH]; intros res; cbn [foldl].
  - destruct res. simpl. by rewrite app_nil_r, andb_true_r.
  - rewrite IH, filter_cons. destruct (present_map parsed !! t) as [v|] eqn:E.
    + rewrite decide_True.
      * simpl. by rewrite andb_false_r, <- app_assoc.
      * destruct (decide (t ∈ map tlv_type parsed)) as [|Hn]; [done|].
        apply present_map_None in Hn. congruence.
    + apply present_map_None in E. by rewrite decide_False.
Qed.

Definition value_error_of (t : TLV) : list (Z * ValErr) :=
  match ValidateTLV t with Err e => [(tlv_type t, e)] | Ok _ => [] end.

Lemma check_values_spec ts res :
  check_values ts res =
  let errs := concat (map value_error_of ts) in
  mkVR (vrOK res && is_nil errs) (vrMissingMandatory res) (vrPresentForbidden res)
    (vrValueErrors res ++ errs) (vrUnknownERA res).
Proof.
  unfold check_values. revert res. induction ts as [|t ts IH]; intros res; cbn [foldl].
  - destruct res. simpl. by rewrite app_nil_r, andb_true_r.
  - rewrite IH. cbn [map concat]. set (errs := concat _).
    unfold value_error_of. destruct (ValidateTLV t); [done|]. simpl.
    by rewrite andb_false_r, <- app_assoc.
Qed.

Lemma value_errors_nil ts :
  concat (map value_error_of ts) = [] <-> Forall (fun t => ValidateTLV t = Ok tt) ts.
Proof.
  induction ts as [|t ts IH]; cbn [map concat]; [by split|].
  rewrite Forall_cons, <- IH. unfold value_error_of at 1.
  destruct (ValidateTLV t) as [[]|e]; simpl; [tauto|]. split; [done|]. by intros [? _].
Qed.

Lemma classify_unknown_spec al ts res :
  classify_unknown al ts res =
  mkVR (vrOK res) (vrMissingMandatory res) (vrPresentForbidden res) (vrValueErrors res)
    (vrUnknownERA res ++ filter (fun t => t ∉ al /\ IsERACustom t = true) (map tlv_type ts)).
Proof.
  unfold classify_unknown. revert res. induction ts as [|t ts IH]; intros res; cbn [foldl map].
  - destruct res. simpl. by rewrite app_nil_r.
  - rewrite IH, filter_cons. case_bool_decide as Hal.
    + rewrite decide_False by tauto. done.
    + destruct (IsERACustom (tlv_type t)) eqn:E.
      * rewrite decide_True by done. simpl. by rewrite <- app_assoc.
      * rewrite decide_False by (intros [? ?]; congruence). done.
Qed.

(** The version rule: the last spec-version record announces Stage 1. *)
Definition version_ok : Prop :=
  forall ts1 v ts2, parsed = ts1 ++ v :: ts2 -> tlv_type v = EraTLVSpecVersion ->
    EraTLVSpecVersion ∉ map tlv_type ts2 -> tlv_value v = [SpecVersionStage1].

Lemma check_spec_version_spec res :
  exists errs, check_spec_version (present_map parsed) res =
    mkVR (vrOK res && is_nil errs) (vrMissingMandatory res) (vrPresentForbidden res)
      (vrValueErrors res ++ errs) (vrUnknownERA res)
  /\ (errs = [] <-> version_ok).
Proof.
  unfold check_spec_version. destruct (present_map parsed !! EraTLVSpecVersion) as [v|] eqn:E.
  - assert (Hv : (negb (length (tlv_value v) =? 1)%nat || negb (byte_at (tlv_value v) 0 =? SpecVersionStage1))%bool = false
      <-> version_ok).
    { apply present_map_Some in E as (ts1 & ts2 & Hp & Hk & Hn).
      assert (Hone : forall x : bytes, (negb (length x =? 1)%nat || negb (byte_at x 0 =? SpecVersionStage1))%bool = false
        <-> x = [SpecVersionStage1]).
      { intros x. rewrite orb_false_iff, !negb_false_iff, Nat.eqb_eq, Z.eqb_eq. split.
        - intros [Hl Hb]. destruct x as [|a [|]]; try done. unfold byte_at in Hb. simpl in Hb. by subst.
        - by intros ->. }
      rewrite Hone. split; [|intros H; by eapply H].
      intros Hval ts1' v' ts2' Hp' Hk' Hn'. enough (v = v') by congruence.
      assert (Hs : Some v = Some v').
      { rewrite <- (proj2 (present_map_Some EraTLVSpecVersion v)) by eauto.
        by apply present_map_Some; exists ts1', ts2'. }
      by injection Hs. }
    destruct (_ || _)%bool.
    + exists [(EraTLVSpecVersion, VSpecVersion)]. split; [unfold add_value_error; simpl; by rewrite andb_false_r|].
      split; [done|]. intros Hok. apply Hv in Hok. done.
    + exists []. split; [destruct res; simpl; by rewrite app_nil_r, andb_true_r|]. split; [|done].
      intros _. by apply Hv.
  - exists []. split; [destruct res; simpl; by rewrite app_nil_r, andb_true_r|]. split; [|done].
    intros _ ts1 v ts2 Hp Hk Hn. apply present_map_None in E. exfalso. apply E. rewrite Hp, map_app.
    set_solver.
Qed.

Lemma Validate_unfold :
  exists errs, (errs = [] <-> Forall (fun t => ValidateTLV t = Ok tt) parsed /\ version_ok) /\
  let missing := filter (fun t => t ∉ map tlv_type parsed) (universalMandatory ++ spMandatory s) in
  let bad := filter (fun t => t ∈ map tlv_type parsed) (spForbidden s) in
  Validate s parsed =
  mkVR (is_nil missing && is_nil bad && is_nil errs)
    missing bad errs
    (filter (fun t => t ∉ allowed_types s /\ IsERACustom t = true) (map tlv_type parsed)).
Proof.
  unfold Validate. rewrite !check_mandatory_spec, check_forbidden_spec, check_values_spec. cbv zeta.
  match goal with |- context [check_spec_version _ ?r] =>
    destruct (check_spec_version_spec r) as (verrs & -> & Hv) end.
  exists (concat (map value_error_of parsed) ++ verrs). split.
  - rewrite app_nil, value_errors_nil, Hv. done.
  - rewrite classify_unknown_spec, filter_app. cbn [vrOK vrMissingMandatory vrPresentForbidden vrValueErrors vrUnknownERA].
    rewrite !app_nil_l, is_nil_app, is_nil_app. f_equal. by rewrite !andb_assoc.
Qed.
End validate.

Lemma filter_nil_iff {A} (P : A -> Prop) `{forall x, Decision (P x)} (l : list A) :
  filter P l = [] <-> forall x, x ∈ l -> ~ P x.
Proof.
  induction l as [|a l IH]; [split; [set_solver|done]|]. rewrite filter_cons. case_decide.
  - split; [done|]. intros Hx. exfalso. eapply Hx; [by left|done].
  - rewrite IH. split.
    + intros Hx x [->|Hin]%elem_of_cons; auto.
    + intros Hx x Hin. apply Hx. by right.
Qed.

(** A type that fails the filter's test keeps the list from being empty. *)
Lemma is_nil_filter_false {A} (P : A -> Prop) `{forall x, Decision (P x)} (x : A) (l : list A) :
  P x -> x ∈ l -> is_nil (filter P l) = false.
Proof.
  intros Hp Hx. destruct (is_nil (filter P l)) eqn:E; [|done].
  apply is_nil_true, filter_nil_iff with (x := x) in E; done.
Qed.

(** Validation accepts exactly the record lists that carry every universal
    and every mandatory type, carry no forbidden type, hold only values the
    per-type rules accept, and whose last spec-version record announces
    Stage 1; it reports the missing mandatory types and the forbidden types
    present, each in the order of the matrix row, and is negative exactly when
    it reports something. *)
Theorem Validate_ok_iff s parsed :
  let r := Validate s parsed in
  vrMissingMandatory r
    = filter (fun t => t ∉ map tlv_type parsed) (universalMandatory ++ spMandatory s)
  /\ vrPresentForbidden r = filter (fun t => t ∈ map tlv_type parsed) (spForbidden s)
  /\ (vrOK r = true <->
        vrMissingMandatory r = [] /\ vrPresentForbidden r = [] /\ vrValueErrors r = [])
  /\ (vrOK r = true <->
        (forall t, t ∈ universalMandatory ++ spMandatory s -> t ∈ map tlv_type parsed)
        /\ (forall t, t ∈ spForbidden s -> t ∉ map tlv_type parsed)
        /\ Forall (fun t => ValidateTLV t = Ok tt) parsed
        /\ version_ok parsed).
Proof.
  destruct (Validate_unfold s parsed) as (errs & Herrs & HV). cbv zeta in *. rewrite HV.
  cbn [vrOK vrMissingMandatory vrPresentForbidden vrValueErrors].
  rewrite !andb_true_iff, !is_nil_true. split_and!; [done..|tauto|].
  rewrite Herrs, !filter_nil_iff.
  assert (Hm : (forall x, x ∈ universalMandatory ++ spMandatory s -> ~ (x ∉ map tlv_type parsed))
    <-> (forall t, t ∈ universalMandatory ++ spMandatory s -> t ∈ map tlv_type parsed)).
  { split; intros H t Ht; [|by intros Hn; apply Hn, H].
    destruct (decide (t ∈ map tlv_type parsed)); [done|]. exfalso. by eapply H. }
  rewrite Hm. tauto.
Qed.

(** The types of the matrix columns. *)
Definition column_types : list Z := seqZ 0xE1 13.

(** One row is a partition of the columns into its three lists. *)
Definition row_ok (row : list Z * Spec) : Prop :=
  let '(name, s) := row in
  spName s = name /\ (spL4 s = bs "tcp" \/ spL4 s = bs "udp")
  /\ NoDup (spMandatory s ++ spOptional s ++ spForbidden s)
  /\ list_to_set (C := gset Z) (spMandatory s ++ spOptional s ++ spForbidden s) = list_to_set column_types.
#[export] Instance row_ok_dec row : Decision (row_ok row).
Proof. destruct row. unfold row_ok. apply _. Defined.

Lemma matrix_rows_ok : Forall row_ok matrix_rows.
Proof. decide_closed. Qed.

Lemma LookupProtocol_row name s : LookupProtocol name = Some s -> row_ok (name, s).
Proof.
  unfold LookupProtocol, matrix. intros H. apply elem_of_list_to_map_2 in H. pose proof matrix_rows_ok as Hr.
  rewrite Forall_forall in Hr. by apply Hr.
Qed.

(** The matrix is complete and consistent: the row found under a name
    carries that name and a transport of tcp or udp, and sorts every ERA type
    from 0xE1 to 0xED into exactly one of mandatory, optional and forbidden,
    and nothing else. *)
Theorem matrix_partition name s t (Hs : LookupProtocol name = Some s) :
  spName s = name /\ (spL4 s = bs "tcp" \/ spL4 s = bs "udp")
  /\ (0xE1 <= t <= 0xED <-> t ∈ spMandatory s \/ t ∈ spOptional s \/ t ∈ spForbidden s)
  /\ (t ∈ spMandatory s -> t ∉ spOptional s /\ t ∉ spForbidden s)
  /\ (t ∈ spOptional s -> t ∉ spForbidden s).
Proof.
  apply LookupProtocol_row in Hs as (Hn & Hl & Hnd & Hset). split_and!; [done..| | |].
  - assert (Hm : t ∈ list_to_set (C := gset Z) (spMandatory s ++ spOptional s ++ spForbidden s)
      <-> 0xE1 <= t <= 0xED).
    { rewrite Hset, elem_of_list_to_set. unfold column_types. rewrite elem_of_seqZ. lia. }
    rewrite elem_of_list_to_set, !elem_of_app in Hm. tauto.
  - apply NoDup_app in Hnd as (_ & Hd & _). intros Ht. specialize (Hd t Ht).
    rewrite elem_of_app in Hd. tauto.
  - apply NoDup_app in Hnd as (_ & _ & Hnd). apply NoDup_app in Hnd as (_ & Hd & _). auto.
Qed.

Lemma Validate_no_unknown_lemma name s parsed :
  LookupProtocol name = Some s -> vrUnknownERA (Validate s parsed) = [].
Proof.
  intros Hs.
  destruct (Validate_unfold s parsed) as (errs & _ & HV). cbv zeta in HV. rewrite HV.
  cbn [vrUnknownERA]. apply filter_nil_iff. intros t _ [Hal Hera].
  apply LookupProtocol_row in Hs as (_ & _ & _ & Hset).
  unfold IsERACustom in Hera. simpl_bool.
  assert (Hcols : t ∈ column_types -> t ∈ spMandatory s ++ spOptional s ++ spForbidden s).
  { intros Hin. apply (elem_of_list_to_set (C := gset Z)). rewrite Hset. by apply elem_of_list_to_set. }
  unfold column_types in Hcols. rewrite elem_of_seqZ, !elem_of_app in Hcols.
  apply Hal. unfold allowed_types. rewrite !elem_of_union, !elem_of_list_to_set, elem_of_singleton.
  unfold universalMandatory, EraTLVSpecVersion, EraTLVTraceID, EraTLVRouteTag in *.
  rewrite !elem_of_cons.
  destruct (decide (t = 0xE0)); [tauto|]. destruct (decide (t = 0xEE)); [tauto|].
  destruct (decide (t = 0xEF)); [tauto|].
  assert (Hin : 225 <= t < 225 + 13) by lia. apply Hcols in Hin. tauto.
Qed.

(** Under any row of the matrix no record is ever reported as an unknown
    ERA type: the columns, the two universal types and the route tag cover the
    whole range 0xE0-0xEF, so the unknown-TLV counter cannot move. *)
Theorem Validate_no_unknown name s parsed (Hs : LookupProtocol name = Some s) :
  vrUnknownERA (Validate s parsed) = [].
Proof. by eapply Validate_no_unknown_lemma. Qed.

(** * Counters *)

Lemma inc_key_lookup {K} `{Countable K} (m : gmap K Z) k k' :
  default 0 (inc_key m k !! k') = (if decide (k' = k) then u64 (default 0 (m !! k) + 1)
                                   else default 0 (m !! k')).
Proof.
  unfold inc_key. case_decide as Hk; [subst; by rewrite lookup_insert_eq|].
  by rewrite lookup_insert_ne.
Qed.

Example AllProtocols_sorted : AllProtocols =
  [ProtoAnyConnectCSTP; ProtoAnyConnectDTLS; ProtoAnyTLS; ProtoBrowserH3; ProtoDriveWeb;
   ProtoHysteria2; ProtoJuicity; ProtoShadowTLS; ProtoTTConnect; ProtoTTH3; ProtoVLESSRealityVisionSeed;
   ProtoVLESSWSLive; ProtoVLESSWSSync; ProtoVLESSWSTransfer].
Proof. vm_compute. reflexivity. Qed.

(** * Witnesses *)

Definition dtls_spec : Spec :=
  mkSpec ProtoAnyConnectDTLS (bs "udp")
    [EraTLVToken; EraTLVDeviceID; EraTLVUserID; EraTLVDTLSPSK; EraTLVSourceHintV6; EraTLVMTLSSubjectDN]
    []
    [EraTLVOrigSNI; EraTLVALPNDetail; EraTLVVLESSTarget; EraTLVVLESSUUID; EraTLVVLESSFlow;
     EraTLVQUICConnID; EraTLVQUICStreamID].

Lemma lookup_dtls : LookupProtocol ProtoAnyConnectDTLS = Some dtls_spec.
Proof. vm_compute. reflexivity. Qed.

Lemma matrix_partition_witness :
  LookupProtocol ProtoAnyConnectDTLS = Some dtls_spec
  /\ (EraTLVDTLSPSK ∈ spMandatory dtls_spec -> EraTLVDTLSPSK ∉ spForbidden dtls_spec).
Proof.
  split; [exact lookup_dtls|]. intros H.
  destruct (matrix_partition _ _ EraTLVDTLSPSK lookup_dtls) as (_ & _ & _ & H1 & _).
  exact (proj2 (H1 H)).
Defined.

Lemma Validate_no_unknown_witness :
  LookupProtocol ProtoAnyConnectDTLS = Some dtls_spec
  /\ vrUnknownERA (Validate dtls_spec tlv_sample) = [].
Proof.
  split; [exact lookup_dtls|]. exact (Validate_no_unknown _ _ tlv_sample lookup_dtls).
Defined.
