(* ===== verification/Datagram.v ===== *)
(** [internal/udshandoff/datagram.go] and [datagram_listener.go]: the framing
    of a handoff datagram, the receive path from raw bytes to the handler, and
    the reply writer. *)

From S2P Require Import Prelude Netip Utf8 Tlv Reader Handoff.

(** * Frames *)

Definition DGramHeaderLen : nat := 6.
Definition MaxDatagramSize : Z := 64 * 1024.

Definition DirFacadeToBackend : byte := 0.
Definition DirBackendToFacade : byte := 1.

Record DGramFrame := mkDGramFrame {
  dfVersion : byte;
  dfDirection : byte;
  dfInner : HeaderV2;
  dfERA : list TLV;
  dfPayload : bytes
}.
#[export] Instance DGramFrame_eq_dec : EqDecision DGramFrame.
Proof. solve_decision. Defined.

Definition AllTLVs (f : DGramFrame) : list TLV := hTLVs (dfInner f) ++ dfERA f.

Inductive FrameErrKind : Type :=
| ErrFrameTooShort
| ErrFrameBadVersion
| ErrFrameReservedFlags
| ErrFrameOversize
| ErrFrameTruncated
| ErrFrameInnerPP2
| ErrFrameERAMalformed.
#[export] Instance FrameErrKind_eq_dec : EqDecision FrameErrKind.
Proof. solve_decision. Defined.
Definition frame_kind_string (k : FrameErrKind) : gostring :=
  match k with
  | ErrFrameTooShort => bs "frame_too_short"
  | ErrFrameBadVersion => bs "frame_bad_version"
  | ErrFrameReservedFlags => bs "frame_reserved_flags_set"
  | ErrFrameOversize => bs "frame_oversize"
  | ErrFrameTruncated => bs "frame_truncated"
  | ErrFrameInnerPP2 => bs "frame_inner_pp2_decode"
  | ErrFrameERAMalformed => bs "frame_era_tlv_decode"
  end.

(** The error a [FrameErr] wraps. *)
Inductive FrameCause : Type := FCNone | FCHeader (e : HeaderErr) | FCTLV (e : TLVErr).
Record FrameErr := mkFrameErr { frKind : FrameErrKind; frErr : FrameCause }.

Definition DecodeDGramFrame (buf : bytes) : result FrameErr DGramFrame :=
  if (length buf <? DGramHeaderLen)%nat then Err (mkFrameErr ErrFrameTooShort FCNone)
  else
    let v := byte_at buf 0 in
    if negb (v =? SpecVersionStage1) then Err (mkFrameErr ErrFrameBadVersion FCNone)
    else
      let fl := byte_at buf 1 in
      if negb (Z.land fl 0xFE =? 0) then Err (mkFrameErr ErrFrameReservedFlags FCNone)
      else
        let tlvLen := Z.to_nat (be16 (slice buf 2 4)) in
        let pldLen := Z.to_nat (be16 (slice buf 4 6)) in
        let totalDeclared := (DGramHeaderLen + tlvLen + pldLen)%nat in
        if MaxDatagramSize <? Z.of_nat totalDeclared then Err (mkFrameErr ErrFrameOversize FCNone)
        else if (length buf <? totalDeclared)%nat then Err (mkFrameErr ErrFrameTruncated FCNone)
        else
          let tlvBlock := slice buf DGramHeaderLen (DGramHeaderLen + tlvLen) in
          let payload := slice buf (DGramHeaderLen + tlvLen) (DGramHeaderLen + tlvLen + pldLen) in
          match ReadHeaderV2WithTLVs (mkReader tlvBlock EOF) with
          | Err e => Err (mkFrameErr ErrFrameInnerPP2 (FCHeader e))
          | Ok (inner, innerRdr) =>
            let rem := drop (length tlvBlock - length (rd_data innerRdr)) tlvBlock in
            let frame eraTLVs := mkDGramFrame v (Z.land fl 0x01) inner eraTLVs payload in
            if (0 <? length rem)%nat then
              match DecodeTLVs rem with
              | Err (_, derr) => Err (mkFrameErr ErrFrameERAMalformed (FCTLV derr))
              | Ok (decoded, _) => Ok (frame decoded)
              end
            else Ok (frame [])
          end.

(** * Replies *)

Definition encodeInnerPP2 (h : HeaderV2) : result EncErr bytes := Encode h.

Inductive ReplyErr : Type := REncodeInner (e : EncErr) | REncodeTLVs (e : EncErr) | ROversize.

(** [writeReply]: the frame handed to [inner.WriteTo]. *)
Definition writeReply (inbound : DGramFrame) (payload : bytes) : result ReplyErr bytes :=
  match encodeInnerPP2 (dfInner inbound) with
  | Err e => Err (REncodeInner e)
  | Ok innerBuf =>
    match encodeTLVs (dfERA inbound) with
    | Err e => Err (REncodeTLVs e)
    | Ok eraBuf =>
      let tlvBlock := innerBuf ++ eraBuf in
      if MaxDatagramSize <? Z.of_nat (length tlvBlock + length payload + DGramHeaderLen)
      then Err ROversize
      else Ok ([dfVersion inbound; Z.land DirBackendToFacade 0x01]
               ++ put16 (Z.of_nat (length tlvBlock)) ++ put16 (Z.of_nat (length payload))
               ++ tlvBlock ++ payload)
    end
  end.

(** * The receive path *)

(** What a handler does with a datagram: return, return an error, panic. *)
Inductive HandlerOutcome : Type := HReturn | HError (e : gostring) | HPanic (r : gostring).

Record AcceptedDatagram := mkAcc {
  adFrame : DGramFrame;
  adSpec : Spec;
  adFields : LogFields;
  adPeer : gostring
}.
(** The [Reply] closure of an accepted datagram. *)
Definition acc_Reply (acc : AcceptedDatagram) (payload : bytes) : result ReplyErr bytes :=
  writeReply (adFrame acc) payload.

(** [handlerDgramSafe]: a panic becomes an error. *)
Definition handlerDgramSafe (h : AcceptedDatagram -> HandlerOutcome) (acc : AcceptedDatagram) : option gostring :=
  match h acc with
  | HReturn => None
  | HError e => Some e
  | HPanic r => Some (bs "handler panic: " ++ r)
  end.

(** The listener's static part. *)
Record DatagramOpts := mkDOpts {
  doSpec : Spec;
  doHandler : AcceptedDatagram -> HandlerOutcome
}.

Definition onFrameError (o : DatagramOpts) (m : option Metrics) (fe : FrameErr) : option Metrics * list LogEntry :=
  let m := IncFrameRejected (spName (doSpec o)) m in
  let m := match frKind fe with
           | ErrFrameTooShort | ErrFrameTruncated => IncIncompleteHeader m
           | ErrFrameInnerPP2 => IncProxyV2InvalidSignature m
           | ErrFrameOversize => IncOversizeDatagram m
           | _ => m
           end in
  (m, [mkLog LevelWarn (bs "datagram frame parse failed")
         [(bs "kind", AString (frame_kind_string (frKind fe)))]]).

(** The loop over the unknown types: a counter and a debug line each. *)
Definition note_unknown (p : ProtocolName) (msg : gostring) (trace : gostring) (ts : TLVTypes)
    (st : option Metrics * list LogEntry) : option Metrics * list LogEntry :=
  foldl (fun st t =>
    (IncUnknownERATLV t p st.1,
     st.2 ++ [mkLog LevelDebug msg [(bs "trace_id", AString trace); (bs "tlv_type", ATypes [t])]])) st ts.

(** One datagram from [peer], the name of the socket that sent it: the counters,
    the log, and the datagram the handler was called with, if it was. A sender
    without a name has a nil address in Go, whose [String] panics; such senders
    are left out. *)
Definition processFrame (o : DatagramOpts) (m : option Metrics) (raw : bytes) (peer : gostring)
  : option Metrics * list LogEntry * option AcceptedDatagram :=
  let name := spName (doSpec o) in
  match DecodeDGramFrame raw with
  | Err fe => (onFrameError o m fe, None)
  | Ok parsed =>
    if negb (dfDirection parsed =? DirFacadeToBackend) then
      (IncFrameRejected name m,
       [mkLog LevelWarn (bs "datagram has fl bit-0 set (backend->facade direction)")
          [(bs "peer", AString peer)]], None)
    else
      let all := AllTLVs parsed in
      let res := Validate (doSpec o) all in
      let fields := mkLF [] name (hSrc (dfInner parsed)) (hDst (dfInner parsed)) [] []
        EventNone 0 0 0 [] in
      let fields := FromTLVs fields all in
      if negb (vrOK res) then
        let fields := set_event fields EventHandoffInvalid (failure_attrs res) in
        (IncHandoffInvalid name m,
         [mkLog LevelWarn (bs "datagram TLV validation failed") (EmitTo fields)], None)
      else
        let '(m, logs) :=
          note_unknown name (bs "unknown ERA TLV skipped (datagram)") (lfTraceID fields)
            (vrUnknownERA res) (m, []) in
        let m := IncHandoffAccept name m in
        let fields := mkLF (lfTraceID fields) (lfProtocol fields) (lfClientSrc fields)
          (lfOriginalDst fields) (lfDeviceID fields) (lfUserID fields) (lfEvent fields)
          (Z.of_nat (length (dfPayload parsed))) (lfBytesOut fields) (lfDuration fields) (lfExtra fields) in
        let acc := mkAcc parsed (doSpec o) fields peer in
        match handlerDgramSafe (doHandler o) acc with
        | Some err =>
          let fields := set_event fields EventFlowError (lfExtra fields ++ [(bs "err", AString err)]) in
          (m, logs ++ [mkLog LevelWarn (bs "datagram handler failed") (EmitTo fields)], Some acc)
        | None => (m, logs, Some acc)
        end
  end.

(** What [inner.ReadFrom] returns, call by call, with [d.closing] as seen
    after an error. *)
Inductive RecvEvent : Type :=
| RecvDatagram (raw : bytes) (peer : gostring)
| RecvError (closing : bool) (is_closed : bool) (err : gostring).

(** [recvLoop]: returns (with [true]) or is still receiving after the events. *)
Fixpoint recvLoop (o : DatagramOpts) (m : option Metrics) (evs : list RecvEvent)
  : option Metrics * list LogEntry * list AcceptedDatagram * bool :=
  match evs with
  | [] => (m, [], [], false)
  | RecvError closing is_closed err :: evs' =>
    if closing then (m, [], [], true)
    else if is_closed then (m, [], [], true)
    else
      let '(m, logs, accs, fin) := recvLoop o m evs' in
      (m, mkLog LevelWarn (bs "recvfrom failed") [(bs "err", AString err)] :: logs, accs, fin)
  | RecvDatagram raw peer :: evs' =>
    let n := Z.of_nat (length raw) in
    if MaxDatagramSize <? n then
      let m := IncFrameRejected (spName (doSpec o)) (IncOversizeDatagram m) in
      let '(m, logs, accs, fin) := recvLoop o m evs' in
      (m, mkLog LevelWarn (bs "oversize datagram dropped")
            [(bs "size", AInt n); (bs "cap", AInt MaxDatagramSize)] :: logs, accs, fin)
    else
      let '(m, logs0, acc) := processFrame o m raw peer in
      let '(m, logs, accs, fin) := recvLoop o m evs' in
      (m, logs0 ++ logs, option_list acc ++ accs, fin)
  end.

(** * Construction and shutdown *)

(** The option checks of [ListenDatagram], in order; binding the socket is
    outside the model. *)
Inductive ListenErr : Type := LNoSpec | LWrongL4 | LNoLogger | LNoHandler | LBind (e : gostring).
Definition ListenDatagram (spec : option Spec) (has_logger has_handler : bool)
    (prebound : bool) (bind : option gostring) : result ListenErr unit :=
  match spec with
  | None => Err LNoSpec
  | Some s =>
    if negb (bool_decide (spL4 s = bs "udp")) then Err LWrongL4
    else if negb has_logger then Err LNoLogger
    else if negb has_handler then Err LNoHandler
    else if prebound then Ok tt
    else match bind with Some e => Err (LBind e) | None => Ok tt end
  end.

(** [Close]: the flags and what it does to the socket; [wg.Wait] is outside
    the model. *)
Record ListenerLife := mkLife {
  llClosing : bool; llInnerClosed : nat; llDoneClosed : nat; llRemoved : nat
}.
Definition life_Close (has_path prebound : bool) (l : ListenerLife) : ListenerLife :=
  if llClosing l then l
  else mkLife true (S (llInnerClosed l)) (S (llDoneClosed l))
         (if has_path && negb prebound then S (llRemoved l) else llRemoved l).

(** * The frame format *)

(** A frame the format can hold, and its image. *)
Definition frame_block (f : DGramFrame) : bytes := header_bytes (dfInner f) ++ tlvs_bytes (dfERA f).
Definition frame_ok (f : DGramFrame) : Prop :=
  dfVersion f = SpecVersionStage1 /\ (dfDirection f = 0 \/ dfDirection f = 1)
  /\ header_ok (dfInner f) /\ tlvs_ok (dfERA f) /\ bytes_ok (dfPayload f)
  /\ Z.of_nat (6 + length (frame_block f) + length (dfPayload f)) <= MaxDatagramSize.
Definition frame_bytes (f : DGramFrame) : bytes :=
  [dfVersion f; dfDirection f] ++ put16 (Z.of_nat (length (frame_block f)))
  ++ put16 (Z.of_nat (length (dfPayload f))) ++ frame_block f ++ dfPayload f.
#[export] Instance frame_ok_dec f : Decision (frame_ok f).
Proof. unfold frame_ok. apply _. Defined.

(** A mandatory record of a validated block is found, and passed the per-type
    rule. *)
Lemma validated_record s ts t :
  vrOK (Validate s ts) = true -> t ∈ universalMandatory ++ spMandatory s ->
  exists v, lookup_tlv ts t = Some v /\ ValidateTLV (mkTLV t v) = Ok tt.
Proof.
  intros Hok Ht. destruct (Validate_unfold s ts) as (errs & Herrs & HV). cbv zeta in HV. rewrite HV in Hok.
  cbn [vrOK] in Hok. rewrite !andb_true_iff, !is_nil_true in Hok. destruct Hok as [[Hm _] He].
  apply Herrs in He as [Hval _].
  assert (Hin : t ∈ map tlv_type ts).
  { destruct (decide (t ∈ map tlv_type ts)) as [|Hn]; [done|]. exfalso.
    pose proof (is_nil_filter_false (fun t => t ∉ map tlv_type ts) t _ Hn Ht) as H.
    rewrite Hm in H. done. }
  apply lookup_tlv_in in Hin as (v & Hl & Hin). rewrite Forall_forall in Hval. exists v. split; [done|].
  by apply (Hval (mkTLV t v)).
Qed.

Lemma flag_bit fl :
  is_byte fl -> Z.land fl 0xFE = 0 -> (fl = 0 \/ fl = 1) /\ Z.land fl 0x01 = fl.
Proof.
  intros Hb Hl.
  assert (Hall : Forall (fun fl => Z.land fl 0xFE = 0 -> (fl = 0 \/ fl = 1) /\ Z.land fl 0x01 = fl) (seqZ 0 256))
    by decide_closed.
  rewrite Forall_forall in Hall. apply Hall; [|done]. apply elem_of_seqZ. unfold is_byte in Hb. lia.
Qed.

(** The six bytes of the fixed header. *)
Lemma fixed_header_parse buf :
  (6 <= length buf)%nat -> bytes_ok buf ->
  buf = [byte_at buf 0; byte_at buf 1] ++ put16 (be16 (slice buf 2 4)) ++ put16 (be16 (slice buf 4 6))
        ++ drop 6 buf.
Proof.
  intros Hl Hok. rewrite !put16_be16 by (rewrite ?length_slice; auto with bytes; lia).
  do 6 (destruct buf as [|? buf]; [simpl in Hl; lia|]). done.
Qed.

Lemma be16_len (n : nat) rest : Z.of_nat n <= 65530 -> Z.to_nat (be16 (put16 (Z.of_nat n) ++ rest)) = n.
Proof. intros. rewrite be16_put16 by (change (2 ^ 16) with 65536; lia). apply Nat2Z.id. Qed.

Lemma DecodeDGramFrame_complete f junk :
  frame_ok f -> DecodeDGramFrame (frame_bytes f ++ junk) = Ok f.
Proof.
  intros (Hv & Hd & Hi & He & Hp & Hlen). unfold MaxDatagramSize in Hlen.
  unfold DecodeDGramFrame, frame_bytes. set (blk := frame_block f) in *. set (pl := dfPayload f) in *.
  change (byte_at _ 0) with (dfVersion f). change (byte_at _ 1) with (dfDirection f).
  change (slice _ 2 4) with (put16 (Z.of_nat (length blk)) ++ []).
  change (slice _ 4 6) with (put16 (Z.of_nat (length pl)) ++ []).
  rewrite !be16_len by lia.
  rewrite !length_app, !length_put16. unfold DGramHeaderLen.
  rewrite (proj2 (Nat.ltb_ge _ 6)) by (simpl; lia).
  rewrite Hv. replace (Z.land (dfDirection f) 254 =? 0) with true by (by destruct Hd as [-> | ->]).
  simpl negb. cbv zeta iota.
  rewrite (proj2 (Z.ltb_ge _ _)) by (unfold MaxDatagramSize; lia).
  rewrite (proj2 (Nat.ltb_ge _ _)) by (simpl; lia).
  set (hd := [SpecVersionStage1; dfDirection f] ++ put16 (Z.of_nat (length blk)) ++ put16 (Z.of_nat (length pl))).
  replace (([SpecVersionStage1; dfDirection f] ++ put16 (Z.of_nat (length blk))
    ++ put16 (Z.of_nat (length pl)) ++ blk ++ pl) ++ junk) with (hd ++ blk ++ pl ++ junk)
    by (unfold hd; by rewrite <- !app_assoc).
  rewrite (slice_app_eq hd blk (pl ++ junk)) by done.
  rewrite (app_assoc hd blk), (slice_app_eq (hd ++ blk) pl junk) by (rewrite ?length_app; done).
  unfold blk at 1, frame_block at 1. rewrite ReadHeader_complete by done. cbn [rd_data].
  replace (drop (length blk - length (tlvs_bytes (dfERA f))) blk) with (tlvs_bytes (dfERA f)).
  2: { unfold blk, frame_block. rewrite length_app, Nat.add_sub. by rewrite drop_app_length. }
  replace (Z.land (dfDirection f) 1) with (dfDirection f) by (by destruct Hd as [-> | ->]).
  destruct (Nat.ltb_spec 0 (length (tlvs_bytes (dfERA f)))) as [Hlt|Hge].
  - rewrite DecodeTLVs_complete by done. unfold pl. destruct f. simpl in *. by subst.
  - destruct f as [v d i [|t ts] p]; simpl in *; [by subst|lia].
Qed.

Lemma DecodeDGramFrame_sound buf f :
  bytes_ok buf -> DecodeDGramFrame buf = Ok f -> frame_ok f /\ exists junk, buf = frame_bytes f ++ junk.
Proof.
  intros Hok H. unfold DecodeDGramFrame in H.
  destruct (length buf <? DGramHeaderLen)%nat eqn:E6; [done|]. simpl_bool. unfold DGramHeaderLen in *.
  destruct (negb (byte_at buf 0 =? SpecVersionStage1)) eqn:Ev; [done|]. simpl_bool.
  destruct (negb (Z.land (byte_at buf 1) 0xFE =? 0)) eqn:Efl; [done|]. simpl_bool.
  apply flag_bit in Efl as [Hfl Hfl1]; [|auto with bytes]. rewrite Hfl1 in H.
  pose proof (fixed_header_parse buf E6 Hok) as Hbuf. rewrite Ev in Hbuf.
  pose proof (be16_bound (slice buf 2 4) (bytes_ok_slice _ _ _ Hok)) as Ht.
  pose proof (be16_bound (slice buf 4 6) (bytes_ok_slice _ _ _ Hok)) as Hp.
  set (tl := be16 (slice buf 2 4)) in *. set (pl := be16 (slice buf 4 6)) in *.
  destruct (MaxDatagramSize <? _) eqn:Emax; [done|]. destruct (length buf <? _)%nat eqn:Etr; [done|].
  simpl_bool. cbv zeta in H.
  set (blk := slice buf 6 (6 + Z.to_nat tl)) in *.
  set (pay := slice buf (6 + Z.to_nat tl) (6 + Z.to_nat tl + Z.to_nat pl)) in *.
  assert (Lb : length blk = Z.to_nat tl) by (unfold blk; rewrite length_slice; lia).
  assert (Lp : length pay = Z.to_nat pl) by (unfold pay; rewrite length_slice; lia).
  assert (Hsplit : drop 6 buf = blk ++ pay ++ drop (6 + Z.to_nat tl + Z.to_nat pl) buf).
  { unfold blk, pay. by rewrite !slice_drop by lia. }
  destruct (ReadHeaderV2WithTLVs (mkReader blk EOF)) as [[inner r']|] eqn:Er; [|done].
  apply ReadHeader_sound in Er as (Hin & Hblk & _); [|unfold blk; auto with bytes].
  assert (Hrem : drop (length blk - length (rd_data r')) blk = rd_data r').
  { rewrite Hblk, length_app, Nat.add_sub. apply drop_app_length. }
  rewrite Hrem in H.
  assert (Hdone : forall era, f = mkDGramFrame (byte_at buf 0) (byte_at buf 1) inner era pay ->
    tlvs_ok era -> rd_data r' = tlvs_bytes era -> frame_ok f /\ exists junk, buf = frame_bytes f ++ junk).
  { intros era -> Hera Hdata. rewrite Hdata in Hblk. unfold frame_ok, frame_bytes, frame_block.
    cbn [dfVersion dfDirection dfInner dfERA dfPayload].
    rewrite <- Hblk, Lb, Lp, !Z2Nat.id by lia. split_and!; try done; [unfold pay; auto with bytes|].
    exists (drop (6 + Z.to_nat tl + Z.to_nat pl) buf). rewrite Ev. rewrite Hbuf at 1. rewrite Hsplit.
      by rewrite <- !app_assoc. }
  destruct (0 <? length (rd_data r'))%nat eqn:E0; simpl_bool.
  - destruct (DecodeTLVs (rd_data r')) as [[era n]|[? ?]] eqn:Ed; [|done].
    assert (Hokr : bytes_ok (rd_data r')) by (rewrite <- Hrem; unfold blk; auto with bytes).
    apply DecodeTLVs_inv in Ed as [Hera Hdata]; [|done]. injection H as <-. by eapply Hdone.
  - injection H as <-. eapply Hdone; [done|split; constructor|]. apply nil_length_inv. lia.
Qed.

(** C14: The datagram format: a buffer decodes to a frame exactly when the
    frame is well formed (version 1, a direction bit, an encodable inner
    header, distinct ERA records, at most 64 KiB in all) and the buffer is its
    image, the fixed header with the two lengths, the inner header's encoding,
    the records and the payload, possibly followed by bytes that are ignored. *)
Theorem DecodeDGramFrame_iff buf f (Hbuf : bytes_ok buf) :
  DecodeDGramFrame buf = Ok f <-> frame_ok f /\ exists junk, buf = frame_bytes f ++ junk.
Proof.
  split; [by apply DecodeDGramFrame_sound|]. intros [Hf [junk ->]]. by apply DecodeDGramFrame_complete.
Qed.

(** * Replies *)

Definition reply_frame (f : DGramFrame) (payload : bytes) : DGramFrame :=
  mkDGramFrame (dfVersion f) DirBackendToFacade (dfInner f) (dfERA f) payload.

Lemma writeReply_frame f payload :
  header_ok (dfInner f) -> tlvs_ok (dfERA f) ->
  writeReply f payload =
  (if MaxDatagramSize <? Z.of_nat (6 + length (frame_block f) + length payload) then Err ROversize
   else Ok (frame_bytes (reply_frame f payload))).
Proof.
  intros Hi He. unfold writeReply, encodeInnerPP2. rewrite header_ok_Encode by done.
  rewrite encodeTLVs_ok by (by apply tlvs_ok_sizes). cbv zeta.
  fold (frame_block f). unfold DGramHeaderLen.
  replace (length (frame_block f) + length payload + 6)%nat with (6 + length (frame_block f) + length payload)%nat by lia.
  done.
Qed.

(** A reply to a decoded datagram fails only when it would exceed 64 KiB
    with the inbound's TLV block, and otherwise is a frame that decodes to the
    inbound's version, inner header and ERA records, with the direction bit
    set and the handler's payload; it carries the inbound's TLV block length
    and TLV block byte for byte. *)
Theorem reply_decodes raw f payload
  (Hraw : bytes_ok raw) (Hdec : DecodeDGramFrame raw = Ok f) (Hpay : bytes_ok payload) :
  let tl := Z.to_nat (be16 (slice raw 2 4)) in
  if MaxDatagramSize <? Z.of_nat (6 + tl + length payload)
  then writeReply f payload = Err ROversize
  else exists b, writeReply f payload = Ok b
       /\ DecodeDGramFrame b
          = Ok (mkDGramFrame (dfVersion f) DirBackendToFacade (dfInner f) (dfERA f) payload)
       /\ slice b 2 4 = slice raw 2 4 /\ slice b 6 (6 + tl) = slice raw 6 (6 + tl).
Proof.
  apply DecodeDGramFrame_sound in Hdec as [Hf [junk ->]]; [|done].
  destruct Hf as (Hv & Hd & Hi & He & Hp & Hlen). cbv zeta.
  change (slice (frame_bytes f ++ junk) 2 4) with (put16 (Z.of_nat (length (frame_block f))) ++ []).
  rewrite be16_len by (unfold MaxDatagramSize in Hlen; lia).
  rewrite (writeReply_frame f payload Hi He).
  destruct (MaxDatagramSize <? _) eqn:E; [done|]. simpl_bool. eexists. split; [done|].
  assert (Hr : frame_ok (reply_frame f payload)) by (unfold frame_ok; split_and!; try done; by right).
  split_and!.
  - pose proof (DecodeDGramFrame_complete _ [] Hr) as H. by rewrite app_nil_r in H.
  - done.
  - set (blk := frame_block f) in *.
    assert (Hs : forall hd tl : bytes, length hd = 6%nat -> slice (hd ++ blk ++ tl) 6 (6 + length blk) = blk).
    { intros hd tl Hh. apply slice_app_eq; lia. }
    transitivity blk; [|symmetry].
    + apply (Hs ([dfVersion f; DirBackendToFacade] ++ put16 (Z.of_nat (length blk))
        ++ put16 (Z.of_nat (length payload))) payload). done.
    + unfold frame_bytes. rewrite <- !app_assoc.
      apply (Hs ([dfVersion f; dfDirection f] ++ put16 (Z.of_nat (length blk))
        ++ put16 (Z.of_nat (length (dfPayload f)))) (dfPayload f ++ junk)). done.
Qed.

(** * Dispatch *)

(** The frames a listener hands to its handler. *)
Definition dispatchable (s : Spec) (raw : bytes) (f : DGramFrame) : Prop :=
  DecodeDGramFrame raw = Ok f /\ dfDirection f = DirFacadeToBackend
  /\ vrOK (Validate s (AllTLVs f)) = true.

Lemma note_unknown_nil p msg tr st : note_unknown p msg tr [] st = st.
Proof. done. Qed.

(** What one datagram does to the three per-protocol counters. *)
Inductive proto_effect (p : ProtocolName) (m m' : Metrics) : bool -> Prop :=
| eff_accept :
    mHandoffAccept m' = inc_key (mHandoffAccept m) p -> mHandoffInvalid m' = mHandoffInvalid m ->
    mFrameRejected m' = mFrameRejected m -> proto_effect p m m' true
| eff_invalid :
    mHandoffAccept m' = mHandoffAccept m -> mHandoffInvalid m' = inc_key (mHandoffInvalid m) p ->
    mFrameRejected m' = mFrameRejected m -> proto_effect p m m' false
| eff_rejected :
    mHandoffAccept m' = mHandoffAccept m -> mHandoffInvalid m' = mHandoffInvalid m ->
    mFrameRejected m' = inc_key (mFrameRejected m) p -> proto_effect p m m' false.

(** C4: Under a row of the matrix the handler is called for a datagram exactly
    when it decodes, is directed to the backend and its records, the inner
    header's and the ERA ones together, pass validation; it is then called with
    that frame. Every datagram moves exactly one of the accept, invalid and
    rejected counters of the protocol, by one: accept exactly when the handler
    is called. *)
Theorem processFrame_dispatch name o m raw peer m' logs oacc
  (Hspec : LookupProtocol name = Some (doSpec o))
  (Hrun : processFrame o (Some m) raw peer = (m', logs, oacc)) :
  (forall f, dispatchable (doSpec o) raw f <-> exists acc, oacc = Some acc /\ adFrame acc = f)
  /\ exists m1, m' = Some m1
     /\ proto_effect name m m1 (match oacc with Some _ => true | None => false end).
Proof.
  pose proof (Validate_no_unknown_lemma name (doSpec o)) as Hnu.
  assert (Hname : spName (doSpec o) = name) by (by apply LookupProtocol_row in Hspec as [? _]).
  unfold processFrame in Hrun. rewrite Hname in Hrun. unfold dispatchable.
  destruct (DecodeDGramFrame raw) as [f|fe] eqn:Ed.
  - destruct (negb (dfDirection f =? DirFacadeToBackend)) eqn:Edir; simpl_bool.
    + simplify_eq. split.
      * intros f'. split; [intros (? & ? & _); simplify_eq|by intros (? & ? & _)].
      * eexists. split; [done|]. by apply eff_rejected.
    + cbv zeta in Hrun. destruct (vrOK (Validate (doSpec o) (AllTLVs f))) eqn:Eok; cbn [negb] in Hrun.
      * rewrite (Hnu (AllTLVs f) Hspec), note_unknown_nil in Hrun.
        set (acc := mkAcc _ _ _ _) in Hrun.
        assert (Hr : m' = IncHandoffAccept name (Some m) /\ oacc = Some acc)
          by (destruct (handlerDgramSafe _ _); by simplify_eq).
        destruct Hr as [-> ->]. split.
        -- intros f'. split; [intros (? & _); simplify_eq; by exists acc|].
           intros (acc' & Ha & <-). simplify_eq. done.
        -- eexists. split; [done|]. by apply eff_accept.
      * simplify_eq. split.
        -- intros f'. split; [intros (? & _ & ?); simplify_eq; congruence|by intros (? & ? & _)].
        -- eexists. split; [done|]. by apply eff_invalid.
  - unfold onFrameError in Hrun. rewrite Hname in Hrun. simplify_eq. split.
    + intros f'. split; [by intros (? & _)|by intros (? & ? & _)].
    + destruct (frKind fe); (eexists; split; [done|]; by apply eff_rejected).
Qed.

(** Every anyconnect-dtls datagram must carry the PSK record: one that
    decodes and is directed to the backend but has no DTLS-PSK record, in
    whatever state the flow is, is never handed to the handler and counts as an
    invalid handoff. *)
Theorem dtls_without_psk_rejected o m raw f peer
  (Hspec : LookupProtocol ProtoAnyConnectDTLS = Some (doSpec o))
  (Hdec : DecodeDGramFrame raw = Ok f) (Hdir : dfDirection f = DirFacadeToBackend)
  (Hpsk : EraTLVDTLSPSK ∉ map tlv_type (AllTLVs f)) :
  exists logs, processFrame o m raw peer = (IncHandoffInvalid ProtoAnyConnectDTLS m, logs, None).
Proof.
  assert (Hs : doSpec o = dtls_spec) by (rewrite lookup_dtls in Hspec; by simplify_eq).
  unfold processFrame. rewrite Hdec, Hdir. cbn [Z.eqb negb DirFacadeToBackend]. cbv zeta.
  rewrite Hs.
  assert (Hok : vrOK (Validate dtls_spec (AllTLVs f)) = false).
  { destruct (Validate_unfold dtls_spec (AllTLVs f)) as (errs & _ & HV). cbv zeta in HV. rewrite HV.
    cbn [vrOK]. rewrite (is_nil_filter_false _ EraTLVDTLSPSK); [done|done|decide_closed]. }
  rewrite Hok. cbn [negb]. eauto.
Qed.

(** * Witnesses *)

Definition dtls_records : list TLV :=
  [mkTLV EraTLVToken (repeat 7 12);
   mkTLV EraTLVDeviceID (bs "123e4567-e89b-12d3-a456-426614174000");
   mkTLV EraTLVUserID (bs "alice");
   mkTLV EraTLVDTLSPSK (repeat 9 32);
   mkTLV EraTLVSourceHintV6 ([0x20; 0x01; 0x0d; 0xb8] ++ repeat 0 11 ++ [1]);
   mkTLV EraTLVMTLSSubjectDN (bs "CN=dev");
   mkTLV EraTLVTraceID (bs "01ARZ3NDEKTSV4RRFFQ69G5FAV");
   mkTLV EraTLVSpecVersion [SpecVersionStage1]].
Definition dtls_inner : HeaderV2 := mkHeaderV2 famUDP4 (ap4_sample 1 40000) (ap4_sample 2 443) [].
Definition dtls_frame : DGramFrame := mkDGramFrame SpecVersionStage1 0 dtls_inner dtls_records [0; 1; 2].
Definition dtls_opts : DatagramOpts := mkDOpts dtls_spec (fun _ => HReturn).

Lemma dtls_frame_decodes : DecodeDGramFrame (frame_bytes dtls_frame) = Ok dtls_frame.
Proof. vm_compute. reflexivity. Qed.

Lemma DecodeDGramFrame_iff_witness :
  bytes_ok (frame_bytes dtls_frame) /\ DecodeDGramFrame (frame_bytes dtls_frame) = Ok dtls_frame.
Proof.
  assert (H : bytes_ok (frame_bytes dtls_frame)) by decide_closed.
  split; [exact H|]. apply (DecodeDGramFrame_iff _ _ H).
  split; [decide_closed|]. exists []. vm_compute. reflexivity.
Defined.

Lemma reply_decodes_witness :
  exists b, writeReply dtls_frame [4; 5] = Ok b
    /\ DecodeDGramFrame b = Ok (mkDGramFrame SpecVersionStage1 DirBackendToFacade dtls_inner dtls_records [4; 5]).
Proof.
  assert (Hok : bytes_ok (frame_bytes dtls_frame)) by decide_closed.
  assert (Hp : bytes_ok [4; 5]) by decide_closed.
  pose proof (reply_decodes _ _ [4; 5] Hok dtls_frame_decodes Hp) as H. cbv zeta in H.
  assert (Hn : MaxDatagramSize <? Z.of_nat (6 + Z.to_nat (be16 (slice (frame_bytes dtls_frame) 2 4)) + length [4; 5]) = false)
    by (vm_compute; reflexivity).
  rewrite Hn in H. destruct H as (b & H1 & H2 & _). exists b. split; [exact H1|exact H2].
Defined.

Lemma processFrame_dispatch_witness :
  exists m' logs acc,
    processFrame dtls_opts (Some NewMetrics) (frame_bytes dtls_frame) [] = (m', logs, Some acc)
    /\ dispatchable dtls_spec (frame_bytes dtls_frame) (adFrame acc).
Proof.
  destruct (processFrame dtls_opts (Some NewMetrics) (frame_bytes dtls_frame) []) as [[m' logs] oacc] eqn:E.
  destruct (processFrame_dispatch ProtoAnyConnectDTLS dtls_opts NewMetrics _ _ _ _ _ lookup_dtls E) as [H _].
  assert (Hd : dispatchable dtls_spec (frame_bytes dtls_frame) dtls_frame).
  { split; [exact dtls_frame_decodes|]. split; vm_compute; reflexivity. }
  destruct (proj1 (H dtls_frame) Hd) as (acc & -> & Ha).
  exists m', logs, acc. split; [reflexivity|]. rewrite Ha. exact Hd.
Defined.

Definition followup_frame : DGramFrame :=
  mkDGramFrame SpecVersionStage1 0 dtls_inner
    (filter (fun t => tlv_type t <> EraTLVDTLSPSK) dtls_records) [0; 1; 2].

Lemma dtls_without_psk_rejected_witness :
  exists logs, processFrame dtls_opts None (frame_bytes followup_frame) []
    = (IncHandoffInvalid ProtoAnyConnectDTLS None, logs, None).
Proof.
  apply (dtls_without_psk_rejected dtls_opts None _ followup_frame).
  - exact lookup_dtls.
  - vm_compute. reflexivity.
  - reflexivity.
  - decide_closed.
Defined.
