(* ===== verification/Stream.v ===== *)
(** [internal/udshandoff/listener.go] and [accepted.go]: the stream listener,
    from an accepted connection's bytes to the handler, and the byte counters
    of an accepted stream. *)

From S2P Require Import Prelude Netip Utf8 Tlv Reader Handoff Datagram.

(** * Accepted streams *)

(** [atomic.Int64] *)
Definition i64 (z : Z) : Z := (z + 2 ^ 63) mod 2 ^ 64 - 2 ^ 63.

(** The stream behind the header, what has been written to the connection, and
    the counters. *)
Record AcceptedStream := mkAS {
  asReader : Reader;
  asWritten : bytes;
  asHeader : HeaderV2;
  asSpec : Spec;
  asFields : LogFields;
  asBytesIn : Z;
  asBytesOut : Z
}.

(** [Read] when the buffered reader returns [n] bytes. *)
Definition as_Read (a : AcceptedStream) (n : nat) : bytes * AcceptedStream :=
  let p := take n (rd_data (asReader a)) in
  let r := mkReader (drop n (rd_data (asReader a))) (rd_err (asReader a)) in
  (p, mkAS r (asWritten a) (asHeader a) (asSpec a) (asFields a)
        (if (0 <? length p)%nat then i64 (asBytesIn a + Z.of_nat (length p)) else asBytesIn a) (asBytesOut a)).
(** [Write] of [p] when the connection takes its first [n] bytes. *)
Definition as_Write (a : AcceptedStream) (p : bytes) (n : nat) : nat * AcceptedStream :=
  let n := length (take n p) in
  (n, mkAS (asReader a) (asWritten a ++ take n p) (asHeader a) (asSpec a) (asFields a) (asBytesIn a)
        (if (0 <? n)%nat then i64 (asBytesOut a + Z.of_nat n) else asBytesOut a)).
(** [CopyTo] / [CopyFrom] when the copy moves [n] bytes. *)
Definition as_CopyTo (a : AcceptedStream) (n : nat) : bytes * AcceptedStream :=
  let p := take n (rd_data (asReader a)) in
  (p, mkAS (mkReader (drop n (rd_data (asReader a))) (rd_err (asReader a))) (asWritten a) (asHeader a)
        (asSpec a) (asFields a) (i64 (asBytesIn a + Z.of_nat (length p))) (asBytesOut a)).
Definition as_CopyFrom (a : AcceptedStream) (src : bytes) (n : nat) : nat * AcceptedStream :=
  let p := take n src in
  (length p, mkAS (asReader a) (asWritten a ++ p) (asHeader a) (asSpec a) (asFields a) (asBytesIn a)
        (i64 (asBytesOut a + Z.of_nat (length p)))).

Definition as_TraceID (a : AcceptedStream) : gostring := lfTraceID (asFields a).
Definition as_DeviceID (a : AcceptedStream) : gostring := lfDeviceID (asFields a).
Definition as_UserID (a : AcceptedStream) : gostring := lfUserID (asFields a).

(** * One connection *)

(** A handler turns the stream it is given into an outcome, the stream as it
    left it, and the time it took. *)
Definition StreamHandler : Type := AcceptedStream -> HandlerOutcome * AcceptedStream * Z.

Definition handlerStreamSafe (h : StreamHandler) (acc : AcceptedStream) : option gostring * AcceptedStream * Z :=
  let '(out, acc, dur) := h acc in
  (match out with
   | HReturn => None
   | HError e => Some e
   | HPanic r => Some (bs "handler panic: " ++ r)
   end, acc, dur).

Record StreamOpts := mkSOpts { soSpec : Spec; soHandler : StreamHandler }.

Definition onHeaderError (o : StreamOpts) (m : option Metrics) (e : HeaderErr) : option Metrics * list LogEntry :=
  let m := match heKind e with
           | ErrSignatureInvalid => IncProxyV2InvalidSignature m
           | ErrIncompleteHeader => IncIncompleteHeader m
           | _ => m
           end in
  (IncHandoffInvalid (spName (soSpec o)) m,
   [mkLog LevelWarn (bs "PROXY-v2 header read failed") [(bs "err", AString (kind_string (heKind e)))]]).

Definition onValidationFailure (o : StreamOpts) (m : option Metrics) (res : ValidateResult) (fields : LogFields)
  : option Metrics * list LogEntry :=
  (IncHandoffInvalid (spName (soSpec o)) m,
   [mkLog LevelWarn (bs "PROXY-v2 + TLV validation failed")
      (EmitTo (set_event fields EventHandoffInvalid (failure_attrs res)))]).

(** [handle] on a connection's stream: the counters, the log, and the stream
    the handler was called with, if it was. The connection is closed in every
    case (the deferred [conn.Close]). *)
Definition handle (o : StreamOpts) (m : option Metrics) (conn : Reader)
  : option Metrics * list LogEntry * option AcceptedStream :=
  let name := spName (soSpec o) in
  match ReadHeaderV2WithTLVsBuffered conn with
  | Err e => (onHeaderError o m e, None)
  | Ok (hdr, br) =>
    let res := Validate (soSpec o) (hTLVs hdr) in
    let fields := FromTLVs (mkLF [] name (hSrc hdr) (hDst hdr) [] [] EventNone 0 0 0 []) (hTLVs hdr) in
    if negb (vrOK res) then (onValidationFailure o m res fields, None)
    else
      let '(m, logs) :=
        note_unknown name (bs "unknown ERA TLV skipped") (lfTraceID fields) (vrUnknownERA res) (m, []) in
      let m := IncHandoffAccept name m in
      let fields := set_event fields EventHandoffStart (lfExtra fields) in
      let logs := logs ++ [mkLog LevelInfo (bs "stream handoff accepted") (EmitTo fields)] in
      let acc := mkAS br [] hdr (soSpec o) fields 0 0 in
      let '(herr, acc', dur) := handlerStreamSafe (soHandler o) acc in
      let fields := mkLF (lfTraceID fields) (lfProtocol fields) (lfClientSrc fields) (lfOriginalDst fields)
        (lfDeviceID fields) (lfUserID fields) (lfEvent fields) (asBytesIn acc') (asBytesOut acc') dur
        (lfExtra fields) in
      match herr with
      | Some err =>
        let fields := set_event fields EventFlowError (lfExtra fields ++ [(bs "err", AString err)]) in
        (m, logs ++ [mkLog LevelWarn (bs "stream handler failed") (EmitTo fields)], Some acc)
      | None =>
        let fields := set_event fields EventFlowClosed (lfExtra fields) in
        (m, logs ++ [mkLog LevelInfo (bs "stream flow closed") (EmitTo fields)], Some acc)
      end
  end.

(** * The accept loop *)

(** What [inner.Accept] returns, call by call, with [s.closing] as seen after
    an error. *)
Inductive StreamEvent : Type :=
| EvConn (conn : Reader)
| EvAcceptErr (closing is_closed : bool) (err : gostring).

(** [acceptLoop]; the per-connection goroutines share nothing but the atomic
    counters, so they are run one after the other. *)
Fixpoint acceptLoop (o : StreamOpts) (m : option Metrics) (evs : list StreamEvent)
  : option Metrics * list LogEntry * list AcceptedStream * bool :=
  match evs with
  | [] => (m, [], [], false)
  | EvAcceptErr closing is_closed err :: _ =>
    if closing then (m, [], [], true)
    else if is_closed then (m, [], [], true)
    else (m, [mkLog LevelWarn (bs "accept failed") [(bs "err", AString err)]], [], true)
  | EvConn conn :: evs' =>
    let '(m, logs0, acc) := handle o m conn in
    let '(m, logs, accs, fin) := acceptLoop o m evs' in
    (m, logs0 ++ logs, option_list acc ++ accs, fin)
  end.

(** The option checks of [ListenStream] and the header deadline it settles on. *)
Definition HeaderReadTimeout : Z := 5 * 1000000000.
Definition ListenStream (spec : option Spec) (has_logger has_handler : bool) (read_deadline : Z)
    (prebound : bool) (bind : option gostring) : result ListenErr Z :=
  match spec with
  | None => Err LNoSpec
  | Some s =>
    if negb (bool_decide (spL4 s = bs "tcp")) then Err LWrongL4
    else if negb has_logger then Err LNoLogger
    else if negb has_handler then Err LNoHandler
    else
      let deadline := if read_deadline <=? 0 then HeaderReadTimeout else read_deadline in
      if prebound then Ok deadline
      else match bind with Some e => Err (LBind e) | None => Ok deadline end
  end.

(** [StreamListener.Close] *)
Definition stream_Close (has_path prebound : bool) (l : ListenerLife) : ListenerLife :=
  if llClosing l then l
  else mkLife true (S (llInnerClosed l)) (S (llDoneClosed l))
         (if has_path && negb prebound then S (llRemoved l) else llRemoved l).

(** * Dispatch *)

(** The header a stream listener accepts: it starts the stream and passes the
    matrix row. *)
Definition admissible (s : Spec) (conn : Reader) (hdr : HeaderV2) (rest : Reader) : Prop :=
  ReadHeaderV2WithTLVs conn = Ok (hdr, rest) /\ vrOK (Validate s (hTLVs hdr)) = true.

(** Under a row of the matrix the stream handler is called exactly when the
    connection starts with a header whose records pass validation; it is given
    that header and the stream from the first byte after it, with both byte
    counters at zero. Every connection moves exactly one of the accept and
    invalid counters of the protocol, by one, accept exactly when the handler
    is called, and never the rejected-datagram counter. *)
Theorem handle_dispatch name o m conn m' logs oacc
  (Hspec : LookupProtocol name = Some (soSpec o))
  (Hrun : handle o (Some m) conn = (m', logs, oacc)) :
  (forall hdr rest, admissible (soSpec o) conn hdr rest <->
     exists acc, oacc = Some acc /\ asHeader acc = hdr /\ asReader acc = rest)
  /\ (forall acc, oacc = Some acc -> asBytesIn acc = 0 /\ asBytesOut acc = 0 /\ asWritten acc = [])
  /\ exists m1, m' = Some m1
     /\ proto_effect name m m1 (match oacc with Some _ => true | None => false end)
     /\ mFrameRejected m1 = mFrameRejected m.
Proof.
  pose proof (Validate_no_unknown_lemma name (soSpec o)) as Hnu.
  assert (Hname : spName (soSpec o) = name) by (by apply LookupProtocol_row in Hspec as [? _]).
  unfold handle, ReadHeaderV2WithTLVsBuffered in Hrun. rewrite Hname in Hrun. unfold admissible.
  destruct (ReadHeaderV2WithTLVs conn) as [[hdr br]|e].
  - cbv zeta in Hrun. destruct (vrOK (Validate (soSpec o) (hTLVs hdr))) eqn:Eok; cbn [negb] in Hrun.
    + rewrite (Hnu (hTLVs hdr) Hspec), note_unknown_nil in Hrun.
      set (acc := mkAS _ _ _ _ _ _ _) in Hrun.
      assert (Hr : m' = IncHandoffAccept name (Some m) /\ oacc = Some acc).
      { destruct (handlerStreamSafe _ _) as [[[]] ]; by simplify_eq. }
      destruct Hr as [-> ->]. split_and!.
      * intros h' r'. split; [intros (? & _); simplify_eq; by exists acc|].
        intros (acc' & Ha & <- & <-). simplify_eq. done.
      * intros acc' Ha. by simplify_eq.
      * eexists. split; [done|]. split; [by apply eff_accept|done].
    + unfold onValidationFailure in Hrun. rewrite Hname in Hrun. simplify_eq. split_and!.
      * intros h' r'. split; [intros (? & ?); simplify_eq; congruence|by intros (? & ? & _)].
      * done.
      * eexists. split; [done|]. split; [by apply eff_invalid|done].
  - unfold onHeaderError in Hrun. rewrite Hname in Hrun. simplify_eq. split_and!.
    + intros h' r'. split; [by intros (? & _)|by intros (? & ? & _)].
    + done.
    + destruct (heKind e); (eexists; split; [done|]; split; [by apply eff_invalid|done]).
Qed.

(** * Witnesses *)

Definition cstp_spec : Spec :=
  mkSpec ProtoAnyConnectCSTP (bs "tcp")
    [EraTLVToken; EraTLVDeviceID; EraTLVUserID; EraTLVSourceHintV6; EraTLVMTLSSubjectDN]
    [EraTLVOrigSNI; EraTLVALPNDetail]
    [EraTLVVLESSTarget; EraTLVVLESSUUID; EraTLVVLESSFlow; EraTLVQUICConnID; EraTLVQUICStreamID;
     EraTLVDTLSPSK].
Lemma lookup_cstp : LookupProtocol ProtoAnyConnectCSTP = Some cstp_spec.
Proof. vm_compute. reflexivity. Qed.

Definition cstp_header : HeaderV2 :=
  mkHeaderV2 famTCP4 (ap4_sample 1 40000) (ap4_sample 2 443)
    (filter (fun t => tlv_type t <> EraTLVDTLSPSK) dtls_records).
Definition cstp_opts : StreamOpts := mkSOpts cstp_spec (fun a => (HReturn, a, 0)).
Definition cstp_conn : Reader := mkReader (header_bytes cstp_header ++ [9]) EOF.

Lemma handle_dispatch_witness :
  exists m' logs acc,
    handle cstp_opts (Some NewMetrics) cstp_conn = (m', logs, Some acc)
    /\ asHeader acc = cstp_header /\ rd_data (asReader acc) = [9].
Proof.
  destruct (handle cstp_opts (Some NewMetrics) cstp_conn) as [[m' logs] oacc] eqn:E.
  destruct (handle_dispatch ProtoAnyConnectCSTP cstp_opts NewMetrics _ _ _ _ lookup_cstp E) as [H _].
  assert (Ha : admissible cstp_spec cstp_conn cstp_header (mkReader [9] EOF)).
  { split; vm_compute; reflexivity. }
  destruct (proj1 (H _ _) Ha) as (acc & -> & H1 & H2).
  exists m', logs, acc. split; [reflexivity|]. split; [exact H1|]. rewrite H2. reflexivity.
Defined.
