(* ===== verification/Auth.v ===== *)
(** [internal/auth]: the device id in a certificate's Subject DN
    ([subjectdn.go], [deviceid.go]), the certificate validator ([cert.go]) and
    the password verifiers ([verifier.go], [mock.go]). *)

From S2P Require Import Prelude Netip Utf8.

(** * Device ids *)

(** [^dev_[a-z2-7]{26}$] *)
Definition base32_char (c : byte) : bool := ((97 <=? c) && (c <=? 122)) || ((50 <=? c) && (c <=? 55)).
Definition validDeviceID (s : gostring) : bool :=
  has_prefix (bs "dev_") s && (length s =? 30)%nat && forallb base32_char (drop 4 s).

(** * Errors *)

Inductive AuthErr : Type :=
| ErrNoCert | ErrCertExpired | ErrCertUntrusted | ErrNoDeviceID
| ErrBadCredentials | ErrAccountLocked | ErrUpstream | ErrInvalidSubjectDN
| ErrContext.   (* ctx.Err() of a cancelled context *)
#[export] Instance AuthErr_eq_dec : EqDecision AuthErr.
Proof. solve_decision. Defined.

(** * Subject DNs *)

(** [splitUnescaped]; [cur] is [s[start:i]]. *)
Fixpoint split_loop (sep : byte) (s : bytes) (cur : bytes) : option (list bytes) :=
  match s with
  | [] => Some [cur]
  | c :: s' =>
    if c =? 92 then
      match s' with
      | [] => None
      | d :: s'' => split_loop sep s'' (cur ++ [c; d])
      end
    else if c =? sep then cons cur <$> split_loop sep s' []
    else split_loop sep s' (cur ++ [c])
  end.
Definition splitUnescaped (s : bytes) (sep : byte) : option (list bytes) := split_loop sep s [].
Definition splitRDNs (dn : bytes) : option (list bytes) := splitUnescaped dn 44.
Definition splitAVAs (rdn : bytes) : option (list bytes) := splitUnescaped rdn 43.

Definition isHexDigit (c : byte) : bool :=
  if (48 <=? c) && (c <=? 57) then true
  else if (97 <=? c) && (c <=? 102) then true
  else if (65 <=? c) && (c <=? 70) then true
  else false.
Definition hexNibble (c : byte) : byte :=
  if (48 <=? c) && (c <=? 57) then c - 48
  else if (97 <=? c) && (c <=? 102) then c - 97 + 10
  else if (65 <=? c) && (c <=? 70) then c - 65 + 10
  else 0.
Definition hexPair (hi lo : byte) : byte := Z.lor (u8 (Z.shiftl (hexNibble hi) 4)) (hexNibble lo).

(** The single-character escapes [,+\<>; #=] and the double quote. *)
Definition escapable (c : byte) : bool :=
  existsb (Z.eqb c) [44; 43; 34; 92; 60; 62; 59; 32; 35; 61].

Fixpoint unescapeRFC4514 (s : bytes) : option bytes :=
  match s with
  | [] => Some []
  | c :: s' =>
    if negb (c =? 92) then cons c <$> unescapeRFC4514 s'
    else
      match s' with
      | [] => None
      | next :: s'' =>
        if isHexDigit next then
          match s'' with
          | [] => None
          | lo :: s3 => if isHexDigit lo then cons (hexPair next lo) <$> unescapeRFC4514 s3 else None
          end
        else if escapable next then cons next <$> unescapeRFC4514 s''
        else None
      end
  end.

(** [strings.EqualFold(attr, "CN")]; no non-ASCII rune folds to C or N. *)
Definition is_CN (attr : bytes) : bool :=
  match attr with
  | [c; n] => ((c =? 67) || (c =? 99)) && ((n =? 78) || (n =? 110))
  | _ => false
  end.

Inductive extractResult : Type := extractMissing | extractMalformed | extractOK.

(** The inner loop of [extractCN]: [None] continues with the next RDN. *)
Fixpoint scan_avas (avas : list bytes) : option (bytes * extractResult) :=
  match avas with
  | [] => None
  | ava :: avas' =>
    match index_byte 61 ava with
    | None => scan_avas avas'
    | Some O => scan_avas avas'
    | Some eq =>
      let attr := TrimSpace (take eq ava) in
      if negb (is_CN attr) then scan_avas avas'
      else
        match unescapeRFC4514 (TrimSpace (drop (S eq) ava)) with
        | None => Some ([], extractMalformed)
        | Some [] => Some ([], extractMissing)
        | Some val => Some (val, extractOK)
        end
    end
  end.
Fixpoint scan_rdns (rdns : list bytes) : bytes * extractResult :=
  match rdns with
  | [] => ([], extractMissing)
  | rdn :: rdns' =>
    match splitAVAs rdn with
    | None => ([], extractMalformed)
    | Some avas =>
      match scan_avas avas with
      | Some res => res
      | None => scan_rdns rdns'
      end
    end
  end.
Definition extractCN (dn : bytes) : bytes * extractResult :=
  match dn with
  | [] => ([], extractMissing)
  | _ =>
    match splitRDNs dn with
    | None => ([], extractMalformed)
    | Some rdns => scan_rdns rdns
    end
  end.

Definition DeviceIDFromSubjectDN (dn : bytes) : result AuthErr gostring :=
  match extractCN dn with
  | (cn, extractOK) => if negb (validDeviceID cn) then Err ErrNoDeviceID else Ok cn
  | (_, extractMalformed) => Err ErrInvalidSubjectDN
  | (_, extractMissing) => Err ErrNoDeviceID
  end.

(** * Certificates *)

Inductive subjectField : Type := subjectCN | subjectOU.

(** [strings.ToUpper] on the two field names; any other value ends at CN too. *)
Definition subject_field (cfg : gostring) : subjectField :=
  match TrimSpace cfg with
  | [o; u] => if ((o =? 79) || (o =? 111)) && ((u =? 85) || (u =? 117)) then subjectOU else subjectCN
  | _ => subjectCN
  end.

(** A peer certificate as the validator sees it, and the chain check of
    [crypto/x509]. *)
Record Certificate := mkCert {
  c_notBefore : Z; c_notAfter : Z; c_commonName : gostring; c_organizationalUnit : list gostring
}.
Record CertValidator := mkCertValidator {
  cv_field : subjectField;
  (** [leaf.Verify] against the roots, with the other certificates as
      intermediates, at the current time, for client authentication *)
  cv_verify : Certificate -> list Certificate -> Z -> bool
}.

Definition extractDeviceID (leaf : Certificate) (field : subjectField) : option gostring :=
  let candidate :=
    match field with
    | subjectOU => match c_organizationalUnit leaf with ou :: _ => TrimSpace ou | [] => [] end
    | subjectCN => TrimSpace (c_commonName leaf)
    end in
  if negb (validDeviceID candidate) then None else Some candidate.

Definition cert_Validate (v : CertValidator) (peers : list Certificate) (now : Z) : result AuthErr gostring :=
  match peers with
  | [] => Err ErrNoCert
  | leaf :: intermediates =>
    if (now <? c_notBefore leaf) || (c_notAfter leaf <? now) then Err ErrCertExpired
    else if negb (cv_verify v leaf intermediates now) then Err ErrCertUntrusted
    else match extractDeviceID leaf (cv_field v) with
         | None => Err ErrNoDeviceID
         | Some d => Ok d
         end
  end.

(** * Password verifiers *)

Definition bom : bytes := [0xEF; 0xBB; 0xBF].
Definition normalizeServiceToken (s : gostring) : gostring :=
  TrimSpace (if has_prefix bom s then drop 3 s else s).

(** The portal's answer: a transport error, or a status and the body with what
    the JSON decoder makes of it. *)
Inductive PortalAnswer : Type :=
| PortalDoErr
| PortalStatus (status : Z) (read_err : bool) (raw : bytes) (device_id : option gostring).

Definition maxBody : Z := 8 * 1024.

(** [HTTPVerifier.Verify]; [portal] is the round trip with the request built
    from the token and the credentials. *)
Definition http_Verify (endpoint : bool) (serviceToken : gostring)
    (portal : gostring -> gostring -> gostring -> PortalAnswer) (username password : gostring)
  : result AuthErr gostring :=
  if negb endpoint then Err ErrUpstream
  else
    let token := normalizeServiceToken serviceToken in
    if bool_decide (token = []) then Err ErrUpstream
    else
      match portal token username password with
      | PortalDoErr => Err ErrUpstream
      | PortalStatus status read_err raw parsed =>
        if status =? 200 then
          if read_err then Err ErrUpstream
          else if maxBody <? Z.of_nat (length raw) then Err ErrUpstream
          else if bool_decide (TrimSpace raw = []) then Err ErrUpstream
          else
            match parsed with
            | None => Err ErrUpstream
            | Some d =>
              let deviceID := TrimSpace d in
              if negb (validDeviceID deviceID) then Err ErrUpstream else Ok deviceID
            end
        else if status =? 401 then Err ErrBadCredentials
        else if status =? 423 then Err ErrAccountLocked
        else Err ErrUpstream
      end.

(** [MockVerifier] *)
Record MockVerifier := mkMock {
  mv_func : option (gostring -> gostring -> result AuthErr gostring);
  mv_creds : gmap (list Z) (gostring * gostring);
  mv_calls : list (gostring * gostring)
}.
Definition mock_Set (m : MockVerifier) (username password deviceID : gostring) : MockVerifier :=
  mkMock (mv_func m) (<[username := (password, deviceID)]> (mv_creds m)) (mv_calls m).
Definition mock_Reset (m : MockVerifier) : MockVerifier := mkMock (mv_func m) ∅ [].
Definition mock_Verify (m : MockVerifier) (ctx_done : bool) (username password : gostring)
  : result AuthErr gostring * MockVerifier :=
  if ctx_done then (Err ErrContext, m)
  else
    let m := mkMock (mv_func m) (mv_creds m) (mv_calls m ++ [(username, password)]) in
    match mv_func m with
    | Some fn => (fn username password, m)
    | None =>
      match mv_creds m !! username with
      | None => (Err ErrBadCredentials, m)
      | Some (pw, dev) => if negb (bool_decide (pw = password)) then (Err ErrBadCredentials, m) else (Ok dev, m)
      end
    end.

(** * Rendered DNs *)

(** An attribute value as a DN carries it: every comma, plus sign and
    backslash in it is part of a backslash pair. *)
Inductive escaped : bytes -> Prop :=
| esc_nil : escaped []
| esc_plain c s : c <> 92 -> c <> 44 -> c <> 43 -> escaped s -> escaped (c :: s)
| esc_pair c s : escaped s -> escaped (92 :: c :: s).

(** An attribute type: letters, digits and dots. *)
Definition attr_char (c : byte) : bool :=
  is_digit c || ((65 <=? c) && (c <=? 90)) || ((97 <=? c) && (c <=? 122)) || (c =? 46).
Definition attr_ok (a : bytes) : Prop := a <> [] /\ forallb attr_char a = true.

Record AVA := mkAVA { ava_attr : bytes; ava_val : bytes }.
Definition render_ava (a : AVA) : bytes := ava_attr a ++ 61 :: ava_val a.
Definition ava_ok (a : AVA) : Prop := attr_ok (ava_attr a) /\ escaped (ava_val a).
(** Comma-separated single-attribute RDNs. *)
Fixpoint render_dn (l : list AVA) : bytes :=
  match l with
  | [] => []
  | [a] => render_ava a
  | a :: l' => render_ava a ++ 44 :: render_dn l'
  end.

Lemma escaped_app s1 s2 : escaped s1 -> escaped s2 -> escaped (s1 ++ s2).
Proof. induction 1; simpl; [done|by constructor; auto|by constructor; auto]. Qed.

Lemma attr_char_facts c :
  attr_char c = true -> c <> 92 /\ c <> 44 /\ c <> 43 /\ c <> 61 /\ 0x20 < c < 0x80.
Proof. unfold attr_char, is_digit. lia. Qed.

Lemma attr_ok_Forall a : attr_ok a -> Forall (fun c => attr_char c = true) a.
Proof.
  intros [_ Ha]. apply Forall_forall. intros c Hc. rewrite forallb_forall in Ha.
  by apply Ha, list_elem_of_In.
Qed.

Lemma plain_escaped a : Forall (fun c => attr_char c = true) a -> escaped a.
Proof.
  induction 1 as [|c a Hc _ IH]; constructor; apply attr_char_facts in Hc; tauto.
Qed.

Lemma render_ava_escaped a : ava_ok a -> escaped (render_ava a).
Proof.
  intros [Ha Hv]. apply escaped_app; [by apply plain_escaped, attr_ok_Forall|]. by constructor.
Qed.

(** An escaped string passes through the splitter whole. *)
Lemma split_escaped sep s rest cur :
  sep = 44 \/ sep = 43 -> escaped s ->
  split_loop sep (s ++ rest) cur = split_loop sep rest (cur ++ s).
Proof.
  intros Hsep Hs. revert cur. induction Hs as [|c s H1 H2 H3 _ IH|c s _ IH]; intros cur.
  - by rewrite app_nil_r.
  - cbn [app split_loop]. rewrite (proj2 (Z.eqb_neq c 92)) by done.
    rewrite (proj2 (Z.eqb_neq c sep)) by (destruct Hsep; congruence).
    by rewrite IH, <- app_assoc.
  - cbn [app split_loop]. rewrite Z.eqb_refl. by rewrite IH, <- app_assoc.
Qed.

Lemma splitAVAs_escaped s : escaped s -> splitAVAs s = Some [s].
Proof.
  intros Hs. unfold splitAVAs, splitUnescaped. rewrite <- (app_nil_r s) at 1.
  by rewrite split_escaped by auto.
Qed.

Lemma splitRDNs_render l :
  l <> [] -> Forall ava_ok l -> splitRDNs (render_dn l) = Some (map render_ava l).
Proof.
  unfold splitRDNs, splitUnescaped. intros Hne Hl. induction Hl as [|a l Ha Hl IH]; [done|].
  pose proof (render_ava_escaped a Ha) as He. destruct l as [|b l].
  - simpl. rewrite <- (app_nil_r (render_ava a)) at 1. by rewrite split_escaped by auto.
  - change (render_dn (a :: b :: l)) with (render_ava a ++ 44 :: render_dn (b :: l)).
    rewrite split_escaped by auto. cbn [app split_loop]. cbn [Z.eqb Pos.eqb].
    rewrite IH by done. done.
Qed.

Lemma render_dn_nonempty l : l <> [] -> render_dn l <> [].
Proof. intros Hl. destruct l as [|[[|] ?] [|]]; done. Qed.

Lemma index_eq_render a : ava_ok a -> index_byte 61 (render_ava a) = Some (length (ava_attr a)).
Proof.
  intros [Ha _]. apply attr_ok_Forall in Ha. unfold render_ava.
  induction Ha as [|c s Hc _ IH]; [done|]. simpl.
  rewrite (proj2 (Z.eqb_neq c 61)) by (apply attr_char_facts in Hc; tauto). by rewrite IH.
Qed.

(** One rendered attribute in the scan. *)
Lemma scan_avas_render a :
  ava_ok a ->
  scan_avas [render_ava a] =
  (if is_CN (ava_attr a) then
     match unescapeRFC4514 (TrimSpace (ava_val a)) with
     | None => Some ([], extractMalformed)
     | Some [] => Some ([], extractMissing)
     | Some val => Some (val, extractOK)
     end
   else None).
Proof.
  intros Ha. cbn [scan_avas]. rewrite index_eq_render by done.
  assert (Ht : TrimSpace (ava_attr a) = ava_attr a).
  { destruct Ha as [Ha _]. apply TrimSpace_id. eapply Forall_impl; [by apply attr_ok_Forall|].
    intros c Hc. apply attr_char_facts in Hc. tauto. }
  unfold render_ava. rewrite take_app_length.
  replace (drop (S (length (ava_attr a))) (ava_attr a ++ 61 :: ava_val a)) with (ava_val a).
  2: { change (61 :: ava_val a) with ([61] ++ ava_val a). rewrite app_assoc.
       replace (S (length (ava_attr a))) with (length (ava_attr a ++ [61])) by (rewrite length_app; simpl; lia).
       by rewrite drop_app_length. }
  rewrite Ht. destruct (length (ava_attr a)) eqn:El.
  - destruct Ha as [[Hn _] _]. by apply nil_length_inv in El.
  - by destruct (is_CN (ava_attr a)).
Qed.

Lemma unescape_plain s : Forall (fun c => c <> 92) s -> unescapeRFC4514 s = Some s.
Proof.
  induction 1 as [|c s Hc _ IH]; [done|]. simpl. rewrite (proj2 (Z.eqb_neq c 92)) by done.
  simpl. by rewrite IH.
Qed.

Lemma validDeviceID_chars id :
  validDeviceID id = true -> Forall (fun c => 0x20 < c < 0x80 /\ c <> 92) id /\ id <> [].
Proof.
  unfold validDeviceID. intros H. simpl_bool. apply has_prefix_spec in H as (q & ->).
  split; [|done]. rewrite Forall_app. split; [repeat constructor; done|].
  change (drop 4 (bs "dev_" ++ q)) with q in H0. rewrite forallb_forall in H0.
  apply Forall_forall. intros c Hc. apply list_elem_of_In, H0 in Hc. unfold base32_char in Hc. lia.
Qed.

Lemma escaped_id id : validDeviceID id = true -> escaped id.
Proof.
  intros H. unfold validDeviceID in H. simpl_bool. apply has_prefix_spec in H as (q & ->).
  apply escaped_app; [repeat (constructor; try done)|].
  change (drop 4 (bs "dev_" ++ q)) with q in H0. rewrite forallb_forall in H0.
  assert (Hq : Forall (fun c => base32_char c = true) q).
  { apply Forall_forall. intros c Hc. by apply H0, list_elem_of_In. }
  clear H0 H1. induction Hq as [|c q Hc _ IH]; constructor; unfold base32_char in Hc; [lia..|done].
Qed.

(** ** Attribute values (RFC 4514, section 2.4) *)

(** The value of a hexadecimal digit, of either case. *)
Definition hex_values : list (byte * Z) :=
  zip (bs "0123456789") [0; 1; 2; 3; 4; 5; 6; 7; 8; 9] ++ zip (bs "abcdef") [10; 11; 12; 13; 14; 15]
    ++ zip (bs "ABCDEF") [10; 11; 12; 13; 14; 15].
(** A string stands for a value: each byte of the value as it is, as a special
    character after a backslash, or as two hexadecimal digits after one. *)
Inductive encodes : bytes -> bytes -> Prop :=
| enc_nil : encodes [] []
| enc_plain c e v : c <> 92 -> c <> 44 -> c <> 43 -> encodes e v -> encodes (c :: e) (c :: v)
| enc_special c e v : c ∈ bs ",+\<>; #=" ++ [34] -> encodes e v -> encodes (92 :: c :: e) (c :: v)
| enc_hex h l a b e v : (h, a) ∈ hex_values -> (l, b) ∈ hex_values -> encodes e v -> encodes (92 :: h :: l :: e) (16 * a + b :: v).

(** The lower digit of a pair has to be plain in a rendered DN. *)
Lemma hex_values_ok h a : (h, a) ∈ hex_values -> isHexDigit h = true /\ hexNibble h = a /\ h <> 92 /\ h <> 44 /\ h <> 43 /\ 0 <= a < 16.
Proof.
  revert h a. assert (H : Forall (fun x => isHexDigit x.1 = true /\ hexNibble x.1 = x.2 /\ x.1 <> 92 /\ x.1 <> 44 /\ x.1 <> 43 /\ 0 <= x.2 < 16) hex_values).
  { decide_closed. }
  intros h a Hin. rewrite Forall_forall in H. apply (H _ Hin).
Qed.
Lemma specials_ok c : c ∈ bs ",+\<>; #=" ++ [34] -> isHexDigit c = false /\ escapable c = true.
Proof.
  revert c. assert (H : Forall (fun c => isHexDigit c = false /\ escapable c = true) (bs ",+\<>; #=" ++ [34])) by decide_closed.
  intros c Hin. rewrite Forall_forall in H. apply (H _ Hin).
Qed.
Lemma hexPair_value h l a b : (h, a) ∈ hex_values -> (l, b) ∈ hex_values -> hexPair h l = 16 * a + b.
Proof.
  revert h l a b. assert (H : Forall (fun x => Forall (fun y => hexPair x.1 y.1 = 16 * x.2 + y.2) hex_values) hex_values) by decide_closed.
  intros h l a b Hh Hl. rewrite Forall_forall in H. specialize (H _ Hh). rewrite Forall_forall in H. apply (H _ Hl).
Qed.
Lemma unescape_encoded e v : encodes e v -> unescapeRFC4514 e = Some v.
Proof.
  induction 1 as [|c e v H1 _ _ _ IH|c e v Hc _ IH|h l a b e v Hh Hl _ IH]; [done| | |]; cbn [unescapeRFC4514].
  - rewrite (proj2 (Z.eqb_neq c 92)) by done. cbn [negb]. by rewrite IH.
  - rewrite Z.eqb_refl. cbn [negb]. apply specials_ok in Hc as [-> ->]. by rewrite IH.
  - rewrite Z.eqb_refl. cbn [negb]. rewrite (hexPair_value h l a b), IH by done.
    apply hex_values_ok in Hh as (-> & _), Hl as (-> & _). done.
Qed.
Lemma encodes_escaped e v : encodes e v -> escaped e.
Proof.
  induction 1 as [|c e v H1 H2 H3 _ IH|c e v Hc _ IH|h l a b e v Hh Hl _ IH]; [constructor|by constructor|by constructor|].
  apply esc_pair. apply hex_values_ok in Hl as (_ & _ & ? & ? & ? & _). by apply esc_plain.
Qed.

(** The first CN of a rendered DN decides. *)
Lemma extractCN_first pre cn e v post :
  Forall (fun a => ava_ok a /\ is_CN (ava_attr a) = false) pre -> is_CN cn = true -> encodes e v -> TrimSpace e = e -> Forall ava_ok post ->
  extractCN (render_dn (pre ++ mkAVA cn e :: post)) = (v, if is_nil v then extractMissing else extractOK).
Proof.
  intros Hpre Hcn Henc Htrim Hpost.
  assert (Hok : ava_ok (mkAVA cn e)).
  { split; [|by eapply encodes_escaped]. destruct cn as [|c [|n [|]]]; try done. unfold is_CN in Hcn.
    split; [done|]. unfold attr_char, is_digit. simpl. lia. }
  assert (Hall : Forall ava_ok (pre ++ mkAVA cn e :: post)).
  { rewrite Forall_app, Forall_cons. split; [|done]. eapply Forall_impl; [exact Hpre|]. by intros a [? _]. }
  assert (Hne : pre ++ mkAVA cn e :: post <> []) by (by destruct pre).
  assert (Hsplit := splitRDNs_render _ Hne Hall).
  unfold extractCN. destruct (render_dn _) as [|c dn] eqn:Er; [by apply render_dn_nonempty in Er|].
  rewrite Hsplit. clear Hsplit Er Hall Hne. rewrite map_app.
  induction Hpre as [|a pre [Ha Hna] _ IH]; cbn [map app scan_rdns].
  - rewrite splitAVAs_escaped by (by apply render_ava_escaped).
    rewrite scan_avas_render by done. cbn [ava_attr ava_val]. rewrite Hcn, Htrim, (unescape_encoded e v) by done. by destruct v.
  - rewrite splitAVAs_escaped by (by apply render_ava_escaped).
    rewrite scan_avas_render by done. rewrite Hna. apply IH.
Qed.

(** C35: No other attribute can pass for the common name: in any DN rendered
    from single-attribute RDNs whose values escape commas, plus signs and
    backslashes, the first attribute whose type is CN in either case decides,
    whatever the values before and after it contain. What decides is the value
    its string stands for, with every escape of RFC 4514 undone: it is the
    device id returned when it has a device id's shape, and there is none
    otherwise. *)
Theorem DeviceIDFromSubjectDN_first_CN pre cn e v post
  (Hpre : Forall (fun a => ava_ok a /\ is_CN (ava_attr a) = false) pre)
  (Hcn : is_CN cn = true) (Henc : encodes e v) (Htrim : TrimSpace e = e) (Hpost : Forall ava_ok post) :
  DeviceIDFromSubjectDN (render_dn (pre ++ mkAVA cn e :: post)) = if validDeviceID v then Ok v else Err ErrNoDeviceID.
Proof.
  unfold DeviceIDFromSubjectDN. rewrite (extractCN_first pre cn e v post) by done. destruct v as [|c v]; [done|]. cbn [is_nil].
  by destruct (validDeviceID (c :: v)).
Qed.

Lemma subject_id_valid dn id : DeviceIDFromSubjectDN dn = Ok id -> validDeviceID id = true.
Proof.
  unfold DeviceIDFromSubjectDN. destruct (extractCN dn) as [cn []]; try done.
  destruct (validDeviceID cn) eqn:E; simpl; [by intros [= <-]|done].
Qed.

(** C40: Every successful authentication, by the certificate, by the Subject DN
    the facade announces, or by the portal's password check, yields an id of
    the device-id shape; the certificate one also implies a leaf inside its
    validity window whose chain verified, the password one a non-empty service
    token and a 200 answer. *)
Theorem auth_ids_valid :
  (forall dn id, DeviceIDFromSubjectDN dn = Ok id -> validDeviceID id = true)
  /\ (forall v peers now id, cert_Validate v peers now = Ok id ->
        validDeviceID id = true /\ exists leaf rest, peers = leaf :: rest
        /\ c_notBefore leaf <= now <= c_notAfter leaf /\ cv_verify v leaf rest now = true)
  /\ (forall ep tok portal user pw id, http_Verify ep tok portal user pw = Ok id ->
        validDeviceID id = true /\ normalizeServiceToken tok <> []
        /\ exists rd raw d, portal (normalizeServiceToken tok) user pw = PortalStatus 200 rd raw d).
Proof.
  split_and!.
  - apply subject_id_valid.
  - intros v peers now id H. unfold cert_Validate in H. destruct peers as [|leaf rest]; [done|].
    destruct (_ || _)%bool eqn:Ew; [done|]. destruct (cv_verify v leaf rest now) eqn:Ev; [|done].
    simpl in H. unfold extractDeviceID in H.
    destruct (validDeviceID _) eqn:E in H; simpl in H; [|done]. simplify_eq. simpl_bool.
    split; [done|]. exists leaf, rest. split_and!; done || lia.
  - intros ep tok portal user pw id H. unfold http_Verify in H. destruct ep; [|done]. cbv zeta in H.
    case_bool_decide; [done|]. destruct (portal _ _ _) as [|st rd raw d] eqn:Ep; [done|].
    destruct (st =? 200) eqn:E200; [|repeat case_match; done]. simpl_bool. subst st.
    destruct rd; [done|]. destruct (maxBody <? _); [done|]. case_bool_decide; [done|].
    destruct d as [d|]; [|done]. destruct (validDeviceID (TrimSpace d)) eqn:E; simpl in H; [|done].
    simplify_eq. split_and!; [done..|]. by exists false, raw, (Some d).
Qed.

(** * Witnesses *)

Definition dev_id : gostring := bs "dev_abcdefghijklmnopqrstuvwxyz".
Definition dn_pre : list AVA := [mkAVA (bs "O") (bs "Acme\, CN=dev_evil")].

(** A certificate's CN with two of its letters escaped. *)
Definition escaped_dev_id : bytes := bs "dev_\61bcdefghijklmnopqrstuvwxy\7A".
Lemma escaped_dev_id_ok : encodes escaped_dev_id dev_id.
Proof.
  do 4 (apply enc_plain; [discriminate..|]). apply (enc_hex 54 49 6 1); [decide_closed..|].
  do 24 (apply enc_plain; [discriminate..|]). apply (enc_hex 55 65 7 10); [decide_closed..|]. apply enc_nil.
Qed.
Lemma DeviceIDFromSubjectDN_first_CN_witness :
  DeviceIDFromSubjectDN (bs "O=Acme\, CN=dev_evil,cn=dev_\61bcdefghijklmnopqrstuvwxy\7A,C=DE") = Ok dev_id.
Proof.
  apply (DeviceIDFromSubjectDN_first_CN dn_pre (bs "cn") escaped_dev_id dev_id [mkAVA (bs "C") (bs "DE")]).
  - repeat constructor; discriminate.
  - reflexivity.
  - apply escaped_dev_id_ok.
  - vm_compute. reflexivity.
  - repeat constructor; discriminate.
Defined.

(** A value that ends in an escaped space is cut before it is unescaped, and
    refused as malformed. *)
Example trailing_escaped_space :
  encodes (bs "gateway\ ") (bs "gateway ") /\ DeviceIDFromSubjectDN (bs "CN=gateway\ ") = Err ErrInvalidSubjectDN.
Proof.
  split; [|reflexivity]. do 7 (apply enc_plain; [discriminate..|]). apply (enc_special 32); [decide_closed|]. apply enc_nil.
Qed.

Lemma auth_ids_valid_witness :
  DeviceIDFromSubjectDN (render_dn [mkAVA (bs "CN") dev_id]) = Ok dev_id /\ validDeviceID dev_id = true.
Proof.
  assert (H : DeviceIDFromSubjectDN (render_dn [mkAVA (bs "CN") dev_id]) = Ok dev_id) by reflexivity.
  split; [exact H|]. exact (proj1 auth_ids_valid _ _ H).
Defined.
