(* ===== verification/Iam.v ===== *)
(** [internal/iam]: the [Resolver] interface, the TPM resolver with its cache,
    and the in-memory resolver.

    [Resolver] is a class: what a client of the package relies on is that a
    resolved identity carries a native /128 and, when present, a CLAT /128.
    [TPMResolver] and [MockResolver] are its instances. The single-flight gate
    makes concurrent lookups of a device one lookup; a call is one step at a
    time [now], with the answer the upstream gives at that time. *)

From S2P Require Import Prelude Netip Utf8.

(** * Identities *)

Record Identity := mkIdentity {
  id_DeviceID : gostring;
  id_IPv6 : Prefix;
  id_IPv6CLAT : Prefix;
  id_MTU : Z;
  id_DNS : list Addr;
  id_DefaultDomain : gostring;
  id_DTLSDisabled : bool
}.
#[export] Instance Identity_eq_dec : EqDecision Identity.
Proof. solve_decision. Defined.

Inductive ResolveErr : Type := ErrDeviceNotFound | ErrNoTunnel | ErrUpstream.
#[export] Instance ResolveErr_eq_dec : EqDecision ResolveErr.
Proof. solve_decision. Defined.

(** An IPv6 /128. *)
Definition host128 (p : Prefix) : Prop := Is6 (pf_addr p) = true /\ pf_bits p = 128.
#[export] Instance host128_dec p : Decision (host128 p).
Proof. unfold host128. apply _. Defined.
Definition ident_ok (id : Identity) : Prop :=
  host128 (id_IPv6 id) /\ (prefix_valid (id_IPv6CLAT id) = true -> host128 (id_IPv6CLAT id)).

(** The interface: resolving at a time, and the promise on what is returned. *)
Class Resolver (R : Type) := {
  Resolve : R -> Z -> gostring -> result ResolveErr Identity * R;
  resolver_wf : R -> Prop;
  Resolve_wf : forall r now d, resolver_wf r -> resolver_wf (Resolve r now d).2;
  Resolve_ident : forall r now d id, resolver_wf r -> (Resolve r now d).1 = Ok id -> ident_ok id
}.

(** * The TPM resolver *)

Definition DefaultCacheTTL : Z := 60 * 1000000000.
Definition DefaultPoolPrefix : Prefix :=
  mkPrefix (AddrFrom16 ([0x20; 0x01; 0x04; 0x70; 0xf9; 0xd1; 0x90; 0x01] ++ repeat 0 8)) 64.

(** The fields the resolver decodes; [raw_OcservClat] is the raw message:
    absent, or present with the string it decodes to, if it does. *)
Record ClientConfig := mkClientConfig {
  raw_DeviceID : gostring;
  raw_Native : gostring;
  raw_CLAT : gostring;
  raw_Ocserv : gostring;
  raw_OcservClat : option (option gostring);
  raw_DTLSDisabled : bool
}.

(** What the upstream does with a request: no answer, or a status with the
    body read and decoded, or not. *)
Inductive TPMAnswer : Type :=
| TPMDoErr
| TPMStatus (status : Z) (body : option (option ClientConfig)).

Record cacheEntry := mkEntry { ce_id : Identity; ce_soft : Z; ce_hard : Z }.

Record TPMResolver := mkTPM {
  tr_pool : Prefix;
  tr_cacheEnabled : bool;
  tr_cacheTTL : Z;
  tr_cache : gmap (list Z) cacheEntry;
  (** the upstream's answer for a device at a time *)
  tr_upstream : gostring -> Z -> TPMAnswer
}.

Record TPMResolverConfig := mkTPMConfig {
  cfg_BaseURL : bool; cfg_ServiceToken : gostring; cfg_DisableCache : bool;
  cfg_CacheTTL : Z; cfg_Pool : Prefix
}.

(** [None] is the panic on a missing base URL or token. *)
Definition NewTPMResolver (cfg : TPMResolverConfig) (upstream : gostring -> Z -> TPMAnswer) : option TPMResolver :=
  if negb (cfg_BaseURL cfg) then None
  else if bool_decide (TrimSpace (cfg_ServiceToken cfg) = []) then None
  else
    let pool := if negb (prefix_valid (cfg_Pool cfg)) then DefaultPoolPrefix else cfg_Pool cfg in
    let ttl := if cfg_CacheTTL cfg <=? 0 then DefaultCacheTTL else cfg_CacheTTL cfg in
    Some (mkTPM pool (negb (cfg_DisableCache cfg)) ttl ∅ upstream).

Definition validatePoolHost128 (r : TPMResolver) (prefix : gostring) : result ResolveErr Prefix :=
  match ParsePrefix prefix with
  | None => Err ErrUpstream
  | Some p =>
    if negb (Is6 (pf_addr p)) then Err ErrUpstream
    else if negb (pf_bits p =? 128) then Err ErrUpstream
    else if negb (Contains (tr_pool r) (pf_addr p)) then Err ErrUpstream
    else Ok p
  end.

Definition deviceIDOrFallback (fromBody fromArg : gostring) : gostring :=
  let s := TrimSpace fromBody in if negb (bool_decide (s = [])) then s else fromArg.

(** The CLAT field [fetch] settles on: the explicit one when the key is
    present, whatever it holds. *)
Definition clat_prefix (raw : ClientConfig) : result ResolveErr gostring :=
  match raw_OcservClat raw with
  | Some explicit =>
    match explicit with
    | None => Err ErrUpstream
    | Some e => if bool_decide (TrimSpace e = []) then Err ErrUpstream else Ok (TrimSpace e)
    end
  | None => Ok (TrimSpace (raw_CLAT raw))
  end.

Definition fetch (r : TPMResolver) (now : Z) (deviceID : gostring) : result ResolveErr Identity :=
  match tr_upstream r deviceID now with
  | TPMDoErr => Err ErrUpstream
  | TPMStatus status body =>
    if status =? 200 then
      match body with
      | None => Err ErrUpstream
      | Some None => Err ErrUpstream
      | Some (Some raw) =>
        let prefix := TrimSpace (raw_Ocserv raw) in
        let prefix := if bool_decide (prefix = []) then TrimSpace (raw_Native raw) else prefix in
        if bool_decide (prefix = []) then Err ErrNoTunnel
        else
          let? p := validatePoolHost128 r prefix in
          let? clat := clat_prefix raw in
          if bool_decide (clat = []) then Err ErrNoTunnel
          else
            let? clatP := validatePoolHost128 r clat in
            Ok (mkIdentity (deviceIDOrFallback (raw_DeviceID raw) deviceID) p clatP 0 [] []
                  (raw_DTLSDisabled raw))
      end
    else if status =? 404 then Err ErrDeviceNotFound
    else Err ErrUpstream
  end.

(** ** The cache *)

Definition with_cache (r : TPMResolver) (c : gmap (list Z) cacheEntry) : TPMResolver :=
  mkTPM (tr_pool r) (tr_cacheEnabled r) (tr_cacheTTL r) c (tr_upstream r).

Definition cacheGetSoft (r : TPMResolver) (now : Z) (d : gostring) : option Identity :=
  match tr_cache r !! d with
  | None => None
  | Some e => if ce_soft e <? now then None else Some (ce_id e)
  end.
Definition cacheGetHard (r : TPMResolver) (now : Z) (d : gostring) : option Identity * TPMResolver :=
  match tr_cache r !! d with
  | None => (None, r)
  | Some e =>
    if ce_hard e <? now then (None, with_cache r (delete d (tr_cache r))) else (Some (ce_id e), r)
  end.
Definition cachePut (r : TPMResolver) (now : Z) (d : gostring) (id : Identity) : TPMResolver :=
  if negb (tr_cacheEnabled r) then r
  else with_cache r (<[d := mkEntry id (now + tr_cacheTTL r) (now + 2 * tr_cacheTTL r)]> (tr_cache r)).
Definition cacheDelete (r : TPMResolver) (d : gostring) : TPMResolver :=
  if negb (tr_cacheEnabled r) then r else with_cache r (delete d (tr_cache r)).

Definition tpm_Resolve (r : TPMResolver) (now : Z) (deviceID : gostring) : result ResolveErr Identity * TPMResolver :=
  let d := TrimSpace deviceID in
  if bool_decide (d = []) then (Err ErrUpstream, r)
  else
    match (if tr_cacheEnabled r then cacheGetSoft r now d else None) with
    | Some id => (Ok id, r)
    | None =>
      match fetch r now d with
      | Ok id => (Ok id, cachePut r now d id)
      | Err ErrDeviceNotFound => (Err ErrDeviceNotFound, cacheDelete r d)
      | Err ErrNoTunnel => (Err ErrNoTunnel, cacheDelete r d)
      | Err ErrUpstream =>
        if tr_cacheEnabled r then
          match cacheGetHard r now d with
          | (Some id, r) => (Ok id, r)
          | (None, r) => (Err ErrUpstream, r)
          end
        else (Err ErrUpstream, r)
      end
    end.

(** * The in-memory resolver *)

Record MockResolver := mkMockResolver { mr_m : gmap (list Z) Identity }.
Definition mock_set (m : MockResolver) (d : gostring) (id : Identity) : MockResolver :=
  mkMockResolver (<[d := mkIdentity d (id_IPv6 id) (id_IPv6CLAT id) (id_MTU id) (id_DNS id)
                          (id_DefaultDomain id) (id_DTLSDisabled id)]> (mr_m m)).
Definition mock_delete (m : MockResolver) (d : gostring) : MockResolver :=
  mkMockResolver (delete d (mr_m m)).
Definition mock_resolve (m : MockResolver) (d : gostring) : result ResolveErr Identity * MockResolver :=
  match mr_m m !! d with None => (Err ErrDeviceNotFound, m) | Some id => (Ok id, m) end.

(** * What is fetched *)

(** The identities the upstream vouches for under a pool. *)
Definition pool_ident (pool : Prefix) (id : Identity) : Prop :=
  host128 (id_IPv6 id) /\ Contains pool (pf_addr (id_IPv6 id)) = true
  /\ host128 (id_IPv6CLAT id) /\ Contains pool (pf_addr (id_IPv6CLAT id)) = true.

Lemma validatePoolHost128_ok r s p :
  validatePoolHost128 r s = Ok p -> host128 p /\ Contains (tr_pool r) (pf_addr p) = true.
Proof.
  unfold validatePoolHost128, host128. destruct (ParsePrefix s) as [q|]; [|done].
  destruct (Is6 _) eqn:E6; [|done]. simpl. destruct (pf_bits q =? 128) eqn:Eb; [|done]. simpl.
  destruct (Contains _ _) eqn:Ec; [|done]. intros H. simplify_eq/=. simpl_bool. done.
Qed.

Lemma fetch_ok r now d id :
  fetch r now d = Ok id ->
  pool_ident (tr_pool r) id
  /\ exists raw, tr_upstream r d now = TPMStatus 200 (Some (Some raw))
     /\ forall e, raw_OcservClat raw = Some e -> exists s, e = Some s /\
          validatePoolHost128 r (TrimSpace s) = Ok (id_IPv6CLAT id).
Proof.
  unfold fetch. intros H. destruct (tr_upstream r d now) as [|st body]; [done|].
  destruct (st =? 200) eqn:Est; [|by destruct (st =? 404)]. simpl_bool. subst st.
  destruct body as [[raw|]|]; [|done..]. cbv zeta in H.
  match type of H with context [validatePoolHost128 r ?x] =>
    lazymatch x with context [raw_Native] => set (pre := x) in H end end.
  destruct (bool_decide (pre = [])); [done|].
  destruct (validatePoolHost128 r pre) as [p|] eqn:Ep; [|done].
  destruct (clat_prefix raw) as [clat|] eqn:Ec; [|done]. case_bool_decide; [done|].
  destruct (validatePoolHost128 r clat) as [cp|] eqn:Ecp; [|done]. simplify_eq.
  apply validatePoolHost128_ok in Ep as [? ?]. pose proof (validatePoolHost128_ok _ _ _ Ecp) as [? ?].
  split; [by split_and!|]. exists raw. split; [done|]. intros e He. unfold clat_prefix in Ec.
  rewrite He in Ec. destruct e as [s|]; [|done]. case_bool_decide; [done|]. simplify_eq. eauto.
Qed.

(** * The cache's history *)

(** [fetched r d id t]: the upstream vouched for [id] when asked for [d] at
    [t]. *)
Definition fetched (r : TPMResolver) (d : gostring) (id : Identity) (t : Z) : Prop := fetch r t d = Ok id.

Definition tpm_wf (T : Z) (r : TPMResolver) : Prop :=
  0 < tr_cacheTTL r
  /\ forall d e, tr_cache r !! d = Some e ->
       exists t, t <= T /\ fetched r d (ce_id e) t
         /\ ce_soft e = t + tr_cacheTTL r /\ ce_hard e = t + 2 * tr_cacheTTL r.

(** Changing the cache does not change what is fetched. *)
Lemma fetch_with_cache r c now d : fetch (with_cache r c) now d = fetch r now d.
Proof. done. Qed.

Lemma tpm_wf_sub T T' r c :
  T <= T' -> c ⊆ tr_cache r -> tpm_wf T r -> tpm_wf T' (with_cache r c).
Proof.
  intros HT Hc [Ht Hr]. split; [done|]. intros d e He. simpl in He.
  eapply lookup_weaken in He; [|exact Hc]. destruct (Hr d e He) as (t & ? & ? & ?).
  exists t. split; [lia|]. done.
Qed.

Lemma with_cache_id r : with_cache r (tr_cache r) = r.
Proof. by destruct r. Qed.

Lemma tpm_wf_weaken T T' r : T <= T' -> tpm_wf T r -> tpm_wf T' r.
Proof. intros HT Hr. rewrite <- (with_cache_id r). by eapply tpm_wf_sub. Qed.

Lemma cacheGetHard_spec T r now d o r' :
  tpm_wf T r -> T <= now -> cacheGetHard r now d = (o, r') ->
  tpm_wf now r' /\ forall id, o = Some id -> exists t, fetched r d id t /\ t <= now <= t + 2 * tr_cacheTTL r.
Proof.
  intros Hr HT H. unfold cacheGetHard in H. destruct (tr_cache r !! d) as [e|] eqn:E.
  - destruct (ce_hard e <? now) eqn:El; injection H as <- <-; simpl_bool.
    + split; [|done]. eapply tpm_wf_sub; [exact HT|apply delete_subseteq|exact Hr].
    + split; [by eapply tpm_wf_weaken|]. intros id Hid. injection Hid as <-.
      destruct (proj2 Hr d e E) as (t & ? & ? & ? & ?). exists t. split; [done|lia].
  - injection H as <- <-. split; [by eapply tpm_wf_weaken|done].
Qed.

Lemma tpm_Resolve_spec T r now dev res r' :
  tpm_wf T r -> T <= now -> tpm_Resolve r now dev = (res, r') ->
  let d := TrimSpace dev in
  tpm_wf now r'
  /\ (forall id, res = Ok id ->
        fetched r d id now
        \/ (exists t, fetched r d id t /\ t <= now <= t + tr_cacheTTL r)
        \/ (fetch r now d = Err ErrUpstream /\
            exists t, fetched r d id t /\ t <= now <= t + 2 * tr_cacheTTL r))
  /\ ((res = Err ErrDeviceNotFound \/ res = Err ErrNoTunnel) ->
        tr_cacheEnabled r = true -> tr_cache r' !! d = None).
Proof.
  intros Hr HT H d. unfold tpm_Resolve in H. fold d in H. case_bool_decide as Hd.
  { injection H as <- <-. split_and!; [by eapply tpm_wf_weaken|done|]. intros [? | ?]; done. }
  destruct (if tr_cacheEnabled r then cacheGetSoft r now d else None) as [id|] eqn:Es.
  { injection H as <- <-. split_and!; [by eapply tpm_wf_weaken| |by intros [? | ?]].
    intros id' Hid. injection Hid as <-. right. left. destruct (tr_cacheEnabled r); [|done].
    unfold cacheGetSoft in Es. destruct (tr_cache r !! d) as [e|] eqn:E; [|done].
    destruct (ce_soft e <? now) eqn:El; [done|]. injection Es as <-. simpl_bool.
    destruct (proj2 Hr d e E) as (t & ? & ? & ? & ?). exists t. split; [done|lia]. }
  clear Es. destruct (fetch r now d) as [id|er] eqn:Ef.
  - injection H as <- <-. split_and!; [|intros id' Hid; injection Hid as <-; by left|by intros [? | ?]].
    unfold cachePut. destruct (tr_cacheEnabled r); simpl; [|by eapply tpm_wf_weaken].
    destruct Hr as [Ht Hr]. split; [done|]. intros d' e He. simpl in He.
    apply lookup_insert_Some in He as [[<- <-]|[_ He]].
    + exists now. split_and!; [lia|exact Ef|done..].
    + destruct (Hr d' e He) as (t & ? & ? & ?). exists t. split; [lia|done].
  - assert (Hdel : tpm_wf now (cacheDelete r d)
      /\ (tr_cacheEnabled r = true -> tr_cache (cacheDelete r d) !! d = None)).
    { unfold cacheDelete. destruct (tr_cacheEnabled r); simpl.
      - split; [|intros _; apply lookup_delete_eq].
        eapply tpm_wf_sub; [exact HT|apply delete_subseteq|exact Hr].
      - split; [by eapply tpm_wf_weaken|done]. }
    destruct er; [injection H as <- <-; by split_and!; [apply Hdel| |intros _; apply Hdel]..|].
    destruct (tr_cacheEnabled r).
    + destruct (cacheGetHard r now d) as [o r1] eqn:Eh.
      destruct (cacheGetHard_spec _ _ _ _ _ _ Hr HT Eh) as [Hw Hs].
      destruct o as [id|]; injection H as <- <-; (split_and!; [done| |by intros [? | ?]]).
      * intros id' Hid. injection Hid as <-. right. right. split; [done|]. by apply Hs.
      * done.
    + injection H as <- <-. split_and!; [by eapply tpm_wf_weaken|done|by intros [? | ?]].
Qed.

(** * Instances of the interface *)

Lemma pool_ident_ok pool id : pool_ident pool id -> ident_ok id.
Proof. intros (? & _ & ? & _). done. Qed.

Definition tpm_resolver_wf (r : TPMResolver) : Prop :=
  forall d e, tr_cache r !! d = Some e -> pool_ident (tr_pool r) (ce_id e).

Lemma tpm_resolver_wf_sub r c : c ⊆ tr_cache r -> tpm_resolver_wf r -> tpm_resolver_wf (with_cache r c).
Proof. intros Hc Hr d e He. eapply Hr, lookup_weaken; [exact He|exact Hc]. Qed.

Lemma tpm_Resolve_keeps r now dev :
  tpm_resolver_wf r ->
  tpm_resolver_wf (tpm_Resolve r now dev).2
  /\ forall id, (tpm_Resolve r now dev).1 = Ok id -> pool_ident (tr_pool r) id.
Proof.
  intros Hr. unfold tpm_Resolve. set (d := TrimSpace dev). case_bool_decide; [done|].
  assert (Hhit : forall e id, tr_cache r !! d = Some e -> Some (ce_id e) = Some id -> pool_ident (tr_pool r) id)
    by (intros e id He Hid; injection Hid as <-; by eapply Hr).
  destruct (if tr_cacheEnabled r then cacheGetSoft r now d else None) as [id|] eqn:Es.
  { split; [done|]. intros id' Hid. injection Hid as <-. destruct (tr_cacheEnabled r); [|done].
    unfold cacheGetSoft in Es. destruct (tr_cache r !! d) as [e|] eqn:E; [|done].
    destruct (ce_soft e <? now); [done|]. by eapply Hhit. }
  assert (Hdel : tpm_resolver_wf (cacheDelete r d)).
  { unfold cacheDelete. destruct (tr_cacheEnabled r); [|done]. by apply tpm_resolver_wf_sub; [apply delete_subseteq|]. }
  destruct (fetch r now d) as [id|[]] eqn:Ef; [|done..|].
  - apply fetch_ok in Ef as [Hid _]. split; [|intros ? H'; by injection H' as <-]. simpl.
    unfold cachePut. destruct (tr_cacheEnabled r); [|done]. intros d' e He. simpl in *.
    apply lookup_insert_Some in He as [[_ <-]|[_ He]]; [done|by eapply Hr].
  - destruct (tr_cacheEnabled r); [|done]. unfold cacheGetHard.
    destruct (tr_cache r !! d) as [e|] eqn:E; [|done]. destruct (ce_hard e <? now); simpl.
    + split; [|done]. by apply tpm_resolver_wf_sub; [apply delete_subseteq|].
    + split; [done|]. intros id Hid. injection Hid as <-. by eapply Hr.
Qed.

#[export] Program Instance TPMResolver_Resolver : Resolver TPMResolver := {|
  Resolve := tpm_Resolve; resolver_wf := tpm_resolver_wf
|}.
Next Obligation. intros r now d Hr. by apply tpm_Resolve_keeps. Qed.
Next Obligation. intros r now d id Hr Hid. eapply pool_ident_ok. by eapply (proj2 (tpm_Resolve_keeps r now d Hr)). Qed.

(** The in-memory resolver keeps the promise when what is put in does. *)
#[export] Program Instance MockResolver_Resolver : Resolver MockResolver := {|
  Resolve := fun m _ d => mock_resolve m d;
  resolver_wf := fun m => forall d id, mr_m m !! d = Some id -> ident_ok id
|}.
Next Obligation. intros m now d Hm. simpl. unfold mock_resolve. by destruct (mr_m m !! d). Qed.
Next Obligation.
  intros m now d id Hm Hid. simpl in Hid. unfold mock_resolve in Hid.
  destruct (mr_m m !! d) eqn:E; simpl in Hid; [|done]. injection Hid as <-. by eapply Hm.
Qed.

(** * Reachable resolvers *)

Inductive tpm_reach (cfg : TPMResolverConfig) (up : gostring -> Z -> TPMAnswer) : Z -> TPMResolver -> Prop :=
| reach_tpm_new T r : NewTPMResolver cfg up = Some r -> tpm_reach cfg up T r
| reach_tpm_resolve T r now d :
    tpm_reach cfg up T r -> T <= now -> tpm_reach cfg up now (tpm_Resolve r now d).2.

Lemma tpm_reach_wf cfg up T r : tpm_reach cfg up T r -> tpm_wf T r.
Proof.
  induction 1 as [T r H|T r now d _ IH HT].
  - unfold NewTPMResolver in H. destruct (negb (cfg_BaseURL cfg)); [done|]. case_bool_decide; [done|].
    injection H as <-. split; simpl.
    + unfold DefaultCacheTTL. destruct (Z.leb_spec (cfg_CacheTTL cfg) 0); lia.
    + intros d e He. by rewrite lookup_empty in He.
  - destruct (tpm_Resolve r now d) as [res r'] eqn:E. by apply (tpm_Resolve_spec T r now d res r').
Qed.

(** C16: What a reachable resolver serves at time [now] was vouched for by the
    upstream, with a native and a CLAT /128 inside the pool, either now, or at
    most one TTL ago, or at most two TTLs ago when the upstream cannot answer
    now. *)
Theorem tpm_served_fresh cfg up T r now dev id r'
  (Hreach : tpm_reach cfg up T r) (HT : T <= now) (Hres : tpm_Resolve r now dev = (Ok id, r')) :
  let d := TrimSpace dev in
  pool_ident (tr_pool r) id
  /\ (fetched r d id now
      \/ (exists t, fetched r d id t /\ t <= now <= t + tr_cacheTTL r)
      \/ (fetch r now d = Err ErrUpstream
          /\ exists t, fetched r d id t /\ t <= now <= t + 2 * tr_cacheTTL r)).
Proof.
  intros d. apply tpm_reach_wf in Hreach.
  destruct (tpm_Resolve_spec _ _ _ _ _ _ Hreach HT Hres) as (_ & Hs & _).
  specialize (Hs id eq_refl). split; [|exact Hs].
  destruct Hs as [H|[(t & H & _)|(_ & t & H & _)]]; unfold fetched in H; apply fetch_ok in H; tauto.
Qed.

(** A deprovisioned device is dropped at once: after the upstream answers
    that it is unknown or has no tunnel, nothing is cached for it, so until the
    upstream vouches for it again every lookup fails, even one made while the
    upstream is down. *)
Theorem tpm_gone_not_served cfg up T r now dev e r' later
  (Hreach : tpm_reach cfg up T r) (HT : T <= now) (Hcache : tr_cacheEnabled r = true)
  (Hgone : tpm_Resolve r now dev = (Err e, r')) (He : e = ErrDeviceNotFound \/ e = ErrNoTunnel)
  (Hdown : forall id, fetch r' later (TrimSpace dev) <> Ok id) :
  exists e', (tpm_Resolve r' later dev).1 = Err e'.
Proof.
  apply tpm_reach_wf in Hreach.
  destruct (tpm_Resolve_spec _ _ _ _ _ _ Hreach HT Hgone) as (_ & _ & Hn).
  assert (Hnone : tr_cache r' !! TrimSpace dev = None) by (apply Hn; destruct He as [-> | ->]; auto).
  unfold tpm_Resolve. set (d := TrimSpace dev) in *. case_bool_decide; [eauto|].
  unfold cacheGetSoft. rewrite Hnone.
  replace (if tr_cacheEnabled r' then None else None) with (None : option Identity)
    by (by destruct (tr_cacheEnabled r')).
  destruct (fetch r' later d) as [id|[]]; [by specialize (Hdown id)|eauto..|].
  destruct (tr_cacheEnabled r'); [|eauto]. unfold cacheGetHard. rewrite Hnone. eauto.
Qed.

(** An explicit CLAT field is never downgraded: when the answer carries the
    field, a successful fetch has taken the CLAT prefix from it, whatever the
    legacy field holds; if it is not a string, is blank, or is not a /128 of
    the pool, the fetch fails. *)
Theorem fetch_explicit_clat r now d raw e
  (Hup : tr_upstream r d now = TPMStatus 200 (Some (Some raw)))
  (Hexp : raw_OcservClat raw = Some e) :
  (forall id, fetch r now d = Ok id ->
     exists s, e = Some s /\ validatePoolHost128 r (TrimSpace s) = Ok (id_IPv6CLAT id))
  /\ ((forall s, e = Some s -> is_ok (validatePoolHost128 r (TrimSpace s)) = false) ->
      is_ok (fetch r now d) = false).
Proof.
  assert (H : forall id, fetch r now d = Ok id ->
     exists s, e = Some s /\ validatePoolHost128 r (TrimSpace s) = Ok (id_IPv6CLAT id)).
  { intros id Hf. apply fetch_ok in Hf as (_ & raw' & Hup' & Hc). rewrite Hup in Hup'.
    injection Hup' as <-. by apply Hc. }
  split; [done|]. intros Hbad. destruct (fetch r now d) as [id|]; [|done].
  destruct (H id eq_refl) as (s & Hs & Hv). specialize (Hbad s Hs). by rewrite Hv in Hbad.
Qed.

(** * Witnesses *)

Definition raw_sample : ClientConfig :=
  mkClientConfig [] [] [] (bs "2001:470:f9d1:9001::10/128") (Some (Some (bs "2001:470:f9d1:9001::20/128"))) false.
Definition up_sample (d : gostring) (t : Z) : TPMAnswer :=
  if t <? 100 then TPMStatus 200 (Some (Some raw_sample)) else TPMStatus 404 None.
Definition cfg_sample : TPMResolverConfig := mkTPMConfig true (bs "tok") false 10 PrefixZero.
Definition tpm_sample : TPMResolver := mkTPM DefaultPoolPrefix true 10 ∅ up_sample.

Lemma tpm_sample_reach T : tpm_reach cfg_sample up_sample T tpm_sample.
Proof. apply reach_tpm_new. reflexivity. Qed.

Lemma tpm_served_fresh_witness :
  exists id r', tpm_Resolve tpm_sample 5 (bs "dev") = (Ok id, r') /\ pool_ident DefaultPoolPrefix id.
Proof.
  destruct (tpm_Resolve tpm_sample 5 (bs "dev")) as [[id|e] r'] eqn:E.
  - exists id, r'. split; [reflexivity|].
    refine (proj1 (tpm_served_fresh cfg_sample up_sample 0 tpm_sample 5 (bs "dev") id r' (tpm_sample_reach 0) _ E)).
    lia.
  - exfalso. vm_compute in E. discriminate.
Defined.

Lemma tpm_gone_not_served_witness :
  exists r' e', tpm_Resolve tpm_sample 100 (bs "dev") = (Err ErrDeviceNotFound, r')
    /\ (tpm_Resolve r' 101 (bs "dev")).1 = Err e'.
Proof.
  assert (E : tpm_Resolve tpm_sample 100 (bs "dev") = (Err ErrDeviceNotFound, tpm_sample))
    by (vm_compute; reflexivity).
  destruct (tpm_gone_not_served cfg_sample up_sample 0 tpm_sample 100 (bs "dev") ErrDeviceNotFound tpm_sample 101)
    as (e' & H).
  - apply tpm_sample_reach.
  - lia.
  - reflexivity.
  - exact E.
  - left. reflexivity.
  - intros id. vm_compute. discriminate.
  - exists tpm_sample, e'. split; [exact E|exact H].
Defined.

Lemma fetch_explicit_clat_witness :
  exists id s, fetch tpm_sample 5 (bs "dev") = Ok id /\ raw_OcservClat raw_sample = Some (Some s)
    /\ validatePoolHost128 tpm_sample (TrimSpace s) = Ok (id_IPv6CLAT id).
Proof.
  destruct (fetch tpm_sample 5 (bs "dev")) as [id|] eqn:E.
  - assert (Hu : tr_upstream tpm_sample (bs "dev") 5 = TPMStatus 200 (Some (Some raw_sample))) by reflexivity.
    destruct (proj1 (fetch_explicit_clat tpm_sample 5 (bs "dev") raw_sample _ Hu eq_refl) id E) as (s & Hs & H).
    exists id, s. split; [reflexivity|]. split; [rewrite <- Hs; reflexivity|exact H].
  - exfalso. vm_compute in E. discriminate.
Defined.
