(* ===== verification/Dtls.v ===== *)
(** [internal/dtlsuds]: the AnyConnect type byte ([frame.go]), sessions and
    their table ([session.go], [table.go]), and the listener that admits
    sessions and forwards packets ([listener.go]).

    A [*Session] is a number into a heap that outlives the table, since the TUN
    side keeps session pointers: the reply closure of a session is the inbound
    frame and peer it captured, and [None] once [detach] has run. Each table
    method is one atomic step (they hold the table's lock); [handle] is the
    composition of its table step and [forwardPacket], which is defined on any
    session of the heap, so that an eviction may come between the two. A
    session's insertion and its [OnAdmit], which comes after the table's lock is
    released, are two steps: [ls_admitting] are the sessions whose handler is
    between them. The identity resolver is any instance of [Resolver].
    [dtls_step] lists the atomic steps; the theorems are about every sequence of
    them. *)

From S2P Require Import Prelude Netip Utf8 Tlv Reader Handoff Datagram Auth Iam.

(** * Plaintext frames *)

Definition pktData : byte := 0.
Definition pktDPDOut : byte := 3.
Definition pktDPDResp : byte := 4.
Definition pktDisconnect : byte := 5.
Definition pktKeepalive : byte := 7.

Definition parseDTLSPlaintext (b : bytes) : option (byte * bytes) :=
  match b with [] => None | typ :: payload => Some (typ, payload) end.
Definition encodeDTLSPlaintext (typ : byte) (payload : bytes) : bytes := typ :: payload.

(** * Sessions *)

Record FourTuple := mkFT { ft_Src : AddrPort; ft_Dst : AddrPort }.
#[export] Instance FourTuple_eq_dec : EqDecision FourTuple.
Proof. solve_decision. Defined.
#[export] Instance FourTuple_countable : Countable FourTuple.
Proof.
  apply (inj_countable' (fun k => (ft_Src k, ft_Dst k)) (fun x => mkFT x.1 x.2)). by intros [].
Defined.
Definition normalised (k : FourTuple) : FourTuple := mkFT (unmapAP (ft_Src k)) (unmapAP (ft_Dst k)).

(** What a session is bound to for its lifetime. *)
Record SessionIdent := mkSI {
  si_key : FourTuple;
  si_deviceID : gostring;
  si_userID : gostring;
  si_inner : Addr;
  si_clatV6 : Addr;
  si_psk : bytes;
  si_subjectDN : gostring;
  si_traceID : gostring;
  si_createdAt : Z
}.
(** A reply closure: the frame it answers and the peer it writes to. *)
Definition ReplyClosure : Type := DGramFrame * gostring.
Record Session := mkSession {
  s_ident : SessionIdent;
  s_lastSeen : Z;
  s_reply : option ReplyClosure
}.

Definition newSession (id : SessionIdent) (reply : option ReplyClosure) : Session :=
  mkSession id (si_createdAt id) reply.
Definition touch (s : Session) (now : Z) : Session := mkSession (s_ident s) now (s_reply s).
Definition detach (s : Session) : Session := mkSession (s_ident s) (s_lastSeen s) None.

(** * The table *)

Definition DefaultIdleTimeout : Z := 300 * 1000000000.
Definition DefaultEvictionTick : Z := 30 * 1000000000.

Record Table := mkTable {
  tb_heap : gmap nat Session;
  tb_next : nat;
  tb_sessions : gmap FourTuple nat;
  tb_idleTimeout : Z
}.
Definition NewTable (idle : Z) : Table :=
  mkTable ∅ 0 ∅ (if idle <=? 0 then DefaultIdleTimeout else idle).

Definition with_heap (t : Table) (h : gmap nat Session) : Table :=
  mkTable h (tb_next t) (tb_sessions t) (tb_idleTimeout t).

(** [s.touch(now)] on the shared session. *)
Definition touch_at (t : Table) (s : nat) (now : Z) : Table :=
  with_heap t (alter (fun ss => touch ss now) s (tb_heap t)).

Definition Get (t : Table) (key : FourTuple) : option nat := tb_sessions t !! key.

(** [LoadOrCreate]; [create] allocates. The boolean says the session existed. *)
Definition LoadOrCreate (t : Table) (key : FourTuple) (create : Session) : nat * bool * Table :=
  match tb_sessions t !! key with
  | Some s => (s, true, t)
  | None =>
    let s := tb_next t in
    (s, false, mkTable (<[s := create]> (tb_heap t)) (S s) (<[key := s]> (tb_sessions t)) (tb_idleTimeout t))
  end.

Definition detach_at (h : gmap nat Session) (s : nat) : gmap nat Session := alter detach s h.

(** [Remove]: the session removed, for [OnEvict]. *)
Definition Remove (t : Table) (key : FourTuple) : option nat * Table :=
  match tb_sessions t !! key with
  | None => (None, t)
  | Some s =>
    (Some s, mkTable (detach_at (tb_heap t) s) (tb_next t) (delete key (tb_sessions t)) (tb_idleTimeout t))
  end.

(** The body of the eviction loops over [t.sessions], for the entries that
    meet [P]: delete, detach, [OnEvict]. Deleting during the iteration is what
    Go allows; the order is the map's. *)
Definition evict_where (P : FourTuple * nat -> bool) (t : Table) : list nat * Table :=
  let gone := filter (fun e => P e = true) (map_to_list (tb_sessions t)) in
  (map snd gone,
   mkTable (foldl (fun h e => detach_at h e.2) (tb_heap t) gone) (tb_next t)
     (filter (fun e => P e = false) (tb_sessions t)) (tb_idleTimeout t)).

Definition RemoveAll (t : Table) : list nat * Table := evict_where (fun _ => true) t.
Definition lastSeen_at (t : Table) (s : nat) : Z :=
  match tb_heap t !! s with Some ss => s_lastSeen ss | None => 0 end.
Definition runEvictionPass (t : Table) (now : Z) : list nat * Table :=
  evict_where (fun e => lastSeen_at t e.2 <? now - tb_idleTimeout t) t.

Definition Len (t : Table) : nat := size (tb_sessions t).
Definition TableSnapshot (t : Table) : list nat := map snd (map_to_list (tb_sessions t)).

(** * Effects *)

(** What the listener does to the outside, in order. *)
Inductive Effect : Type :=
| OnAdmit (s : nat)
| OnEvict (s : nat)
| SinkWrite (s : option nat) (p : bytes)   (* [None]: the plain sink *)
| SockWrite (peer : gostring) (frame : bytes).

(** The environment: the sink's and the socket's errors. *)
Record Env := mkEnv {
  env_sessionSink : bool;
  env_sink : option nat -> bytes -> option gostring;
  env_sock : gostring -> bytes -> option gostring
}.

Inductive DtlsErr : Type :=
| ErrSessionGone
| ErrReply (e : ReplyErr)
| ErrSock (e : gostring)
| ErrSink (e : gostring)
| ErrPSK
| ErrNoDevice
| ErrSubject (e : AuthErr)
| ErrResolve (e : ResolveErr)
| ErrInvalidIPv6.

(** Calling a reply closure. *)
Definition call_reply (env : Env) (r : ReplyClosure) (payload : bytes) : option DtlsErr * list Effect :=
  match writeReply r.1 payload with
  | Err e => (Some (ErrReply e), [])
  | Ok b => (match env_sock env r.2 b with Some e => Some (ErrSock e) | None => None end, [SockWrite r.2 b])
  end.

(** [Session.WritePacket] *)
Definition WritePacket (env : Env) (t : Table) (s : nat) (p : bytes) : result DtlsErr nat * list Effect :=
  match tb_heap t !! s with
  | None => (Err ErrSessionGone, [])
  | Some ss =>
    match s_reply ss with
    | None => (Err ErrSessionGone, [])
    | Some r =>
      match call_reply env r (pktData :: p) with
      | (Some e, eff) => (Err e, eff)
      | (None, eff) => (Ok (length p), eff)
      end
    end
  end.

Definition replyAnyConnect (env : Env) (t : Table) (s : nat) (typ : byte) (body : bytes)
  : option DtlsErr * list Effect :=
  match tb_heap t !! s with
  | None => (Some ErrSessionGone, [])
  | Some ss =>
    match s_reply ss with
    | None => (Some ErrSessionGone, [])
    | Some r => call_reply env r (encodeDTLSPlaintext typ body)
    end
  end.

(** * The listener *)

Definition lookupTLV (tlvs : list TLV) (t : Z) : option bytes := lookup_tlv tlvs t.
Definition stringTLV (inner : list TLV) (t : Z) (era : list TLV) : gostring :=
  match lookupTLV inner t with
  | Some v => v
  | None => match lookupTLV era t with Some v => v | None => [] end
  end.
Definition bytesTLV (inner : list TLV) (t : Z) (era : list TLV) : bytes :=
  match lookupTLV inner t with
  | Some v => v
  | None => match lookupTLV era t with Some v => v | None => [] end
  end.

(** [forwardPacket] *)
Definition forwardPacket (env : Env) (t : Table) (s : nat) (payload : bytes)
  : option DtlsErr * list Effect * Table :=
  match parseDTLSPlaintext payload with
  | None => (None, [], t)
  | Some (typ, body) =>
    if typ =? pktData then
      if (length body =? 0)%nat then (None, [], t)
      else
        let target := if env_sessionSink env then Some s else None in
        (match env_sink env target body with Some e => Some (ErrSink e) | None => None end,
         [SinkWrite target body], t)
    else if typ =? pktDPDOut then
      let '(e, eff) := replyAnyConnect env t s pktDPDResp body in (e, eff, t)
    else if (typ =? pktDPDResp) || (typ =? pktKeepalive) then (None, [], t)
    else if typ =? pktDisconnect then
      match tb_heap t !! s with
      | None => (None, [], t)
      | Some ss =>
        let '(gone, t) := Remove t (si_key (s_ident ss)) in
        (None, match gone with Some g => [OnEvict g] | None => [] end, t)
      end
    else (None, [], t)
  end.

Section listener.
Context {R : Type} `{!Resolver R}.

Record Listener := mkListener {
  ls_table : Table; ls_resolver : R; ls_dpdSeq : Z;
  ls_admitting : list nat   (* inserted, and still to be announced by their handler *)
}.
Abbreviation with_table l t := (mkListener t (ls_resolver l) (ls_dpdSeq l) (ls_admitting l)).
Abbreviation with_resolver l r := (mkListener (ls_table l) r (ls_dpdSeq l) (ls_admitting l)).

(** The identity of a new session from its first datagram: the checks of
    [handle] in order, with the resolver's new state. *)
Definition admission (r : R) (now : Z) (key : FourTuple) (f : DGramFrame) : result DtlsErr SessionIdent * R :=
  let inner := hTLVs (dfInner f) in
  let era := dfERA f in
  let deviceID := stringTLV inner EraTLVDeviceID era in
  let userID := stringTLV inner EraTLVUserID era in
  let traceID := stringTLV inner EraTLVTraceID era in
  let subjectDN := stringTLV inner EraTLVMTLSSubjectDN era in
  let psk := bytesTLV inner EraTLVDTLSPSK era in
  if negb (length psk =? 32)%nat then (Err ErrPSK, r)
  else if bool_decide (deviceID = []) then (Err ErrNoDevice, r)
  else
    match DeviceIDFromSubjectDN subjectDN with
    | Err e => (Err (ErrSubject e), r)
    | Ok resolveID =>
      match Resolve r now resolveID with
      | (Err e, r) => (Err (ErrResolve e), r)
      | (Ok ident, r) =>
        let innerA := pf_addr (id_IPv6 ident) in
        if negb (IsValid innerA) then (Err ErrInvalidIPv6, r)
        else
          let clatV6 := if prefix_valid (id_IPv6CLAT ident) then pf_addr (id_IPv6CLAT ident) else AddrNone in
          (Ok (mkSI key deviceID userID innerA clatV6 psk subjectDN traceID now), r)
      end
    end.

Definition frame_key (f : DGramFrame) : FourTuple :=
  normalised (mkFT (hSrc (dfInner f)) (hDst (dfInner f))).

(** [LoadOrCreate], after which the handler of a new session is to announce it. *)
Definition insert_session (l : Listener) (id : SessionIdent) (reply : ReplyClosure) : nat * bool * Listener :=
  let '(s, existed, t) := LoadOrCreate (ls_table l) (si_key id) (newSession id (Some reply)) in
  (s, existed, mkListener t (ls_resolver l) (ls_dpdSeq l) (if existed then ls_admitting l else s :: ls_admitting l)).
(** The call of [OnAdmit]. *)
Definition announce (l : Listener) (s : nat) : list Effect * Listener :=
  ([OnAdmit s], mkListener (ls_table l) (ls_resolver l) (ls_dpdSeq l) (filter (fun x => x <> s) (ls_admitting l))).
(** What [handle] does with a resolved identity when nothing comes between. *)
Definition admit_session (l : Listener) (now : Z) (id : SessionIdent) (reply : ReplyClosure) : nat * list Effect * Listener :=
  let '(s, existed, l) := insert_session l id reply in
  if existed then (s, [], with_table l (touch_at (ls_table l) s now))
  else let '(eff, l) := announce l s in (s, eff, l).

(** [handle] up to [forwardPacket]: the session the datagram belongs to. *)
Definition handle_session (l : Listener) (now : Z) (f : DGramFrame) (peer : gostring)
  : result DtlsErr nat * list Effect * Listener :=
  let key := frame_key f in
  match Get (ls_table l) key with
  | Some s => (Ok s, [], with_table l (touch_at (ls_table l) s now))
  | None =>
    match admission (ls_resolver l) now key f with
    | (Err e, r) => (Err e, [], with_resolver l r)
    | (Ok id, r) =>
      let '(s, eff, l) := admit_session (with_resolver l r) now id (f, peer) in
      (Ok s, eff, l)
    end
  end.

Definition handle (env : Env) (l : Listener) (now : Z) (f : DGramFrame) (peer : gostring)
  : option DtlsErr * list Effect * Listener :=
  match handle_session l now f peer with
  | (Err e, eff, l) => (Some e, eff, l)
  | (Ok s, eff, l) =>
    let '(err, eff', t) := forwardPacket env (ls_table l) s (dfPayload f) in
    (err, eff ++ eff', with_table l t)
  end.

(** One tick of [heartbeatLoop]: a numbered DPD request to every session of a
    snapshot. *)
Definition dpd_payload (seq : Z) : bytes :=
  [u8 (Z.shiftr seq 24); u8 (Z.shiftr seq 16); u8 (Z.shiftr seq 8); u8 seq] ++ bs "DPD!".
Definition heartbeat_one (env : Env) (l : Listener) (s : nat) : list Effect * Listener :=
  let seq := u32 (ls_dpdSeq l + 1) in
  ((replyAnyConnect env (ls_table l) s pktDPDOut (dpd_payload seq)).2,
   mkListener (ls_table l) (ls_resolver l) seq (ls_admitting l)).
Definition heartbeat_tick (env : Env) (l : Listener) : list Effect * Listener :=
  foldl (fun st s => let '(eff, l) := heartbeat_one env st.2 s in (st.1 ++ eff, l))
    ([], l) (TableSnapshot (ls_table l)).

(** [RunEvictionPass], and the table part of [Close]. *)
Definition RunEvictionPass (l : Listener) (now : Z) : list Effect * Listener :=
  let '(gone, t) := runEvictionPass (ls_table l) now in
  (map OnEvict gone, with_table l t).
Definition CloseTable (l : Listener) : list Effect * Listener :=
  let '(gone, t) := RemoveAll (ls_table l) in
  (map OnEvict gone, with_table l t).

(** * Steps *)

(** The atomic steps of the listener's goroutines, with what they do to the
    outside. The lookup, the insertion and the [OnAdmit] of [handle] are steps of
    their own: between the first two the resolver is called, after the second
    the table's lock is free, and others may run; so the identity inserted comes
    from an admission against an earlier resolver. The frames are those the
    datagram listener hands to [handle]. *)
Inductive dtls_step (env : Env) : Listener -> list Effect -> Listener -> Prop :=
| step_touch l s now :
    dtls_step env l [] (with_table l (touch_at (ls_table l) s now))
| step_resolve l now f :
    dtls_step env l []
      (with_resolver l (admission (ls_resolver l) now (frame_key f) f).2)
| step_insert l raw r r' id now f peer :
    bytes_ok raw -> dispatchable dtls_spec raw f -> resolver_wf r ->
    admission r now (frame_key f) f = (Ok id, r') ->
    dtls_step env l [] (insert_session l id (f, peer)).2
| step_announce l s :
    s ∈ ls_admitting l -> dtls_step env l (announce l s).1 (announce l s).2
| step_forward l s payload err eff t :
    forwardPacket env (ls_table l) s payload = (err, eff, t) ->
    dtls_step env l eff (with_table l t)
| step_heartbeat l s eff l' :
    heartbeat_one env l s = (eff, l') -> dtls_step env l eff l'
| step_write l s p res eff :
    WritePacket env (ls_table l) s p = (res, eff) -> dtls_step env l eff l
| step_evict l now eff l' :
    RunEvictionPass l now = (eff, l') -> dtls_step env l eff l'
| step_close l eff l' :
    CloseTable l = (eff, l') -> dtls_step env l eff l'.

Inductive dtls_steps (env : Env) : Listener -> list Effect -> Listener -> Prop :=
| steps_refl l : dtls_steps env l [] l
| steps_snoc l tr l1 eff l2 :
    dtls_steps env l tr l1 -> dtls_step env l1 eff l2 -> dtls_steps env l (tr ++ eff) l2.

Definition start (idle : Z) (r : R) : Listener := mkListener (NewTable idle) r 0 [].
End listener.
Arguments Listener R : clear implicits.

(** * Table lemmas *)

Lemma detach_idem ss : detach (detach ss) = detach ss.
Proof. done. Qed.

Lemma foldl_detach_lookup (gone : list (FourTuple * nat)) h s :
  foldl (fun h e => detach_at h e.2) h gone !! s
  = if decide (s ∈ map snd gone) then detach <$> h !! s else h !! s.
Proof.
  revert h. induction gone as [|[k g] gone IH]; intros h; cbn [foldl map snd].
  - by rewrite decide_False by set_solver.
  - rewrite IH. unfold detach_at. destruct (decide (s = g)) as [->|Hne].
    + rewrite lookup_alter_eq, (decide_True (P := g ∈ g :: _)) by set_solver.
      case_decide; [|done]. by destruct (h !! g).
    + rewrite lookup_alter_ne by done. destruct (decide (s ∈ map snd gone)).
      * by rewrite decide_True by set_solver.
      * by rewrite decide_False by set_solver.
Qed.

(** What was admitted and evicted, in order. *)
Definition admits (tr : list Effect) : list nat :=
  omap (fun e => match e with OnAdmit s => Some s | _ => None end) tr.
Definition evicts (tr : list Effect) : list nat :=
  omap (fun e => match e with OnEvict s => Some s | _ => None end) tr.

Lemma admits_app a b : admits (a ++ b) = admits a ++ admits b.
Proof. apply omap_app. Qed.
Lemma evicts_app a b : evicts (a ++ b) = evicts a ++ evicts b.
Proof. apply omap_app. Qed.
Lemma admits_evict gone : admits (map OnEvict gone) = [].
Proof. by induction gone. Qed.
Lemma evicts_evict gone : evicts (map OnEvict gone) = gone.
Proof. induction gone as [|g gone IH]; [done|]. cbn. by f_equal. Qed.

(** A session that can be written to. *)
Definition live_at (t : Table) (s : nat) (ss : Session) : Prop :=
  tb_heap t !! s = Some ss /\ s_reply ss <> None.

(** The table, its heap, the sessions still to be announced and the callbacks
    made so far: every session created had its one [OnAdmit] or is to be
    announced; the table holds exactly the attached sessions, each under its own
    key; the detached ones are those that had their one [OnEvict]. *)
Record table_inv (t : Table) (adm : list nat) (tr : list Effect) : Prop := {
  ti_heap : forall s, is_Some (tb_heap t !! s) <-> (s < tb_next t)%nat;
  ti_live : forall k s, tb_sessions t !! k = Some s
              <-> exists ss, live_at t s ss /\ si_key (s_ident ss) = k;
  ti_admits : admits tr ++ adm ≡ₚ seq 0 (tb_next t);
  ti_nodup : NoDup (evicts tr);
  ti_evicts : forall s, s ∈ evicts tr <-> exists ss, tb_heap t !! s = Some ss /\ s_reply ss = None
}.

Lemma live_unique t adm tr s k1 k2 :
  table_inv t adm tr -> tb_sessions t !! k1 = Some s -> tb_sessions t !! k2 = Some s -> k1 = k2.
Proof.
  intros I (s1 & [H1 _] & <-)%(ti_live _ _ _ I) (s2 & [H2 _] & <-)%(ti_live _ _ _ I). congruence.
Qed.

Lemma table_inv_quiet t adm tr eff :
  admits eff = [] -> evicts eff = [] -> table_inv t adm tr -> table_inv t adm (tr ++ eff).
Proof.
  intros Ha He [H1 H2 H3 H4 H5]. split; rewrite ?admits_app, ?evicts_app, ?Ha, ?He, ?app_nil_r; done.
Qed.

Lemma table_inv_new idle : table_inv (NewTable idle) [] [].
Proof.
  split; simpl; intros.
  - rewrite lookup_empty. split; [by intros []|lia].
  - rewrite lookup_empty. split; [done|]. unfold live_at. simpl. intros (? & [H _] & _). by rewrite lookup_empty in H.
  - done.
  - constructor.
  - split; [set_solver|]. intros (? & H & _). by rewrite lookup_empty in H.
Qed.

Lemma table_inv_touch t adm tr s now : table_inv t adm tr -> table_inv (touch_at t s now) adm tr.
Proof.
  intros [H1 H2 H3 H4 H5]. unfold touch_at, with_heap. split; simpl; try done.
  - intros s'. rewrite <- H1, lookup_alter_is_Some. done.
  - intros k s'. rewrite H2. unfold live_at. simpl. split.
    + intros (ss & [Hh Hr] & Hk). destruct (decide (s' = s)) as [->|Hne].
      * exists (touch ss now). by rewrite lookup_alter_eq, Hh.
      * exists ss. by rewrite lookup_alter_ne.
    + intros (ss & [Hh Hr] & Hk). apply lookup_alter_Some in Hh as [(-> & ss' & Hh & ->)|[Hne Hh]]; by eauto.
  - intros s'. rewrite H5. split.
    + intros (ss & Hh & Hr). destruct (decide (s' = s)) as [->|Hne].
      * exists (touch ss now). by rewrite lookup_alter_eq, Hh.
      * exists ss. by rewrite lookup_alter_ne.
    + intros (ss & Hh & Hr). apply lookup_alter_Some in Hh as [(-> & ss' & Hh & ->)|[Hne Hh]]; by eauto.
Qed.

(** A new session is in the table and to be announced. *)
Lemma table_inv_new_session t adm tr id reply :
  table_inv t adm tr -> tb_sessions t !! si_key id = None ->
  table_inv (mkTable (<[tb_next t := newSession id (Some reply)]> (tb_heap t)) (S (tb_next t))
               (<[si_key id := tb_next t]> (tb_sessions t)) (tb_idleTimeout t)) (tb_next t :: adm) tr.
Proof.
  intros [H1 H2 H3 H4 H5] E. set (n := tb_next t) in *.
  assert (Hn : tb_heap t !! n = None).
  { apply eq_None_not_Some. rewrite H1. unfold n. lia. }
  split; simpl; fold n.
  - intros s. destruct (decide (s = n)) as [->|Hne].
    + rewrite lookup_insert_eq. split; [lia|by eauto].
    + rewrite lookup_insert_ne, H1 by done. fold n. lia.
  - intros k s. unfold live_at; simpl. destruct (decide (k = si_key id)) as [->|Hk].
    + rewrite lookup_insert_eq. split.
      * intros [= <-]. eexists. rewrite lookup_insert_eq. split; [split; [done|by simpl]|done].
      * intros (ss & [Hh Hr] & Hks). destruct (decide (s = n)) as [->|Hne]; [done|].
        rewrite lookup_insert_ne in Hh by done.
        assert (Hin : tb_sessions t !! si_key id = Some s) by (apply H2; eexists; split; [split; [exact Hh|done]|done]).
        congruence.
    + rewrite lookup_insert_ne, H2 by done. unfold live_at. split; intros (ss & [Hh Hr] & Hks).
      * exists ss. rewrite lookup_insert_ne by congruence. done.
      * destruct (decide (s = n)) as [->|Hne].
        -- rewrite lookup_insert_eq in Hh. injection Hh as <-. simpl in Hks. congruence.
        -- rewrite lookup_insert_ne in Hh by done. eauto.
  - rewrite <- Permutation_middle, H3. change (0%nat :: seq 1 n) with (seq 0 (S n)). rewrite seq_S. apply Permutation_cons_append.
  - done.
  - intros s. rewrite H5. split; intros (ss & Hh & Hr).
    + exists ss. rewrite lookup_insert_ne by congruence. done.
    + destruct (decide (s = n)) as [->|Hne]; [rewrite lookup_insert_eq in Hh; by injection Hh as <-|].
      rewrite lookup_insert_ne in Hh by done. eauto.
Qed.

Lemma filter_out_perm (l : list nat) s : NoDup l -> s ∈ l -> l ≡ₚ s :: filter (fun x => x <> s) l.
Proof.
  intros Hn Hs. apply NoDup_Permutation; [done| |].
  - apply NoDup_cons. split; [|by apply NoDup_filter]. by intros [? _]%list_elem_of_filter.
  - intros x. rewrite elem_of_cons, list_elem_of_filter. destruct (decide (x = s)) as [->|]; naive_solver.
Qed.
Lemma table_inv_nodup t adm tr : table_inv t adm tr -> NoDup (admits tr ++ adm).
Proof. intros I. rewrite (ti_admits _ _ _ I). apply NoDup_seq. Qed.
Lemma created_iff t adm tr s : table_inv t adm tr -> s ∈ admits tr \/ s ∈ adm <-> (s < tb_next t)%nat.
Proof. intros I. rewrite <- elem_of_app, (ti_admits _ _ _ I), elem_of_seq. lia. Qed.

Lemma table_inv_announce t adm tr s :
  table_inv t adm tr -> s ∈ adm -> table_inv t (filter (fun x => x <> s) adm) (tr ++ [OnAdmit s]).
Proof.
  intros I Hs. pose proof (table_inv_nodup _ _ _ I) as Hn. destruct I as [H1 H2 H3 H4 H5].
  split; rewrite ?admits_app, ?evicts_app; cbn [admits evicts omap list_omap]; rewrite ?app_nil_r; try done.
  rewrite <- H3, <- app_assoc. apply Permutation_app_head. cbn [app]. symmetry. apply filter_out_perm; [|done].
  by apply NoDup_app in Hn as (_ & _ & Hn).
Qed.

Lemma live_not_evicted t adm tr s :
  table_inv t adm tr -> (s < tb_next t)%nat -> s ∉ evicts tr -> exists ss, live_at t s ss.
Proof.
  intros I Ha Hn. destruct (proj2 (ti_heap _ _ _ I s) Ha) as [ss Hs]. exists ss. split; [done|].
  intros Hr. apply Hn, (ti_evicts _ _ _ I). eauto.
Qed.

Lemma in_table_iff t adm tr s :
  table_inv t adm tr -> (exists k, tb_sessions t !! k = Some s) <-> (s < tb_next t)%nat /\ s ∉ evicts tr.
Proof.
  intros I. split.
  - intros (k & (ss & [Hh Hr] & _)%(ti_live _ _ _ I)). rewrite (ti_evicts _ _ _ I).
    split; [|intros (? & ? & ?); congruence]. apply (ti_heap _ _ _ I). eauto.
  - intros [Ha Hn]. destruct (live_not_evicted _ _ _ _ I Ha Hn) as [ss Hl].
    exists (si_key (s_ident ss)). apply (ti_live _ _ _ I). eauto.
Qed.

(** Dropping sessions: they are detached, reported and no longer found. *)
Record drops (t : Table) (gone : list nat) (t' : Table) : Prop := {
  dr_nodup : NoDup gone;
  dr_in : forall s, s ∈ gone -> exists k, tb_sessions t !! k = Some s;
  dr_heap : forall s, tb_heap t' !! s = if decide (s ∈ gone) then detach <$> tb_heap t !! s else tb_heap t !! s;
  dr_sessions : forall k s, tb_sessions t' !! k = Some s <-> tb_sessions t !! k = Some s /\ s ∉ gone;
  dr_next : tb_next t' = tb_next t;
  dr_idle : tb_idleTimeout t' = tb_idleTimeout t
}.

Lemma table_inv_drops t adm tr gone t' :
  table_inv t adm tr -> drops t gone t' -> table_inv t' adm (tr ++ map OnEvict gone).
Proof.
  intros [H1 H2 H3 H4 H5] [D1 D2 D3 D4 D5 _].
  assert (Hlive : forall s, s ∈ gone -> exists ss, live_at t s ss).
  { intros s (k & Hk)%D2. apply H2 in Hk as (ss & Hl & _). eauto. }
  split; rewrite ?admits_app, ?evicts_app, ?admits_evict, ?evicts_evict, ?D5, ?app_nil_r; try done.
  - intros s. rewrite D3, <- H1. case_decide; [|done]. by rewrite fmap_is_Some.
  - intros k s. rewrite D4, H2. unfold live_at. rewrite D3. split.
    + intros [(ss & Hl & Hk) Hn]. exists ss. by rewrite decide_False.
    + intros (ss & [Hh Hr] & Hk). case_decide as Hg; [|by eauto].
      apply fmap_Some in Hh as (ss' & _ & ->). done.
  - apply NoDup_app. split_and!; [done| |done]. intros s He Hg.
    apply Hlive in Hg as (ss & Hh & Hr). apply H5 in He as (ss' & Hh' & ?). congruence.
  - intros s. rewrite elem_of_app, H5, D3. split.
    + intros [(ss & Hh & Hr)|Hg].
      * exists (if decide (s ∈ gone) then detach ss else ss). rewrite Hh. by case_decide.
      * destruct (Hlive s Hg) as (ss & Hh & _). exists (detach ss). by rewrite decide_True, Hh.
    + intros (ss & Hh & Hr). case_decide; [by right|by eauto].
Qed.

Lemma Remove_drops t adm tr key s t' :
  table_inv t adm tr -> Remove t key = (Some s, t') ->
  drops t [s] t' /\ tb_sessions t !! key = Some s.
Proof.
  intros I H. unfold Remove in H. destruct (tb_sessions t !! key) as [s0|] eqn:E; [|done].
  injection H as <- <-. split; [|done]. split; simpl; try done.
  - apply NoDup_singleton.
  - intros s ->%list_elem_of_singleton. eauto.
  - intros s. unfold detach_at. case_decide as Hs.
    + apply list_elem_of_singleton in Hs as ->. by rewrite lookup_alter_eq.
    + rewrite lookup_alter_ne by set_solver. done.
  - intros k s. rewrite lookup_delete_Some, list_elem_of_singleton. split.
    + intros [Hne Hk]. split; [done|]. intros ->. apply Hne. by eapply live_unique.
    + intros [Hk Hne]. split; [|done]. intros <-. congruence.
Qed.

Lemma evict_where_drops P t adm tr gone t' :
  table_inv t adm tr -> evict_where P t = (gone, t') ->
  drops t gone t'
  /\ forall s, s ∈ gone <-> exists k, tb_sessions t !! k = Some s /\ P (k, s) = true.
Proof.
  intros I H. unfold evict_where in H. injection H as <- <-.
  assert (Hin : forall s, s ∈ map snd (filter (fun e => P e = true) (map_to_list (tb_sessions t)))
    <-> exists k, tb_sessions t !! k = Some s /\ P (k, s) = true).
  { intros s. rewrite list_elem_of_fmap. split.
    - intros ([k s'] & -> & [Hp Hm]%list_elem_of_filter). apply elem_of_map_to_list in Hm. eauto.
    - intros (k & Hk & Hp). exists (k, s). split; [done|]. apply list_elem_of_filter.
      by rewrite elem_of_map_to_list. }
  split; [|exact Hin]. split; simpl.
  - apply NoDup_fmap_2_strong.
    + intros [k1 s1] [k2 s2] [_ H1]%list_elem_of_filter [_ H2]%list_elem_of_filter. simpl. intros <-.
      apply elem_of_map_to_list in H1, H2. f_equal. by eapply live_unique.
    + apply NoDup_filter, NoDup_map_to_list.
  - intros s (k & Hk & _)%Hin. eauto.
  - intros s. apply foldl_detach_lookup.
  - intros k s. rewrite map_lookup_filter_Some, Hin. split.
    + intros [Hk Hp]. split; [done|]. intros (k' & Hk' & Hp').
      assert (k = k') as -> by (by eapply live_unique). congruence.
    + intros [Hk Hn]. split; [done|]. destruct (P (k, s)) eqn:Ep; [|done]. exfalso. eauto.
  - done.
  - done.
Qed.

(** * Runs *)

Lemma call_reply_quiet env r p : admits (call_reply env r p).2 = [] /\ evicts (call_reply env r p).2 = [].
Proof. unfold call_reply. by destruct (writeReply r.1 p). Qed.

Lemma replyAnyConnect_quiet env t s typ body :
  admits (replyAnyConnect env t s typ body).2 = [] /\ evicts (replyAnyConnect env t s typ body).2 = [].
Proof.
  unfold replyAnyConnect. destruct (tb_heap t !! s) as [ss|]; [|done].
  destruct (s_reply ss); [|done]. apply call_reply_quiet.
Qed.

Lemma WritePacket_quiet env t s p : admits (WritePacket env t s p).2 = [] /\ evicts (WritePacket env t s p).2 = [].
Proof.
  unfold WritePacket. destruct (tb_heap t !! s) as [ss|]; [|done].
  destruct (s_reply ss) as [r|]; [|done].
  pose proof (call_reply_quiet env r (pktData :: p)) as H.
  by destruct (call_reply env r (pktData :: p)) as [[e|] eff].
Qed.

(** [forwardPacket] leaves the table alone or removes one session. *)
Lemma forwardPacket_table env t s payload err eff t' adm tr :
  table_inv t adm tr -> forwardPacket env t s payload = (err, eff, t') ->
  (t' = t /\ admits eff = [] /\ evicts eff = []) \/ exists g, eff = [OnEvict g] /\ drops t [g] t'.
Proof.
  intros I H. unfold forwardPacket in H.
  destruct (parseDTLSPlaintext payload) as [[typ body]|]; [|left; by simplify_eq].
  destruct (typ =? pktData).
  { left. destruct (length body =? 0)%nat; [by simplify_eq|]. injection H as _ <- <-. done. }
  destruct (typ =? pktDPDOut).
  { left. pose proof (replyAnyConnect_quiet env t s pktDPDResp body) as Hq.
    destruct (replyAnyConnect env t s pktDPDResp body). by simplify_eq. }
  destruct ((typ =? pktDPDResp) || (typ =? pktKeepalive)); [left; by simplify_eq|].
  destruct (typ =? pktDisconnect); [|left; by simplify_eq].
  destruct (tb_heap t !! s) as [ss|]; [|left; by simplify_eq].
  destruct (Remove t (si_key (s_ident ss))) as [[g|] t1] eqn:Er; injection H as _ <- <-.
  - right. exists g. split; [done|]. by eapply Remove_drops.
  - left. unfold Remove in Er. destruct (tb_sessions t !! _); [done|]. by injection Er as <-.
Qed.

(** * Admission *)

Lemma bytesTLV_all f t :
  bytesTLV (hTLVs (dfInner f)) t (dfERA f)
  = match lookup_tlv (AllTLVs f) t with Some v => v | None => [] end.
Proof.
  unfold bytesTLV, lookupTLV, AllTLVs. rewrite lookup_tlv_app.
  by destruct (lookup_tlv (hTLVs (dfInner f)) t).
Qed.

(** A datagram's first record of a type, among those of the header and then
    those after it, has this value. *)
Definition carries (f : DGramFrame) (t : Z) (v : bytes) : Prop :=
  exists pre post, hTLVs (dfInner f) ++ dfERA f = pre ++ mkTLV t v :: post /\ t ∉ map tlv_type pre.
Lemma lookup_first ts t v :
  lookup_tlv ts t = Some v -> exists pre post, ts = pre ++ mkTLV t v :: post /\ t ∉ map tlv_type pre.
Proof.
  induction ts as [|[ty w] ts IH]; [done|]. cbn [lookup_tlv tlv_type tlv_value]. destruct (Z.eqb_spec ty t) as [->|Hne].
  - intros [= ->]. exists [], ts. split; [done|apply not_elem_of_nil].
  - intros (pre & post & -> & Hp)%IH. exists (mkTLV ty w :: pre), post. split; [done|]. cbn [map tlv_type].
    apply not_elem_of_cons. auto.
Qed.
Lemma dispatched_carries raw f t :
  dispatchable dtls_spec raw f -> t ∈ universalMandatory ++ spMandatory dtls_spec ->
  carries f t (bytesTLV (hTLVs (dfInner f)) t (dfERA f)).
Proof.
  intros (_ & _ & Hok) Ht. rewrite bytesTLV_all. destruct (validated_record _ _ _ Hok Ht) as (v & E & _). rewrite E.
  by apply lookup_first.
Qed.

(** A mandatory record of a dispatched datagram is found, and passed the
    per-type rule. *)
Lemma dispatched_record raw f t :
  dispatchable dtls_spec raw f -> t ∈ universalMandatory ++ spMandatory dtls_spec ->
  ValidateTLV (mkTLV t (bytesTLV (hTLVs (dfInner f)) t (dfERA f))) = Ok tt.
Proof.
  intros (_ & _ & Hok) Ht. rewrite bytesTLV_all. by destruct (validated_record _ _ _ Hok Ht) as (v & -> & Hv).
Qed.

Lemma dispatched_psk raw f :
  dispatchable dtls_spec raw f -> length (bytesTLV (hTLVs (dfInner f)) EraTLVDTLSPSK (dfERA f)) = 32%nat.
Proof.
  intros H. apply (dispatched_record _ _ EraTLVDTLSPSK) in H; [|decide_closed].
  set (psk := bytesTLV _ _ _) in *.
  assert (Hv : ValidateTLV (mkTLV EraTLVDTLSPSK psk) = if negb (length psk =? 32)%nat then Err VLength else Ok tt)
    by reflexivity.
  rewrite Hv in H. destruct (length psk =? 32)%nat eqn:E; [by apply Nat.eqb_eq|done].
Qed.

Lemma dispatched_device raw f :
  dispatchable dtls_spec raw f -> stringTLV (hTLVs (dfInner f)) EraTLVDeviceID (dfERA f) <> [].
Proof.
  intros H. apply (dispatched_record _ _ EraTLVDeviceID) in H; [|decide_closed].
  change (bytesTLV (hTLVs (dfInner f)) EraTLVDeviceID (dfERA f))
    with (stringTLV (hTLVs (dfInner f)) EraTLVDeviceID (dfERA f)) in H.
  intros Hnil. by rewrite Hnil in H.
Qed.

Section admission.
Context {R : Type} `{!Resolver R}.

(** What an admitted identity guarantees: the key, and the records of its
    datagram. *)
Definition ident_wf (f : DGramFrame) (id : SessionIdent) : Prop :=
  si_key id = frame_key f /\ normalised (si_key id) = si_key id
  /\ carries f EraTLVDeviceID (si_deviceID id) /\ si_deviceID id <> []
  /\ carries f EraTLVDTLSPSK (si_psk id) /\ length (si_psk id) = 32%nat
  /\ carries f EraTLVUserID (si_userID id) /\ carries f EraTLVTraceID (si_traceID id)
  /\ carries f EraTLVMTLSSubjectDN (si_subjectDN id)
  /\ Is6 (si_inner id) = true /\ (si_clatV6 id = AddrNone \/ Is6 (si_clatV6 id) = true).

Lemma admission_wf (r r' : R) now raw f id :
  dispatchable dtls_spec raw f -> resolver_wf r -> admission r now (frame_key f) f = (Ok id, r') -> ident_wf f id.
Proof.
  intros Hd Hr H. unfold admission in H. cbv zeta in H.
  assert (HC : forall t, t ∈ [EraTLVDeviceID; EraTLVDTLSPSK; EraTLVUserID; EraTLVTraceID; EraTLVMTLSSubjectDN] ->
    carries f t (bytesTLV (hTLVs (dfInner f)) t (dfERA f))).
  { intros t Ht. eapply dispatched_carries; [done|]. revert t Ht. apply Forall_forall. decide_closed. }
  destruct (negb (length _ =? 32)%nat) eqn:Ep; [done|]. simpl_bool.
  case_bool_decide as Ed; [done|].
  destruct (DeviceIDFromSubjectDN _) as [rid|e]; [|done].
  destruct (Resolve r now rid) as [[ident|e] r1] eqn:Er; [|done].
  destruct (negb (IsValid _)) eqn:Ev; [done|]. injection H as <- _.
  pose proof (Resolve_ident r now rid ident Hr) as Hid. rewrite Er in Hid.
  destruct (Hid eq_refl) as [[H6 _] Hc]. unfold ident_wf. cbn [si_key si_deviceID si_psk si_userID si_traceID si_subjectDN si_inner si_clatV6].
  split_and!; try done; try (apply HC; decide_closed).
  - unfold frame_key, normalised. cbn. by rewrite !unmapAP_idem.
  - destruct (prefix_valid _) eqn:Epv; [right|by left]. by apply Hc.
Qed.

(** C37: For a datagram the framework dispatched, admission goes wrong only
    when its Subject DN names no device or the resolver refuses the device it
    names: the checks of the PSK length, of the device record and of the
    resolved address are unreachable, as their comments say. Otherwise the
    session is bound to the normalised address pair and the records of that
    datagram, with a 32-byte PSK, a non-empty device id and the current time;
    its inner and CLAT addresses are the resolver's answer for the CN of the
    Subject DN record, whatever the device record says. *)
Theorem dispatched_admission (r r' : R) now raw f res
  (Hd : dispatchable dtls_spec raw f) (Hr : resolver_wf r)
  (Ha : admission r now (frame_key f) f = (res, r')) :
  exists dn, carries f EraTLVMTLSSubjectDN dn
  /\ match res with
     | Err e => (exists a, DeviceIDFromSubjectDN dn = Err a /\ e = ErrSubject a)
         \/ exists dev a, DeviceIDFromSubjectDN dn = Ok dev /\ (Resolve r now dev).1 = Err a /\ e = ErrResolve a
     | Ok id => ident_wf f id /\ si_createdAt id = now
         /\ exists dev ident, DeviceIDFromSubjectDN dn = Ok dev /\ (Resolve r now dev).1 = Ok ident
            /\ si_inner id = pf_addr (id_IPv6 ident)
            /\ si_clatV6 id = if prefix_valid (id_IPv6CLAT ident) then pf_addr (id_IPv6CLAT ident) else AddrNone
     end.
Proof.
  exists (bytesTLV (hTLVs (dfInner f)) EraTLVMTLSSubjectDN (dfERA f)). split; [eapply dispatched_carries; [done|decide_closed]|].
  destruct res as [id|e].
  - split; [by eapply admission_wf|]. unfold admission in Ha. cbv zeta in Ha.
    destruct (negb _); [done|]. case_bool_decide; [done|].
    change (stringTLV (hTLVs (dfInner f)) EraTLVMTLSSubjectDN (dfERA f)) with (bytesTLV (hTLVs (dfInner f)) EraTLVMTLSSubjectDN (dfERA f)) in Ha.
    destruct (DeviceIDFromSubjectDN _) as [rid|] eqn:Es; [|done].
    destruct (Resolve r now rid) as [[ident|] r1] eqn:Er; [|done].
    destruct (negb _); [done|]. injection Ha as <- _. split; [done|]. exists rid, ident. cbn. by rewrite Er.
  - unfold admission in Ha. cbv zeta in Ha.
    rewrite (dispatched_psk _ _ Hd) in Ha. cbn [negb Nat.eqb] in Ha.
    rewrite bool_decide_eq_false_2 in Ha by (by eapply dispatched_device).
    change (stringTLV (hTLVs (dfInner f)) EraTLVMTLSSubjectDN (dfERA f)) with (bytesTLV (hTLVs (dfInner f)) EraTLVMTLSSubjectDN (dfERA f)) in Ha.
    destruct (DeviceIDFromSubjectDN _) as [rid|] eqn:Es; [|left; injection Ha as <- _; eauto].
    destruct (Resolve r now rid) as [[ident|] r1] eqn:Er; [|right; injection Ha as <- _; exists rid; rewrite Er; eauto].
    pose proof (Resolve_ident r now rid ident Hr) as Hid. rewrite Er in Hid.
    destruct (Hid eq_refl) as [[H6 _] _].
    destruct (pf_addr (id_IPv6 ident)); done.
Qed.
End admission.

Section runs.
Context {R : Type} `{!Resolver R} (env : Env).
Implicit Types l : Listener R.

Lemma insert_session_cases l id reply :
  (exists s, tb_sessions (ls_table l) !! si_key id = Some s /\ insert_session l id reply = (s, true, l))
  \/ (tb_sessions (ls_table l) !! si_key id = None
     /\ insert_session l id reply = (tb_next (ls_table l), false,
          mkListener (mkTable (<[tb_next (ls_table l) := newSession id (Some reply)]> (tb_heap (ls_table l)))
            (S (tb_next (ls_table l))) (<[si_key id := tb_next (ls_table l)]> (tb_sessions (ls_table l)))
            (tb_idleTimeout (ls_table l))) (ls_resolver l) (ls_dpdSeq l) (tb_next (ls_table l) :: ls_admitting l))).
Proof.
  unfold insert_session, LoadOrCreate. destruct (tb_sessions (ls_table l) !! si_key id) as [s|]; [left|by right].
  exists s. split; [done|]. by destruct l.
Qed.

Lemma step_inv l eff l' tr :
  dtls_step env l eff l' -> table_inv (ls_table l) (ls_admitting l) tr ->
  table_inv (ls_table l') (ls_admitting l') (tr ++ eff).
Proof.
  intros Hs I. destruct Hs as [l s now|l now f|l raw r r' id now f peer _ _ _ _|l s Hin|l s payload err eff t Hf
    |l s eff l' Hh|l s p res eff Hw|l now eff l' He|l eff l' Hc]; cbn [ls_table ls_admitting] in *.
  - rewrite app_nil_r. by apply table_inv_touch.
  - by rewrite app_nil_r.
  - rewrite app_nil_r. destruct (insert_session_cases l id (f, peer)) as [(s & _ & ->)|[E ->]]; [done|].
    by apply table_inv_new_session.
  - by apply table_inv_announce.
  - destruct (forwardPacket_table _ _ _ _ _ _ _ _ _ I Hf) as [(-> & Ha & Hev)|(g & -> & Hd)].
    + by apply table_inv_quiet.
    + by apply (table_inv_drops (ls_table l) _ _ [g]).
  - unfold heartbeat_one in Hh. injection Hh as <- <-.
    destruct (replyAnyConnect_quiet env (ls_table l) s pktDPDOut (dpd_payload (u32 (ls_dpdSeq l + 1)))) as [Ha Hev].
    by apply table_inv_quiet.
  - destruct (WritePacket_quiet env (ls_table l) s p) as [Ha Hev]. rewrite Hw in Ha, Hev. by apply table_inv_quiet.
  - unfold RunEvictionPass, runEvictionPass in He.
    destruct (evict_where _ (ls_table l)) as [gone t] eqn:E. injection He as <- <-.
    eapply table_inv_drops; [done|]. by eapply evict_where_drops.
  - unfold CloseTable, RemoveAll in Hc.
    destruct (evict_where _ (ls_table l)) as [gone t] eqn:E. injection Hc as <- <-.
    eapply table_inv_drops; [done|]. by eapply evict_where_drops.
Qed.

Lemma steps_inv l tr l' tr0 :
  dtls_steps env l tr l' -> table_inv (ls_table l) (ls_admitting l) tr0 ->
  table_inv (ls_table l') (ls_admitting l') (tr0 ++ tr).
Proof.
  induction 1 as [l|l tr l1 eff l2 _ IH Hs]; intros I; [by rewrite app_nil_r|].
  rewrite app_assoc. eapply step_inv; [exact Hs|by apply IH].
Qed.

Lemma run_inv idle r l tr : dtls_steps env (start idle r) tr l -> table_inv (ls_table l) (ls_admitting l) tr.
Proof. intros H. apply (steps_inv _ _ _ [] H), table_inv_new. Qed.

Lemma steps_one l eff l' : dtls_step env l eff l' -> dtls_steps env l eff l'.
Proof. intros H. rewrite <- (app_nil_l eff). by eapply steps_snoc; [constructor|]. Qed.

Lemma steps_app l1 tr1 l2 tr2 l3 :
  dtls_steps env l1 tr1 l2 -> dtls_steps env l2 tr2 l3 -> dtls_steps env l1 (tr1 ++ tr2) l3.
Proof.
  intros H1 H2. induction H2 as [l|l tr la eff lb _ IH Hs]; [by rewrite app_nil_r|].
  rewrite app_assoc. eapply steps_snoc; [by apply IH|done].
Qed.

(** * Lifecycle *)

(** Only sessions of the table are evicted. *)
Lemma step_evicts l eff l' tr s :
  table_inv (ls_table l) (ls_admitting l) tr -> dtls_step env l eff l' ->
  s ∈ evicts eff -> exists k, tb_sessions (ls_table l) !! k = Some s.
Proof.
  intros I Hs He. assert (Hno : evicts eff <> []) by (intros E; unfold evicts in He, E; rewrite E in He; set_solver).
  destruct Hs as [l s0 now|l now f|l raw r r' id now f peer _ _ _ _|l s0 Hin|l s0 payload err eff t Hf
    |l s0 eff l' Hh|l s0 p res eff Hw|l now eff l' Hp|l eff l' Hc]; cbn [ls_table ls_admitting] in *;
    try done.
  - destruct (forwardPacket_table _ _ _ _ _ _ _ _ _ I Hf) as [(_ & _ & E)|(g & -> & D)]; [done|].
    by apply (dr_in _ _ _ D).
  - unfold heartbeat_one in Hh. injection Hh as <- _.
    destruct (replyAnyConnect_quiet env (ls_table l) s0 pktDPDOut (dpd_payload (u32 (ls_dpdSeq l + 1)))) as [_ E].
    done.
  - destruct (WritePacket_quiet env (ls_table l) s0 p) as [_ E]. rewrite Hw in E. done.
  - unfold RunEvictionPass, runEvictionPass in Hp.
    destruct (evict_where _ (ls_table l)) as [gone t] eqn:E. injection Hp as <- <-. rewrite evicts_evict in He.
    destruct (evict_where_drops _ _ _ _ _ _ I E) as [D _]. by apply (dr_in _ _ _ D).
  - unfold CloseTable, RemoveAll in Hc.
    destruct (evict_where _ (ls_table l)) as [gone t] eqn:E. injection Hc as <- <-. rewrite evicts_evict in He.
    destruct (evict_where_drops _ _ _ _ _ _ I E) as [D _]. by apply (dr_in _ _ _ D).
Qed.

(** C2: In every run of the listener, whatever the interleaving, a session
    gets one [OnAdmit], except while the handler that inserted it has not come
    to the call, and at most one [OnEvict]. The table maps a key to a session
    exactly when the session is attached and its own key is that key; that is
    so from its insertion until its [OnEvict], which comes to sessions of the
    table only. An [OnEvict] can therefore precede the [OnAdmit] only of a
    session whose handler is between the two; when no handler is, the table
    holds exactly the sessions admitted and not evicted. *)
Theorem session_lifecycle idle r l tr (Hrun : dtls_steps env (start idle r) tr l) :
  NoDup (admits tr) /\ NoDup (evicts tr)
  /\ (forall s, s ∈ admits tr <-> (s < tb_next (ls_table l))%nat /\ s ∉ ls_admitting l)
  /\ (forall k s, tb_sessions (ls_table l) !! k = Some s
        <-> exists ss, live_at (ls_table l) s ss /\ si_key (s_ident ss) = k)
  /\ (forall s, (exists k, tb_sessions (ls_table l) !! k = Some s)
        <-> (s < tb_next (ls_table l))%nat /\ s ∉ evicts tr)
  /\ (forall eff l' s, dtls_step env l eff l' -> s ∈ evicts eff ->
        (exists k, tb_sessions (ls_table l) !! k = Some s) /\ s ∉ evicts tr
        /\ (s ∈ admits tr \/ s ∈ ls_admitting l))
  /\ (ls_admitting l = [] -> forall s,
        (exists k, tb_sessions (ls_table l) !! k = Some s) <-> s ∈ admits tr /\ s ∉ evicts tr).
Proof.
  pose proof (run_inv idle r l tr Hrun) as I. pose proof (table_inv_nodup _ _ _ I) as Hn.
  apply NoDup_app in Hn as (Hna & Hdis & _).
  assert (Ha : forall s, s ∈ admits tr <-> (s < tb_next (ls_table l))%nat /\ s ∉ ls_admitting l).
  { intros s. rewrite <- (created_iff _ _ _ s I). specialize (Hdis s). tauto. }
  split_and!; [done|apply I|done|apply I|intros s; by apply (in_table_iff _ _ _ _ I)| |].
  - intros eff l' s Hs He. pose proof (step_evicts _ _ _ _ _ I Hs He) as Ht. split; [done|].
    apply (in_table_iff _ _ _ _ I) in Ht as [Hc Hn]. split; [done|]. by apply (created_iff _ _ _ s I).
  - intros E s. rewrite (in_table_iff _ _ _ s I), Ha, E. set_solver.
Qed.

(** * Identity *)

(** Where a session came from: an admission of its first datagram, which is
    also the one its replies answer. *)
Definition admitted_by (f : DGramFrame) (ss : Session) : Prop :=
  (exists raw, bytes_ok raw /\ dispatchable dtls_spec raw f)
  /\ (exists r r' now, resolver_wf r /\ admission r now (frame_key f) f = (Ok (s_ident ss), r'))
  /\ (s_reply ss = None \/ exists peer, s_reply ss = Some (f, peer)).

(** How a session evolves: only its clock moves, and it may be detached. *)
Definition evolves (ss ss' : Session) : Prop :=
  s_ident ss' = s_ident ss /\ (s_reply ss' = s_reply ss \/ s_reply ss' = None).

#[export] Instance evolves_preorder : PreOrder evolves.
Proof.
  split; [by intros ss; split; [|left]|].
  intros s1 s2 s3 [H1 [E1|E1]] [H2 [E2|E2]]; (split; [congruence|]); rewrite ?E2, ?E1; auto.
Qed.

Lemma drops_evolves t gone t' s ss :
  drops t gone t' -> tb_heap t !! s = Some ss -> exists ss', tb_heap t' !! s = Some ss' /\ evolves ss ss'.
Proof.
  intros D Hs. rewrite (dr_heap _ _ _ D), Hs. case_decide.
  - exists (detach ss). split; [done|]. split; [done|by right].
  - by exists ss.
Qed.

Lemma drops_back t gone t' s ss' :
  drops t gone t' -> tb_heap t' !! s = Some ss' -> exists ss, tb_heap t !! s = Some ss.
Proof.
  intros D. rewrite (dr_heap _ _ _ D). case_decide; [|by eauto].
  intros (ss & Hs & _)%fmap_Some. eauto.
Qed.

Lemma touch_evolves t s0 now s ss :
  tb_heap t !! s = Some ss -> exists ss', tb_heap (touch_at t s0 now) !! s = Some ss' /\ evolves ss ss'.
Proof.
  intros Hs. unfold touch_at, with_heap. simpl. destruct (decide (s0 = s)) as [->|Hne].
  - exists (touch ss now). rewrite lookup_alter_eq, Hs. split; [done|]. split; [done|by left].
  - exists ss. by rewrite lookup_alter_ne.
Qed.

Lemma touch_back t s0 now s ss' :
  tb_heap (touch_at t s0 now) !! s = Some ss' -> exists ss, tb_heap t !! s = Some ss.
Proof.
  unfold touch_at, with_heap. simpl. intros [(-> & ss & H & _)|[_ H]]%lookup_alter_Some; eauto.
Qed.

(** The table of a step is the old one, touched, with a session inserted or
    with sessions dropped. *)
Inductive table_change (t : Table) : Table -> Prop :=
| tc_same : table_change t t
| tc_touch s now : table_change t (touch_at t s now)
| tc_drop gone t' : drops t gone t' -> table_change t t'
| tc_new raw f peer r r' now id h :
    bytes_ok raw -> dispatchable dtls_spec raw f -> resolver_wf r -> admission r now (frame_key f) f = (Ok id, r') ->
    h = <[tb_next t := newSession id (Some (f, peer))]> (tb_heap t) ->
    table_change t
      (mkTable h (S (tb_next t)) (<[si_key id := tb_next t]> (tb_sessions t)) (tb_idleTimeout t)).

Lemma step_change l eff l' tr :
  table_inv (ls_table l) (ls_admitting l) tr -> dtls_step env l eff l' -> table_change (ls_table l) (ls_table l').
Proof.
  intros I Hs. destruct Hs as [l s now|l now f|l raw r r' id now f peer Hraw Hd Hr Ha|l s Hin|l s payload err eff t Hf
    |l s eff l' Hh|l s p res eff Hw|l now eff l' He|l eff l' Hc]; cbn [ls_table]; try constructor.
  - destruct (insert_session_cases l id (f, peer)) as [(s & _ & ->)|[E ->]]; [constructor|]. by eapply tc_new.
  - destruct (forwardPacket_table _ _ _ _ _ _ _ _ _ I Hf) as [(-> & _)|(g & -> & Hd)]; [constructor|].
    by eapply tc_drop.
  - injection Hh as _ <-. constructor.
  - unfold RunEvictionPass, runEvictionPass in He.
    destruct (evict_where _ (ls_table l)) as [gone t] eqn:E. injection He as _ <-.
    eapply tc_drop. by eapply evict_where_drops.
  - unfold CloseTable, RemoveAll in Hc.
    destruct (evict_where _ (ls_table l)) as [gone t] eqn:E. injection Hc as _ <-.
    eapply tc_drop. by eapply evict_where_drops.
Qed.

Lemma change_evolves t t' adm tr s ss :
  table_inv t adm tr -> table_change t t' -> tb_heap t !! s = Some ss ->
  exists ss', tb_heap t' !! s = Some ss' /\ evolves ss ss'.
Proof.
  intros I Hc Hs. destruct Hc as [|s0 now|gone t' D|raw f peer r r' now id h Hraw Hd Hr Ha ->].
  - by exists ss.
  - by apply touch_evolves.
  - by eapply drops_evolves.
  - exists ss. simpl. rewrite lookup_insert_ne; [done|]. intros <-.
    assert (tb_next t < tb_next t)%nat by (apply (ti_heap _ _ _ I); eauto). lia.
Qed.

Lemma change_origin t t' adm tr s ss' :
  table_inv t adm tr -> table_change t t' -> tb_heap t' !! s = Some ss' ->
  (exists ss, tb_heap t !! s = Some ss /\ evolves ss ss') \/ exists f, admitted_by f ss'.
Proof.
  intros I Hc Hs.
  assert (Hback : (exists ss, tb_heap t !! s = Some ss) -> exists ss, tb_heap t !! s = Some ss /\ evolves ss ss').
  { intros [ss Hss]. destruct (change_evolves _ _ _ _ _ _ I Hc Hss) as (ss2 & Hs2 & He).
    rewrite Hs in Hs2. injection Hs2 as <-. eauto. }
  destruct Hc as [|s0 now|gone t' D|raw f peer r r' now id h Hraw Hd Hr Ha ->].
  - left. eauto.
  - left. apply Hback. by eapply touch_back.
  - left. apply Hback. by eapply drops_back.
  - simpl in Hs. destruct (decide (s = tb_next t)) as [->|Hne].
    + rewrite lookup_insert_eq in Hs. injection Hs as <-. right. exists f. split; [by exists raw|]. split; [|right; by exists peer].
      exists r, r', now. done.
    + rewrite lookup_insert_ne in Hs by done. left. apply Hback. eauto.
Qed.

Lemma run_evolves idle r l tr tr2 l2 s ss :
  dtls_steps env (start idle r) tr l -> dtls_steps env l tr2 l2 -> tb_heap (ls_table l) !! s = Some ss ->
  exists ss', tb_heap (ls_table l2) !! s = Some ss' /\ evolves ss ss'.
Proof.
  intros Hrun H. revert Hrun. induction H as [l|l tr2 l1 eff l2 Hss IH Hs]; intros Hrun Hh; [by exists ss|].
  destruct (IH Hrun Hh) as (ss1 & Hh1 & He1).
  assert (I : table_inv (ls_table l1) (ls_admitting l1) (tr ++ tr2)) by (eapply run_inv, steps_app; [exact Hrun|exact Hss]).
  destruct (change_evolves _ _ _ _ _ _ I (step_change _ _ _ _ I Hs) Hh1) as (ss2 & Hh2 & He2).
  exists ss2. split; [done|]. by etransitivity.
Qed.

Lemma run_admitted idle r l tr s ss :
  dtls_steps env (start idle r) tr l -> tb_heap (ls_table l) !! s = Some ss -> exists f, admitted_by f ss.
Proof.
  remember (start idle r) as l0 eqn:E0. intros H. revert ss.
  induction H as [l|l tr l1 eff l2 Hss IH Hs]; intros ss Hh; subst l.
  { simpl in Hh. by rewrite lookup_empty in Hh. }
  assert (I : table_inv (ls_table l1) (ls_admitting l1) tr) by (by eapply run_inv).
  destruct (change_origin _ _ _ _ _ _ I (step_change _ _ _ _ I Hs) Hh) as [(ss1 & Hh1 & [He Hr])|]; [|done].
  destruct (IH eq_refl ss1 Hh1) as (f & Hraw & (r0 & r' & now & Hwf & Ha) & Hf). exists f.
  split; [done|]. split.
  - exists r0, r', now. by rewrite He.
  - destruct Hr as [->| ->]; [done|by left].
Qed.

(** C20: A session is bound to the datagram that opened it for as long as the
    pointer is held: in every later state it has the same key, device, user,
    addresses, PSK and times of creation, and its reply path is the one it had
    or gone. In every reachable state a session's identity is well formed for a
    datagram the framework dispatched, and its replies answer that datagram. *)
Theorem session_identity idle r l tr tr2 l2 s ss
  (Hrun : dtls_steps env (start idle r) tr l) (Hnext : dtls_steps env l tr2 l2)
  (Hs : tb_heap (ls_table l) !! s = Some ss) :
  (exists ss', tb_heap (ls_table l2) !! s = Some ss' /\ s_ident ss' = s_ident ss
     /\ (s_reply ss' = s_reply ss \/ s_reply ss' = None))
  /\ exists raw f, dispatchable dtls_spec raw f /\ ident_wf f (s_ident ss)
     /\ (s_reply ss = None \/ exists peer, s_reply ss = Some (f, peer)).
Proof.
  split.
  - destruct (run_evolves _ _ _ _ _ _ _ _ Hrun Hnext Hs) as (ss' & Hs' & Hi & Hr). eauto.
  - destruct (run_admitted _ _ _ _ _ _ Hrun Hs) as (f & (raw & _ & Hd) & (r0 & r' & now & Hwf & Ha) & Hf).
    exists raw, f. split; [done|]. split; [by eapply admission_wf|done].
Qed.

(** * Writing to a session *)

(** A packet as the facade sees it: one datagram to the peer that opened the
    session, which decodes to a backend frame with the inner header and the
    records of the opening datagram, so under the session's key, carrying the
    AnyConnect type and the packet. *)
Definition delivered (ss : Session) (typ : byte) (p : bytes) (eff : list Effect) : Prop :=
  exists f peer b g, s_reply ss = Some (f, peer) /\ eff = [SockWrite peer b]
  /\ DecodeDGramFrame b = Ok g /\ dfDirection g = DirBackendToFacade
  /\ frame_key g = si_key (s_ident ss) /\ dfInner g = dfInner f /\ dfERA g = dfERA f
  /\ dfPayload g = typ :: p.
(** The packet does not fit a datagram with the session's records. *)
Definition oversize (ss : Session) (p : bytes) : Prop :=
  exists f peer, s_reply ss = Some (f, peer)
  /\ MaxDatagramSize < Z.of_nat (6 + length (frame_block f) + S (length p)).
(** What comes of sending one. *)
Definition sends (ss : Session) (typ : byte) (p : bytes) (e : option DtlsErr) (eff : list Effect) : Prop :=
  (oversize ss p /\ e = Some (ErrReply ROversize) /\ eff = [])
  \/ (~ oversize ss p /\ (e = None \/ exists m, e = Some (ErrSock m)) /\ delivered ss typ p eff).

Lemma call_reply_sends f peer ss typ p e eff :
  admitted_by f ss -> s_reply ss = Some (f, peer) -> is_byte typ -> bytes_ok p ->
  call_reply env (f, peer) (typ :: p) = (e, eff) -> sends ss typ p e eff.
Proof.
  intros ((raw & Hraw & Hd) & (r0 & r' & now & Hwf & Ha) & _) Hr Ht Hp H.
  apply (admission_wf _ _ _ _ _ _ Hd) in Ha as (Hk & _); [|done]. destruct Hd as [Hdec _].
  apply DecodeDGramFrame_sound in Hdec as [(Hv & Hdir & Hi & He & Hpay & Hlen) _]; [|done].
  unfold call_reply in H. cbn [fst snd] in H. rewrite writeReply_frame in H by done.
  cbn [length] in H. destruct (MaxDatagramSize <? _) eqn:Em.
  - injection H as <- <-. left. split_and!; [|done..]. exists f, peer. split; [done|]. by simpl_bool.
  - injection H as He' <-. simpl_bool. right. split.
    { intros (f' & peer' & Hr' & ?). rewrite Hr in Hr'. injection Hr' as <- <-. lia. }
    split; [destruct (env_sock env _ _); [right|left]; by eauto|].
    assert (Hg : frame_ok (reply_frame f (typ :: p))).
    { unfold frame_ok. split_and!; [done|by right|done|done|by constructor|].
      change (frame_block (reply_frame f (typ :: p))) with (frame_block f). cbn [reply_frame dfPayload length] in *. lia. }
    pose proof (DecodeDGramFrame_complete _ [] Hg) as Hd. rewrite app_nil_r in Hd.
    exists f, peer, (frame_bytes (reply_frame f (typ :: p))), (reply_frame f (typ :: p)).
    rewrite Hk. by split_and!.
Qed.

(** A live session of a run has the reply path of its first datagram. *)
Lemma run_live idle r l tr s ss :
  dtls_steps env (start idle r) tr l -> live_at (ls_table l) s ss ->
  exists f peer, admitted_by f ss /\ s_reply ss = Some (f, peer).
Proof.
  intros Hrun [Hs Hr]. destruct (run_admitted _ _ _ _ _ _ Hrun Hs) as [f Hf].
  destruct (proj2 (proj2 Hf)) as [?|[peer Hpeer]]; [done|]. by exists f, peer.
Qed.

Lemma replyAnyConnect_live idle r l tr s ss typ p :
  dtls_steps env (start idle r) tr l -> live_at (ls_table l) s ss -> is_byte typ -> bytes_ok p ->
  sends ss typ p (replyAnyConnect env (ls_table l) s typ p).1 (replyAnyConnect env (ls_table l) s typ p).2.
Proof.
  intros Hrun Hl Ht Hp. destruct (run_live _ _ _ _ _ _ Hrun Hl) as (f & peer & Hf & Hr).
  unfold replyAnyConnect. rewrite (proj1 Hl), Hr. unfold encodeDTLSPlaintext.
  destruct (call_reply env (f, peer) (typ :: p)) as [e eff] eqn:Ec. by eapply call_reply_sends.
Qed.

Lemma replyAnyConnect_gone t s ss typ p :
  tb_heap t !! s = Some ss -> s_reply ss = None -> replyAnyConnect env t s typ p = (Some ErrSessionGone, []).
Proof. intros Hs Hr. unfold replyAnyConnect. by rewrite Hs, Hr. Qed.

(** C5: A packet written to a session goes out exactly while the session is
    admitted and not evicted: then it is delivered to the session's peer (or
    refused, with nothing sent, when it would exceed a datagram), with the
    packet's length as the result unless the socket fails. Once evicted, every
    later write, in every later state, is [ErrSessionGone] and sends
    nothing. *)
Theorem write_while_live idle r l tr s p (Hrun : dtls_steps env (start idle r) tr l) (Hp : bytes_ok p) :
  (s ∈ admits tr -> s ∉ evicts tr -> exists ss, live_at (ls_table l) s ss
     /\ match WritePacket env (ls_table l) s p with
        | (Ok n, eff) => n = length p /\ sends ss pktData p None eff
        | (Err e, eff) => sends ss pktData p (Some e) eff
        end)
  /\ (s ∈ evicts tr -> forall env' tr2 l2, dtls_steps env l tr2 l2 ->
        WritePacket env' (ls_table l2) s p = (Err ErrSessionGone, [])).
Proof.
  pose proof (run_inv _ _ _ _ Hrun) as I. split.
  - intros Ha Hn. destruct (live_not_evicted _ _ _ _ I (proj1 (created_iff _ _ _ _ I) (or_introl Ha)) Hn) as [ss Hl]. exists ss. split; [done|].
    destruct (run_live _ _ _ _ _ _ Hrun Hl) as (f & peer & Hf & Hr).
    unfold WritePacket. rewrite (proj1 Hl), Hr.
    destruct (call_reply env (f, peer) (pktData :: p)) as [e eff] eqn:Ec.
    assert (Ht : is_byte pktData) by decide_closed.
    pose proof (call_reply_sends _ _ _ _ _ _ _ Hf Hr Ht Hp Ec) as H. by destruct e.
  - intros He env' tr2 l2 Hnext. apply (ti_evicts _ _ _ I) in He as (ss & Hs & Hr).
    destruct (run_evolves _ _ _ _ _ _ _ _ Hrun Hnext Hs) as (ss' & Hs' & _ & Hr').
    unfold WritePacket. rewrite Hs'. destruct Hr' as [E|E]; rewrite E; [by rewrite Hr|done].
Qed.

(** * Eviction *)

Lemma change_idle t t' : table_change t t' -> tb_idleTimeout t' = tb_idleTimeout t.
Proof. intros [| |gone t1 D|]; [done..|by apply (dr_idle _ _ _ D)|done]. Qed.

Lemma run_idle idle r l tr :
  dtls_steps env (start idle r) tr l ->
  tb_idleTimeout (ls_table l) = if idle <=? 0 then DefaultIdleTimeout else idle.
Proof.
  remember (start idle r) as l0 eqn:E0. intros H.
  induction H as [l|l tr l1 eff l2 Hss IH Hs]; subst l; [done|].
  rewrite <- IH by done. eapply change_idle, step_change; [by eapply run_inv|done].
Qed.

(** An eviction pass ends exactly the sessions that have been silent for
    longer than the idle window, 300 s unless configured: a session of the
    table stays, unchanged, if and only if its last datagram is within the
    window; otherwise it gets its one [OnEvict] and loses its reply path. No
    key appears. *)
Theorem eviction_pass_exact idle r l tr now eff l'
  (Hrun : dtls_steps env (start idle r) tr l) (Hpass : RunEvictionPass l now = (eff, l')) :
  let window := if idle <=? 0 then 300 * 1000000000 else idle in
  NoDup (evicts eff)
  /\ (forall k s, tb_sessions (ls_table l') !! k = Some s -> tb_sessions (ls_table l) !! k = Some s)
  /\ (forall s, s ∈ evicts eff -> exists k, tb_sessions (ls_table l) !! k = Some s)
  /\ forall k s, tb_sessions (ls_table l) !! k = Some s ->
       exists ss, tb_heap (ls_table l) !! s = Some ss
       /\ (if now - s_lastSeen ss <=? window
           then tb_sessions (ls_table l') !! k = Some s /\ s ∉ evicts eff
                /\ tb_heap (ls_table l') !! s = Some ss
           else tb_sessions (ls_table l') !! k = None /\ s ∈ evicts eff
                /\ tb_heap (ls_table l') !! s = Some (detach ss)).
Proof.
  cbv zeta. pose proof (run_inv _ _ _ _ Hrun) as I. pose proof (run_idle _ _ _ _ Hrun) as Hw.
  unfold RunEvictionPass, runEvictionPass in Hpass.
  destruct (evict_where _ (ls_table l)) as [gone t] eqn:E. injection Hpass as <- <-. cbn [ls_table].
  destruct (evict_where_drops _ _ _ _ _ _ I E) as [[D1 D2 D3 D4 D5 _] Hin]. rewrite evicts_evict.
  split_and!; [done| |done|].
  - by intros k s [Hk _]%D4.
  - intros k s Hk. pose proof Hk as (ss & [Hs Hr] & _)%(ti_live _ _ _ I). exists ss. split; [done|].
    assert (Hg : s ∈ gone <-> s_lastSeen ss < now - tb_idleTimeout (ls_table l)).
    { rewrite Hin. unfold lastSeen_at. cbn [snd]. rewrite Hs, <- Z.ltb_lt. split; [by intros (? & _ & ?)|eauto]. }
    rewrite Hw in Hg. unfold DefaultIdleTimeout in Hg.
    destruct (Z.leb_spec (now - s_lastSeen ss) (if idle <=? 0 then 300 * 1000000000 else idle)).
    + assert (Hn : s ∉ gone) by (rewrite Hg; lia). rewrite D3, decide_False by done. by rewrite D4.
    + assert (Hy : s ∈ gone) by (rewrite Hg; lia). rewrite D3, decide_True, Hs by done. split_and!; try done.
      apply eq_None_not_Some. intros [s' Hs']. pose proof Hs' as [Hk' Hn]%D4. congruence.
Qed.

(** * Receiving and probing *)

(** What a received packet does, by its AnyConnect type: data goes to the
    sink unless empty, and nowhere else; a DPD request on a live session is
    answered to its peer with the same body as a DPD response; a disconnect
    ends the session, which is then in no table; anything else does nothing.
    Only a disconnect changes the table. *)
Theorem forwardPacket_by_type idle r l tr s ss typ body err eff t
  (Hrun : dtls_steps env (start idle r) tr l) (Hl : live_at (ls_table l) s ss)
  (Hb : bytes_ok body) (Hf : forwardPacket env (ls_table l) s (typ :: body) = (err, eff, t)) :
  (typ = pktData ->
     t = ls_table l
     /\ eff = (if is_nil body then [] else [SinkWrite (if env_sessionSink env then Some s else None) body]))
  /\ (typ = pktDPDOut -> t = ls_table l /\ sends ss pktDPDResp body err eff)
  /\ (typ = pktDisconnect -> err = None /\ eff = [OnEvict s]
        /\ (forall k, tb_sessions t !! k <> Some s)
        /\ (forall k s', s' <> s -> tb_sessions t !! k = Some s' <-> tb_sessions (ls_table l) !! k = Some s'))
  /\ (typ ∉ [pktData; pktDPDOut; pktDisconnect] -> err = None /\ eff = [] /\ t = ls_table l).
Proof.
  pose proof (run_inv _ _ _ _ Hrun) as I. unfold forwardPacket, parseDTLSPlaintext in Hf. split_and!.
  - intros ->. cbn [Z.eqb pktData] in Hf. destruct body as [|b body]; injection Hf as _ <- <-; done.
  - intros ->. assert (Ht : is_byte pktDPDResp) by decide_closed.
    pose proof (replyAnyConnect_live _ _ _ _ _ _ _ _ Hrun Hl Ht Hb) as Hs.
    cbn in Hf. destruct (replyAnyConnect env (ls_table l) s pktDPDResp body) as [e ef].
    by injection Hf as <- <- <-.
  - intros ->. cbn in Hf. rewrite (proj1 Hl) in Hf.
    assert (Hk : tb_sessions (ls_table l) !! si_key (s_ident ss) = Some s) by (apply (ti_live _ _ _ I); eauto).
    destruct (Remove (ls_table l) (si_key (s_ident ss))) as [g t1] eqn:Er.
    assert (g = Some s) as -> by (unfold Remove in Er; rewrite Hk in Er; by injection Er).
    injection Hf as <- <- <-. destruct (Remove_drops _ _ _ _ _ _ I Er) as [D _]. split_and!; try done.
    + intros k [_ Hn]%(dr_sessions _ _ _ D). set_solver.
    + intros k s' Hne. rewrite (dr_sessions _ _ _ D). set_solver.
  - intros Hn. rewrite !not_elem_of_cons in Hn. destruct Hn as (H0 & H3 & H5 & _).
    apply Z.eqb_neq in H0, H3, H5. rewrite H0, H3, H5 in Hf.
    destruct ((typ =? pktDPDResp) || (typ =? pktKeepalive)); by injection Hf as <- <- <-.
Qed.

(** * The handlers as steps *)

Lemma admission_resolver r now f : resolver_wf r -> resolver_wf (admission r now (frame_key f) f).2.
Proof.
  intros Hr. unfold admission. cbv zeta. destruct (negb _); [done|]. case_bool_decide; [done|].
  destruct (DeviceIDFromSubjectDN _) as [rid|]; [|done].
  pose proof (Resolve_wf r now rid Hr) as Hw.
  destruct (Resolve r now rid) as [[ident|] r1]; [|done]. by destruct (negb _).
Qed.

Lemma handle_session_steps l raw now f peer res eff l' :
  bytes_ok raw -> dispatchable dtls_spec raw f -> resolver_wf (ls_resolver l) ->
  handle_session l now f peer = (res, eff, l') ->
  dtls_steps env l eff l' /\ resolver_wf (ls_resolver l').
Proof.
  intros Hraw Hd Hr H. unfold handle_session in H.
  destruct (Get (ls_table l) (frame_key f)) as [s|] eqn:Eg.
  { injection H as _ <- <-. split; [|done]. apply steps_one, step_touch. }
  pose proof (admission_resolver (ls_resolver l) now f Hr) as Hr1.
  pose proof (step_resolve env l now f) as Hres.
  destruct (admission (ls_resolver l) now (frame_key f) f) as [[id|e] r1] eqn:Ea; cbn [fst snd] in *.
  - set (l1 := mkListener (ls_table l) r1 (ls_dpdSeq l) (ls_admitting l)) in *.
    destruct (admit_session l1 now id (f, peer)) as [[s ef] l2] eqn:Em.
    injection H as _ <- <-. rewrite <- (app_nil_l ef).
    pose proof (step_insert env l1 raw _ _ _ _ _ peer Hraw Hd Hr Ea) as Hins.
    unfold admit_session in Em.
    destruct (insert_session_cases l1 id (f, peer)) as [(s' & _ & E)|[_ E]]; rewrite E in Em, Hins;
      cbn [fst snd announce] in Em; injection Em as _ <- <-; (split; [|done]);
      (eapply steps_snoc; [apply (steps_snoc _ _ [] _ [] _ (steps_one _ _ _ Hres) Hins)|]).
    + exact (step_touch env l1 s' now).
    + refine (step_announce env _ (tb_next (ls_table l)) _). by left.
  - injection H as _ <- <-. split; [|done]. by apply steps_one.
Qed.

Lemma handle_steps l raw now f peer err eff l' :
  bytes_ok raw -> dispatchable dtls_spec raw f -> resolver_wf (ls_resolver l) ->
  handle env l now f peer = (err, eff, l') ->
  dtls_steps env l eff l' /\ resolver_wf (ls_resolver l').
Proof.
  intros Hraw Hd Hr H. unfold handle in H.
  destruct (handle_session l now f peer) as [[res eff1] l1] eqn:Es.
  destruct (handle_session_steps _ _ _ _ _ _ _ _ Hraw Hd Hr Es) as [H1 Hr1].
  destruct res as [s|e]; [|by injection H as _ <- <-].
  destruct (forwardPacket env (ls_table l1) s (dfPayload f)) as [[err2 eff2] t] eqn:Ef.
  injection H as _ <- <-. split; [|done]. eapply steps_snoc; [done|]. by eapply step_forward.
Qed.

Definition heartbeat_from (l : Listener R) (ss : list nat) (acc : list Effect) : list Effect * Listener R :=
  foldl (fun st s => let '(eff, l) := heartbeat_one env st.2 s in (st.1 ++ eff, l)) (acc, l) ss.

Lemma heartbeat_from_cons l s ss acc :
  heartbeat_from l (s :: ss) acc = heartbeat_from (heartbeat_one env l s).2 ss (acc ++ (heartbeat_one env l s).1).
Proof. done. Qed.

Lemma heartbeat_from_steps l0 ss acc l :
  dtls_steps env l0 acc l -> dtls_steps env l0 (heartbeat_from l ss acc).1 (heartbeat_from l ss acc).2.
Proof.
  revert acc l. induction ss as [|s ss IH]; intros acc l H; [done|]. rewrite heartbeat_from_cons.
  apply IH. eapply steps_snoc; [exact H|]. by eapply step_heartbeat.
Qed.

Lemma heartbeat_tick_steps l eff l' : heartbeat_tick env l = (eff, l') -> dtls_steps env l eff l'.
Proof.
  intros H. pose proof (heartbeat_from_steps l (TableSnapshot (ls_table l)) [] l (steps_refl _ l)) as Hs.
  change (heartbeat_from l (TableSnapshot (ls_table l)) []) with (heartbeat_tick env l) in Hs. by rewrite H in Hs.
Qed.

Lemma heartbeat_from_table l ss acc : ls_table (heartbeat_from l ss acc).2 = ls_table l.
Proof.
  revert acc l. induction ss as [|s ss IH]; intros acc l; [done|]. rewrite heartbeat_from_cons, IH. done.
Qed.

Lemma heartbeat_tick_table l eff l' : heartbeat_tick env l = (eff, l') -> ls_table l' = ls_table l.
Proof.
  intros H. rewrite <- (heartbeat_from_table l (TableSnapshot (ls_table l)) []).
  change (heartbeat_from l (TableSnapshot (ls_table l)) []) with (heartbeat_tick env l). by rewrite H.
Qed.

Lemma u32_step a i : u32 (u32 (a + 1) + 1 + i) = u32 (a + 1 + (1 + i)).
Proof. unfold u32. by rewrite <- Z.add_assoc, Zplus_mod_idemp_l. Qed.

Lemma heartbeat_from_effects l ss acc :
  exists effs, (heartbeat_from l ss acc).1 = acc ++ concat effs /\ length effs = length ss
  /\ forall i s, ss !! i = Some s ->
     effs !! i = Some (replyAnyConnect env (ls_table l) s pktDPDOut
                        (dpd_payload (u32 (ls_dpdSeq l + 1 + Z.of_nat i)))).2.
Proof.
  revert acc l. induction ss as [|s ss IH]; intros acc l.
  { exists []. by rewrite app_nil_r. }
  rewrite heartbeat_from_cons. destruct (IH (acc ++ (heartbeat_one env l s).1) (heartbeat_one env l s).2)
    as (effs & -> & Hlen & Heach).
  exists ((heartbeat_one env l s).1 :: effs). cbn [concat length]. rewrite <- app_assoc. split_and!; [done|by f_equal|].
  intros [|i] s' Hs'; rewrite lookup_cons in *.
  - injection Hs' as <-. cbn [Z.of_nat]. by rewrite Z.add_0_r.
  - rewrite (Heach i s' Hs'). cbn [heartbeat_one snd ls_table ls_dpdSeq].
    rewrite u32_step. do 6 f_equal. lia.
Qed.

Lemma heartbeat_tick_effects l eff l' :
  heartbeat_tick env l = (eff, l') ->
  exists effs, eff = concat effs /\ length effs = length (TableSnapshot (ls_table l))
  /\ forall i s, TableSnapshot (ls_table l) !! i = Some s ->
     effs !! i = Some (replyAnyConnect env (ls_table l) s pktDPDOut
                        (dpd_payload (u32 (ls_dpdSeq l + 1 + Z.of_nat i)))).2.
Proof.
  intros H. destruct (heartbeat_from_effects l (TableSnapshot (ls_table l)) []) as (effs & He & Hr).
  change (heartbeat_from l (TableSnapshot (ls_table l)) []) with (heartbeat_tick env l) in He.
  rewrite H in He. by exists effs.
Qed.

Lemma dpd_payload_ok seq : bytes_ok (dpd_payload seq).
Proof. repeat (constructor; [apply u8_byte|]). decide_closed. Qed.

Lemma snapshot_in t s : s ∈ TableSnapshot t <-> exists k, tb_sessions t !! k = Some s.
Proof.
  unfold TableSnapshot. rewrite list_elem_of_fmap. split.
  - intros ([k s'] & -> & H). apply elem_of_map_to_list in H. eauto.
  - intros (k & H). exists (k, s). split; [done|]. by apply elem_of_map_to_list.
Qed.

Lemma snapshot_nodup t adm tr : table_inv t adm tr -> NoDup (TableSnapshot t).
Proof.
  intros I. apply NoDup_fmap_2_strong; [|apply NoDup_map_to_list].
  intros [k1 s1] [k2 s2] H1 H2. simpl. intros <-. apply elem_of_map_to_list in H1, H2.
  f_equal. by eapply live_unique.
Qed.

(** The handler and the heartbeat are made of the atomic steps: what one
    call of [handle] on a dispatched datagram, or one heartbeat tick, does is
    what some sequence of steps does, with the same effects in the same order.
    So everything above holds of a listener driven by them. *)
Theorem handlers_are_steps l raw now f peer err eff l'
  (Hraw : bytes_ok raw) (Hd : dispatchable dtls_spec raw f) (Hr : resolver_wf (ls_resolver l)) :
  (handle env l now f peer = (err, eff, l') ->
     dtls_steps env l eff l' /\ resolver_wf (ls_resolver l'))
  /\ (heartbeat_tick env l = (eff, l') -> dtls_steps env l eff l').
Proof. split; [intros H; by eapply handle_steps|apply heartbeat_tick_steps]. Qed.

(** A heartbeat tick probes every session of the table once: in the order
    of the snapshot, each gets its own DPD request, whose body is the counter,
    counted on by one for each session and wrapped at 32 bits, followed by a
    fixed tag; the table stays as it is. *)
Theorem heartbeat_probes_all idle r l tr eff l'
  (Hrun : dtls_steps env (start idle r) tr l) (Htick : heartbeat_tick env l = (eff, l')) :
  (forall s, s ∈ TableSnapshot (ls_table l) <-> (s < tb_next (ls_table l))%nat /\ s ∉ evicts tr)
  /\ NoDup (TableSnapshot (ls_table l))
  /\ ls_table l' = ls_table l
  /\ exists effs, eff = concat effs /\ length effs = Len (ls_table l)
     /\ forall i s, TableSnapshot (ls_table l) !! i = Some s ->
          exists ss e ef, live_at (ls_table l) s ss /\ effs !! i = Some ef
          /\ sends ss pktDPDOut (dpd_payload (u32 (ls_dpdSeq l + 1 + Z.of_nat i))) e ef.
Proof.
  pose proof (run_inv _ _ _ _ Hrun) as I.
  assert (Hsnap : forall s, s ∈ TableSnapshot (ls_table l) <-> exists k, tb_sessions (ls_table l) !! k = Some s)
    by (intros s; apply snapshot_in).
  assert (Hnd : NoDup (TableSnapshot (ls_table l))) by (by eapply snapshot_nodup).
  split_and!; [|done|by eapply heartbeat_tick_table|].
  { intros s. by rewrite Hsnap, (in_table_iff _ _ _ _ I). }
  destruct (heartbeat_tick_effects _ _ _ Htick) as (effs & -> & Hlen & Heach). exists effs. split; [done|]. split.
  { rewrite Hlen. unfold TableSnapshot, Len. rewrite length_map. apply length_map_to_list. }
  intros i s Hi.
  assert (Hl : exists ss, live_at (ls_table l) s ss).
  { destruct (proj1 (Hsnap s)) as [k Hk]; [by eapply list_elem_of_lookup_2|].
    apply (ti_live _ _ _ I) in Hk as (ss & ? & _). eauto. }
  destruct Hl as [ss Hl]. exists ss, (replyAnyConnect env (ls_table l) s pktDPDOut (dpd_payload (u32 (ls_dpdSeq l + 1 + Z.of_nat i)))).1.
  eexists. split; [done|]. split; [by apply Heach|]. eapply replyAnyConnect_live; [done..|decide_closed|].
  apply dpd_payload_ok.
Qed.
End runs.

(** * Witnesses *)

(** A listener over the TPM resolver that takes one data packet from a device
    of the pool. *)
Definition opening_records : list TLV :=
  map (fun t => if tlv_type t =? EraTLVMTLSSubjectDN then mkTLV EraTLVMTLSSubjectDN (bs "CN=" ++ dev_id) else t)
    dtls_records.
Definition opening : DGramFrame := mkDGramFrame SpecVersionStage1 0 dtls_inner opening_records [0; 1; 2].
Definition env_sample : Env := mkEnv true (fun _ _ => None) (fun _ _ => None).
Definition facade : gostring := bs "@facade".
Definition opened : option DtlsErr * list Effect * Listener TPMResolver :=
  handle env_sample (start 0 tpm_sample) 50 opening facade.

Lemma opening_ok : bytes_ok (frame_bytes opening).
Proof. decide_closed. Qed.
Lemma opening_dispatchable : dispatchable dtls_spec (frame_bytes opening) opening.
Proof. split; [|split]; vm_compute; reflexivity. Qed.
Lemma tpm_sample_wf : resolver_wf tpm_sample.
Proof. intros d e He. simpl in He. by rewrite lookup_empty in He. Qed.
Lemma opened_run : dtls_steps env_sample (start 0 tpm_sample) [OnAdmit 0; SinkWrite (Some 0%nat) [1; 2]] opened.2.
Proof.
  assert (He : opened.1.2 = [OnAdmit 0; SinkWrite (Some 0%nat) [1; 2]]) by (vm_compute; reflexivity).
  rewrite <- He. eapply handle_steps; [apply opening_ok|apply opening_dispatchable|apply tpm_sample_wf|].
  unfold opened. by rewrite <- !surjective_pairing.
Qed.
Definition opened_session : Session :=
  match tb_heap (ls_table opened.2) !! 0%nat with Some ss => ss | None => newSession (mkSI (frame_key opening) [] [] AddrNone AddrNone [] [] [] 0) None end.
Lemma opened_live : live_at (ls_table opened.2) 0 opened_session.
Proof. split; [vm_compute; reflexivity|]. vm_compute. discriminate. Qed.

Lemma session_lifecycle_witness :
  exists k, tb_sessions (ls_table opened.2) !! k = Some 0%nat.
Proof.
  destruct (session_lifecycle env_sample 0 tpm_sample _ _ opened_run) as (_ & _ & _ & _ & _ & _ & H).
  assert (Hidle : ls_admitting opened.2 = []) by (vm_compute; reflexivity).
  apply (H Hidle). split; decide_closed.
Defined.

(** The handler of [opening] runs up to the insertion, the listener is closed
    and the handler goes on: the session is announced after its eviction, and
    is in no table. *)
Definition inserted : Listener TPMResolver :=
  match (admission tpm_sample 50 (frame_key opening) opening).1 with
  | Ok id => (insert_session (start 0 tpm_sample) id (opening, facade)).2
  | Err _ => start 0 tpm_sample
  end.
Definition late : Listener TPMResolver := (announce (CloseTable inserted).2 0).2.
Lemma late_admit :
  dtls_steps env_sample (start 0 tpm_sample) [OnEvict 0; OnAdmit 0] late
  /\ tb_sessions (ls_table late) !! frame_key opening = None.
Proof.
  split; [|vm_compute; reflexivity]. change [OnEvict 0; OnAdmit 0] with (([] ++ [OnEvict 0]) ++ [OnAdmit 0]).
  assert (He : CloseTable inserted = ([OnEvict 0], (CloseTable inserted).2)) by (vm_compute; reflexivity).
  eapply steps_snoc; [eapply steps_snoc; [apply steps_one|exact (step_close _ _ _ _ He)]|].
  - unfold inserted. destruct (admission tpm_sample 50 (frame_key opening) opening) as [[id|e] r'] eqn:E.
    + cbn [fst]. eapply step_insert; [apply opening_ok|apply opening_dispatchable|apply tpm_sample_wf|exact E].
    + exfalso. vm_compute in E. discriminate.
  - refine (step_announce env_sample _ 0 _). decide_closed.
Qed.

Lemma session_identity_witness :
  exists raw f, dispatchable dtls_spec raw f /\ ident_wf f (s_ident opened_session).
Proof.
  destruct (session_identity env_sample 0 tpm_sample _ _ [] _ 0 opened_session opened_run (steps_refl _ _)
    (proj1 opened_live)) as (_ & raw & f & Hd & Hi & _).
  exists raw, f. split; [exact Hd|exact Hi].
Defined.

Lemma write_while_live_witness :
  exists ss, live_at (ls_table opened.2) 0 ss
    /\ sends ss pktData [69; 0] None (WritePacket env_sample (ls_table opened.2) 0 [69; 0]).2.
Proof.
  assert (Hp : bytes_ok [69; 0]) by decide_closed.
  destruct (write_while_live env_sample 0 tpm_sample _ _ 0 [69; 0] opened_run Hp) as [H _].
  destruct H as (ss & Hl & H); [decide_closed|decide_closed|].
  exists ss. split; [exact Hl|].
  destruct (WritePacket env_sample (ls_table opened.2) 0 [69; 0]) as [[n|e] eff] eqn:E.
  - exact (proj2 H).
  - exfalso. vm_compute in E. discriminate.
Defined.

Lemma dispatched_admission_witness :
  exists id r', admission tpm_sample 50 (frame_key opening) opening = (Ok id, r') /\ ident_wf opening id.
Proof.
  destruct (admission tpm_sample 50 (frame_key opening) opening) as [res r'] eqn:E.
  pose proof (dispatched_admission tpm_sample r' 50 _ opening res opening_dispatchable tpm_sample_wf E) as H.
  destruct H as (dn & Hdn & H).
  destruct res as [id|e]; [exists id, r'; split; [reflexivity|exact (proj1 H)]|].
  exfalso. vm_compute in E. discriminate.
Defined.

Lemma eviction_pass_exact_witness :
  exists eff l', RunEvictionPass opened.2 (50 + 300 * 1000000000 + 1) = (eff, l') /\ 0%nat ∈ evicts eff
    /\ tb_sessions (ls_table l') !! frame_key opening = None.
Proof.
  destruct (RunEvictionPass opened.2 (50 + 300 * 1000000000 + 1)) as [eff l'] eqn:E.
  destruct (eviction_pass_exact env_sample 0 tpm_sample _ _ _ _ _ opened_run E) as (_ & _ & _ & H).
  destruct (H (frame_key opening) 0%nat) as (ss & Hs & Hc); [vm_compute; reflexivity|].
  rewrite (proj1 opened_live) in Hs. injection Hs as <-.
  change (50 + 300 * 1000000000 + 1 - s_lastSeen opened_session <=? (if 0 <=? 0 then 300 * 1000000000 else 0))
    with (50 + 300 * 1000000000 + 1 - s_lastSeen opened_session <=? 300 * 1000000000) in Hc.
  assert (Hn : (50 + 300 * 1000000000 + 1 - s_lastSeen opened_session <=? 300 * 1000000000) = false)
    by (vm_compute; reflexivity).
  rewrite Hn in Hc. exists eff, l'. split; [reflexivity|]. split; [exact (proj1 (proj2 Hc))|exact (proj1 Hc)].
Defined.

Lemma forwardPacket_by_type_witness :
  exists err eff t, forwardPacket env_sample (ls_table opened.2) 0 (pktDPDOut :: [9; 9]) = (err, eff, t)
    /\ sends opened_session pktDPDResp [9; 9] err eff.
Proof.
  destruct (forwardPacket env_sample (ls_table opened.2) 0 (pktDPDOut :: [9; 9])) as [[err eff] t] eqn:E.
  assert (Hb : bytes_ok [9; 9]) by decide_closed.
  destruct (forwardPacket_by_type env_sample 0 tpm_sample _ _ _ _ _ _ _ _ _ opened_run opened_live Hb E)
    as (_ & H & _).
  exists err, eff, t. split; [reflexivity|]. exact (proj2 (H eq_refl)).
Defined.

Lemma handlers_are_steps_witness :
  dtls_steps env_sample (start 0 tpm_sample) opened.1.2 opened.2.
Proof.
  destruct (handlers_are_steps env_sample (start 0 tpm_sample) _ 50 opening facade opened.1.1 opened.1.2 opened.2
    opening_ok opening_dispatchable tpm_sample_wf) as [H _].
  apply H. unfold opened. rewrite <- !surjective_pairing. reflexivity.
Defined.

Lemma heartbeat_probes_all_witness :
  exists eff l' effs, heartbeat_tick env_sample opened.2 = (eff, l') /\ eff = concat effs /\ length effs = 1%nat.
Proof.
  destruct (heartbeat_tick env_sample opened.2) as [eff l'] eqn:E.
  destruct (heartbeat_probes_all env_sample 0 tpm_sample _ _ _ _ opened_run E) as (_ & _ & _ & effs & H1 & H2 & _).
  exists eff, l', effs. split; [reflexivity|]. split; [exact H1|]. rewrite H2. vm_compute. reflexivity.
Defined.
