(* ===== verification/CstpFrame.v ===== *)
(** [internal/cstp/frame.go]: the 8-byte CSTP frame header, its writer and its
    reader. [readFrame] reads from a [Reader] into a header scratch and a
    buffer given by their lengths; its payload result is the filled prefix of
    the buffer. *)

From S2P Require Import Prelude.

Definition pktData : byte := 0.
Definition pktDPDOut : byte := 3.
Definition pktDPDResp : byte := 4.
Definition pktDisconnect : byte := 5.
Definition pktKeepalive : byte := 7.
Definition pktCompressed : byte := 8.
Definition pktTermServer : byte := 9.

Definition frameHeaderLen : nat := 8.
Definition maxFramePayload : Z := 0xFFFF.
Definition frameMagic : bytes := [83; 84; 70; 1].

Inductive CstpFrameErr : Type :=
| errBadMagic
| errFrameTooLarge
| ErrShortBuffer (typ : byte)   (* the type returned beside the error *)
| ErrIO (e : IOErr).
#[export] Instance CstpFrameErr_eq_dec : EqDecision CstpFrameErr.
Proof. solve_decision. Defined.

(** [encodeFrame]: the number of bytes written and [dst] afterwards. *)
Definition encodeFrame (dst : bytes) (typ : byte) (payload : bytes) : result CstpFrameErr (nat * bytes) :=
  if maxFramePayload <? Z.of_nat (length payload) then Err errFrameTooLarge
  else if (length dst <? frameHeaderLen + length payload)%nat then Err (ErrShortBuffer 0)
  else
    let n := (frameHeaderLen + length payload)%nat in
    Ok (n, frameMagic ++ put16 (u16 (Z.of_nat (length payload))) ++ [typ; 0] ++ payload ++ drop n dst).

(** [readFrame]: the type, the payload and the rest of the stream. *)
Definition readFrame (r : Reader) (hdrLen bufLen : nat) : result CstpFrameErr (byte * bytes * Reader) :=
  if (hdrLen <? frameHeaderLen)%nat then Err (ErrShortBuffer 0)
  else
    match read_full r frameHeaderLen with
    | Err e => Err (ErrIO e)
    | Ok (hdr, r) =>
      if negb (byte_at hdr 0 =? byte_at frameMagic 0) || negb (byte_at hdr 1 =? byte_at frameMagic 1)
         || negb (byte_at hdr 2 =? byte_at frameMagic 2) || negb (byte_at hdr 3 =? byte_at frameMagic 3)
      then Err errBadMagic
      else
        let plen := Z.to_nat (be16 (slice hdr 4 6)) in
        let typ := byte_at hdr 6 in
        if (plen =? 0)%nat then Ok (typ, [], r)
        else if (bufLen <? plen)%nat then Err (ErrShortBuffer typ)
        else
          match read_full r plen with
          | Err e => Err (ErrIO e)
          | Ok (payload, r) => Ok (typ, payload, r)
          end
    end.

(** Reading until the stream or its frames end: the frames, and the error the
    last read stopped at. At most [fuel] frames. *)
Fixpoint readFrames (fuel : nat) (r : Reader) (bufLen : nat) : list (byte * bytes) * option CstpFrameErr :=
  match fuel with
  | O => ([], None)
  | S n =>
    match readFrame r frameHeaderLen bufLen with
    | Err e => ([], Some e)
    | Ok (typ, p, r) => let '(fs, e) := readFrames n r bufLen in ((typ, p) :: fs, e)
    end
  end.

(** * The format *)

(** The image of a frame; the reader ignores its last header byte. *)
Definition frame_image (z typ : byte) (p : bytes) : bytes :=
  frameMagic ++ put16 (Z.of_nat (length p)) ++ [typ; z] ++ p.
Definition payload_ok (p : bytes) : Prop := Z.of_nat (length p) <= maxFramePayload.
#[export] Instance payload_ok_dec p : Decision (payload_ok p).
Proof. unfold payload_ok. apply _. Defined.

Lemma readFrame_complete z typ p rest e hdrLen bufLen :
  payload_ok p -> (length p <= bufLen)%nat -> (frameHeaderLen <= hdrLen)%nat ->
  readFrame (mkReader (frame_image z typ p ++ rest) e) hdrLen bufLen = Ok (typ, p, mkReader rest e).
Proof.
  intros Hp Hb Hh. unfold readFrame. destruct (hdrLen <? frameHeaderLen)%nat eqn:E; simpl_bool; [lia|].
  unfold frame_image.
  replace ((frameMagic ++ put16 (Z.of_nat (length p)) ++ [typ; z] ++ p) ++ rest)
    with ((frameMagic ++ put16 (Z.of_nat (length p)) ++ [typ; z]) ++ p ++ rest) by by rewrite <- !app_assoc.
  rewrite (read_full_at _ _ e frameHeaderLen) by done.
  change (slice (frameMagic ++ put16 (Z.of_nat (length p)) ++ [typ; z]) 4 6)
    with (put16 (Z.of_nat (length p)) ++ []).
  unfold payload_ok, maxFramePayload in Hp. rewrite be16_put16 by lia. rewrite Nat2Z.id.
  cbn [byte_at frameMagic app nth negb orb Z.eqb Pos.eqb].
  change (byte_at (83 :: 84 :: 70 :: 1 :: put16 (Z.of_nat (length p)) ++ [typ; z]) 6) with typ.
  destruct p as [|b p]; [done|]. cbn [length Nat.eqb].
  destruct (bufLen <? S (length p))%nat eqn:E2; simpl_bool; [simpl in Hb; lia|].
  by rewrite (read_full_at (b :: p) rest e).
Qed.

Lemma length8 (l : bytes) :
  length l = 8%nat -> exists a b c d f g h i, l = [a; b; c; d; f; g; h; i].
Proof.
  intros H. do 8 (destruct l as [|? l]; [done|]). destruct l; [|done]. by eauto 10.
Qed.

Lemma readFrame_sound data e bufLen typ p r :
  bytes_ok data -> readFrame (mkReader data e) frameHeaderLen bufLen = Ok (typ, p, r) ->
  payload_ok p /\ (length p <= bufLen)%nat
  /\ exists z, data = frame_image z typ p ++ rd_data r /\ rd_err r = e.
Proof.
  intros Hok H. unfold readFrame in H.
  change (frameHeaderLen <? frameHeaderLen)%nat with false in H. cbv iota in H.
  destruct (read_full _ frameHeaderLen) as [[hdr r1]|] eqn:E1; [|done].
  apply read_full_ok in E1 as (Hlen & Hdata & Herr). cbn [rd_data rd_err] in *.
  destruct (length8 hdr Hlen) as (m0 & m1 & m2 & m3 & l0 & l1 & ty & z & ->).
  destruct (_ || _)%bool eqn:Em in H; [done|].
  rewrite !orb_false_iff, !negb_false_iff, !Z.eqb_eq in Em. cbn in Em. destruct Em as [[[-> ->] ->] ->].
  change (slice [83; 84; 70; 1; l0; l1; ty; z] 4 6) with [l0; l1] in H.
  change (byte_at [83; 84; 70; 1; l0; l1; ty; z] 6) with ty in H.
  assert (Hl : bytes_ok [l0; l1]).
  { subst data. apply bytes_ok_app in Hok as [Hok _]. by apply (bytes_ok_slice _ 4 6) in Hok. }
  pose proof (be16_bound _ Hl) as Hb.
  assert (Hput : put16 (be16 [l0; l1]) = [l0; l1]) by (by apply put16_be16).
  assert (Hdone : forall q r', read_full r1 (Z.to_nat (be16 [l0; l1])) = Ok (q, r') ->
    payload_ok q /\ data = frame_image z ty q ++ rd_data r' /\ rd_err r' = e).
  { intros q r' (Hq & Hd & He)%read_full_ok.
    assert (Hq' : Z.of_nat (length q) = be16 [l0; l1]) by lia.
    split_and!; [unfold payload_ok, maxFramePayload; lia| |congruence].
    unfold frame_image. rewrite Hq', Hput, Hdata, Hd. by rewrite <- !app_assoc. }
  destruct (Z.to_nat (be16 [l0; l1]) =? 0)%nat eqn:E0; simpl_bool.
  - injection H as <- <- <-. destruct (Hdone [] r1) as (? & ? & ?).
    + rewrite E0. unfold read_full. cbn. by destruct r1.
    + split_and!; [done|simpl; lia|eauto].
  - destruct (bufLen <? _)%nat eqn:E2; [done|]. simpl_bool.
    destruct (read_full r1 _) as [[q r']|] eqn:E3; [|done]. injection H as <- <- <-.
    destruct (Hdone q r' eq_refl) as (? & ? & ?). apply read_full_ok in E3 as (Hq & _).
    split_and!; [done|lia|eauto].
Qed.

(** The CSTP frame format: the reader returns a type, a payload and the
    rest of the stream exactly when the payload is within 65535 bytes and the
    buffer, and the stream is the frame's image, magic, big-endian length,
    type, one ignored byte and payload, followed by that rest. *)
Theorem readFrame_iff data e bufLen typ p r (Hok : bytes_ok data) :
  readFrame (mkReader data e) frameHeaderLen bufLen = Ok (typ, p, r)
  <-> payload_ok p /\ (length p <= bufLen)%nat
      /\ exists z, data = frame_image z typ p ++ rd_data r /\ rd_err r = e.
Proof.
  split; [by apply readFrame_sound|]. intros (Hp & Hb & z & -> & <-). destruct r.
  by apply readFrame_complete.
Qed.

Lemma encodeFrame_spec dst typ p :
  encodeFrame dst typ p =
  if decide (~ payload_ok p) then Err errFrameTooLarge
  else if decide (length dst < frameHeaderLen + length p)%nat then Err (ErrShortBuffer 0)
  else Ok ((frameHeaderLen + length p)%nat,
           frame_image 0 typ p ++ drop (frameHeaderLen + length p) dst).
Proof.
  unfold encodeFrame, payload_ok. destruct (maxFramePayload <? _) eqn:E; simpl_bool.
  { by rewrite decide_True by lia. }
  rewrite decide_False by lia. destruct (length dst <? _)%nat eqn:E2; simpl_bool.
  { by rewrite decide_True by lia. }
  rewrite decide_False by lia. unfold maxFramePayload in E. unfold u16. rewrite Z.mod_small by lia.
  unfold frame_image. by rewrite <- !app_assoc.
Qed.

Lemma length_frame_image z typ p : length (frame_image z typ p) = (frameHeaderLen + length p)%nat.
Proof. unfold frame_image. rewrite !length_app, length_put16. simpl. lia. Qed.

(** What one call of the writer puts on the wire. *)
Definition wire (dst : bytes) (f : byte * bytes) : bytes :=
  match encodeFrame dst f.1 f.2 with Ok (n, out) => take n out | Err _ => [] end.
Definition sendable (dst : bytes) (bufLen : nat) (f : byte * bytes) : Prop :=
  payload_ok f.2 /\ (frameHeaderLen + length f.2 <= length dst)%nat /\ (length f.2 <= bufLen)%nat.
#[export] Instance sendable_dec dst bufLen f : Decision (sendable dst bufLen f).
Proof. unfold sendable. apply _. Defined.

Lemma wire_image dst bufLen f : sendable dst bufLen f -> wire dst f = frame_image 0 f.1 f.2.
Proof.
  intros (Hp & Hd & _). unfold wire. rewrite encodeFrame_spec, decide_False by tauto.
  rewrite decide_False by lia. rewrite <- (length_frame_image 0 f.1). apply take_app_length.
Qed.

Lemma readFrames_wire fs dst bufLen tail e fuel :
  Forall (sendable dst bufLen) fs ->
  readFrames (length fs + fuel) (mkReader (concat (map (wire dst) fs) ++ tail) e) bufLen
  = (fs ++ (readFrames fuel (mkReader tail e) bufLen).1, (readFrames fuel (mkReader tail e) bufLen).2).
Proof.
  induction 1 as [|[typ p] fs Hf _ IH]; cbn [length Nat.add map concat app].
  - by destruct (readFrames fuel _ _).
  - cbn [readFrames]. rewrite (wire_image _ _ _ Hf), <- app_assoc. destruct Hf as (Hp & _ & Hb).
    rewrite readFrame_complete by done. by rewrite IH.
Qed.

(** The writer's frames come back from a byte stream: whatever frames are
    encoded one after another into a buffer they fit, and whatever the cut tail
    after them, reading yields those frames, in order and complete, then stops
    at the tail, with the stream's own end when the tail is empty and otherwise
    as an incomplete frame. *)
Theorem readFrames_encodeFrame fs dst bufLen tail e fuel
  (Hfs : Forall (sendable dst bufLen) fs) (Htail : (length tail < frameHeaderLen)%nat)
  (Hfuel : (length fs < fuel)%nat) :
  readFrames fuel (mkReader (concat (map (wire dst) fs) ++ tail) e) bufLen
  = (fs, Some (ErrIO (if decide (tail <> [] /\ e = EOF) then ErrUnexpectedEOF else e))).
Proof.
  replace fuel with (length fs + S (fuel - length fs - 1))%nat by lia.
  rewrite readFrames_wire by done.
  assert (Hend : readFrame (mkReader tail e) frameHeaderLen bufLen
    = Err (ErrIO (if decide (tail <> [] /\ e = EOF) then ErrUnexpectedEOF else e))).
  { unfold readFrame.
    change (frameHeaderLen <? frameHeaderLen)%nat with false. cbv iota. unfold read_full, frameHeaderLen. cbn [rd_data rd_err].
    unfold frameHeaderLen in Htail. destruct (8 <=? length tail)%nat eqn:E; simpl_bool; [lia|].
    destruct tail, e; try done; case_decide as Hd; try done; try (by destruct Hd); by destruct Hd. }
  cbn [readFrames]. rewrite Hend. by rewrite app_nil_r.
Qed.

(** * Witnesses *)

Definition frames_sample : list (byte * bytes) := [(pktData, [69; 0; 1]); (pktDPDOut, []); (pktDisconnect, [0])].

Lemma readFrame_iff_witness :
  readFrame (mkReader (frame_image 7 pktData [1; 2] ++ [9]) EOF) frameHeaderLen 4
  = Ok (pktData, [1; 2], mkReader [9] EOF).
Proof.
  assert (H : bytes_ok (frame_image 7 pktData [1; 2] ++ [9])) by decide_closed.
  apply (readFrame_iff _ _ _ _ _ _ H). split; [decide_closed|]. split; [decide_closed|].
  exists 7. split; reflexivity.
Defined.

Lemma readFrames_encodeFrame_witness :
  readFrames 10 (mkReader (concat (map (wire (repeat 0 11)) frames_sample) ++ [83; 84]) EOF) 3
  = (frames_sample, Some (ErrIO ErrUnexpectedEOF)).
Proof.
  rewrite (readFrames_encodeFrame frames_sample (repeat 0 11) 3 [83; 84] EOF 10).
  - reflexivity.
  - decide_closed.
  - decide_closed.
  - decide_closed.
Defined.
