(* ===== verification/CstpSessions.v ===== *)
(** [internal/cstp/cookie.go]: the CSTP session table. The two indexes share
    session rows, so a row is a number into a heap; [promote] looks the row up,
    draws the token outside the lock and writes the row in a second critical
    section, which is a step of its own here. Randomness is an argument, [None]
    a failing reader. *)

From S2P Require Import Prelude.

(** * Encodings of the random bytes *)

Definition hex_char (n : Z) : byte := if n <? 10 then 48 + n else 97 + (n - 10).
(** [hex.EncodeToString] *)
Definition hexEncode (b : bytes) : gostring :=
  concat (map (fun c => [hex_char (Z.shiftr c 4); hex_char (Z.land c 15)]) b).

Definition b64url_char (n : Z) : byte :=
  if n <? 26 then 65 + n
  else if n <? 52 then 97 + (n - 26)
  else if n <? 62 then 48 + (n - 52)
  else if n =? 62 then 45 else 95.
(** [base64.RawURLEncoding.EncodeToString] *)
Fixpoint b64url (b : bytes) : gostring :=
  match b with
  | [] => []
  | [x] => [b64url_char (Z.shiftr x 2); b64url_char (Z.land (Z.shiftl x 4) 63)]
  | [x; y] =>
    [b64url_char (Z.shiftr x 2); b64url_char (Z.land (Z.lor (Z.shiftl x 4) (Z.shiftr y 4)) 63);
     b64url_char (Z.land (Z.shiftl y 2) 63)]
  | x :: y :: z :: r =>
    b64url_char (Z.shiftr x 2) :: b64url_char (Z.land (Z.lor (Z.shiftl x 4) (Z.shiftr y 4)) 63)
    :: b64url_char (Z.land (Z.lor (Z.shiftl y 2) (Z.shiftr z 6)) 63) :: b64url_char (Z.land z 63)
    :: b64url r
  end.

(** The bytes a random reader gives for a buffer of a size. *)
Definition RandRead : Type := nat -> option bytes.
Definition randHex (rd : RandRead) (n : nat) : option gostring := hexEncode <$> rd n.
Definition randURLSafe (rd : RandRead) (n : nat) : option gostring := b64url <$> rd n.

(** * The table *)

Record session := mkSession {
  cs_token : gostring;
  cs_opaqueID : gostring;
  cs_username : gostring;
  cs_deviceID : gostring;
  cs_createdAt : Z;
  cs_expiresAt : Z
}.
Record sessionTable := mkST {
  st_heap : gmap nat session;
  st_next : nat;
  st_byOpaque : gmap (list Z) nat;
  st_byToken : gmap (list Z) nat;
  st_ttl : Z
}.
Definition newSessionTable (ttl : Z) : sessionTable := mkST ∅ 0 ∅ ∅ ttl.

Definition set_row (t : sessionTable) (s : nat) (f : session -> session) : sessionTable :=
  mkST (alter f s (st_heap t)) (st_next t) (st_byOpaque t) (st_byToken t) (st_ttl t).

Definition newOpaque (t : sessionTable) (now : Z) (rd : RandRead) : option nat * sessionTable :=
  match randHex rd 8 with
  | None => (None, t)
  | Some id =>
    let s := st_next t in
    (Some s,
     mkST (<[s := mkSession [] id [] [] now (now + st_ttl t)]> (st_heap t)) (S s)
       (<[id := s]> (st_byOpaque t)) (st_byToken t) (st_ttl t))
  end.

Inductive PromoteErr : Type := errUnknownOpaque | ErrRand.

(** The second critical section of [promote]. *)
Definition promote_commit (t : sessionTable) (now : Z) (s : nat) (username deviceID tok : gostring) : sessionTable :=
  let t := set_row t s (fun r =>
    mkSession tok (cs_opaqueID r) username deviceID (cs_createdAt r) (now + st_ttl t)) in
  mkST (st_heap t) (st_next t) (st_byOpaque t) (<[tok := s]> (st_byToken t)) (st_ttl t).
Definition promote (t : sessionTable) (now : Z) (opaqueID username deviceID : gostring) (rd : RandRead)
  : result PromoteErr nat * sessionTable :=
  match st_byOpaque t !! opaqueID with
  | None => (Err errUnknownOpaque, t)
  | Some s =>
    match randURLSafe rd 32 with
    | None => (Err ErrRand, t)
    | Some tok => (Ok s, promote_commit t now s username deviceID tok)
    end
  end.

Definition expired (t : sessionTable) (now : Z) (s : nat) : bool :=
  match st_heap t !! s with Some r => cs_expiresAt r <? now | None => false end.

Definition deleteLocked (t : sessionTable) (s : nat) : sessionTable :=
  match st_heap t !! s with
  | None => t
  | Some r =>
    mkST (st_heap t) (st_next t)
      (if bool_decide (cs_opaqueID r = []) then st_byOpaque t else delete (cs_opaqueID r) (st_byOpaque t))
      (if bool_decide (cs_token r = []) then st_byToken t else delete (cs_token r) (st_byToken t))
      (st_ttl t)
  end.

Definition stashUsername (t : sessionTable) (now : Z) (opaqueID username : gostring) : bool * sessionTable :=
  match st_byOpaque t !! opaqueID with
  | None => (false, t)
  | Some s =>
    if expired t now s then (false, t)
    else (true, set_row t s (fun r =>
      mkSession (cs_token r) (cs_opaqueID r) username (cs_deviceID r) (cs_createdAt r) (cs_expiresAt r)))
  end.

Definition lookupOpaque (t : sessionTable) (now : Z) (opaqueID : gostring) : option nat * sessionTable :=
  match st_byOpaque t !! opaqueID with
  | None => (None, t)
  | Some s => if expired t now s then (None, deleteLocked t s) else (Some s, t)
  end.

(** The rows that [lookupToken]'s loop stops at, whichever comes first in the
    iteration over [byToken]. *)
Definition token_matches (t : sessionTable) (tok : gostring) (e : list Z * nat) : bool :=
  match st_heap t !! e.2 with Some r => bool_decide (cs_token r = tok) | None => false end.
(** [lookupToken] for an order of the map. *)
Definition lookupToken_in (order : list (list Z * nat)) (t : sessionTable) (now : Z) (tok : gostring)
  : option nat * sessionTable :=
  if bool_decide (tok = []) then (None, t)
  else
    match List.find (token_matches t tok) order with
    | None => (None, t)
    | Some (_, s) => if expired t now s then (None, deleteLocked t s) else (Some s, t)
    end.
Definition lookupToken (t : sessionTable) (now : Z) (tok : gostring) : option nat * sessionTable :=
  lookupToken_in (map_to_list (st_byToken t)) t now tok.

Definition consume (t : sessionTable) (s : nat) : sessionTable := deleteLocked t s.
Definition touch (t : sessionTable) (s : option nat) (now : Z) : sessionTable :=
  match s with
  | None => t
  | Some s => set_row t s (fun r =>
      mkSession (cs_token r) (cs_opaqueID r) (cs_username r) (cs_deviceID r) (cs_createdAt r) (now + st_ttl t))
  end.

(** * Runs *)

(** A promotion: the row, its device and its token. *)
Record Promo := mkPromo { pr_row : nat; pr_device : gostring; pr_token : gostring }.

(** The steps of the table, with the promotions so far, newest first. A token
    drawn is not empty and was not drawn before; the row promoted may have
    left the indexes since it was looked up. *)
Inductive sess_run (ttl : Z) : sessionTable -> list Promo -> Prop :=
| sr_new : sess_run ttl (newSessionTable ttl) []
| sr_opaque t ps now rd : sess_run ttl t ps -> sess_run ttl (newOpaque t now rd).2 ps
| sr_promote t ps now s user dev tok :
    sess_run ttl t ps -> is_Some (st_heap t !! s) -> tok <> [] -> tok ∉ map pr_token ps ->
    sess_run ttl (promote_commit t now s user dev tok) (mkPromo s dev tok :: ps)
| sr_stash t ps now id user : sess_run ttl t ps -> sess_run ttl (stashUsername t now id user).2 ps
| sr_lookup_opaque t ps now id : sess_run ttl t ps -> sess_run ttl (lookupOpaque t now id).2 ps
| sr_lookup_token t ps now order tok :
    sess_run ttl t ps -> order ≡ₚ map_to_list (st_byToken t) ->
    sess_run ttl (lookupToken_in order t now tok).2 ps
| sr_consume t ps s : sess_run ttl t ps -> sess_run ttl (consume t s) ps
| sr_touch t ps s now : sess_run ttl t ps -> sess_run ttl (touch t s now) ps.

Definition last_promo (ps : list Promo) (s : nat) : option Promo :=
  List.find (fun p => (pr_row p =? s)%nat) ps.

(** Every row carries the token and device of its last promotion; the token
    index holds promoted rows; tokens are not shared. *)
Record sess_inv (t : sessionTable) (ps : list Promo) : Prop := {
  si_next : forall s, is_Some (st_heap t !! s) -> (s < st_next t)%nat;
  si_row : forall s r, st_heap t !! s = Some r ->
    match last_promo ps s with
    | Some p => cs_token r = pr_token p /\ cs_deviceID r = pr_device p
    | None => cs_token r = []
    end;
  si_index : forall tok s, st_byToken t !! tok = Some s -> is_Some (st_heap t !! s) /\ is_Some (last_promo ps s);
  si_opaque : forall id s, st_byOpaque t !! id = Some s -> is_Some (st_heap t !! s);
  si_ps : NoDup (map pr_token ps) /\ Forall (fun p => pr_token p <> []) ps
          /\ Forall (fun p => is_Some (st_heap t !! pr_row p)) ps
}.

(** * Invariant *)

Lemma last_promo_in ps s p : last_promo ps s = Some p -> p ∈ ps /\ pr_row p = s.
Proof. intros [Hin Hr]%List.find_some. split; [by apply list_elem_of_In|]. by apply Nat.eqb_eq. Qed.

Lemma last_promo_None ps s : last_promo ps s = None -> forall p, p ∈ ps -> pr_row p <> s.
Proof.
  intros H p Hp. apply list_elem_of_In in Hp. apply (List.find_none _ _ H) in Hp. by apply Nat.eqb_neq.
Qed.

(** Rows that agree on token and device. *)
Definition same_cred (r r' : session) : Prop := cs_token r' = cs_token r /\ cs_deviceID r' = cs_deviceID r.

Lemma sess_inv_keep t t' ps :
  sess_inv t ps -> st_next t' = st_next t ->
  (forall s, option_Forall2 same_cred (st_heap t !! s) (st_heap t' !! s)) ->
  st_byToken t' ⊆ st_byToken t -> st_byOpaque t' ⊆ st_byOpaque t -> sess_inv t' ps.
Proof.
  intros [H1 H2 H3 Ho (H4 & H5 & H6)] Hn Hh Hb Hbo.
  assert (Hdom : forall s, is_Some (st_heap t' !! s) <-> is_Some (st_heap t !! s)).
  { intros s. destruct (Hh s) as [r r' ?|]; split; intros [? ?]; eauto; done. }
  split.
  - intros s Hs. rewrite Hn. by apply H1, Hdom.
  - intros s r' Hs. pose proof (Hh s) as Hs2. rewrite Hs in Hs2.
    inversion Hs2 as [r r2 [Ht Hd] Hr E|]; subst. specialize (H2 s r (eq_sym Hr)).
    rewrite Ht, Hd. done.
  - intros tok s Hs. destruct (H3 tok s) as [? ?]; [by eapply lookup_weaken|]. split; [by apply Hdom|done].
  - intros id s Hs. apply Hdom, (Ho id). by eapply lookup_weaken.
  - split_and!; [done..|]. eapply Forall_impl; [exact H6|]. intros p Hp. by apply Hdom.
Qed.

Lemma same_cred_refl (o : option session) : option_Forall2 same_cred o o.
Proof. destruct o; constructor. done. Qed.

Lemma set_row_cred t s f :
  (forall r, same_cred r (f r)) ->
  forall s', option_Forall2 same_cred (st_heap t !! s') (st_heap (set_row t s f) !! s').
Proof.
  intros Hf s'. unfold set_row. simpl. destruct (decide (s = s')) as [->|Hne].
  - rewrite lookup_alter_eq. destruct (st_heap t !! s'); constructor. apply Hf.
  - rewrite lookup_alter_ne by done. apply same_cred_refl.
Qed.

Lemma set_row_inv t ps s f : (forall r, same_cred r (f r)) -> sess_inv t ps -> sess_inv (set_row t s f) ps.
Proof. intros Hf I. eapply sess_inv_keep; [done|done|by apply set_row_cred|done|done]. Qed.

Lemma deleteLocked_inv t ps s : sess_inv t ps -> sess_inv (deleteLocked t s) ps.
Proof.
  intros I. unfold deleteLocked. destruct (st_heap t !! s) as [r|]; [|done].
  eapply sess_inv_keep; [done|done|intros s'; apply same_cred_refl| |]; simpl;
    (case_bool_decide; [done|apply delete_subseteq]).
Qed.

Lemma promote_commit_inv t ps now s user dev tok :
  sess_inv t ps -> is_Some (st_heap t !! s) -> tok <> [] -> tok ∉ map pr_token ps ->
  sess_inv (promote_commit t now s user dev tok) (mkPromo s dev tok :: ps).
Proof.
  intros [H1 H2 H3 Ho (H4 & H5 & H6)] Hs Ht Hf. unfold promote_commit, set_row.
  assert (Hlast : forall s', last_promo (mkPromo s dev tok :: ps) s'
    = if (s =? s')%nat then Some (mkPromo s dev tok) else last_promo ps s') by done.
  split; cbn [st_heap st_next st_byToken st_byOpaque].
  - intros s' Hs'. apply lookup_alter_is_Some in Hs'. by apply H1.
  - intros s' r Hr. rewrite Hlast. destruct (Nat.eqb_spec s s') as [->|Hne].
    + rewrite lookup_alter_eq in Hr. apply fmap_Some in Hr as (r0 & _ & ->). done.
    + rewrite lookup_alter_ne in Hr by done. by apply H2.
  - intros tok' s' Hs'. rewrite lookup_alter_is_Some, Hlast.
    apply lookup_insert_Some in Hs' as [[_ <-]|[_ Hs']]; [by rewrite Nat.eqb_refl|].
    apply H3 in Hs' as [? ?]. split; [done|]. by destruct (s =? s')%nat.
  - intros id s' Hs'. rewrite lookup_alter_is_Some. by apply (Ho id).
  - split_and!; [by constructor|by constructor|]. constructor; [by rewrite lookup_alter_is_Some|].
    eapply Forall_impl; [exact H6|]. intros p Hp. by rewrite lookup_alter_is_Some.
Qed.

Lemma newOpaque_inv t ps now rd : sess_inv t ps -> sess_inv (newOpaque t now rd).2 ps.
Proof.
  intros I. unfold newOpaque. destruct (randHex rd 8) as [id|]; [|done]. destruct I as [H1 H2 H3 Ho (H4 & H5 & H6)].
  assert (Hfresh : st_heap t !! st_next t = None).
  { apply eq_None_not_Some. intros H%H1. lia. }
  split; cbn [snd st_heap st_next st_byToken st_byOpaque].
  - intros s Hs. apply lookup_insert_is_Some in Hs as [->|[_ Hs%H1]]; lia.
  - intros s r Hr. apply lookup_insert_Some in Hr as [[<- <-]|[_ Hr]]; [|by apply H2].
    destruct (last_promo ps (st_next t)) as [p|] eqn:E; [|done]. exfalso.
    apply last_promo_in in E as [Hin Hp]. rewrite Forall_forall in H6. apply H6 in Hin. rewrite Hp, Hfresh in Hin.
    by destruct Hin.
  - intros tok s (Hs & Hp)%H3. split; [|done]. apply lookup_insert_is_Some'. by right.
  - intros id' s Hs. apply lookup_insert_is_Some'.
    apply lookup_insert_Some in Hs as [[_ <-]|[_ Hs%Ho]]; [by left|by right].
  - split_and!; [done..|]. eapply Forall_impl; [exact H6|]. intros p Hp.
    apply lookup_insert_is_Some'. by right.
Qed.

Lemma sess_run_inv ttl t ps : sess_run ttl t ps -> sess_inv t ps.
Proof.
  induction 1 as [|t ps now rd _ IH|t ps now s user dev tok _ IH Hs Ht Hf|t ps now id user _ IH|t ps now id _ IH
    |t ps now order tok _ IH _|t ps s _ IH|t ps s now _ IH].
  - split; simpl; try done.
    + intros s [? H]. by rewrite lookup_empty in H.
    + split_and!; [constructor|constructor|constructor].
  - by apply newOpaque_inv.
  - by apply promote_commit_inv.
  - unfold stashUsername. destruct (st_byOpaque t !! id) as [s|]; [|done]. destruct (expired t now s); [done|].
    by apply set_row_inv.
  - unfold lookupOpaque. destruct (st_byOpaque t !! id) as [s|]; [|done]. destruct (expired t now s); [|done].
    by apply deleteLocked_inv.
  - unfold lookupToken_in. case_bool_decide; [done|]. destruct (List.find _ _) as [[k s]|]; [|done].
    destruct (expired t now s); [|done]. by apply deleteLocked_inv.
  - by apply deleteLocked_inv.
  - destruct s as [s|]; [|done]. by apply set_row_inv.
Qed.

(** Two promotions with the same token are the same. *)
Lemma promo_unique ps p q : NoDup (map pr_token ps) -> p ∈ ps -> q ∈ ps -> pr_token p = pr_token q -> p = q.
Proof.
  intros Hnd [i Hi]%list_elem_of_lookup [j Hj]%list_elem_of_lookup Heq.
  assert (i = j) as ->; [|congruence]. eapply NoDup_lookup; [exact Hnd| |]; rewrite list_lookup_fmap.
  - by rewrite Hi.
  - rewrite Hj. simpl. congruence.
Qed.

(** A token belongs to one row. *)
Lemma token_unique t ps s1 s2 r1 r2 :
  sess_inv t ps -> st_heap t !! s1 = Some r1 -> st_heap t !! s2 = Some r2 ->
  cs_token r1 = cs_token r2 -> cs_token r1 <> [] -> s1 = s2.
Proof.
  intros [_ H2 _ _ (H4 & _ & _)] Hs1 Hs2 Heq Hne.
  apply H2 in Hs1, Hs2.
  destruct (last_promo ps s1) as [p1|] eqn:E1; [|congruence].
  destruct (last_promo ps s2) as [p2|] eqn:E2; [|congruence].
  destruct Hs1 as [Ht1 _], Hs2 as [Ht2 _]. apply last_promo_in in E1 as [Hi1 <-], E2 as [Hi2 <-].
  f_equal. by eapply promo_unique; [exact H4|done|done|congruence].
Qed.

(** * Lookups *)

(** A row a token resolves to: indexed, carrying the token, not expired. *)
Definition resolves (t : sessionTable) (now : Z) (tok : gostring) (s : nat) : Prop :=
  tok <> [] /\ exists r, st_heap t !! s = Some r /\ cs_token r = tok /\ now <= cs_expiresAt r
  /\ exists k, st_byToken t !! k = Some s.

Lemma lookupToken_resolves t ps order now tok s :
  sess_inv t ps -> order ≡ₚ map_to_list (st_byToken t) ->
  (lookupToken_in order t now tok).1 = Some s <-> resolves t now tok s.
Proof.
  intros I Ho. unfold lookupToken_in, resolves. case_bool_decide as Ht; [split; [done|tauto]|].
  assert (Hin : forall k s, (k, s) ∈ order <-> st_byToken t !! k = Some s).
  { intros k s'. by rewrite Ho, elem_of_map_to_list. }
  assert (Hm : forall k s', token_matches t tok (k, s') = true
    <-> exists r, st_heap t !! s' = Some r /\ cs_token r = tok).
  { intros k s'. unfold token_matches. cbn [snd]. destruct (st_heap t !! s') as [r|].
    - rewrite bool_decide_eq_true. split; [eauto|]. intros (r' & [= <-] & ?). done.
    - split; [done|]. by intros (? & ? & _). }
  destruct (List.find (token_matches t tok) order) as [[k s0]|] eqn:Ef.
  - apply List.find_some in Ef as [Hk0 (r0 & Hs0 & Ht0)%Hm]. apply list_elem_of_In, Hin in Hk0.
    unfold expired. rewrite Hs0. destruct (cs_expiresAt r0 <? now) eqn:Ee; simpl_bool; cbn [fst].
    + split; [done|]. intros (_ & r & Hs & Hr & He & _).
      assert (s0 = s) as -> by (eapply token_unique; [exact I|done|done|congruence|congruence]).
      rewrite Hs0 in Hs. injection Hs as <-. lia.
    + split; [intros [= <-]; eauto 10|]. intros (_ & r & Hs & Hr & _ & _).
      f_equal. eapply token_unique; [exact I|done|done|congruence|congruence].
  - split; [done|]. intros (_ & r & Hs & Hr & _ & k & Hk). exfalso.
    apply Hin, list_elem_of_In in Hk. apply (List.find_none _ _ Ef) in Hk.
    assert (token_matches t tok (k, s) = true) by (apply Hm; eauto). congruence.
Qed.

(** C18: In every reachable session table, whatever order the map is walked in,
    a cookie resolves to a row exactly when it is the token of the row's last
    promotion, the row has not expired and is still in the token index; the
    row then names the device that promotion verified. A token that a later
    promotion of the same row replaced resolves to nothing. *)
Theorem lookupToken_iff ttl t ps order now tok s
  (Hrun : sess_run ttl t ps) (Ho : order ≡ₚ map_to_list (st_byToken t)) :
  (lookupToken_in order t now tok).1 = Some s
  <-> exists p r, last_promo ps s = Some p /\ pr_token p = tok
      /\ st_heap t !! s = Some r /\ cs_token r = tok /\ cs_deviceID r = pr_device p
      /\ now <= cs_expiresAt r /\ exists k, st_byToken t !! k = Some s.
Proof.
  pose proof (sess_run_inv _ _ _ Hrun) as I. rewrite lookupToken_resolves by done. unfold resolves. split.
  - intros (Ht & r & Hs & Hr & He & k & Hk). pose proof (si_row _ _ I s r Hs) as Hp.
    destruct (last_promo ps s) as [p|]; [|congruence]. destruct Hp as [Hp Hd].
    exists p, r. split_and!; [done|congruence|done..|eauto].
  - intros (p & r & Hp & Ht & Hs & Hr & Hd & He & k & Hk). split; [|eauto 10].
    apply last_promo_in in Hp as [Hin _]. destruct (si_ps _ _ I) as (_ & Hne & _).
    rewrite Forall_forall in Hne. rewrite <- Ht. by apply Hne.
Qed.

(** A token whose row was promoted again resolves to nothing. *)
Lemma replaced_token_dead t p q ps order now :
  sess_inv t (q :: ps) -> order ≡ₚ map_to_list (st_byToken t) -> p ∈ ps -> pr_row p = pr_row q ->
  (lookupToken_in order t now (pr_token p)).1 = None.
Proof.
  intros I Ho Hin Hpq. destruct (lookupToken_in order t now (pr_token p)).1 as [s'|] eqn:El; [|done]. exfalso.
  apply (lookupToken_resolves _ _ _ _ _ _ I Ho) in El as (Hne & r' & Hs' & Ht' & _ & _).
  pose proof (si_row _ _ I s' r' Hs') as Hl.
  destruct (last_promo (q :: ps) s') as [p'|] eqn:E'; [|congruence]. destruct Hl as [Hl _].
  pose proof (proj1 (si_ps _ _ I)) as Hnd. pose proof E' as [Hp' Hs2]%last_promo_in.
  assert (p' = p) as -> by (eapply promo_unique; [exact Hnd|done|by right|congruence]).
  unfold last_promo in E'. cbn in E'. rewrite <- Hpq, <- Hs2, Nat.eqb_refl in E'. injection E' as <-.
  apply NoDup_cons in Hnd as [Hn _]. apply Hn. by apply list_elem_of_fmap_2.
Qed.

(** A successful promotion makes the cookie good for the table's lifetime:
    with a token not drawn before, the token resolves to the promoted row, with
    the device and user verified, exactly until [ttl] after the promotion; the
    opaque id keeps resolving to the same row for as long; and any token the
    row had before no longer resolves. *)
Theorem promote_lookup ttl t ps now id user dev rd s t' b later order
  (Hrun : sess_run ttl t ps) (Hp : promote t now id user dev rd = (Ok s, t'))
  (Hrd : rd 32%nat = Some b) (Hlen : length b = 32%nat) (Hfresh : b64url b ∉ map pr_token ps)
  (Ho : order ≡ₚ map_to_list (st_byToken t')) :
  (lookupToken_in order t' later (b64url b)).1 = (if later <=? now + st_ttl t then Some s else None)
  /\ (lookupOpaque t' later id).1 = (if later <=? now + st_ttl t then Some s else None)
  /\ (exists r, st_heap t' !! s = Some r /\ cs_deviceID r = dev /\ cs_username r = user)
  /\ (forall p, p ∈ ps -> pr_row p = s -> (lookupToken_in order t' later (pr_token p)).1 = None).
Proof.
  pose proof (sess_run_inv _ _ _ Hrun) as I0.
  unfold promote in Hp. destruct (st_byOpaque t !! id) as [s0|] eqn:Eid; [|done].
  unfold randURLSafe in Hp. rewrite Hrd in Hp. cbn in Hp. injection Hp as -> <-.
  set (tok := b64url b) in *. pose proof (si_opaque _ _ I0 _ _ Eid) as Hrow.
  assert (Hne : tok <> []).
  { destruct b as [|b0 [|b1 [|b2 b]]]; done. }
  assert (I : sess_inv (promote_commit t now s user dev tok) (mkPromo s dev tok :: ps)).
  { by apply promote_commit_inv. }
  destruct Hrow as [r0 Hr0].
  assert (Hs : st_heap (promote_commit t now s user dev tok) !! s
    = Some (mkSession tok (cs_opaqueID r0) user dev (cs_createdAt r0) (now + st_ttl t))).
  { unfold promote_commit, set_row. simpl. by rewrite lookup_alter_eq, Hr0. }
  split_and!.
  - destruct (lookupToken_in order _ later tok).1 as [s'|] eqn:El.
    + apply (lookupToken_resolves _ _ _ _ _ _ I Ho) in El as (_ & r' & Hs' & Ht' & He' & _).
      assert (s' = s) as -> by (eapply token_unique; [exact I|done|done|done|congruence]).
      rewrite Hs in Hs'. injection Hs' as <-. simpl in He'. by rewrite (proj2 (Z.leb_le _ _)).
    + destruct (Z.leb_spec later (now + st_ttl t)); [|done]. exfalso.
      assert (Hr : resolves (promote_commit t now s user dev tok) later tok s).
      { split; [done|]. eexists. split; [exact Hs|]. split_and!; [done|done|]. exists tok.
        unfold promote_commit. simpl. by rewrite lookup_insert_eq. }
      apply (lookupToken_resolves _ _ _ _ _ _ I Ho) in Hr. congruence.
  - unfold lookupOpaque, expired.
    change (st_byOpaque (promote_commit t now s user dev tok)) with (st_byOpaque t). rewrite Eid, Hs.
    cbn [cs_expiresAt]. rewrite Z.ltb_antisym. by destruct (later <=? now + st_ttl t).
  - eexists. split; [exact Hs|]. done.
  - intros p Hin Hps. by eapply replaced_token_dead.
Qed.

(** Deleting a row revokes its cookie only when the row was promoted once:
    after [consume] the token still resolves, until it expires, exactly when
    the token index holds the row under a replaced token as well, which
    [consume] leaves behind. *)
Theorem consume_revokes_iff ttl t ps s r now order
  (Hrun : sess_run ttl t ps) (Hs : st_heap t !! s = Some r) (Htok : cs_token r <> [])
  (Ho : order ≡ₚ map_to_list (st_byToken (consume t s))) :
  (lookupToken_in order (consume t s) now (cs_token r)).1 <> None
  <-> now <= cs_expiresAt r /\ exists k, k <> cs_token r /\ st_byToken t !! k = Some s.
Proof.
  pose proof (sess_run_inv _ _ _ (sr_consume _ _ _ s Hrun)) as I.
  assert (Hd : consume t s = mkST (st_heap t) (st_next t)
    (if bool_decide (cs_opaqueID r = []) then st_byOpaque t else delete (cs_opaqueID r) (st_byOpaque t))
    (delete (cs_token r) (st_byToken t)) (st_ttl t)).
  { unfold consume, deleteLocked. by rewrite Hs, (bool_decide_eq_false_2 (cs_token r = [])). }
  split.
  - intros H. destruct (lookupToken_in order (consume t s) now (cs_token r)).1 as [s'|] eqn:El; [|done].
    apply (lookupToken_resolves _ _ _ _ _ _ I Ho) in El as (_ & r' & Hs' & Ht' & He & k & Hk).
    rewrite Hd in Hs', Hk. cbn [st_heap st_byToken] in *.
    pose proof (sess_run_inv _ _ _ Hrun) as I0.
    assert (s' = s) as -> by (eapply token_unique; [exact I0|done|done|done|congruence]).
    rewrite Hs in Hs'. injection Hs' as <-. apply lookup_delete_Some in Hk as [? ?]. eauto.
  - intros (He & k & Hk & Hks) Hnone.
    assert (Hr : resolves (consume t s) now (cs_token r) s).
    { split; [done|]. exists r. rewrite Hd. cbn [st_heap st_byToken]. split_and!; [done..|]. exists k.
      by rewrite lookup_delete_ne. }
    apply (lookupToken_resolves _ _ _ _ _ _ I Ho) in Hr. congruence.
Qed.

(** * Witnesses *)

Definition rd_sample (x : byte) : RandRead := fun n => Some (repeat x n).
Definition tok_sample (x : byte) : gostring := b64url (repeat x 32).
Definition opaque_sample : gostring := hexEncode (repeat 5 8).
Definition alice : gostring := bs "alice".
Definition dev_sample : gostring := bs "dev".
Definition st0 : sessionTable := (newOpaque (newSessionTable 100) 10 (rd_sample 5)).2.
Definition st1 : sessionTable := (promote st0 20 opaque_sample alice dev_sample (rd_sample 1)).2.
Definition st2 : sessionTable := (promote st1 30 opaque_sample alice dev_sample (rd_sample 2)).2.

Lemma st0_run : sess_run 100 st0 [].
Proof. apply sr_opaque, sr_new. Qed.
Lemma st1_run : sess_run 100 st1 [mkPromo 0 dev_sample (tok_sample 1)].
Proof.
  change st1 with (promote_commit st0 20 0 alice dev_sample (tok_sample 1)).
  apply sr_promote; [apply st0_run|eexists; vm_compute; reflexivity|by vm_compute|decide_closed].
Qed.
Lemma st2_run : sess_run 100 st2 [mkPromo 0 dev_sample (tok_sample 2); mkPromo 0 dev_sample (tok_sample 1)].
Proof.
  change st2 with (promote_commit st1 30 0 alice dev_sample (tok_sample 2)).
  apply sr_promote; [apply st1_run|eexists; vm_compute; reflexivity|by vm_compute|decide_closed].
Qed.

Lemma lookupToken_iff_witness : exists p, last_promo [mkPromo 0 dev_sample (tok_sample 1)] 0 = Some p
  /\ pr_token p = tok_sample 1.
Proof.
  assert (H : (lookupToken st1 50 (tok_sample 1)).1 = Some 0%nat) by (vm_compute; reflexivity).
  destruct (proj1 (lookupToken_iff 100 st1 _ _ 50 (tok_sample 1) 0 st1_run (Permutation_refl _)) H)
    as (p & r & Hp & Ht & _).
  exists p. split; [exact Hp|exact Ht].
Defined.

Lemma promote_lookup_witness :
  (lookupToken st1 120 (tok_sample 1)).1 = Some 0%nat /\ (lookupToken st1 121 (tok_sample 1)).1 = None.
Proof.
  assert (Hp : promote st0 20 opaque_sample alice dev_sample (rd_sample 1) = (Ok 0%nat, st1)) by reflexivity.
  assert (Hlen : length (repeat 1 32) = 32%nat) by reflexivity.
  assert (Hf : b64url (repeat 1 32) ∉ map pr_token []) by decide_closed.
  split.
  - exact (proj1 (promote_lookup 100 st0 [] 20 _ _ _ (rd_sample 1) 0 st1 (repeat 1 32) 120 _ st0_run Hp eq_refl
      Hlen Hf (Permutation_refl _))).
  - exact (proj1 (promote_lookup 100 st0 [] 20 _ _ _ (rd_sample 1) 0 st1 (repeat 1 32) 121 _ st0_run Hp eq_refl
      Hlen Hf (Permutation_refl _))).
Defined.

Lemma consume_revokes_iff_witness : (lookupToken (consume st2 0) 50 (tok_sample 2)).1 <> None.
Proof.
  assert (Hs : st_heap st2 !! 0%nat = Some (mkSession (tok_sample 2) opaque_sample alice dev_sample 10 130))
    by (vm_compute; reflexivity).
  apply (consume_revokes_iff 100 st2 _ 0 _ 50 _ st2_run Hs).
  - vm_compute. discriminate.
  - reflexivity.
  - split; [vm_compute; discriminate|]. exists (tok_sample 1). split; [vm_compute; discriminate|].
    vm_compute. reflexivity.
Defined.
