(* ===== verification/CstpConfig.v ===== *)
(** [internal/cstp/cstp.go] and [internal/cstp/profile.go]: the CSTP server's
    configuration with its defaults, the per-device identity, the queue of
    finished tunnels behind [Accept] and [Close], and the [webvpnc] directive.
    The configuration's interfaces are arguments of the handlers; its [Now] and
    [RandRead] are the clock and random arguments of every operation. *)

From S2P Require Import Prelude Netip Utf8 CstpSessions.

Definition Second : Z := 10 ^ 9.

Record Identity := mkIdentity {
  id_DeviceID : gostring;
  id_IPv6 : Prefix;
  id_IPv6CLAT : Prefix;
  id_MTU : Z;
  id_DTLSDisabled : bool
}.

Record Config := mkConfig {
  ServerName : gostring;
  ServerCertSHA1 : gostring;
  DNS : list Addr;
  DefaultDomain : gostring;
  SplitInclude : list Prefix;
  DPDInterval : Z;
  KeepaliveInterval : Z;
  IdleTimeout : Z;
  DefaultMTU : Z;
  SessionTimeout : Z;
  DTLSBindingRefreshInterval : Z;
  DTLSDisabled : bool
}.

Definition withDefaults (c : Config) : Config :=
  mkConfig (ServerName c) (ServerCertSHA1 c) (DNS c) (DefaultDomain c) (SplitInclude c)
    (if DPDInterval c <=? 0 then 30 else DPDInterval c)
    (if KeepaliveInterval c <=? 0 then 20 else KeepaliveInterval c)
    (if IdleTimeout c <? 0 then 0 else if IdleTimeout c =? 0 then 1800 else IdleTimeout c)
    (if DefaultMTU c <=? 0 then 1406 else DefaultMTU c)
    (if SessionTimeout c <=? 0 then 3600 * Second else SessionTimeout c)
    (if DTLSBindingRefreshInterval c <=? 0 then 120 * Second else DTLSBindingRefreshInterval c)
    (DTLSDisabled c).

(** * The webvpnc directive *)

Definition serverCertSHA1 : gostring := bs "525FB9D7A730F41527C4F85394454E716B389997".
Definition buildWebVPNC (baseURL certSHA1 : gostring) : gostring :=
  bs "bu:" ++ (if is_nil baseURL then bs "/" else baseURL) ++ bs "&p:t&iu:1/&sh:" ++ certSHA1.
Definition isAnyConnectHousekeepingPath (p : gostring) : bool :=
  has_prefix (bs "/+CSCOT+/") p || has_prefix (bs "/1/") p
  || bool_decide (p = bs "/VPNManifest.xml") || bool_decide (p = bs "/logout").

(** * The server *)

(** A tunnel is a number here: its state is its own component's. [None] as
    [closeCh]'s content is the channel before [Close]. *)
Record Server := mkServer {
  sv_cfg : Config;
  sv_webvpnc : gostring;
  sv_certSHA1 : gostring;
  sv_sessions : sessionTable;
  sv_tunnels : list nat;
  sv_closed : bool
}.
Definition tunnelQueueCap : nat := 32.

Definition NewServer (cfg : Config) : Server :=
  let cfg := withDefaults cfg in
  let override := TrimSpace (ServerCertSHA1 cfg) in
  let certSHA1 := if is_nil override then serverCertSHA1 else override in
  mkServer cfg (buildWebVPNC (bs "/") certSHA1) certSHA1 (newSessionTable (SessionTimeout cfg)) [] false.

Definition set_sessions (s : Server) (t : sessionTable) : Server :=
  mkServer (sv_cfg s) (sv_webvpnc s) (sv_certSHA1 s) t (sv_tunnels s) (sv_closed s).
Definition set_tunnels (s : Server) (q : list nat) (closed : bool) : Server :=
  mkServer (sv_cfg s) (sv_webvpnc s) (sv_certSHA1 s) (sv_sessions s) q closed.

Inductive AcceptErr : Type := ErrServerClosed | ErrCtx.
(** The ready case that a [select] takes. *)
Inductive AcceptCase : Type := RecvTunnel | RecvClose | RecvCtx.
(** [Accept]: [None] when the case is not ready. A receive from the closed,
    empty channel reports the close as well. *)
Definition Accept (s : Server) (ctxDone : bool) (c : AcceptCase) : option (result AcceptErr nat * Server) :=
  match c with
  | RecvTunnel =>
    match sv_tunnels s with
    | t :: q => Some (Ok t, set_tunnels s q (sv_closed s))
    | [] => if sv_closed s then Some (Err ErrServerClosed, s) else None
    end
  | RecvClose => if sv_closed s then Some (Err ErrServerClosed, s) else None
  | RecvCtx => if ctxDone then Some (Err ErrCtx, s) else None
  end.
Definition Close (s : Server) : Server :=
  if sv_closed s then s else set_tunnels s (sv_tunnels s) true.

(** The hand-over at the end of [handleConnect]. A send on the closed channel is
    a ready case of its [select], and panics. *)
Inductive SendCase : Type := SendTunnel | SawClose.
Inductive Published : Type := Queued | Refused | Panicked.
Definition publish (s : Server) (t : nat) (c : SendCase) : option (Published * Server) :=
  match c with
  | SendTunnel =>
    if sv_closed s then Some (Panicked, s)
    else if (length (sv_tunnels s) <? tunnelQueueCap)%nat then Some (Queued, set_tunnels s (sv_tunnels s ++ [t]) (sv_closed s))
    else None
  | SawClose => if sv_closed s then Some (Refused, s) else None
  end.

(** * Lemmas *)

(** The values every handler and goroutine works with. *)
Record config_ok (c : Config) : Prop := {
  co_dpd : 0 < DPDInterval c;
  co_keepalive : 0 < KeepaliveInterval c;
  co_idle : 0 <= IdleTimeout c;
  co_mtu : 0 < DefaultMTU c;
  co_session : 0 < SessionTimeout c;
  co_refresh : 0 < DTLSBindingRefreshInterval c
}.

Lemma withDefaults_ok c : config_ok (withDefaults c).
Proof. unfold withDefaults, Second. split; cbn; repeat case_match; simpl_bool; lia. Qed.

(** A configuration whose values are set is kept as it is. *)
Lemma withDefaults_id c : config_ok c -> 0 < IdleTimeout c -> withDefaults c = c.
Proof.
  intros [H1 H2 H3 H4 H5 H6] Hi. unfold withDefaults.
  repeat (case_match; simpl_bool; try lia). by destruct c.
Qed.

Lemma withDefaults_idem c : 0 <= IdleTimeout c -> withDefaults (withDefaults c) = withDefaults c.
Proof.
  intros Hi. apply withDefaults_id; [apply withDefaults_ok|]. cbn. repeat case_match; simpl_bool; lia.
Qed.

(** A negative timeout means none, but not twice: applied again the default
    replaces it. *)
Example withDefaults_twice :
  let c := mkConfig [] [] [] [] [] 0 0 (-1) 0 0 0 false in
  IdleTimeout (withDefaults c) = 0 /\ IdleTimeout (withDefaults (withDefaults c)) = 1800.
Proof. by vm_compute. Qed.

Lemma Close_idem s : Close (Close s) = Close s.
Proof. unfold Close. by destruct (sv_closed s) eqn:E; rewrite ?E. Qed.

(** After [Close] an [Accept] returns at once; the only tunnels it can still
    give out are the ones queued before. *)
Lemma Accept_after_close s ctxDone c r s' :
  Accept (Close s) ctxDone c = Some (r, s') ->
  match r with Ok t => c = RecvTunnel /\ sv_tunnels s = t :: sv_tunnels s' | Err e => s' = Close s end.
Proof.
  assert (Ht : sv_tunnels (Close s) = sv_tunnels s) by (unfold Close; by destruct (sv_closed s)).
  destruct c; cbn; rewrite ?Ht; go_cases; intros [= <- <-]; done.
Qed.

(** A tunnel handed over is the last of the queue; once the server is closed the
    hand-over may refuse the tunnel or panic, as the [select] chooses. *)
Lemma publish_cases s t :
  (sv_closed s = false -> publish s t SawClose = None
    /\ publish s t SendTunnel = if (length (sv_tunnels s) <? tunnelQueueCap)%nat
                                then Some (Queued, set_tunnels s (sv_tunnels s ++ [t]) false) else None)
  /\ publish (Close s) t SawClose = Some (Refused, Close s)
  /\ publish (Close s) t SendTunnel = Some (Panicked, Close s).
Proof.
  assert (Hc : sv_closed (Close s) = true) by (unfold Close; by destruct (sv_closed s) eqn:E).
  unfold publish. rewrite Hc. split_and!; [|done|done]. intros ->. done.
Qed.
