(* ===== verification/CstpTunnel.v ===== *)
(** [internal/cstp/tunnel.go]: the binary tunnel after CONNECT. Two goroutines
    ([readLoop], [heartbeatLoop]) and any number of callers share the state, so
    each statement between two points where another can run is a step of
    [tun_step]: a frame read with its [switch], the send on [dataCh], taking
    [writeMu] with the check of [closeCh], the write under it, a tick, the
    deferred close. The clock and what the connection does with a write are
    arguments of a step. *)

From S2P Require Import Prelude CstpFrame CstpConfig.

Inductive TunErr : Type :=
| ErrFrame (e : CstpFrameErr)     (* what [readFrame] reported; [io.EOF] is [ErrFrame (ErrIO EOF)] *)
| ErrWrite (e : Z)                (* what the connection reported *)
| errTunnelClosed
| errClientDisconnect
| errCompressedFrame.
#[export] Instance TunErr_eq_dec : EqDecision TunErr.
Proof. solve_decision. Defined.

(** The program counters of the two goroutines. [RReturn] runs [readLoop]'s
    deferred function next. *)
Inductive RState : Type :=
| RReading
| RSending (pkt : bytes)
| REcho (payload : bytes)
| RWriting
| RReturn
| RDone.
(** [seq] is [dpdSeq]; [final] marks the frame sent on the idle timeout. *)
Inductive HState : Type :=
| HWaiting (seq : Z)
| HSending (seq : Z) (final : bool)
| HWriting (seq : Z) (final : bool)
| HDone.
(** Who holds [writeMu], with the frame it is about to write. *)
Inductive Who : Type := ByReader | ByHeart | ByCaller.
Record InFlight := mkInFlight { fl_who : Who; fl_typ : byte; fl_payload : bytes }.

Record dtlsBindingState := mkDtlsBinding {
  db_installer : bool;            (* an installer is set *)
  db_refreshInterval : Z;
  db_lastRefresh : Z;
  db_refreshing : bool
}.

Record Tunnel := mkTunnel {
  tn_in : Reader;                 (* what the connection still delivers *)
  tn_out : bytes;                 (* what was written to it *)
  tn_dataCh : list bytes;
  tn_dataClosed : bool;
  tn_closed : bool;               (* [closeOnce] has run *)
  tn_closeErr : option TunErr;
  tn_lastInbound : Z;
  tn_lastOutbound : Z;
  tn_reader : RState;
  tn_heart : HState;
  tn_writer : option InFlight;
  tn_dtls : option dtlsBindingState;
  tn_dpdInterval : Z;
  tn_keepaliveInterval : Z;
  tn_idleTimeout : Z
}.
Definition dataChCap : nat := 64.
Definition readBufLen : nat := Z.to_nat (2 ^ 16).

Definition newTunnel (cfg : Config) (rw : Reader) (dtls : option dtlsBindingState) (now : Z) : Tunnel :=
  mkTunnel rw [] [] false false None now now RReading (HWaiting 0) None
    ((fun d => mkDtlsBinding (db_installer d) (db_refreshInterval d) now (db_refreshing d)) <$> dtls)
    (DPDInterval cfg * Second) (KeepaliveInterval cfg * Second) (IdleTimeout cfg * Second).

(** ** Field updates *)

Definition set_in (t : Tunnel) (r : Reader) (lastIn : Z) : Tunnel :=
  mkTunnel r (tn_out t) (tn_dataCh t) (tn_dataClosed t) (tn_closed t) (tn_closeErr t) lastIn
    (tn_lastOutbound t) (tn_reader t) (tn_heart t) (tn_writer t) (tn_dtls t) (tn_dpdInterval t)
    (tn_keepaliveInterval t) (tn_idleTimeout t).
Definition set_out (t : Tunnel) (o : bytes) (lastOut : Z) : Tunnel :=
  mkTunnel (tn_in t) o (tn_dataCh t) (tn_dataClosed t) (tn_closed t) (tn_closeErr t) (tn_lastInbound t)
    lastOut (tn_reader t) (tn_heart t) (tn_writer t) (tn_dtls t) (tn_dpdInterval t)
    (tn_keepaliveInterval t) (tn_idleTimeout t).
Definition set_dataCh (t : Tunnel) (q : list bytes) (closed : bool) : Tunnel :=
  mkTunnel (tn_in t) (tn_out t) q closed (tn_closed t) (tn_closeErr t) (tn_lastInbound t)
    (tn_lastOutbound t) (tn_reader t) (tn_heart t) (tn_writer t) (tn_dtls t) (tn_dpdInterval t)
    (tn_keepaliveInterval t) (tn_idleTimeout t).
Definition set_reader (t : Tunnel) (r : RState) : Tunnel :=
  mkTunnel (tn_in t) (tn_out t) (tn_dataCh t) (tn_dataClosed t) (tn_closed t) (tn_closeErr t)
    (tn_lastInbound t) (tn_lastOutbound t) r (tn_heart t) (tn_writer t) (tn_dtls t) (tn_dpdInterval t)
    (tn_keepaliveInterval t) (tn_idleTimeout t).
Definition set_heart (t : Tunnel) (h : HState) : Tunnel :=
  mkTunnel (tn_in t) (tn_out t) (tn_dataCh t) (tn_dataClosed t) (tn_closed t) (tn_closeErr t)
    (tn_lastInbound t) (tn_lastOutbound t) (tn_reader t) h (tn_writer t) (tn_dtls t) (tn_dpdInterval t)
    (tn_keepaliveInterval t) (tn_idleTimeout t).
Definition set_writer (t : Tunnel) (w : option InFlight) : Tunnel :=
  mkTunnel (tn_in t) (tn_out t) (tn_dataCh t) (tn_dataClosed t) (tn_closed t) (tn_closeErr t)
    (tn_lastInbound t) (tn_lastOutbound t) (tn_reader t) (tn_heart t) w (tn_dtls t) (tn_dpdInterval t)
    (tn_keepaliveInterval t) (tn_idleTimeout t).
Definition set_dtls (t : Tunnel) (d : option dtlsBindingState) : Tunnel :=
  mkTunnel (tn_in t) (tn_out t) (tn_dataCh t) (tn_dataClosed t) (tn_closed t) (tn_closeErr t)
    (tn_lastInbound t) (tn_lastOutbound t) (tn_reader t) (tn_heart t) (tn_writer t) d (tn_dpdInterval t)
    (tn_keepaliveInterval t) (tn_idleTimeout t).

(** * Closing *)

Definition closeWithErr (t : Tunnel) (cause : option TunErr) : Tunnel :=
  if tn_closed t then t
  else mkTunnel (tn_in t) (tn_out t) (tn_dataCh t) (tn_dataClosed t) true cause (tn_lastInbound t)
    (tn_lastOutbound t) (tn_reader t) (tn_heart t) (tn_writer t) (tn_dtls t) (tn_dpdInterval t)
    (tn_keepaliveInterval t) (tn_idleTimeout t).
Definition Close (t : Tunnel) : Tunnel := closeWithErr t None.
Definition closeCauseOr (t : Tunnel) (fallback : TunErr) : TunErr := default fallback (tn_closeErr t).

(** * Reading packets *)

(** The packet copied into a buffer, with the error beside it. *)
Inductive ReadErr : Type := RdClosed (e : TunErr) | RdShortBuffer.
(** [ReadPacket] into a buffer of [plen] bytes: the bytes copied, the error.
    [pickData] is the case its [select] takes, [None] when that case is not
    ready. *)
Definition ReadPacket (t : Tunnel) (plen : nat) (pickData : bool) : option (bytes * option ReadErr * Tunnel) :=
  if pickData then
    match tn_dataCh t with
    | pkt :: q =>
      Some (take plen pkt, if (plen <? length pkt)%nat then Some RdShortBuffer else None,
            set_dataCh t q (tn_dataClosed t))
    | [] =>
      if tn_dataClosed t then Some ([], Some (RdClosed (closeCauseOr t (ErrFrame (ErrIO EOF)))), t)
      else None
    end
  else if tn_closed t then Some ([], Some (RdClosed (closeCauseOr t errTunnelClosed)), t)
  else None.

(** * Writing frames *)

Inductive WErr : Type := WTooLarge | WTun (e : TunErr).

(** [writeFrame] up to the write: [None] while another goroutine holds
    [writeMu]. *)
Definition writeFrame_begin (t : Tunnel) (who : Who) (typ : byte) (payload : bytes) : option (result WErr Tunnel) :=
  if maxFramePayload <? Z.of_nat (length payload) then Some (Err WTooLarge)
  else
    match tn_writer t with
    | Some _ => None
    | None =>
      if tn_closed t then Some (Err (WTun errTunnelClosed))
      else Some (Ok (set_writer t (Some (mkInFlight who typ payload))))
    end.

(** What [bw.Write] and [Flush] do: all of it, or some bytes and an error. *)
Inductive WriteRes : Type := WriteOk | WriteFail (n : nat) (e : Z).
(** The bytes [encodeFrame] leaves in the scratch buffer. *)
Definition frame_bytes (f : InFlight) : bytes :=
  match encodeFrame (repeat 0 (frameHeaderLen + length (fl_payload f))) (fl_typ f) (fl_payload f) with
  | Ok (n, buf) => take n buf
  | Err _ => []
  end.
(** [writeFrame] from the write to the return. *)
Definition writeFrame_end (t : Tunnel) (f : InFlight) (w : WriteRes) (now : Z) : option TunErr * Tunnel :=
  let t := set_writer t None in
  match w with
  | WriteOk => (None, set_out t (tn_out t ++ frame_bytes f) now)
  | WriteFail n e =>
    (Some (ErrWrite e),
     closeWithErr (set_out t (tn_out t ++ take n (frame_bytes f)) (tn_lastOutbound t)) (Some (ErrWrite e)))
  end.
(** [WritePacket]: the number of bytes it returns. *)
Definition WritePacket_result (p : bytes) (err : option WErr) : result WErr nat :=
  match err with Some e => Err e | None => Ok (length p) end.

(** * The reader goroutine *)

(** One iteration of [readLoop] up to its next wait. *)
Definition readLoop_body (t : Tunnel) (now : Z) : Tunnel :=
  match readFrame (tn_in t) frameHeaderLen readBufLen with
  | Err err =>
    let cause := if decide (err = ErrIO EOF) then ErrFrame (ErrIO EOF) else ErrFrame err in
    set_reader (closeWithErr t (Some cause)) RReturn
  | Ok (typ, p, r) =>
    let t := set_in t r now in
    if typ =? pktData then set_reader t (RSending p)
    else if typ =? pktDPDOut then set_reader t (REcho p)
    else if typ =? pktDPDResp then t
    else if typ =? pktKeepalive then t
    else if typ =? pktDisconnect then set_reader (closeWithErr t (Some errClientDisconnect)) RReturn
    else if typ =? pktTermServer then set_reader (closeWithErr t (Some errClientDisconnect)) RReturn
    else if typ =? pktCompressed then set_reader (closeWithErr t (Some errCompressedFrame)) RReturn
    else t
  end.
(** The frame an iteration read. *)
Definition frame_read (t : Tunnel) : option (byte * bytes) :=
  match readFrame (tn_in t) frameHeaderLen readBufLen with Ok (typ, p, _) => Some (typ, p) | Err _ => None end.
(** The [select] of the data case. *)
Definition send_data (t : Tunnel) (pkt : bytes) : option Tunnel :=
  if (length (tn_dataCh t) <? dataChCap)%nat
  then Some (set_reader (set_dataCh t (tn_dataCh t ++ [pkt]) (tn_dataClosed t)) RReading) else None.
Definition send_closed (t : Tunnel) : option Tunnel :=
  if tn_closed t then Some (set_reader t RReturn) else None.
(** After the echo's [writeFrame]. *)
Definition reader_after (t : Tunnel) (err : option TunErr) : Tunnel :=
  match err with
  | None => set_reader t RReading
  | Some e => set_reader (closeWithErr t (Some e)) RReturn
  end.
(** The deferred [close(t.dataCh)]. *)
Definition readLoop_defer (t : Tunnel) : Tunnel := set_reader (set_dataCh t (tn_dataCh t) true) RDone.

(** * The heartbeat goroutine *)

Definition heartbeatInterval (t : Tunnel) : Z :=
  let hb := Z.quot (tn_keepaliveInterval t) 4 in
  let hb := if (0 <? tn_dpdInterval t) && (Z.quot (tn_dpdInterval t) 4 <? hb)
            then Z.quot (tn_dpdInterval t) 4 else hb in
  if hb <? 2 * Second then 2 * Second else hb.

(** [maybeRefreshDTLSBinding]; the goroutine it starts ends with
    [refresh_done]. *)
Definition maybeRefreshDTLSBinding (t : Tunnel) (now : Z) : Tunnel :=
  match tn_dtls t with
  | None => t
  | Some d =>
    if negb (db_installer d) || (db_refreshInterval d <=? 0) then t
    else if now - db_lastRefresh d <? db_refreshInterval d then t
    else if db_refreshing d then t
    else set_dtls t (Some (mkDtlsBinding (db_installer d) (db_refreshInterval d) (db_lastRefresh d) true))
  end.
Definition refresh_done (t : Tunnel) (ok : bool) (now : Z) : Tunnel :=
  set_dtls t ((fun d => mkDtlsBinding (db_installer d) (db_refreshInterval d)
                          (if ok then now else db_lastRefresh d) false) <$> tn_dtls t).

Definition dpd_payload (seq : Z) : bytes :=
  [u8 (Z.shiftr seq 24); u8 (Z.shiftr seq 16); u8 (Z.shiftr seq 8); u8 seq; 68; 80; 68; 33].
(** The frame the heartbeat sends. *)
Definition heart_frame (seq : Z) (final : bool) : byte * bytes :=
  if final then (pktDisconnect, [0]) else (pktDPDOut, dpd_payload seq).

(** The ticker case of the loop, up to its [writeFrame]. *)
Definition heartbeat_tick (t : Tunnel) (seq now : Z) : Tunnel :=
  let lastIn := tn_lastInbound t in
  let lastOut := tn_lastOutbound t in
  let t := maybeRefreshDTLSBinding t now in
  if (0 <? tn_idleTimeout t) && (tn_idleTimeout t <? now - lastIn) then set_heart t (HSending seq true)
  else if heartbeatInterval t <=? now - lastOut then set_heart t (HSending (u32 (seq + 1)) false)
  else t.
(** After that [writeFrame]. *)
Definition heart_after (t : Tunnel) (seq : Z) (final : bool) (err : option TunErr) : Tunnel :=
  if final then set_heart (closeWithErr t (Some errTunnelClosed)) HDone
  else match err with
       | Some e => set_heart (closeWithErr t (Some e)) HDone
       | None => set_heart t (HWaiting seq)
       end.

(** * The steps *)

(** What a step exchanges with the outside, if anything: a frame read, a frame
    written in full, a packet taken off [dataCh] by a [ReadPacket] caller. *)
Inductive Event : Type :=
| EIn (f : byte * bytes)
| EOut (f : byte * bytes)
| ERecv (pkt : bytes).

(** Whose step it is. *)
Inductive Actor : Type := AReader | AHeart | AOther.

(** The step that ends a [writeFrame], with its caller's continuation. *)
Definition finish_write (t : Tunnel) (f : InFlight) (w : WriteRes) (now : Z) : Tunnel :=
  let '(err, t) := writeFrame_end t f w now in
  match fl_who f with
  | ByReader => reader_after t err
  | ByHeart => match tn_heart t with HWriting seq final => heart_after t seq final err | _ => t end
  | ByCaller => t
  end.
Definition write_event (f : InFlight) (w : WriteRes) : option Event :=
  match w with WriteOk => Some (EOut (fl_typ f, fl_payload f)) | WriteFail _ _ => None end.
Definition who_actor (w : Who) : Actor :=
  match w with ByReader => AReader | ByHeart => AHeart | ByCaller => AOther end.

Inductive tun_step : Actor -> option Event -> Tunnel -> Tunnel -> Prop :=
| ts_read t now :
    tn_reader t = RReading -> tun_step AReader (EIn <$> frame_read t) t (readLoop_body t now)
| ts_send t pkt t' :
    tn_reader t = RSending pkt -> send_data t pkt = Some t' -> tun_step AReader None t t'
| ts_send_closed t pkt t' :
    tn_reader t = RSending pkt -> send_closed t = Some t' -> tun_step AReader None t t'
| ts_echo t p t' :
    tn_reader t = REcho p -> writeFrame_begin t ByReader pktDPDResp p = Some (Ok t') ->
    tun_step AReader None t (set_reader t' RWriting)
| ts_echo_closed t p e :
    tn_reader t = REcho p -> writeFrame_begin t ByReader pktDPDResp p = Some (Err (WTun e)) ->
    tun_step AReader None t (reader_after t (Some e))
| ts_defer t : tn_reader t = RReturn -> tun_step AReader None t (readLoop_defer t)
| ts_finish t f w now :
    tn_writer t = Some f -> tun_step (who_actor (fl_who f)) (write_event f w) t (finish_write t f w now)
| ts_tick t seq now :
    tn_heart t = HWaiting seq -> tun_step AHeart None t (heartbeat_tick t seq now)
| ts_tick_closed t seq :
    tn_heart t = HWaiting seq -> tn_closed t = true -> tun_step AHeart None t (set_heart t HDone)
| ts_probe t seq final t' :
    tn_heart t = HSending seq final ->
    writeFrame_begin t ByHeart (heart_frame seq final).1 (heart_frame seq final).2 = Some (Ok t') ->
    tun_step AHeart None t (set_heart t' (HWriting seq final))
| ts_probe_closed t seq final e :
    tn_heart t = HSending seq final ->
    writeFrame_begin t ByHeart (heart_frame seq final).1 (heart_frame seq final).2 = Some (Err (WTun e)) ->
    tun_step AHeart None t (heart_after t seq final (Some e))
| ts_write t p t' :
    writeFrame_begin t ByCaller pktData p = Some (Ok t') -> tun_step AOther None t t'
| ts_recv t plen pkt q t' data err :
    tn_dataCh t = pkt :: q -> ReadPacket t plen true = Some (data, err, t') ->
    tun_step AOther (Some (ERecv pkt)) t t'
| ts_close t : tun_step AOther None t (Close t)
| ts_cut t n :
    tn_closed t = true ->
    tun_step AOther None t (set_in t (mkReader (take n (rd_data (tn_in t))) ErrOther) (tn_lastInbound t))
| ts_refreshed t d ok now :
    tn_dtls t = Some d -> db_refreshing d = true -> tun_step AOther None t (refresh_done t ok now).

(** Runs, with the steps' actors and events, oldest first. *)
Inductive tun_steps (t0 : Tunnel) : list Actor -> list Event -> Tunnel -> Prop :=
| tss_nil : tun_steps t0 [] [] t0
| tss_snoc act evs t a e t' :
    tun_steps t0 act evs t -> tun_step a e t t' ->
    tun_steps t0 (act ++ [a]) (evs ++ option_list e) t'.

(** * What a run did *)

Definition frames_in (evs : list Event) : list (byte * bytes) :=
  omap (fun e => match e with EIn f => Some f | _ => None end) evs.
Definition frames_out (evs : list Event) : list (byte * bytes) :=
  omap (fun e => match e with EOut f => Some f | _ => None end) evs.
Definition received (evs : list Event) : list bytes :=
  omap (fun e => match e with ERecv p => Some p | _ => None end) evs.
Definition payloads_of (typ : byte) (fs : list (byte * bytes)) : list bytes :=
  map snd (filter (fun f => f.1 = typ) fs).
(** A byte stream that is the images of some frames. *)
Inductive stream_image : list (byte * bytes) -> bytes -> Prop :=
| si_nil : stream_image [] []
| si_snoc fs s z f : stream_image fs s -> stream_image (fs ++ [f]) (s ++ frame_image z f.1 f.2).

Definition exited (r : RState) : bool := match r with RReturn | RDone => true | _ => false end.
(** The packet or echo the reader holds between reading it and passing it on. *)
Definition pending_data (t : Tunnel) : list bytes := match tn_reader t with RSending p => [p] | _ => [] end.
Definition pending_echo (t : Tunnel) : list bytes :=
  match tn_reader t with
  | REcho p => [p]
  | RWriting => match tn_writer t with Some f => [fl_payload f] | None => [] end
  | _ => []
  end.

(** * Control: who is where *)

Definition reader_writing (r : RState) : bool := match r with RWriting => true | _ => false end.
Definition heart_writing (h : HState) : option (Z * bool) :=
  match h with HWriting seq final => Some (seq, final) | _ => None end.
(** The holder of [writeMu] is the goroutine that waits for its write. *)
Definition writer_ok (w : option InFlight) (r : RState) (h : HState) : Prop :=
  match w with
  | None => reader_writing r = false /\ heart_writing h = None
  | Some f =>
    payload_ok (fl_payload f) /\
    match fl_who f with
    | ByReader => reader_writing r = true /\ heart_writing h = None /\ fl_typ f = pktDPDResp
    | ByHeart => reader_writing r = false
                 /\ (fun x => heart_frame x.1 x.2) <$> heart_writing h = Some (fl_typ f, fl_payload f)
    | ByCaller => reader_writing r = false /\ heart_writing h = None /\ fl_typ f = pktData
    end
  end.
Record tun_wf (t : Tunnel) : Prop := {
  tw_writer : writer_ok (tn_writer t) (tn_reader t) (tn_heart t);
  tw_cap : (length (tn_dataCh t) <= dataChCap)%nat;
  tw_dataClosed : tn_dataClosed t = true <-> tn_reader t = RDone;
  tw_exited : exited (tn_reader t) = true -> tn_closed t = true;
  tw_heart : tn_heart t = HDone -> tn_closed t = true;
  tw_cause : is_Some (tn_closeErr t) -> tn_closed t = true
}.

Lemma newTunnel_wf cfg rw d now : tun_wf (newTunnel cfg rw d now).
Proof. split; cbn; try done; lia. Qed.

(** Closing and refreshing change what they are about, nothing else. *)
Lemma closeWithErr_eq t c :
  exists cause, closeWithErr t c
  = mkTunnel (tn_in t) (tn_out t) (tn_dataCh t) (tn_dataClosed t) true cause (tn_lastInbound t)
      (tn_lastOutbound t) (tn_reader t) (tn_heart t) (tn_writer t) (tn_dtls t) (tn_dpdInterval t)
      (tn_keepaliveInterval t) (tn_idleTimeout t).
Proof. unfold closeWithErr. destruct t as [? ? ? ? []]; cbn; eauto. Qed.
Lemma maybeRefresh_eq t now : exists d, maybeRefreshDTLSBinding t now = set_dtls t d.
Proof.
  unfold maybeRefreshDTLSBinding. destruct (tn_dtls t) as [d|] eqn:E.
  - repeat case_match; try (exists (Some d); unfold set_dtls; rewrite <- E; by destruct t).
    by eexists.
  - exists None. unfold set_dtls. rewrite <- E. by destruct t.
Qed.
Lemma heartbeat_tick_eq t seq now :
  tn_heart t = HWaiting seq ->
  exists d h, heartbeat_tick t seq now = set_heart (set_dtls t d) h
    /\ (h = HWaiting seq \/ h = HSending seq true \/ h = HSending (u32 (seq + 1)) false).
Proof.
  intros E. unfold heartbeat_tick. destruct (maybeRefresh_eq t now) as [d ->].
  repeat case_match; eauto 6.
  all: match goal with |- ?g => idtac g end.
Qed.

(** The reader's iteration either returns with the tunnel closed or moves on
    to what the frame asks for. *)
Definition reader_next (f : byte * bytes) : option RState :=
  if f.1 =? pktData then Some (RSending f.2)
  else if f.1 =? pktDPDOut then Some (REcho f.2)
  else if (f.1 =? pktDisconnect) || (f.1 =? pktTermServer) || (f.1 =? pktCompressed) then None
  else Some RReading.
Lemma readLoop_body_eq t now :
  tn_reader t = RReading ->
  match readFrame (tn_in t) frameHeaderLen readBufLen with
  | Err err => readLoop_body t now = set_reader (closeWithErr t (Some (ErrFrame err))) RReturn
  | Ok (typ, p, r) =>
    match reader_next (typ, p) with
    | Some rs => readLoop_body t now = set_reader (set_in t r now) rs
    | None => exists c, readLoop_body t now = set_reader (closeWithErr (set_in t r now) (Some c)) RReturn
    end
  end.
Proof.
  intros E. unfold readLoop_body, reader_next. destruct (readFrame _ _ _) as [[[typ p] r]|err]; cbn.
  - assert (Hr : set_in t r now = set_reader (set_in t r now) RReading) by (rewrite <- E; by destruct t).
    destruct (typ =? pktData); [done|]. destruct (typ =? pktDPDOut); [done|].
    destruct (Z.eqb_spec typ pktDPDResp) as [->|_]; [done|].
    destruct (Z.eqb_spec typ pktKeepalive) as [->|_]; [done|].
    destruct (typ =? pktDisconnect); [cbn; eauto|]. destruct (typ =? pktTermServer); [cbn; eauto|].
    destruct (typ =? pktCompressed); cbn; eauto.
  - case_decide; by subst.
Qed.

Lemma writer_ok_keep w r r' h h' :
  writer_ok w r h -> reader_writing r' = reader_writing r -> heart_writing h' = heart_writing h -> writer_ok w r' h'.
Proof. unfold writer_ok. by intros H -> ->. Qed.

(** An invariant state whose control moves without entering or leaving a
    write. *)
Lemma tun_wf_move t t' :
  tun_wf t -> tn_writer t' = tn_writer t -> (length (tn_dataCh t') <= dataChCap)%nat ->
  reader_writing (tn_reader t') = reader_writing (tn_reader t) ->
  heart_writing (tn_heart t') = heart_writing (tn_heart t) ->
  (tn_dataClosed t' = true <-> tn_reader t' = RDone) ->
  (tn_closed t' = true \/ tn_closed t' = tn_closed t /\ tn_closeErr t' = tn_closeErr t
     /\ (exited (tn_reader t') = true -> exited (tn_reader t) = true) /\ (tn_heart t' = HDone -> tn_heart t = HDone)) ->
  tun_wf t'.
Proof.
  intros [Hw Hcap Hdc Hex Hh Hc] Ew Hcap' Er Eh Hdc' Hcl. split; try done.
  - rewrite Ew. by eapply writer_ok_keep.
  - destruct Hcl as [->|(-> & _ & He & _)]; auto.
  - destruct Hcl as [->|(-> & _ & _ & He)]; auto.
  - destruct Hcl as [->|(-> & -> & _)]; auto.
Qed.

Lemma not_done_keep (b : bool) r r' : (b = true <-> r = RDone) -> r <> RDone -> r' <> RDone -> (b = true <-> r' = RDone).
Proof. tauto. Qed.

Ltac tun_set := unfold set_reader, set_heart, set_writer, set_out, set_in, set_dataCh, set_dtls in *; cbn in *.
Ltac tun_move :=
  match goal with Hwf : tun_wf _ |- _ =>
    apply (tun_wf_move _ _ Hwf); destruct Hwf as [? ? ? ? ? ?]; tun_set;
    repeat match goal with H : tn_reader _ = _ |- _ => rewrite H in * end;
    repeat match goal with H : tn_heart _ = _ |- _ => rewrite H in * end;
    try done; try lia;
    try (by eapply not_done_keep);
    try (first [by left; auto | by right])
  end.

Lemma reader_next_range f rs :
  reader_next f = Some rs -> rs = RSending f.2 \/ rs = REcho f.2 \/ rs = RReading.
Proof. unfold reader_next. repeat case_match; naive_solver. Qed.

(** What [writeFrame_begin] establishes. *)
Lemma writeFrame_begin_ok t who typ p t' :
  writeFrame_begin t who typ p = Some (Ok t') ->
  payload_ok p /\ tn_writer t = None /\ tn_closed t = false /\ t' = set_writer t (Some (mkInFlight who typ p)).
Proof.
  unfold writeFrame_begin, payload_ok. intros H. go_cases_in H.
Qed.
Lemma writeFrame_begin_err t who typ p e :
  writeFrame_begin t who typ p = Some (Err (WTun e)) ->
  e = errTunnelClosed /\ tn_writer t = None /\ tn_closed t = true.
Proof. unfold writeFrame_begin. intros H. go_cases_in H. Qed.

(** The state after a write, before its caller goes on. *)
Lemma writeFrame_end_eq t f w now err t' :
  writeFrame_end t f w now = (err, t') ->
  exists out lastOut closed cause,
    t' = mkTunnel (tn_in t) out (tn_dataCh t) (tn_dataClosed t) closed cause (tn_lastInbound t) lastOut
           (tn_reader t) (tn_heart t) None (tn_dtls t) (tn_dpdInterval t) (tn_keepaliveInterval t) (tn_idleTimeout t)
    /\ (err = None /\ w = WriteOk /\ out = tn_out t ++ frame_bytes f /\ closed = tn_closed t /\ cause = tn_closeErr t
        \/ exists n e, err = Some (ErrWrite e) /\ w = WriteFail n e /\ out = tn_out t ++ take n (frame_bytes f)
             /\ closed = true /\ cause = if tn_closed t then tn_closeErr t else Some (ErrWrite e)).
Proof.
  unfold writeFrame_end. destruct w as [|n e]; intros [= <- <-].
  - do 4 eexists. split; [done|]. by left.
  - unfold closeWithErr, set_out, set_writer. destruct t as [? ? ? ? []]; cbn.
    all: do 4 eexists; split; [done|]; right; by exists n, e.
Qed.

Lemma finish_write_wf t f w now : tn_writer t = Some f -> tun_wf t -> tun_wf (finish_write t f w now).
Proof.
  intros Hf [Hw Hcap Hdc Hex Hh Hc]. rewrite Hf in Hw. destruct Hw as [Hp Hw]. unfold finish_write.
  destruct (writeFrame_end t f w now) as [err t1] eqn:E.
  apply writeFrame_end_eq in E as (out & lo & cl & ca & -> & E).
  assert (Hcl : tn_closed t = true -> cl = true) by (destruct E as [(_ & _ & _ & -> & _)|(? & ? & _ & _ & _ & -> & _)]; done).
  assert (Hca : is_Some ca -> cl = true).
  { destruct E as [(_ & _ & _ & -> & ->)|(? & ? & _ & _ & _ & -> & _)]; auto. }
  clear E. destruct (fl_who f).
  - destruct Hw as (Hr & Hhw & _). destruct (tn_reader t) eqn:Er; try done.
    destruct err as [e|]; cbn.
    + destruct (closeWithErr_eq (mkTunnel (tn_in t) out (tn_dataCh t) (tn_dataClosed t) cl ca (tn_lastInbound t) lo
         RWriting (tn_heart t) None (tn_dtls t) (tn_dpdInterval t) (tn_keepaliveInterval t) (tn_idleTimeout t)) (Some e)) as [c ->].
      split; cbn; try done. naive_solver.
    + split; cbn; try done; [naive_solver|auto].
  - destruct Hw as (Hr & Hhw). cbn. destruct (tn_heart t) as [|?|seq final|] eqn:Eh; try done.
    unfold heart_after.
    assert (Hgo : forall t2 e, t2 = mkTunnel (tn_in t) out (tn_dataCh t) (tn_dataClosed t) cl ca (tn_lastInbound t) lo
         (tn_reader t) (HWriting seq final) None (tn_dtls t) (tn_dpdInterval t) (tn_keepaliveInterval t) (tn_idleTimeout t) ->
       tun_wf (set_heart (closeWithErr t2 e) HDone)).
    { intros t2 e ->. destruct (closeWithErr_eq (mkTunnel (tn_in t) out (tn_dataCh t) (tn_dataClosed t) cl ca (tn_lastInbound t) lo
         (tn_reader t) (HWriting seq final) None (tn_dtls t) (tn_dpdInterval t) (tn_keepaliveInterval t) (tn_idleTimeout t)) e) as [c ->].
      by split. }
    destruct final; [by apply Hgo|]. destruct err; [by apply Hgo|]. by split; auto.
  - destruct Hw as (Hr & Hhw & _). by split; auto.
Qed.

Lemma tun_step_wf a e t t' : tun_step a e t t' -> tun_wf t -> tun_wf t'.
Proof.
  intros Hs Hwf. destruct Hs.
  - pose proof (readLoop_body_eq t now H) as Hb. destruct (readFrame _ _ _) as [[[typ p] r]|err]; cbn.
    + destruct (reader_next _) as [rs|] eqn:En; [|destruct Hb as [c Hb]]; rewrite Hb; clear Hb.
      * apply reader_next_range in En. cbn in En. destruct En as [->|[->| ->]]; tun_move.
      * destruct (closeWithErr_eq (set_in t r now) (Some c)) as [c' ->]. tun_move.
    + destruct (closeWithErr_eq t (Some (ErrFrame err))) as [c' Hc]. rewrite Hc in Hb. rewrite Hb. tun_move.
  - unfold send_data in *. go_cases_in H0. tun_move. autorewrite with len. simpl. lia.
  - unfold send_closed in *. go_cases_in H0. tun_move.
  - apply writeFrame_begin_ok in H0 as (Hp & Hn & Hcl & ->). destruct Hwf as [Hw Hcap Hdc Hex Hh Hc].
    rewrite Hn, H in *. split; cbn in *; try done; [by destruct Hw|by eapply not_done_keep].
  - apply writeFrame_begin_err in H0 as (-> & Hn & Hcl). unfold reader_after.
    destruct (closeWithErr_eq t (Some errTunnelClosed)) as [c ->]. tun_move.
  - unfold readLoop_defer. tun_move.
  - by apply finish_write_wf.
  - destruct (heartbeat_tick_eq t seq now H) as (d & h & -> & Hh). destruct Hh as [->|[->| ->]]; tun_move.
  - tun_move.
  - apply writeFrame_begin_ok in H0 as (Hp & Hn & Hcl & ->). destruct Hwf as [Hw Hcap Hdc Hex Hh Hc].
    rewrite Hn, H in *. destruct Hw as [Hw _]. split; cbn in *; try done. split; [done|]. split; [done|].
    by destruct final.
  - apply writeFrame_begin_err in H0 as (-> & Hn & Hcl). unfold heart_after.
    destruct (closeWithErr_eq t (Some errTunnelClosed)) as [c ->]. destruct final; tun_move.
  - apply writeFrame_begin_ok in H as (Hp & Hn & Hcl & ->). destruct Hwf as [Hw Hcap Hdc Hex Hh Hc].
    rewrite Hn in *. split; cbn in *; try done. by destruct Hw.
  - unfold ReadPacket in *. rewrite H in H0. injection H0 as <- <- <-. tun_move. rewrite H in *. simpl in *. lia.
  - unfold Close. destruct (closeWithErr_eq t None) as [c ->]. tun_move.
  - tun_move.
  - unfold refresh_done. tun_move.
Qed.

(** * The streams of a run *)

Definition emitted_types : list byte := [pktData; pktDPDOut; pktDPDResp; pktDisconnect].
Definition image0 (f : byte * bytes) : bytes := frame_image 0 f.1 f.2.

Record tun_inv (in0 : Reader) (evs : list Event) (t : Tunnel) : Prop := {
  ti_wf : tun_wf t;
  ti_stream : exists s cut, rd_data in0 = s ++ rd_data (tn_in t) ++ cut /\ stream_image (frames_in evs) s
    /\ (cut <> [] -> tn_closed t = true);
  ti_data : exists dropped, payloads_of pktData (frames_in evs)
      = received evs ++ tn_dataCh t ++ pending_data t ++ dropped
    /\ (dropped <> [] -> exited (tn_reader t) = true) /\ (length dropped <= 1)%nat;
  ti_echo : exists dropped, payloads_of pktDPDOut (frames_in evs)
      = payloads_of pktDPDResp (frames_out evs) ++ pending_echo t ++ dropped
    /\ (dropped <> [] -> exited (tn_reader t) = true) /\ (length dropped <= 1)%nat;
  ti_out : exists tail, tn_out t = concat (map image0 (frames_out evs)) ++ tail
    /\ (tail <> [] -> tn_closed t = true /\ tn_writer t = None);
  ti_types : Forall (fun f => payload_ok f.2 /\ f.1 ∈ emitted_types) (frames_out evs);
  ti_hold : forall p, tn_reader t = REcho p -> payload_ok p
}.

Lemma frame_bytes_image f : payload_ok (fl_payload f) -> frame_bytes f = image0 (fl_typ f, fl_payload f).
Proof.
  intros Hp. unfold frame_bytes, image0. rewrite encodeFrame_spec, decide_False by tauto.
  rewrite decide_False by (rewrite repeat_length; lia). cbn [fst snd].
  rewrite <- (length_frame_image 0 (fl_typ f) (fl_payload f)) at 1. apply take_app_length.
Qed.

Lemma payloads_of_app typ l k : payloads_of typ (l ++ k) = payloads_of typ l ++ payloads_of typ k.
Proof. unfold payloads_of. by rewrite filter_app, map_app. Qed.
Lemma payloads_of_one typ f : payloads_of typ [f] = if f.1 =? typ then [f.2] else [].
Proof.
  unfold payloads_of. rewrite filter_cons, filter_nil. destruct (Z.eqb_spec f.1 typ).
  - by rewrite decide_True.
  - by rewrite decide_False.
Qed.

(** A step without an event that leaves the streams and what the reader holds
    as they were. *)
Lemma tun_inv_quiet in0 evs t t' :
  tun_inv in0 evs t -> tun_wf t' -> tn_in t' = tn_in t -> tn_out t' = tn_out t -> tn_dataCh t' = tn_dataCh t ->
  pending_data t' = pending_data t -> pending_echo t' = pending_echo t ->
  (exited (tn_reader t) = true -> exited (tn_reader t') = true) ->
  (tn_closed t = true -> tn_closed t' = true) ->
  (tn_closed t = true -> tn_writer t = None -> tn_writer t' = None) ->
  (forall p, tn_reader t' = REcho p -> tn_reader t = REcho p) ->
  tun_inv in0 evs t'.
Proof.
  intros [Hwf (s & cut & Hs & Hsi & Hcut) (d1 & Hd1 & Hx1 & Hl1) (d2 & Hd2 & Hx2 & Hl2) (tl & Htl & Hcl) Hty Hho].
  intros Hwf' Ei Eo Ed Epd Epe Hex Hc Hw He. split; try done.
  - exists s, cut. rewrite Ei. auto.
  - exists d1. rewrite Ed, Epd. auto.
  - exists d2. rewrite Epe. auto.
  - exists tl. rewrite Eo. split; [done|]. intros H. destruct (Hcl H) as [H1 H2]. auto.
  - auto.
Qed.

Lemma newTunnel_inv cfg rw d now : tun_inv rw [] (newTunnel cfg rw d now).
Proof.
  split; cbn; try done.
  - apply newTunnel_wf.
  - exists [], []. split_and!; [by rewrite app_nil_r|constructor|done].
  - exists []. split_and!; [done|done|cbn; lia].
  - exists []. split_and!; [done|done|cbn; lia].
  - by exists [].
Qed.

Lemma pending_echo_set_writer t w : reader_writing (tn_reader t) = false -> pending_echo (set_writer t w) = pending_echo t.
Proof. unfold pending_echo. cbn. by destruct (tn_reader t). Qed.

Lemma wf_not_writing t : tun_wf t -> tn_writer t = None -> reader_writing (tn_reader t) = false.
Proof. intros [Hw _ _ _ _ _] E. rewrite E in Hw. by destruct Hw. Qed.

Lemma nil_unless {A} (d : list A) (b : bool) : (d <> [] -> b = true) -> b = false -> d = [].
Proof. destruct d; [done|]. intros H ->. by discriminate H. Qed.

Definition held_data (f : byte * bytes) : list bytes := if f.1 =? pktData then [f.2] else [].
Definition held_echo (f : byte * bytes) : list bytes := if f.1 =? pktDPDOut then [f.2] else [].

(** What an iteration that read [f] leaves behind. *)
Lemma readLoop_body_read t now typ p r :
  tn_reader t = RReading -> readFrame (tn_in t) frameHeaderLen readBufLen = Ok (typ, p, r) ->
  exists rs closed cause,
    readLoop_body t now = mkTunnel r (tn_out t) (tn_dataCh t) (tn_dataClosed t) closed cause now
      (tn_lastOutbound t) rs (tn_heart t) (tn_writer t) (tn_dtls t) (tn_dpdInterval t)
      (tn_keepaliveInterval t) (tn_idleTimeout t)
    /\ (tn_closed t = true -> closed = true) /\ rs <> RWriting
    /\ match rs with RSending q => [q] | _ => [] end = held_data (typ, p)
    /\ match rs with REcho q => [q] | _ => [] end = held_echo (typ, p).
Proof.
  intros Hr E. pose proof (readLoop_body_eq t now Hr) as Hb. rewrite E in Hb.
  unfold reader_next, held_data, held_echo in *. cbn [fst snd] in *.
  destruct (Z.eqb_spec typ pktData) as [->|Hn1].
  { rewrite Hb. do 3 eexists. split; [by unfold set_reader, set_in; cbn|]. done. }
  destruct (Z.eqb_spec typ pktDPDOut) as [->|Hn2].
  { rewrite Hb. do 3 eexists. split; [by unfold set_reader, set_in; cbn|]. done. }
  destruct ((_ || _) || _)%bool.
  - destruct Hb as [c ->]. destruct (closeWithErr_eq (set_in t r now) (Some c)) as [c' ->].
    do 3 eexists. split; [by unfold set_reader, set_in; cbn|]. done.
  - rewrite Hb. do 3 eexists. split; [by unfold set_reader, set_in; cbn|]. done.
Qed.

(** The reader's iteration: the frame it read extends the stream and is what
    it goes on to hold. *)
Lemma readLoop_body_inv in0 evs t now :
  bytes_ok (rd_data in0) -> tn_reader t = RReading -> tun_inv in0 evs t -> tun_wf (readLoop_body t now) ->
  tun_inv in0 (evs ++ option_list (EIn <$> frame_read t)) (readLoop_body t now).
Proof.
  intros Hok Hr Hinv Hwf'. unfold frame_read.
  destruct (readFrame _ _ _) as [[[typ p] r]|err] eqn:E; cbn [fmap option_fmap option_map option_list].
  2: { pose proof (readLoop_body_eq t now Hr) as Hb. rewrite E in Hb.
       rewrite app_nil_r. rewrite Hb in *. destruct (closeWithErr_eq t (Some (ErrFrame err))) as [c Hc]. rewrite Hc in *.
       apply (tun_inv_quiet _ _ _ _ Hinv Hwf'); cbn; unfold pending_data, pending_echo; cbn; rewrite ?Hr; done. }
  destruct (readLoop_body_read t now typ p r Hr E) as (rs & cl & ca & Hb & Hcl' & Hrw & Hdata & Hecho).
  rewrite Hb in *. clear Hb.
  destruct Hinv as [Hwf (s & cut & Hs & Hsi & Hcut) (d1 & Hd1 & Hx1 & Hl1) (d2 & Hd2 & Hx2 & Hl2) (tl & Htl & Hcl) Hty Hho].
  unfold pending_data, pending_echo in Hd1, Hd2. rewrite Hr in *.
  assert (d1 = []) as -> by by apply (nil_unless _ _ Hx1).
  assert (d2 = []) as -> by by apply (nil_unless _ _ Hx2).
  cbn [app] in Hd1, Hd2. rewrite app_nil_r in Hd1. rewrite app_nil_r in Hd2.
  assert (Hin : bytes_ok (rd_data (tn_in t))).
  { rewrite Hs in Hok. apply bytes_ok_app in Hok as [_ Hok]. by apply bytes_ok_app in Hok as [Hok _]. }
  destruct (tn_in t) as [din ein] eqn:Ein. apply readFrame_sound in E as (Hp & _ & z & Hd & _); [|done]. cbn [rd_data] in Hd, Hs.
  assert (Hfi : frames_in (evs ++ [EIn (typ, p)]) = frames_in evs ++ [(typ, p)]) by (unfold frames_in; by rewrite omap_app).
  assert (Hfo : frames_out (evs ++ [EIn (typ, p)]) = frames_out evs) by (unfold frames_out; rewrite omap_app; apply app_nil_r).
  assert (Hre : received (evs ++ [EIn (typ, p)]) = received evs) by (unfold received; rewrite omap_app; apply app_nil_r).
  change (option_list (Some (EIn (typ, p)))) with [EIn (typ, p)].
  split; rewrite ?Hfi, ?Hfo, ?Hre; cbn [tn_in tn_out tn_dataCh tn_closed tn_reader tn_writer]; try done.
  - exists (s ++ frame_image z typ p), cut. split_and!.
    + rewrite Hs, Hd. by rewrite <- !app_assoc.
    + exact (si_snoc _ s z (typ, p) Hsi).
    + auto.
  - exists []. split_and!; [|done|cbn; lia]. rewrite payloads_of_app, payloads_of_one, Hd1, app_nil_r, <- app_assoc.
    unfold pending_data. cbn [tn_reader]. by rewrite Hdata.
  - exists []. split_and!; [|done|cbn; lia]. rewrite payloads_of_app, payloads_of_one, Hd2, app_nil_r.
    unfold pending_echo. cbn [tn_reader tn_writer]. f_equal. rewrite <- Hecho at 1. by destruct rs.
  - exists tl. split; [done|]. intros H. destruct (Hcl H). auto.
  - intros q ->. unfold held_echo in Hecho. cbn in Hecho. case_match; by simplify_eq.
Qed.

(** The state a finished write leaves, with its caller's continuation. *)
Lemma finish_write_fields t f w now :
  let t' := finish_write t f w now in
  tn_in t' = tn_in t /\ tn_dataCh t' = tn_dataCh t /\ tn_writer t' = None
  /\ tn_out t' = tn_out t ++ match w with WriteOk => frame_bytes f | WriteFail n _ => take n (frame_bytes f) end
  /\ (tn_closed t = true -> tn_closed t' = true)
  /\ (w <> WriteOk -> tn_closed t' = true)
  /\ tn_reader t' = match fl_who f, w with
      | ByReader, WriteOk => RReading | ByReader, WriteFail _ _ => RReturn | _, _ => tn_reader t end.
Proof.
  destruct t as [? ? ? ? cl ? ? ? ? h ? ? ? ? ?].
  unfold finish_write, writeFrame_end, reader_after, heart_after, closeWithErr. cbn.
  destruct w, (fl_who f), cl; cbn; try (by split_and!); destruct h as [| |? []|]; cbn; by split_and!.
Qed.

Lemma heart_frame_type seq final : (heart_frame seq final).1 = pktDisconnect \/ (heart_frame seq final).1 = pktDPDOut.
Proof. destruct final; auto. Qed.

Lemma finish_write_inv in0 evs t f w now :
  tn_writer t = Some f -> tun_inv in0 evs t ->
  tun_inv in0 (evs ++ option_list (write_event f w)) (finish_write t f w now).
Proof.
  intros Hf Hinv. pose proof (finish_write_wf t f w now Hf (ti_wf _ _ _ Hinv)) as Hwf'.
  destruct (finish_write_fields t f w now) as (Fi & Fd & Fw & Fo & Fc & Fe & Fr).
  destruct Hinv as [Hwf (s & cut & Hs & Hsi & Hcut) (d1 & Hd1 & Hx1 & Hl1) (d2 & Hd2 & Hx2 & Hl2) (tl & Htl & Hcl) Hty Hho].
  pose proof (tw_writer _ Hwf) as Hw. rewrite Hf in Hw. destruct Hw as [Hp Hw].
  assert (tl = []) as -> by (destruct tl; [done|destruct Hcl as [_ Hcl]; congruence]). rewrite app_nil_r in Htl.
  assert (Hev : frames_in (evs ++ option_list (write_event f w)) = frames_in evs
    /\ received (evs ++ option_list (write_event f w)) = received evs
    /\ frames_out (evs ++ option_list (write_event f w))
       = frames_out evs ++ match w with WriteOk => [(fl_typ f, fl_payload f)] | _ => [] end).
  { unfold frames_in, received, frames_out. rewrite !omap_app. destruct w; cbn; by rewrite !app_nil_r. }
  destruct Hev as (Efi & Ere & Efo). rewrite (frame_bytes_image f Hp) in Fo.
  split; rewrite ?Efi, ?Ere; try done.
  - exists s, cut. rewrite Fi. auto.
  - exists d1. rewrite Fd. unfold pending_data in *. rewrite Fr. destruct (fl_who f); try done.
    destruct Hw as [Hw _]. destruct (tn_reader t); try done.
    assert (d1 = []) as -> by by apply (nil_unless _ _ Hx1). by destruct w.
  - unfold pending_echo in *. rewrite Efo, Fr, payloads_of_app. rewrite Hf in Hd2.
    assert (Hother : fl_typ f <> pktDPDResp -> reader_writing (tn_reader t) = false ->
      exists dropped, payloads_of pktDPDOut (frames_in evs)
      = (payloads_of pktDPDResp (frames_out evs)
          ++ payloads_of pktDPDResp match w with WriteOk => [(fl_typ f, fl_payload f)] | _ => [] end)
        ++ match tn_reader t with REcho p => [p]
           | RWriting => match tn_writer (finish_write t f w now) with Some f => [fl_payload f] | None => [] end
           | _ => [] end ++ dropped
      /\ (dropped <> [] -> exited (tn_reader t) = true) /\ (length dropped <= 1)%nat).
    { intros Ht Hrw. exists d2. split; [|done].
      assert (payloads_of pktDPDResp match w with WriteOk => [(fl_typ f, fl_payload f)] | _ => [] end = []) as ->.
      { destruct w; [|done]. rewrite payloads_of_one. cbn [fst]. by destruct (Z.eqb_spec (fl_typ f) pktDPDResp). }
      rewrite app_nil_r, Hd2. by destruct (tn_reader t). }
    destruct (fl_who f).
    + destruct Hw as (Hw & _ & Ht). destruct (tn_reader t); try done.
      assert (d2 = []) as -> by by apply (nil_unless _ _ Hx2). destruct w.
      * exists []. rewrite payloads_of_one, Ht. cbn. rewrite Hd2, !app_nil_r. split_and!; [done|done|lia].
      * exists [fl_payload f]. cbn. rewrite Hd2, !app_nil_r. split_and!; [done|done|lia].
    + destruct Hw as (Hw & Hh). apply Hother; [|done]. destruct (heart_writing _) as [[seq fin]|]; [|done].
      destruct fin; injection Hh as Ht _; by rewrite <- Ht.
    + destruct Hw as (Hw & _ & Ht). apply Hother; [|done]. by rewrite Ht.
  - rewrite Efo, map_app, concat_app, Fo, Htl. destruct w as [|n e].
    + exists []. cbn. by rewrite !app_nil_r.
    + exists (take n (image0 (fl_typ f, fl_payload f))). rewrite app_nil_r. auto.
  - rewrite Efo. apply Forall_app. split; [done|]. destruct w; [|done]. apply Forall_singleton. split; [done|].
    cbn [fst]. destruct (fl_who f).
    + destruct Hw as (_ & _ & ->). by decide_closed.
    + destruct Hw as (_ & Hh). destruct (heart_writing _) as [[seq fin]|]; [|done].
      destruct fin; injection Hh as Ht _; rewrite <- Ht; decide_closed.
    + destruct Hw as (_ & _ & ->). decide_closed.
  - intros p. rewrite Fr. destruct (fl_who f), w; try done; apply Hho.
Qed.

(** The queue gains what the reader held, or loses its head to a caller. *)
Lemma send_data_inv in0 evs t pkt t' :
  tn_reader t = RSending pkt -> send_data t pkt = Some t' -> tun_inv in0 evs t -> tun_wf t' -> tun_inv in0 evs t'.
Proof.
  intros Hr Hs [Hwf Hst (d1 & Hd1 & Hx1 & Hl1) (d2 & Hd2 & Hx2 & Hl2) Ho Hty Hho] Hwf'.
  unfold send_data in Hs. case_match; [|done]. injection Hs as <-.
  unfold pending_data, pending_echo in *. rewrite Hr in *. split; try done.
  - exists d1. cbn. rewrite Hd1, <- !app_assoc. split_and!; [done| |done].
    intros Hn. by specialize (Hx1 Hn).
  - exists d2. cbn. split_and!; [done| |done]. intros Hn. by specialize (Hx2 Hn).
Qed.

Lemma recv_inv in0 evs t pkt q :
  tn_dataCh t = pkt :: q -> tun_inv in0 evs t -> tun_wf (set_dataCh t q (tn_dataClosed t)) ->
  tun_inv in0 (evs ++ [ERecv pkt]) (set_dataCh t q (tn_dataClosed t)).
Proof.
  intros Hq [Hwf Hst (d1 & Hd1 & Hx1 & Hl1) (d2 & Hd2 & Hx2 & Hl2) Ho Hty Hho] Hwf'.
  assert (frames_in (evs ++ [ERecv pkt]) = frames_in evs) as Efi by (unfold frames_in; rewrite omap_app; apply app_nil_r).
  assert (frames_out (evs ++ [ERecv pkt]) = frames_out evs) as Efo by (unfold frames_out; rewrite omap_app; apply app_nil_r).
  assert (received (evs ++ [ERecv pkt]) = received evs ++ [pkt]) as Ere by (unfold received; by rewrite omap_app).
  split; rewrite ?Efi, ?Efo, ?Ere; try done.
  - exists d1. rewrite Hd1, Hq, <- !app_assoc. done.
  - exists d2. done.
Qed.

(** The reader gives up what it holds: the tunnel has closed. *)
Lemma give_up_inv in0 evs t t' :
  tun_inv in0 evs t -> tun_wf t' -> tn_in t' = tn_in t -> tn_out t' = tn_out t -> tn_dataCh t' = tn_dataCh t ->
  (exists p, tn_reader t = RSending p \/ tn_reader t = REcho p) -> tn_reader t' = RReturn ->
  tn_closed t' = true -> tn_writer t' = tn_writer t -> tun_inv in0 evs t'.
Proof.
  intros [Hwf (s & cut & Hs & Hsi & Hcut) (d1 & Hd1 & Hx1 & Hl1) (d2 & Hd2 & Hx2 & Hl2) (tl & Htl & Hcl) Hty Hho].
  intros Hwf' Ei Eo Ed [p Hr] Er Ec Ew. unfold pending_data, pending_echo in *.
  assert (exited (tn_reader t) = false) as Hnx by by destruct Hr as [->| ->].
  assert (d1 = []) as -> by by apply (nil_unless _ _ Hx1). assert (d2 = []) as -> by by apply (nil_unless _ _ Hx2).
  split; try done.
  - exists s, cut. by rewrite Ei.
  - exists (match tn_reader t with RSending q => [q] | _ => [] end). unfold pending_data. rewrite Ed, Er, Hd1, app_nil_r.
    split_and!; [done|done|]. destruct Hr as [->| ->]; cbn; lia.
  - exists (match tn_reader t with REcho q => [q] | _ => [] end). unfold pending_echo. rewrite Er, Hd2, app_nil_r.
    destruct Hr as [->| ->]; split_and!; cbn; try done; lia.
  - exists tl. rewrite Eo, Ew. split; [done|]. intros H. by destruct (Hcl H).
  - intros q. by rewrite Er.
Qed.

Lemma tun_step_inv in0 evs t a e t' :
  bytes_ok (rd_data in0) -> tun_inv in0 evs t -> tun_step a e t t' -> tun_inv in0 (evs ++ option_list e) t'.
Proof.
  intros Hok Hinv Hs. pose proof (ti_wf _ _ _ Hinv) as Hwf. pose proof (tun_step_wf _ _ _ _ Hs Hwf) as Hwf'.
  destruct Hs; cbn [option_list]; rewrite ?app_nil_r.
  - by apply readLoop_body_inv.
  - by eapply send_data_inv.
  - unfold send_closed in *. go_cases_in H0. apply (give_up_inv _ _ t); cbn; eauto.
  - apply writeFrame_begin_ok in H0 as (Hp & Hn & Hcl & ->).
    apply (tun_inv_quiet _ _ _ _ Hinv Hwf'); cbn; unfold pending_data, pending_echo; cbn; rewrite ?H; try done.
    by rewrite Hcl.
  - apply writeFrame_begin_err in H0 as (-> & Hn & Hcl). unfold reader_after in *.
    destruct (closeWithErr_eq t (Some errTunnelClosed)) as [c Hc]. rewrite Hc in *.
    apply (give_up_inv _ _ t); cbn; eauto.
  - apply (tun_inv_quiet _ _ _ _ Hinv Hwf'); cbn; unfold pending_data, pending_echo; cbn; rewrite ?H; done.
  - by apply finish_write_inv.
  - destruct (heartbeat_tick_eq t seq now H) as (d & h & Ht & _). rewrite Ht in *. by apply (tun_inv_quiet _ _ t).
  - by apply (tun_inv_quiet _ _ t).
  - apply writeFrame_begin_ok in H0 as (Hp & Hn & Hcl & ->). pose proof (wf_not_writing _ Hwf Hn) as Hrw.
    apply (tun_inv_quiet _ _ _ _ Hinv Hwf'); cbn; try done; [by apply (pending_echo_set_writer t)|by rewrite Hcl].
  - apply writeFrame_begin_err in H0 as (-> & Hn & Hcl). unfold heart_after in *.
    destruct (closeWithErr_eq t (Some errTunnelClosed)) as [c Hc]. rewrite Hc in *.
    destruct final; by apply (tun_inv_quiet _ _ t).
  - apply writeFrame_begin_ok in H as (Hp & Hn & Hcl & ->). pose proof (wf_not_writing _ Hwf Hn) as Hrw.
    apply (tun_inv_quiet _ _ _ _ Hinv Hwf'); cbn; try done; [by apply (pending_echo_set_writer t)|by rewrite Hcl].
  - unfold ReadPacket in H0. rewrite H in H0. injection H0 as <- <- <-. by apply recv_inv.
  - unfold Close in *. destruct (closeWithErr_eq t None) as [c Hc]. rewrite Hc in *. by apply (tun_inv_quiet _ _ t).
  - destruct Hinv as [_ (s & cut & Hs & Hsi & Hcut) Hd He Ho Hty Hho]. split; try done.
    exists s, (drop n (rd_data (tn_in t)) ++ cut). cbn. split_and!; [|done|by rewrite H].
    by rewrite (app_assoc (take _ _)), take_drop.
  - by apply (tun_inv_quiet _ _ t).
Qed.

Lemma tun_steps_inv cfg rw d now act evs t :
  bytes_ok (rd_data rw) -> tun_steps (newTunnel cfg rw d now) act evs t -> tun_inv rw evs t.
Proof. intros Hok. induction 1; [apply newTunnel_inv|by eapply tun_step_inv]. Qed.

(** ** What the client reads *)

Definition scratch : bytes := repeat 0 (frameHeaderLen + Z.to_nat maxFramePayload).
Lemma readFrames_images fs tail e fuel :
  Forall (fun f => payload_ok f.2 /\ f.1 ∈ emitted_types) fs ->
  readFrames (length fs + fuel) (mkReader (concat (map image0 fs) ++ tail) e) readBufLen
  = (fs ++ (readFrames fuel (mkReader tail e) readBufLen).1, (readFrames fuel (mkReader tail e) readBufLen).2).
Proof.
  intros Hfs. assert (Hsend : Forall (sendable scratch readBufLen) fs).
  { apply (Forall_impl _ _ _ Hfs). intros f [Hp _]. unfold sendable, scratch, readBufLen. rewrite repeat_length.
    unfold payload_ok, maxFramePayload, frameHeaderLen in *. split_and!; [done|lia|lia]. }
  rewrite <- (readFrames_wire fs scratch readBufLen tail e fuel Hsend). do 3 f_equal.
  f_equal. apply map_ext_in. intros f Hin%list_elem_of_In. symmetry. apply (wire_image scratch readBufLen).
  by eapply Forall_forall in Hsend.
Qed.

(** C6: The tunnel carries packets in order and answers every probe: in every
    interleaving, the frames read are the prefix of the client's stream consumed
    so far; the packets handed to [ReadPacket], those queued and the one in hand
    are those frames' data payloads in order, with at most one given up when the
    tunnel closes; the DPD responses written are the payloads of the requests
    read, in order; and the client reads back exactly the frames written, none
    of them a keepalive, and the end of the stream while the tunnel is open. *)
Theorem tunnel_streams cfg rw d now act evs t (Hok : bytes_ok (rd_data rw))
  (Hrun : tun_steps (newTunnel cfg rw d now) act evs t) :
  (exists s cut, rd_data rw = s ++ rd_data (tn_in t) ++ cut /\ stream_image (frames_in evs) s
     /\ (tn_closed t = false -> cut = []))
  /\ (exists dropped, payloads_of pktData (frames_in evs) = received evs ++ tn_dataCh t ++ pending_data t ++ dropped
        /\ (length dropped <= 1)%nat /\ (tn_closed t = false -> dropped = []))
  /\ (exists dropped, payloads_of pktDPDOut (frames_in evs)
          = payloads_of pktDPDResp (frames_out evs) ++ pending_echo t ++ dropped
        /\ (length dropped <= 1)%nat /\ (tn_closed t = false -> dropped = []))
  /\ (length (tn_dataCh t) <= 64)%nat
  /\ pktKeepalive ∉ map fst (frames_out evs)
  /\ readFrames (length (frames_out evs)) (mkReader (tn_out t) EOF) readBufLen = (frames_out evs, None)
  /\ (tn_closed t = false ->
      readFrames (S (length (frames_out evs))) (mkReader (tn_out t) EOF) readBufLen
      = (frames_out evs, Some (ErrIO EOF))).
Proof.
  destruct (tun_steps_inv _ _ _ _ _ _ _ Hok Hrun) as [Hwf (s & cut & Hs & Hsi & Hcut) (d1 & Hd1 & Hx1 & Hl1)
    (d2 & Hd2 & Hx2 & Hl2) (tl & Htl & Hcl) Hty _].
  assert (Hnil : forall {A} (l : list A), (l <> [] -> tn_closed t = true) -> tn_closed t = false -> l = [])
    by (intros A l; apply nil_unless).
  pose proof (tw_exited _ Hwf) as Hex. split_and!.
  - exists s, cut. eauto.
  - exists d1. split_and!; auto.
  - exists d2. split_and!; auto.
  - apply (tw_cap _ Hwf).
  - intros (f & Hf & Hin)%list_elem_of_fmap. eapply Forall_forall in Hty as [_ Ht]; [|done].
    rewrite <- Hf in Ht. revert Ht. decide_closed.
  - rewrite Htl, <- (Nat.add_0_r (length _)), readFrames_images by done. cbn. by rewrite app_nil_r.
  - intros Hop. assert (tl = []) as -> by (apply (Hnil _ tl); [|done]; intros H; by destruct (Hcl H)).
    rewrite Htl, <- Nat.add_1_r, readFrames_images by done. cbn. by rewrite app_nil_r.
Qed.

(** * Closing *)

Definition writing (t : Tunnel) : nat := match tn_writer t with Some _ => 1 | None => 0 end.

Lemma closed_finish t f w now : tn_closed t = true -> tn_closeErr (finish_write t f w now) = tn_closeErr t.
Proof.
  destruct t as [? ? ? ? cl ? ? ? ? h ? ? ? ? ?]. cbn. intros ->.
  unfold finish_write, writeFrame_end, reader_after, heart_after, closeWithErr. cbn.
  destruct w, (fl_who f); cbn; try done; destruct h as [| |? []|]; done.
Qed.

Lemma closeWithErr_closed t c : tn_closed t = true -> closeWithErr t c = t.
Proof. unfold closeWithErr. by intros ->. Qed.

Lemma closed_begin t who typ p t' : tn_closed t = true -> writeFrame_begin t who typ p = Some (Ok t') -> False.
Proof. intros Hc (_ & _ & Hn & _)%writeFrame_begin_ok. congruence. Qed.

Ltac closed_quiet :=
  split_and!; [done|done|unfold writing; cbn; repeat case_match; simplify_eq/=; lia|done].

(** A step of a closed tunnel: it stays closed with its cause, and only a
    write already under way touches the wire. *)
Lemma closed_step a e t t' :
  tn_closed t = true -> tun_step a e t t' ->
  tn_closed t' = true /\ tn_closeErr t' = tn_closeErr t
  /\ (writing t' + length (frames_out (option_list e)) <= writing t)%nat
  /\ (writing t = 0%nat -> tn_out t' = tn_out t).
Proof.
  intros Hc Hs. destruct Hs; try (exfalso; by eapply closed_begin).
  - pose proof (readLoop_body_eq t now H) as Hb. unfold frame_read.
    destruct (readFrame _ _ _) as [[[typ p] r]|err]; cbn.
    + destruct (reader_next _); [|destruct Hb as [c Hb]]; rewrite Hb, ?closeWithErr_closed by done; closed_quiet.
    + rewrite Hb, closeWithErr_closed by done. closed_quiet.
  - unfold send_data in *. go_cases_in H0. closed_quiet.
  - unfold send_closed in *. go_cases_in H0. closed_quiet.
  - unfold reader_after. rewrite closeWithErr_closed by done. closed_quiet.
  - closed_quiet.
  - destruct (finish_write_fields t f w now) as (_ & _ & Fw & _ & Fc & _ & _).
    split_and!; [auto|by apply closed_finish| |].
    + unfold writing. rewrite Fw, H. destruct w; cbn; lia.
    + unfold writing. by rewrite H.
  - destruct (heartbeat_tick_eq t seq now H) as (d & h & -> & _). closed_quiet.
  - closed_quiet.
  - unfold heart_after. rewrite !closeWithErr_closed by done. destruct final; closed_quiet.
  - unfold ReadPacket in *. rewrite H in *. simplify_eq. closed_quiet.
  - unfold Close. rewrite closeWithErr_closed by done. closed_quiet.
  - closed_quiet.
  - closed_quiet.
Qed.

(** C19: Closing is final: once a tunnel is closed, whatever runs afterwards
    leaves it closed with the cause it was first closed with, writes at most the
    one frame whose writer had already passed the check, and nothing at all when
    no write was under way. *)
Theorem close_is_final t act evs t' (Hc : tn_closed t = true) (Hrun : tun_steps t act evs t') :
  tn_closed t' = true /\ tn_closeErr t' = tn_closeErr t
  /\ (length (frames_out evs) <= writing t)%nat
  /\ (writing t = 0%nat -> tn_out t' = tn_out t).
Proof.
  enough (tn_closed t' = true /\ tn_closeErr t' = tn_closeErr t
    /\ (writing t' + length (frames_out evs) <= writing t)%nat
    /\ (writing t = 0%nat -> tn_out t' = tn_out t)) as (? & ? & ? & ?) by (split_and!; auto; lia).
  induction Hrun as [|act evs t1 a e t2 Hrun IH Hs]; [cbn; split_and!; try done; lia|].
  destruct IH as (Hc1 & He1 & Hw1 & Ho1). destruct (closed_step _ _ _ _ Hc1 Hs) as (Hc2 & He2 & Hw2 & Ho2).
  split_and!; [done|congruence| |].
  - unfold frames_out in *. rewrite omap_app, length_app. lia.
  - intros H. rewrite Ho2, Ho1 by lia. done.
Qed.

(** * The reader ends *)

Definition reader_rank (r : RState) : nat :=
  match r with REcho _ => 5 | RSending _ => 4 | RWriting => 4 | RReading => 3 | RReturn => 1 | RDone => 0 end.
Definition reader_measure (t : Tunnel) : nat := length (rd_data (tn_in t)) + reader_rank (tn_reader t).

Lemma readFrame_shorter r typ p r' :
  readFrame r frameHeaderLen readBufLen = Ok (typ, p, r') ->
  (length (rd_data r') + frameHeaderLen <= length (rd_data r))%nat.
Proof.
  unfold readFrame. change (frameHeaderLen <? frameHeaderLen)%nat with false. cbv iota.
  destruct (read_full r frameHeaderLen) as [[hdr r1]|] eqn:E; [|done].
  apply read_full_ok in E as (Hl & -> & _). rewrite length_app, Hl.
  destruct (_ || _)%bool; [done|]. destruct (_ =? 0)%nat; [intros [= <- <- <-]; lia|].
  destruct (_ <? _)%nat; [done|]. destruct (read_full r1 _) as [[q r2]|] eqn:E2; [|done].
  apply read_full_ok in E2 as (_ & -> & _). intros [= <- <- <-]. rewrite length_app. lia.
Qed.

Lemma reader_measure_step a e t t' :
  tun_wf t -> tun_step a e t t' ->
  match a with AReader => reader_measure t' < reader_measure t | _ => reader_measure t' <= reader_measure t end%nat.
Proof.
  intros Hwf Hs. unfold reader_measure. destruct Hs.
  - pose proof (readLoop_body_eq t now H) as Hb. rewrite H.
    destruct (readFrame _ _ _) as [[[typ p] r]|err] eqn:E.
    + apply readFrame_shorter in E. unfold frameHeaderLen in E.
      destruct (reader_next _) as [rs|] eqn:En; [|destruct Hb as [c Hb]]; rewrite Hb.
      * apply reader_next_range in En. cbn. destruct En as [->|[->| ->]]; cbn; lia.
      * destruct (closeWithErr_eq (set_in t r now) (Some c)) as [c' ->]. cbn. lia.
    + rewrite Hb. destruct (closeWithErr_eq t (Some (ErrFrame err))) as [c' ->]. cbn. lia.
  - unfold send_data in *. rewrite H. go_cases_in H0. cbn. lia.
  - unfold send_closed in *. rewrite H. go_cases_in H0. cbn. lia.
  - apply writeFrame_begin_ok in H0 as (_ & _ & _ & ->). rewrite H. cbn. lia.
  - rewrite H. unfold reader_after. destruct (closeWithErr_eq t (Some e)) as [c ->]. cbn. lia.
  - rewrite H. cbn. lia.
  - destruct (finish_write_fields t f w now) as (-> & _ & _ & _ & _ & _ & ->).
    pose proof (tw_writer _ Hwf) as Hw. rewrite H in Hw. destruct Hw as [_ Hw].
    destruct (fl_who f); cbn; try lia. destruct Hw as (Hw & _). destruct (tn_reader t); try done. destruct w; cbn; lia.
  - destruct (heartbeat_tick_eq t seq now H) as (d & h & -> & _). cbn. lia.
  - cbn. lia.
  - apply writeFrame_begin_ok in H0 as (_ & _ & _ & ->). cbn. lia.
  - unfold heart_after. destruct (closeWithErr_eq t (Some e)) as [c Hc], (closeWithErr_eq t (Some errTunnelClosed)) as [c' Hc'].
    rewrite Hc, Hc'. destruct final; cbn; lia.
  - apply writeFrame_begin_ok in H as (_ & _ & _ & ->). cbn. lia.
  - unfold ReadPacket in *. rewrite H in *. simplify_eq. cbn. lia.
  - unfold Close. destruct (closeWithErr_eq t None) as [c ->]. cbn. lia.
  - cbn. rewrite length_take. lia.
  - cbn. lia.
Qed.

#[export] Instance Actor_eq_dec : EqDecision Actor.
Proof. solve_decision. Defined.
Definition reader_moves (act : list Actor) : nat := length (filter (fun a => a = AReader) act).
Definition reader_can_move (t : Tunnel) : Prop := exists e t', tun_step AReader e t t'.

Lemma reader_moves_bound t0 act evs t :
  tun_wf t0 -> tun_steps t0 act evs t ->
  tun_wf t /\ (reader_moves act + reader_measure t <= reader_measure t0)%nat.
Proof.
  intros Hwf. induction 1 as [|act evs t a e t' Hrun [Hwf' IH] Hs]; [done|].
  split; [by eapply tun_step_wf|]. apply reader_measure_step in Hs; [|done].
  unfold reader_moves in *. rewrite filter_app, length_app, filter_cons, filter_nil.
  destruct a; [rewrite decide_True by done|rewrite decide_False by done..]; cbn in *; lia.
Qed.

(** The echo's [writeFrame] goes on or fails as soon as [writeMu] is free. *)
Lemma echo_can_move t p : tn_reader t = REcho p -> payload_ok p -> tn_writer t = None -> reader_can_move t.
Proof.
  intros Hr Hp Hw. unfold reader_can_move.
  assert (Hb : writeFrame_begin t ByReader pktDPDResp p
    = if tn_closed t then Some (Err (WTun errTunnelClosed)) else Some (Ok (set_writer t (Some (mkInFlight ByReader pktDPDResp p))))).
  { unfold writeFrame_begin. rewrite Hw. unfold payload_ok in Hp. case_match; simpl_bool; [lia|done]. }
  destruct (tn_closed t); eauto using tun_step.
Qed.

(** The reader moves now, or after one step of another goroutine. *)
Lemma reader_unblocked t :
  tun_wf t -> (forall p, tn_reader t = REcho p -> payload_ok p) -> tn_reader t <> RDone ->
  reader_can_move t \/ exists a e t', tun_step a e t t' /\ reader_can_move t'.
Proof.
  intros Hwf Hho Hnd. unfold reader_can_move. destruct (tn_reader t) as [|pkt|p| | |] eqn:Er; try done.
  - left. do 2 eexists. by apply (ts_read t 0).
  - destruct (tn_dataCh t) as [|pkt0 q] eqn:Eq.
    + left. exists None. eexists. eapply ts_send; [done|]. unfold send_data. by rewrite Eq.
    + destruct (decide (length (pkt0 :: q) < dataChCap)%nat).
      * left. exists None. eexists. eapply ts_send; [done|]. unfold send_data. rewrite Eq. by rewrite (proj2 (Nat.ltb_lt _ _)).
      * right. exists AOther, (Some (ERecv pkt0)), (set_dataCh t q (tn_dataClosed t)). split.
        { eapply (ts_recv t 0); [done|]. unfold ReadPacket. by rewrite Eq. }
        exists None. eexists. eapply ts_send; [done|]. unfold send_data. cbn [tn_dataCh set_dataCh].
        pose proof (tw_cap _ Hwf) as Hcap. rewrite Eq in Hcap. cbn [length] in Hcap. by rewrite (proj2 (Nat.ltb_lt _ _)) by lia.
  - destruct (tn_writer t) as [f|] eqn:Ew.
    + right. exists (who_actor (fl_who f)). do 2 eexists. split; [by apply (ts_finish t f WriteOk 0)|].
      destruct (finish_write_fields t f WriteOk 0) as (_ & _ & Fw & _ & _ & _ & Fr).
      pose proof (tw_writer _ Hwf) as Hw. rewrite Ew in Hw. destruct Hw as [_ Hw]. rewrite Er in Fr.
      apply (echo_can_move _ p); [|by auto|done]. rewrite Fr. destruct (fl_who f); try done. destruct Hw as [Hw _]. by rewrite Er in Hw.
    + left. by apply (echo_can_move t p); auto.
  - left. pose proof (tw_writer _ Hwf) as Hw. destruct (tn_writer t) as [f|] eqn:Ew.
    + destruct Hw as [_ Hw]. destruct (fl_who f) eqn:Ewho.
      * do 2 eexists. pose proof (ts_finish t f WriteOk 0 Ew) as Hs. rewrite Ewho in Hs. exact Hs.
      * destruct Hw as [Hw _]. by rewrite Er in Hw.
      * destruct Hw as [Hw _]. by rewrite Er in Hw.
    + destruct Hw as [Hw _]. by rewrite Er in Hw.
  - left. do 2 eexists. by apply ts_defer.
Qed.

(** C15: The read loop terminates: on a client stream of [n] bytes the reader
    takes at most [n + 3] steps whatever the other goroutines do in between; it
    is never stuck, since it can move at once or after a single step of another
    goroutine, a packet received or a write finished; and when it has returned
    the tunnel is closed and no [ReadPacket] call blocks any more. *)
Theorem readLoop_terminates cfg rw d now act evs t (Hok : bytes_ok (rd_data rw))
  (Hrun : tun_steps (newTunnel cfg rw d now) act evs t) :
  (reader_moves act <= length (rd_data rw) + 3)%nat
  /\ (tn_reader t <> RDone -> reader_can_move t \/ exists a e t', tun_step a e t t' /\ reader_can_move t')
  /\ (tn_reader t = RDone -> tn_closed t = true /\ forall plen, is_Some (ReadPacket t plen true)).
Proof.
  pose proof (tun_steps_inv _ _ _ _ _ _ _ Hok Hrun) as Hinv. pose proof (ti_wf _ _ _ Hinv) as Hwf. split_and!.
  - destruct (reader_moves_bound _ _ _ _ (newTunnel_wf cfg rw d now) Hrun) as [_ Hb].
    unfold reader_measure in Hb. cbn in Hb. lia.
  - intros Hnd. apply reader_unblocked; [done|apply (ti_hold _ _ _ Hinv)|done].
  - intros Hd. split; [apply (tw_exited _ Hwf); by rewrite Hd|]. intros plen. unfold ReadPacket.
    rewrite (proj2 (tw_dataClosed _ Hwf) Hd). destruct (tn_dataCh t); eauto.
Qed.

(** * The heartbeat *)

Lemma heartbeatInterval_bounds t :
  0 <= tn_dpdInterval t -> 0 <= tn_keepaliveInterval t ->
  2 * Second <= heartbeatInterval t
  /\ heartbeatInterval t <= Z.max (2 * Second) (tn_keepaliveInterval t / 4)
  /\ (0 < tn_dpdInterval t -> heartbeatInterval t <= Z.max (2 * Second) (tn_dpdInterval t / 4)).
Proof.
  intros Hd Hk. unfold heartbeatInterval. rewrite !Z.quot_div_nonneg by lia. repeat case_match; simpl_bool; lia.
Qed.

Lemma dpd_payload_seq seq seq' :
  0 <= seq < 2 ^ 32 -> 0 <= seq' < 2 ^ 32 -> dpd_payload seq = dpd_payload seq' -> seq = seq'.
Proof.
  intros H H' E. unfold dpd_payload, u8 in E. injection E as E3 E2 E1 E0.
  rewrite !Z.shiftr_div_pow2 in E1, E2, E3 by lia.
  Z.to_euclidean_division_equations; lia.
Qed.

(** The heartbeat keeps its promises: its interval lies between two seconds
    and a quarter of the keepalive and DPD intervals; a tick after the peer was
    silent for longer than the idle timeout sends a disconnect, after which the
    tunnel is closed whatever the write does; otherwise a tick sends a request,
    with the next counter, exactly when nothing was written for an interval; and
    the goroutine ends only with the tunnel closed. *)
Theorem heartbeat_promises cfg (Hcfg : config_ok cfg) t seq now
  (Hd : tn_dpdInterval t = DPDInterval cfg * Second) (Hk : tn_keepaliveInterval t = KeepaliveInterval cfg * Second)
  (Hseq : tn_heart t = HWaiting seq) :
  (2 * Second <= heartbeatInterval t
   <= Z.max (2 * Second) (Z.min (tn_keepaliveInterval t / 4) (tn_dpdInterval t / 4)))
  /\ (0 < tn_idleTimeout t < now - tn_lastInbound t ->
        tn_heart (heartbeat_tick t seq now) = HSending seq true)
  /\ (~ 0 < tn_idleTimeout t < now - tn_lastInbound t ->
        tn_heart (heartbeat_tick t seq now)
        = if decide (heartbeatInterval t <= now - tn_lastOutbound t) then HSending (u32 (seq + 1)) false else HWaiting seq)
  /\ (forall t1 s final err, tn_heart t1 = HWriting s final ->
        tn_heart (heart_after t1 s final err) = (if final then HDone else match err with Some _ => HDone | None => HWaiting s end)
        /\ (tn_heart (heart_after t1 s final err) = HDone -> tn_closed (heart_after t1 s final err) = true)).
Proof.
  destruct Hcfg as [H1 H2 _ _ _ _].
  assert (0 < tn_dpdInterval t /\ 0 < tn_keepaliveInterval t) as [Hd' Hk'] by (unfold Second in *; lia).
  split_and!.
  - by apply heartbeatInterval_bounds; lia.
  - destruct (heartbeatInterval_bounds t) as (_ & Hb1 & Hb2); [lia..|]. specialize (Hb2 Hd'). lia.
  - intros Hidle. unfold heartbeat_tick. destruct (maybeRefresh_eq t now) as [d Hr]. rewrite Hr.
    change (tn_idleTimeout (set_dtls t d)) with (tn_idleTimeout t).
    destruct ((_ <? _) && _)%bool eqn:E; [done|]. apply andb_false_iff in E as [E|E]; simpl_bool; lia.
  - intros Hidle. unfold heartbeat_tick. destruct (maybeRefresh_eq t now) as [d Hr]. rewrite Hr.
    change (tn_idleTimeout (set_dtls t d)) with (tn_idleTimeout t).
    change (heartbeatInterval (set_dtls t d)) with (heartbeatInterval t).
    destruct ((_ <? _) && _)%bool eqn:E; simpl_bool; [lia|]. case_match; simpl_bool.
    + by rewrite decide_True by lia.
    + by rewrite decide_False by lia.
  - intros t1 s final err _. unfold heart_after.
    destruct (closeWithErr_eq t1 (Some errTunnelClosed)) as [c ->].
    destruct final; [done|]. destruct err as [e|]; [|done]. by destruct (closeWithErr_eq t1 (Some e)) as [c' ->].
Qed.

(** While another goroutine's write is under way the heartbeat stands still,
    its disconnect on the idle timeout included: a write that does not return
    keeps the timeout from closing the tunnel. *)
Lemma idle_timeout_waits t seq f a e t' :
  tn_heart t = HSending seq true -> tn_writer t = Some f -> fl_who f <> ByHeart ->
  tun_step a e t t' -> a <> AHeart.
Proof.
  intros Hh Hw Hwho Hs ->. inversion Hs; subst; try congruence; unfold writeFrame_begin in *; rewrite Hw in *.
  - by destruct (fl_who f0) eqn:E; simplify_eq.
  - go_cases_in H0.
  - go_cases_in H0.
Qed.

(** * Witnesses *)

Definition tunnel_cfg : Config := withDefaults (mkConfig (bs "vpn") [] [] [] [] 0 0 0 0 0 0 false).
Definition tunnel_in : bytes :=
  frame_image 0 pktData [69; 1; 2] ++ frame_image 0 pktDPDOut [1; 2] ++ frame_image 0 pktDisconnect [0].
Definition tunnel0 : Tunnel := newTunnel tunnel_cfg (mkReader tunnel_in EOF) None 0.

(** A packet is queued, a probe is answered, and the client disconnects while a
    caller's write is under way. *)
Definition tunnel1 : Tunnel := readLoop_body tunnel0 7.
Definition tunnel2 : Tunnel := default tunnel1 (send_data tunnel1 [69; 1; 2]).
Definition tunnel3 : Tunnel := readLoop_body tunnel2 8.
Definition echo_flight : InFlight := mkInFlight ByReader pktDPDResp [1; 2].
Definition tunnel4 : Tunnel := set_reader (set_writer tunnel3 (Some echo_flight)) RWriting.
Definition tunnel5 : Tunnel := finish_write tunnel4 echo_flight WriteOk 9.
Definition tunnel6 : Tunnel := set_writer tunnel5 (Some (mkInFlight ByCaller pktData [5])).
Definition tunnel7 : Tunnel := readLoop_body tunnel6 10.
Definition tunnel_acts : list Actor := [AReader; AReader; AReader; AReader; AReader; AOther; AReader].
Definition tunnel_evs : list Event :=
  [EIn (pktData, [69; 1; 2]); EIn (pktDPDOut, [1; 2]); EOut (pktDPDResp, [1; 2]); EIn (pktDisconnect, [0])].

Lemma tunnel_run : tun_steps tunnel0 tunnel_acts tunnel_evs tunnel7.
Proof.
  assert (H1 : tun_steps tunnel0 [AReader] [EIn (pktData, [69; 1; 2])] tunnel1).
  { apply (tss_snoc _ [] [] tunnel0 AReader (Some _)); [apply tss_nil|]. by apply (ts_read tunnel0 7). }
  assert (H2 : tun_steps tunnel0 [AReader; AReader] [EIn (pktData, [69; 1; 2])] tunnel2).
  { apply (tss_snoc _ [_] [_] tunnel1 AReader None); [exact H1|]. by eapply ts_send. }
  assert (H3 : tun_steps tunnel0 (take 3 tunnel_acts) (take 2 tunnel_evs) tunnel3).
  { apply (tss_snoc _ [_; _] [_] tunnel2 AReader (Some _)); [exact H2|]. by apply (ts_read tunnel2 8). }
  assert (H4 : tun_steps tunnel0 (take 4 tunnel_acts) (take 2 tunnel_evs) tunnel4).
  { apply (tss_snoc _ [_; _; _] [_; _] tunnel3 AReader None); [exact H3|]. by eapply ts_echo. }
  assert (H5 : tun_steps tunnel0 (take 5 tunnel_acts) (take 3 tunnel_evs) tunnel5).
  { apply (tss_snoc _ [_; _; _; _] [_; _] tunnel4 AReader (Some _)); [exact H4|]. by apply (ts_finish tunnel4 echo_flight WriteOk 9). }
  assert (H6 : tun_steps tunnel0 (take 6 tunnel_acts) (take 3 tunnel_evs) tunnel6).
  { apply (tss_snoc _ [_; _; _; _; _] [_; _; _] tunnel5 AOther None); [exact H5|]. by apply (ts_write _ [5]). }
  apply (tss_snoc _ [_; _; _; _; _; _] [_; _; _] tunnel6 AReader (Some _)); [exact H6|]. by apply (ts_read tunnel6 10).
Qed.

Lemma tunnel_streams_witness :
  payloads_of pktDPDOut (frames_in tunnel_evs) = payloads_of pktDPDResp (frames_out tunnel_evs)
  /\ pktKeepalive ∉ map fst (frames_out tunnel_evs).
Proof.
  assert (Hok : bytes_ok tunnel_in) by decide_closed.
  destruct (tunnel_streams tunnel_cfg (mkReader tunnel_in EOF) None 0 tunnel_acts tunnel_evs tunnel7 Hok tunnel_run)
    as (_ & _ & _ & _ & Hk & _).
  split; [reflexivity|exact Hk].
Defined.

(** The caller's write ends after the disconnect; then the owner closes. *)
Definition caller_flight : InFlight := mkInFlight ByCaller pktData [5].
Definition tunnel8 : Tunnel := finish_write tunnel7 caller_flight WriteOk 11.
Lemma close_is_final_witness :
  exists t', tun_steps tunnel7 [AOther; AOther] [EOut (pktData, [5])] t'
  /\ tn_closeErr t' = Some errClientDisconnect /\ (1 <= writing tunnel7)%nat.
Proof.
  assert (Hc : tn_closed tunnel7 = true) by reflexivity.
  assert (H1 : tun_steps tunnel7 [AOther] [EOut (pktData, [5])] tunnel8).
  { apply (tss_snoc _ [] [] tunnel7 AOther (Some _)); [apply tss_nil|]. by apply (ts_finish tunnel7 caller_flight WriteOk 11). }
  assert (H2 : tun_steps tunnel7 [AOther; AOther] [EOut (pktData, [5])] (Close tunnel8)).
  { apply (tss_snoc _ [_] [_] tunnel8 AOther None); [exact H1|apply ts_close]. }
  exists (Close tunnel8). split; [exact H2|].
  destruct (close_is_final tunnel7 _ _ _ Hc H2) as (_ & He & Hl & _). split; [exact He|exact Hl].
Defined.

Lemma readLoop_terminates_witness :
  (reader_moves tunnel_acts <= 33)%nat /\ reader_can_move tunnel7.
Proof.
  assert (Hok : bytes_ok tunnel_in) by decide_closed.
  destruct (readLoop_terminates tunnel_cfg (mkReader tunnel_in EOF) None 0 tunnel_acts tunnel_evs tunnel7 Hok tunnel_run)
    as (Hn & _ & _).
  split; [exact Hn|]. exists None, (readLoop_defer tunnel7). apply ts_defer. reflexivity.
Defined.

Lemma heartbeat_promises_witness :
  heartbeatInterval tunnel0 = 5 * Second
  /\ tn_heart (heartbeat_tick tunnel0 0 (5 * Second)) = HSending 1 false
  /\ tn_heart (heartbeat_tick tunnel0 0 (1801 * Second)) = HSending 0 true.
Proof.
  split; [reflexivity|].
  assert (Hcfg : config_ok tunnel_cfg) by apply withDefaults_ok.
  destruct (heartbeat_promises tunnel_cfg Hcfg tunnel0 0 (5 * Second) eq_refl eq_refl eq_refl) as (_ & _ & Hp & _).
  destruct (heartbeat_promises tunnel_cfg Hcfg tunnel0 0 (1801 * Second) eq_refl eq_refl eq_refl) as (_ & Hi & _ & _).
  split.
  - assert (Hn : ~ 0 < tn_idleTimeout tunnel0 < 5 * Second - tn_lastInbound tunnel0) by decide_closed. exact (Hp Hn).
  - assert (Hy : 0 < tn_idleTimeout tunnel0 < 1801 * Second - tn_lastInbound tunnel0) by decide_closed. exact (Hi Hy).
Defined.
