(* ===== verification/HttpLib.v ===== *)
(** The parts of Go's [strings], [strconv], [path/filepath], [net/http],
    [net/url] and [encoding/xml] the program uses: the directory of a path,
    header maps with canonical keys, cookies, query strings, decimal printing,
    address printing and XML escaping. *)

From S2P Require Import Prelude Netip Utf8.

(** * Strings *)

(** [strings.Split] at a byte: always at least one part. *)
Fixpoint split_byte (sep : byte) (s : bytes) : list bytes :=
  match s with
  | [] => [[]]
  | c :: s' =>
    if c =? sep then [] :: split_byte sep s'
    else match split_byte sep s' with
         | p :: ps => (c :: p) :: ps
         | [] => [[c]]
         end
  end.
(** [strings.Join] *)
Fixpoint join_byte (sep : byte) (l : list bytes) : bytes :=
  match l with
  | [] => []
  | [p] => p
  | p :: l' => p ++ sep :: join_byte sep l'
  end.
(** [strings.Cut] at a byte; the second part is empty when it is not found. *)
Definition cut_byte (sep : byte) (s : bytes) : bytes * bytes :=
  match index_byte sep s with
  | Some i => (take i s, drop (S i) s)
  | None => (s, [])
  end.
(** [strings.Contains] *)
Fixpoint contains (sub s : bytes) : bool :=
  has_prefix sub s || match s with [] => false | _ :: s' => contains sub s' end.

Definition slash : byte := 47.
(** [filepath.Clean] and [filepath.Dir]: the elements of a path with "." and
    ".." resolved. [st] is the stack, last element first. *)
Fixpoint clean_parts (rooted : bool) (parts st : list gostring) : list gostring :=
  match parts with
  | [] => rev st
  | p :: ps =>
    if is_nil p || bool_decide (p = bs ".") then clean_parts rooted ps st
    else if bool_decide (p = bs "..") then
      match st with
      | q :: st' => if bool_decide (q = bs "..") then clean_parts rooted ps (p :: st) else clean_parts rooted ps st'
      | [] => clean_parts rooted ps (if rooted then [] else [p])
      end
    else clean_parts rooted ps (p :: st)
  end.
Definition Clean (path : gostring) : gostring :=
  let rooted := bool_decide (head path = Some slash) in
  let body := join_byte slash (clean_parts rooted (split_byte slash path) []) in
  if rooted then slash :: body else if is_nil body then bs "." else body.
Definition Dir (path : gostring) : gostring :=
  Clean (match last_index_byte slash path with Some i => take (S i) path | None => [] end).

Definition lower_byte (c : byte) : byte := if (65 <=? c) && (c <=? 90) then c + 32 else c.
Definition upper_byte (c : byte) : byte := if (97 <=? c) && (c <=? 122) then c - 32 else c.
(** [strings.ToLower] as a search for an ASCII word sees it: the two letters
    outside ASCII whose lower case is ASCII are U+0130 and the Kelvin sign. *)
Fixpoint lower_search (s : bytes) : bytes :=
  match s with
  | 0xC4 :: 0xB0 :: s' => 105 :: lower_search s'
  | 0xE2 :: 0x84 :: 0xAA :: s' => 107 :: lower_search s'
  | c :: s' => lower_byte c :: lower_search s'
  | [] => []
  end.
(** [strings.EqualFold] with a word none of whose letters folds to anything
    outside ASCII. *)
Definition equal_fold_ascii (s t : bytes) : bool := bool_decide (map lower_byte s = map lower_byte t).

(** [strconv.Itoa]; sixty-four digits are enough for an [int]. *)
Fixpoint dec_digits (fuel : nat) (n : Z) (acc : bytes) : bytes :=
  match fuel with
  | O => acc
  | S fuel' =>
    let acc := (48 + n mod 10) :: acc in
    if n <? 10 then acc else dec_digits fuel' (n / 10) acc
  end.
Definition Itoa (n : Z) : bytes := if n <? 0 then 45 :: dec_digits 64 (- n) [] else dec_digits 64 n [].

(** * Printing addresses *)

Definition hex_lower (n : Z) : byte := if n <? 10 then 48 + n else 97 + (n - 10).
(** A 16-bit group without leading zeros. *)
Definition hex_word (n : Z) : bytes :=
  (if 0x1000 <=? n then [hex_lower (n / 0x1000)] else [])
  ++ (if 0x100 <=? n then [hex_lower (n / 0x100 mod 16)] else [])
  ++ (if 0x10 <=? n then [hex_lower (n / 0x10 mod 16)] else [])
  ++ [hex_lower (n mod 16)].
Definition v4_string (b : bytes) : bytes := join_byte 46 (map Itoa b).
Fixpoint groups (b : bytes) : list Z := match b with x :: y :: b' => (x * 256 + y) :: groups b' | _ => [] end.
(** The first longest run of at least two zero groups, as start and length. *)
Fixpoint zero_run (gs : list Z) : nat := match gs with 0 :: gs' => S (zero_run gs') | _ => O end.
Fixpoint best_run (i : nat) (gs : list Z) (best : nat * nat) : nat * nat :=
  match gs with
  | [] => best
  | _ :: gs' =>
    let l := zero_run gs in
    best_run (S i) gs' (if (2 <=? l)%nat && (best.2 <? l)%nat then (i, l) else best)
  end.
Definition v6_body (b : bytes) : bytes :=
  let gs := groups b in
  let '(i, l) := best_run 0 gs (0, 0)%nat in
  if (l =? 0)%nat then join_byte 58 (map hex_word gs)
  else join_byte 58 (map hex_word (take i gs)) ++ [58; 58] ++ join_byte 58 (map hex_word (drop (i + l) gs)).
(** [netip.Addr.String] *)
Definition addr_string (a : Addr) : bytes :=
  match a with
  | AddrNone => bs "invalid IP"
  | Addr4 b => v4_string b
  | Addr6 b z =>
    (if Is4In6 a then bs "::ffff:" ++ v4_string (drop 12 b) else v6_body b)
    ++ (if is_nil z then [] else 37 :: z)
  end.
(** [netip.Prefix.String] *)
Definition prefix_string (p : Prefix) : bytes :=
  if prefix_valid p then addr_string (pf_addr p) ++ 47 :: Itoa (pf_bits p) else bs "invalid Prefix".

Example addr_strings :
  addr_string (Addr6 ([0x20; 1; 0xd; 0xb8] ++ repeat 0 11 ++ [9]) []) = bs "2001:db8::9"
  /\ addr_string (Addr6 ([0; 1] ++ repeat 0 4 ++ [0; 2] ++ repeat 0 6 ++ [0; 3]) []) = bs "1:0:0:2::3"
  /\ addr_string (Addr6 (repeat 0 16) []) = bs "::"
  /\ addr_string (Addr6 (repeat 0 10 ++ [255; 255; 10; 0; 0; 1]) [101]) = bs "::ffff:10.0.0.1%e"
  /\ prefix_string (mkPrefix (Addr4 [10; 0; 0; 0]) 8) = bs "10.0.0.0/8".
Proof. by vm_compute. Qed.

(** * Headers *)

(** The bytes of an HTTP token. *)
Definition token_byte (c : byte) : bool :=
  (in_range 48 57 c) || (in_range 65 90 c) || (in_range 97 122 c)
  || bool_decide (c ∈ bs "!#$%&'*+-.^_`|~").
Fixpoint canon_bytes (upper : bool) (s : bytes) : bytes :=
  match s with
  | [] => []
  | c :: s' =>
    let c := if upper then upper_byte c else lower_byte c in
    c :: canon_bytes (c =? 45) s'
  end.
(** [http.CanonicalHeaderKey] *)
Definition CanonicalHeaderKey (k : bytes) : bytes := if forallb token_byte k then canon_bytes true k else k.

Abbreviation header := (gmap (list Z) (list gostring)) (only parsing).
Definition Values (h : header) (k : gostring) : list gostring := default [] (h !! CanonicalHeaderKey k).
Definition Get (h : header) (k : gostring) : gostring := default [] (head (Values h k)).
Definition Set_ (k v : gostring) (h : header) : header := <[CanonicalHeaderKey k := [v]]> h.
Definition Add (k v : gostring) (h : header) : header := <[CanonicalHeaderKey k := Values h k ++ [v]]> h.
Definition Del (k : gostring) (h : header) : header := delete (CanonicalHeaderKey k) h.

(** * Cookies *)

(** [textproto.TrimString] *)
Definition ascii_space (c : byte) : bool := (c =? 32) || (c =? 9) || (c =? 10) || (c =? 13).
Fixpoint trim_left (s : bytes) : bytes :=
  match s with c :: s' => if ascii_space c then trim_left s' else s | [] => [] end.
Definition TrimString (s : bytes) : bytes := rev (trim_left (rev (trim_left s))).

Definition cookie_value_byte (c : byte) : bool :=
  (0x20 <=? c) && (c <? 0x7f) && negb (c =? 34) && negb (c =? 59) && negb (c =? 92).
(** [parseCookieValue] with quotes allowed. *)
Definition parse_cookie_value (raw : bytes) : option bytes :=
  let raw :=
    if (1 <? length raw)%nat && (byte_at raw 0 =? 34) && (byte_at raw (length raw - 1) =? 34)
    then slice raw 1 (length raw - 1) else raw in
  if forallb cookie_value_byte raw then Some raw else None.
Definition is_token (s : bytes) : bool := negb (is_nil s) && forallb token_byte s.
(** The cookie of a name in one part of a [Cookie] line. *)
Definition part_cookie (name part : bytes) : option bytes :=
  let '(n, v) := cut_byte 61 (TrimString part) in
  let n := TrimString n in
  if is_token n && bool_decide (n = name) then parse_cookie_value v else None.
Definition first_some {A B} (f : A -> option B) : list A -> option B :=
  fix go l := match l with [] => None | a :: l' => match f a with Some b => Some b | None => go l' end end.
(** More cookies than [httpcookiemaxnum] allows are all ignored. *)
Definition max_cookies : Z := 3000.
Definition cookie_count (h : header) : Z :=
  fold_right (fun line n => Z.of_nat (length (split_byte 59 line)) + n) 0 (Values h (bs "Cookie")).
(** [r.Cookie(name)] *)
Definition Cookie (h : header) (name : gostring) : option gostring :=
  if max_cookies <? cookie_count h then None
  else first_some (fun line => first_some (part_cookie name) (split_byte 59 (TrimString line))) (Values h (bs "Cookie")).

(** [http.SetCookie] of a cookie with path "/", secure and HTTP-only; a
    positive age is printed. *)
Definition cookie_string (name value : gostring) (maxAge : Z) : gostring :=
  let v := List.filter cookie_value_byte value in
  let v := if bool_decide (32 ∈ v) || bool_decide (44 ∈ v) then 34 :: v ++ [34] else v in
  name ++ 61 :: v ++ bs "; Path=/"
  ++ (if 0 <? maxAge then bs "; Max-Age=" ++ Itoa maxAge else []) ++ bs "; HttpOnly; Secure".
Definition SetCookie (name value : gostring) (maxAge : Z) (h : header) : header :=
  Add (bs "Set-Cookie") (cookie_string name value maxAge) h.

(** * Query strings *)

(** [url.QueryUnescape] *)
Fixpoint QueryUnescape (s : bytes) : option bytes :=
  match s with
  | [] => Some []
  | 37 :: s' =>
    match s' with
    | a :: b :: s'' =>
      match hex_digit a, hex_digit b with
      | Some x, Some y => cons (x * 16 + y) <$> QueryUnescape s''
      | _, _ => None
      end
    | _ => None
    end
  | 43 :: s' => cons 32 <$> QueryUnescape s'
  | c :: s' => cons c <$> QueryUnescape s'
  end.
(** One part: nothing, a pair, or an error. *)
Definition query_part (p : bytes) : option (option (bytes * bytes)) :=
  if bool_decide (59 ∈ p) then None
  else if is_nil p then Some None
  else
    let '(k, v) := cut_byte 61 p in
    match QueryUnescape k, QueryUnescape v with
    | Some k, Some v => Some (Some (k, v))
    | _, _ => None
    end.
(** [url.ParseQuery], an error in any part failing it. *)
Fixpoint query_parts (ps : list bytes) : option (list (bytes * bytes)) :=
  match ps with
  | [] => Some []
  | p :: ps' =>
    match query_part p, query_parts ps' with
    | Some (Some kv), Some l => Some (kv :: l)
    | Some None, Some l => Some l
    | _, _ => None
    end
  end.
(** More pairs than [urlmaxqueryparams] allows are refused as well. *)
Definition max_query_params : Z := 10000.
Definition ParseQuery (s : bytes) : option (list (bytes * bytes)) :=
  if max_query_params <? Z.of_nat (length (split_byte 38 s)) then None else query_parts (split_byte 38 s).
(** [vals.Get] *)
Definition query_get (l : list (bytes * bytes)) (k : bytes) : bytes :=
  default [] (first_some (fun kv => if bool_decide (kv.1 = k) then Some kv.2 else None) l).

(** * XML text *)

Definition xml_char (r : Z) : bool :=
  (r =? 9) || (r =? 10) || (r =? 13) || in_range 0x20 0xD7FF r || in_range 0xE000 0xFFFD r || in_range 0x10000 0x10FFFF r.
(** The replacement character. *)
Definition fffd : bytes := [0xEF; 0xBF; 0xBD].
Definition esc_rune (r : Z) (ok : bool) (raw : bytes) : bytes :=
  if r =? 34 then bs "&#34;" else if r =? 39 then bs "&#39;" else if r =? 38 then bs "&amp;"
  else if r =? 60 then bs "&lt;" else if r =? 62 then bs "&gt;" else if r =? 9 then bs "&#x9;"
  else if r =? 10 then bs "&#xA;" else if r =? 13 then bs "&#xD;"
  else if negb (xml_char r) || negb ok then fffd else raw.
Fixpoint escape_aux (fuel : nat) (s : bytes) : bytes :=
  match fuel with
  | O => []
  | S fuel' =>
    match s with
    | [] => []
    | _ => let '(r, w, ok) := decode_rune s in esc_rune r ok (take w s) ++ escape_aux fuel' (drop w s)
    end
  end.
(** [xml.EscapeText] *)
Definition EscapeText (s : bytes) : bytes := escape_aux (length s) s.
