(* ===== verification/CstpXml.v ===== *)
(** [internal/cstp/xml.go]: the [config-auth] envelope, its parsing over the
    decoder of encoding/xml, which is an argument, and the forms the server
    builds, printed as encoding/xml prints them. *)

From S2P Require Import Prelude HttpLib.

Definition authTypeInit : gostring := bs "init".
Definition authTypeAuthRequest : gostring := bs "auth-request".
Definition authTypeAuthReply : gostring := bs "auth-reply".
Definition authTypeComplete : gostring := bs "complete".

Record authVersion := mkVersion { av_Who : gostring; av_Value : gostring }.
Record authDeviceID := mkDeviceID { ad_DeviceType : gostring; ad_PlatformVersion : gostring; ad_UniqueID : gostring; ad_Value : gostring }.
Record authOpaque := mkOpaque { ao_IsFor : gostring; ao_SessionID : gostring }.
Record authFormItem := mkItem { fi_Label : gostring; fi_Name : gostring; fi_Type : gostring }.
Record authForm := mkForm { af_Action : gostring; af_Method : gostring; af_Inputs : list authFormItem }.
Record authBlock := mkBlock {
  ab_ID : gostring; ab_Title : gostring; ab_Message : gostring; ab_Form : option authForm;
  ab_Username : gostring; ab_Password : gostring
}.
Record authEnvelope := mkEnvelope {
  ae_Local : gostring; ae_Client : gostring; ae_Type : gostring; ae_AggVer : gostring;
  ae_Version : option authVersion; ae_DeviceID : option authDeviceID; ae_Opaque : option authOpaque; ae_Auth : option authBlock;
  ae_SessionToken : gostring; ae_SessionID : gostring
}.

Record parsedAuth := mkParsed { pa_Type : gostring; pa_OpaqueID : gostring; pa_Username : gostring; pa_Password : gostring; pa_DeviceUUID : gostring }.

(** [None] is [errInvalidXML]. *)
Definition parseAuthRequest (decode : Reader -> option authEnvelope) (r : Reader) : option parsedAuth :=
  match decode r with
  | None => None
  | Some env =>
    if negb (bool_decide (ae_Local env = bs "config-auth")) then None
    else Some (mkParsed (ae_Type env)
      (match ae_Opaque env with Some o => ao_SessionID o | None => [] end)
      (match ae_Auth env with Some a => ab_Username a | None => [] end)
      (match ae_Auth env with Some a => ab_Password a | None => [] end)
      (match ae_DeviceID env with Some d => ad_UniqueID d | None => [] end))
  end.

(** * Printing *)

(** An attribute and an element; those tagged [omitempty] vanish when empty. *)
Definition xattr (name v : gostring) : gostring := 32 :: name ++ bs "=" ++ [34] ++ EscapeText v ++ [34].
Definition xattr_opt (name v : gostring) : gostring := if is_nil v then [] else xattr name v.
Definition xelem (name attrs content : gostring) : gostring :=
  [60] ++ name ++ attrs ++ [62] ++ content ++ [60; 47] ++ name ++ [62].
Definition xtext_opt (name v : gostring) : gostring := if is_nil v then [] else xelem name [] (EscapeText v).

Definition print_item (i : authFormItem) : gostring :=
  xelem (bs "input") (xattr_opt (bs "label") (fi_Label i) ++ xattr (bs "name") (fi_Name i) ++ xattr_opt (bs "type") (fi_Type i)) [].
Definition print_form (f : authForm) : gostring :=
  xelem (bs "form") (xattr (bs "action") (af_Action f) ++ xattr (bs "method") (af_Method f)) (flat_map print_item (af_Inputs f)).
Definition print_block (a : authBlock) : gostring :=
  xelem (bs "auth") (xattr_opt (bs "id") (ab_ID a))
    (xtext_opt (bs "title") (ab_Title a) ++ xtext_opt (bs "message") (ab_Message a)
     ++ (match ab_Form a with Some f => print_form f | None => [] end)
     ++ xtext_opt (bs "username") (ab_Username a) ++ xtext_opt (bs "password") (ab_Password a)).
Definition print_version (v : authVersion) : gostring :=
  xelem (bs "version") (xattr_opt (bs "who") (av_Who v)) (EscapeText (av_Value v)).
Definition print_device (d : authDeviceID) : gostring :=
  xelem (bs "device-id")
    (xattr_opt (bs "device-type") (ad_DeviceType d) ++ xattr_opt (bs "platform-version") (ad_PlatformVersion d)
     ++ xattr_opt (bs "unique-id") (ad_UniqueID d)) (EscapeText (ad_Value d)).
Definition print_opaque (o : authOpaque) : gostring :=
  xelem (bs "opaque") (xattr_opt (bs "is-for") (ao_IsFor o)) (xelem (bs "session-id") [] (EscapeText (ao_SessionID o))).
Definition opt_print {A} (f : A -> gostring) (o : option A) : gostring := match o with Some a => f a | None => [] end.
(** [xml.Marshal]; the root's name is its tag's. *)
Definition Marshal (e : authEnvelope) : gostring :=
  xelem (bs "config-auth")
    (xattr (bs "client") (ae_Client e) ++ xattr (bs "type") (ae_Type e) ++ xattr_opt (bs "aggregate-auth-version") (ae_AggVer e))
    (opt_print print_version (ae_Version e) ++ opt_print print_device (ae_DeviceID e) ++ opt_print print_opaque (ae_Opaque e)
     ++ opt_print print_block (ae_Auth e) ++ xtext_opt (bs "session-token") (ae_SessionToken e)
     ++ xtext_opt (bs "session-id") (ae_SessionID e)).
(** The declaration, written with the quote's code. *)
Definition xml_Header : gostring :=
  bs "<?xml version=" ++ [34] ++ bs "1.0" ++ [34] ++ bs " encoding=" ++ [34] ++ bs "UTF-8" ++ [34] ++ bs "?>" ++ [10].
(** Marshalling these types does not fail. *)
Definition marshalAuth (e : authEnvelope) : option gostring := Some (xml_Header ++ Marshal e).

(** * The messages *)

Definition buildAuthForm (opaqueID message action : gostring) (inputs : list authFormItem) : option gostring :=
  let action := if is_nil action then bs "/auth" else action in
  marshalAuth (mkEnvelope [] (bs "vpn") authTypeAuthRequest [] (Some (mkVersion (bs "sg") (bs "0.1(1)"))) None
    (Some (mkOpaque (bs "sg") opaqueID))
    (Some (mkBlock (bs "main") [] message (Some (mkForm action (bs "post") inputs)) [] [])) [] []).
Definition buildUsernameRequest (opaqueID message action : gostring) : option gostring :=
  buildAuthForm opaqueID message action [mkItem (bs "Username:") (bs "username") (bs "text")].
Definition buildPasswordRequest (opaqueID message action : gostring) : option gostring :=
  buildAuthForm opaqueID message action [mkItem (bs "Password:") (bs "password") (bs "password")].
Definition buildAuthComplete : option gostring :=
  marshalAuth (mkEnvelope [] (bs "vpn") authTypeComplete [] (Some (mkVersion (bs "sg") (bs "0.1(1)"))) None None
    (Some (mkBlock (bs "success") (bs "SSL VPN Service") [] None [] [])) [] []).

Definition dq (s : gostring) : gostring := [34] ++ s ++ [34].
Example complete_text : buildAuthComplete = Some (xml_Header
  ++ bs "<config-auth client=" ++ dq (bs "vpn") ++ bs " type=" ++ dq (bs "complete") ++ bs "><version who=" ++ dq (bs "sg")
  ++ bs ">0.1(1)</version><auth id=" ++ dq (bs "success") ++ bs "><title>SSL VPN Service</title></auth></config-auth>").
Proof. vm_compute. reflexivity. Qed.
