(* ===== verification/CstpHeaders.v ===== *)
(** [internal/cstp/connect.go]: what the CONNECT answer says. The header maps of
    net/http, the request's parameters and the response written to the hijacked
    connection, whose names must have Cisco's casing. A header map is walked in
    the order given. *)

From S2P Require Import Prelude Netip Utf8 HttpLib CstpSessions CstpConfig.

(** * The request *)

(** [iosUserAgent], [clientSuppressedV4] *)
Definition iosUserAgent (h : header) : bool :=
  let ua := lower_search (Get h (bs "User-Agent")) in
  contains (bs "apple") ua || contains (bs "iphone") ua || contains (bs "ipad") ua || contains (bs "ios") ua.
Definition clientSuppressedV4 (h : header) : bool :=
  let at_ := Get h (bs "X-CSTP-Address-Type") in
  negb (is_nil at_) && negb (contains (bs "IPv4") at_).

(** [hex.DecodeString] *)
Fixpoint hexDecode (s : bytes) : option bytes :=
  match s with
  | [] => Some []
  | [_] => None
  | a :: b :: s' =>
    match hex_digit a, hex_digit b with
    | Some x, Some y => cons (x * 16 + y) <$> hexDecode s'
    | _, _ => None
    end
  end.
Definition parseClientMasterSecret (h : header) : option bytes :=
  let v := TrimSpace (Get h (bs "X-Dtls-Master-Secret")) in
  if negb (length v =? 96)%nat then None
  else match hexDecode v with
       | Some b => if negb (length b =? 48)%nat then None else Some b
       | None => None
       end.

Definition dtlsCipherPrefs : list gostring :=
  [bs "ECDHE-RSA-AES128-GCM-SHA256"; bs "ECDHE-RSA-AES256-GCM-SHA384";
   bs "ECDHE-ECDSA-AES128-GCM-SHA256"; bs "ECDHE-ECDSA-AES256-GCM-SHA384"].
Definition offered_ciphers (h : header) : list gostring :=
  map TrimSpace (concat (map (split_byte 58) (Values h (bs "X-Dtls12-Ciphersuite")))).
Definition selectDTLSCipher (h : header) : option gostring :=
  first_some (fun c => if bool_decide (c ∈ offered_ciphers h) then Some c else None) dtlsCipherPrefs.

Definition webvpn_prefix : gostring := bs "webvpn=".
(** The manual scan of the [Cookie] lines. *)
Definition scan_cookie (h : header) : option gostring :=
  first_some (fun line =>
    first_some (fun part =>
      let part := TrimSpace part in
      if has_prefix webvpn_prefix part then Some (drop (length webvpn_prefix) part) else None)
    (split_byte 59 line)) (Values h (bs "Cookie")).
Definition extractWebVPNCookie (h : header) : gostring :=
  match Cookie h (bs "webvpn") with
  | Some ((_ :: _) as v) => v
  | _ =>
    let v := Get h (bs "X-CSTP-Cookie") in
    if negb (is_nil v) then v else default [] (scan_cookie h)
  end.

(** * The parameters *)

Definition clatInnerMTUCap : Z := 1400.
Definition negotiateInnerMTU (h : header) (deviceMTU : Z) : Z := clatInnerMTUCap.
Definition ClatPlaceholderV4 : Addr := Addr4 [192; 0; 0; 1].
Definition ClatPlaceholderV4Netmask : gostring := bs "255.255.255.255".

(** An address or prefix goes under the name of its family. *)
Definition add_dns (h : header) (dns : Addr) : header :=
  if Is4 dns then Add (bs "X-CSTP-DNS") (addr_string dns) h else Add (bs "X-CSTP-DNS-IP6") (addr_string dns) h.
Definition add_split (h : header) (sp : Prefix) : header :=
  if Is4 (pf_addr sp) then Add (bs "X-CSTP-Split-Include") (prefix_string sp) h
  else Add (bs "X-CSTP-Split-Include-IP6") (prefix_string sp) h.
Definition emitCSTPHeaders (h : header) (cfg : Config) (id : Identity) (innerMTU : Z) : header :=
  let h := Set_ (bs "X-CSTP-Version") (bs "1") h in
  let h := Set_ (bs "X-CSTP-Server-Name") (bs "OpenConnect VPN Server") h in
  let h := if prefix_valid (id_IPv6 id)
           then Set_ (bs "X-CSTP-Address-IP6") (addr_string (pf_addr (id_IPv6 id)) ++ bs "/128") h else h in
  let h := if prefix_valid (id_IPv6CLAT id)
           then Set_ (bs "X-CSTP-Netmask") ClatPlaceholderV4Netmask
                  (Set_ (bs "X-CSTP-Address") (addr_string ClatPlaceholderV4) h) else h in
  let h := if is_nil (ServerName cfg) then h else Set_ (bs "X-CSTP-Hostname") (ServerName cfg) h in
  let h := if is_nil (DefaultDomain cfg) then h else Set_ (bs "X-CSTP-Default-Domain") (DefaultDomain cfg) h in
  let h := fold_left add_dns (DNS cfg) h in
  let h := fold_left add_split (SplitInclude cfg) h in
  let h := Set_ (bs "X-CSTP-DPD") (Itoa (DPDInterval cfg)) h in
  let h := Set_ (bs "X-CSTP-Keepalive") (Itoa (KeepaliveInterval cfg)) h in
  let h := Set_ (bs "X-CSTP-Idle-Timeout") (if 0 <? IdleTimeout cfg then Itoa (IdleTimeout cfg) else bs "none") h in
  let h := Set_ (bs "X-CSTP-Session-Timeout") (bs "none") h in
  let h := Set_ (bs "X-CSTP-Keep") (bs "true") h in
  let h := Set_ (bs "X-CSTP-TCP-Keepalive") (bs "true") h in
  let h := Set_ (bs "X-CSTP-MTU") (Itoa innerMTU) h in
  let h := Set_ (bs "X-CSTP-Base-MTU") (bs "1500") h in
  let h := Set_ (bs "X-CSTP-Tunnel-All-DNS") (bs "true") h in
  let h := Set_ (bs "X-CSTP-Client-Bypass-Protocol") (bs "false") h in
  let h := Set_ (bs "X-CSTP-Smartcard-Removal-Disconnect") (bs "true") h in
  let h := Set_ (bs "X-CSTP-License") (bs "accept") h in
  let h := Set_ (bs "X-CSTP-DynDNS") (bs "true") h in
  let h := Set_ (bs "X-CSTP-Rekey-Time") (bs "28800") h in
  let h := Set_ (bs "X-CSTP-Rekey-Method") (bs "new-tunnel") h in
  Set_ (bs "X-CSTP-Disconnected-Timeout") (bs "none") h.

Definition emitLegacyDTLSHeaders (h : header) (ocName : gostring) (sessionID : bytes) (mtu : Z) : header :=
  let h := Set_ (bs "X-DTLS-Session-ID") (hexEncode sessionID) h in
  let h := Set_ (bs "X-DTLS12-CipherSuite") ocName h in
  let h := Set_ (bs "X-DTLS-MTU") (Itoa mtu) h in
  let h := Set_ (bs "X-DTLS-Port") (bs "443") h in
  let h := Set_ (bs "X-DTLS-Keepalive") (bs "20") h in
  let h := Set_ (bs "X-DTLS-DPD") (bs "30") h in
  let h := Set_ (bs "X-DTLS-Rekey-Time") (bs "28810") h in
  Set_ (bs "X-DTLS-Rekey-Method") (bs "new-tunnel") h.

(** [handleConnect]'s additions to the header map: the routes an iOS client
    needs, and no IPv4 lease for a client that asked for none. *)
Definition family_headers (rh : header) (id : Identity) (h : header) : header :=
  let h := if prefix_valid (id_IPv6 id) && iosUserAgent rh
              && equal_fold_ascii (Get rh (bs "X-CSTP-Full-IPv6-Capability")) (bs "true")
           then Add (bs "X-CSTP-Split-Include-IP6") (bs "64:ff9b::/96")
                  (Add (bs "X-CSTP-Split-Include-IP6") (bs "2000::/3") h) else h in
  if clientSuppressedV4 rh then Del (bs "X-CSTP-Netmask") (Del (bs "X-CSTP-Address") h) else h.

(** * The answer on the wire *)

Definition well : list gostring := map bs
  ["X-CSTP-Version"; "X-CSTP-Server-Name"; "X-CSTP-Hostname"; "X-CSTP-Default-Domain"; "X-CSTP-Address"; "X-CSTP-Netmask";
   "X-CSTP-Address-IP6"; "X-CSTP-MTU"; "X-CSTP-Base-MTU"; "X-CSTP-DPD"; "X-CSTP-Keepalive"; "X-CSTP-Idle-Timeout";
   "X-CSTP-Session-Timeout"; "X-CSTP-Disconnected-Timeout"; "X-CSTP-Keep"; "X-CSTP-TCP-Keepalive"; "X-CSTP-Tunnel-All-DNS";
   "X-CSTP-Client-Bypass-Protocol"; "X-CSTP-Rekey-Time"; "X-CSTP-Rekey-Method"; "X-CSTP-License"; "X-CSTP-DynDNS";
   "X-CSTP-Smartcard-Removal-Disconnect"]%string.
Definition wire_names : list (gostring * gostring) := map (fun p => (bs p.1, bs p.2))
  [("X-Dtls-Address", "X-DTLS-Address"); ("X-Dtls-Port", "X-DTLS-Port"); ("X-Dtls-Ciphersuite", "X-DTLS-CipherSuite");
   ("X-Dtls12-Ciphersuite", "X-DTLS12-CipherSuite"); ("X-Dtls-Master-Secret", "X-DTLS-Master-Secret");
   ("X-Dtls-Session-Id", "X-DTLS-Session-ID"); ("X-Dtls-App-Id", "X-DTLS-App-ID"); ("X-Dtls-Rekey-Time", "X-DTLS-Rekey-Time");
   ("X-Dtls-Rekey-Method", "X-DTLS-Rekey-Method"); ("X-Dtls-Keepalive", "X-DTLS-Keepalive"); ("X-Dtls-Dpd", "X-DTLS-DPD");
   ("X-Dtls-Mtu", "X-DTLS-MTU"); ("X-Cstp-Server-Cert-Hash", "X-CSTP-Server-Cert-Hash"); ("X-Cstp-Dns", "X-CSTP-DNS");
   ("X-Cstp-Dns-Ip6", "X-CSTP-DNS-IP6"); ("X-Cstp-Split-Include", "X-CSTP-Split-Include");
   ("X-Cstp-Split-Include-Ip6", "X-CSTP-Split-Include-IP6"); ("X-Cstp-Split-Exclude", "X-CSTP-Split-Exclude");
   ("X-Cstp-Split-Exclude-Ip6", "X-CSTP-Split-Exclude-IP6")]%string.
Definition connectWireHeaderKey (k : gostring) : gostring :=
  default k (first_some (fun p => if bool_decide (p.1 = k) then Some p.2 else None) wire_names).

(** The header lines, name and value. *)
Definition well_lines (h : header) : list (gostring * gostring) :=
  flat_map (fun k => map (pair k) (Values h k)) well.
Definition emitted (h : header) (k : gostring) : bool :=
  existsb (fun w => bool_decide (CanonicalHeaderKey w = k) && negb (is_nil (Values h w))) well.
Definition rest_lines (order : list (gostring * list gostring)) (h : header) : list (gostring * gostring) :=
  flat_map (fun kv => if emitted h kv.1 then [] else map (pair (connectWireHeaderKey kv.1)) kv.2) order.
Definition response_lines (order : list (gostring * list gostring)) (h : header) : list (gostring * gostring) :=
  well_lines h ++ rest_lines order h.
Definition crlf : bytes := [13; 10].
Definition line_bytes (l : gostring * gostring) : bytes := l.1 ++ bs ": " ++ l.2 ++ crlf.
(** [writeConnectResponse]'s bytes. *)
Definition writeConnectResponse (order : list (gostring * list gostring)) (h : header) : bytes :=
  bs "HTTP/1.1 200 CONNECTED" ++ crlf ++ concat (map line_bytes (response_lines order h)) ++ crlf.

(** * What the answer holds *)

(** The pairs of a header map, in the order its keys are walked. *)
Definition pairs_of (l : list (gostring * list gostring)) : list (gostring * gostring) :=
  flat_map (fun kv => map (pair kv.1) kv.2) l.
#[export] Instance pairs_of_proper : Proper (Permutation ==> Permutation) pairs_of.
Proof. intros l l'. apply Permutation_flat_map. Qed.
Definition keys_in (K : list gostring) (h : header) : Prop := forall k, is_Some (h !! k) -> k ∈ K.
(** A well-formed map: keys canonical, no key without values. *)
Definition header_ok (h : header) : Prop := forall k vs, h !! k = Some vs -> CanonicalHeaderKey k = k /\ vs <> [].

Lemma Values_Set k k' v h :
  Values (Set_ k v h) k' = if decide (CanonicalHeaderKey k = CanonicalHeaderKey k') then [v] else Values h k'.
Proof. unfold Values, Set_. rewrite lookup_insert. by case_decide. Qed.
Lemma Values_Set_ne k k' v h : CanonicalHeaderKey k <> CanonicalHeaderKey k' -> Values (Set_ k v h) k' = Values h k'.
Proof. intros Hne. rewrite Values_Set. by rewrite decide_False. Qed.
Lemma Values_Set_eq k v h : Values (Set_ k v h) k = [v].
Proof. rewrite Values_Set. by rewrite decide_True. Qed.
Lemma Values_Add_ne k k' v h : CanonicalHeaderKey k <> CanonicalHeaderKey k' -> Values (Add k v h) k' = Values h k'.
Proof. intros Hne. unfold Add, Values at 1. by rewrite lookup_insert_ne. Qed.
Lemma Values_Del_ne k k' h : CanonicalHeaderKey k <> CanonicalHeaderKey k' -> Values (Del k h) k' = Values h k'.
Proof. intros Hne. unfold Del, Values. by rewrite lookup_delete_ne. Qed.

(** The values of a name through the writes of others. *)
Ltac header_ne := first
  [ rewrite Values_Set_ne by decide_closed | rewrite Values_Add_ne by decide_closed | rewrite Values_Del_ne by decide_closed ].
Ltac header_eval := repeat first [rewrite Values_Set_eq | header_ne].

Section keys.
Context (K : list gostring).
Lemma keys_in_empty : keys_in K ∅.
Proof. intros k [? Hk]. by rewrite lookup_empty in Hk. Qed.
Lemma keys_in_insert k vs h : k ∈ K -> keys_in K h -> keys_in K (<[k := vs]> h).
Proof. intros Hk Hh k' [->|[_ Hk']]%lookup_insert_is_Some; [done|by apply Hh]. Qed.
Lemma keys_in_Set k v h : CanonicalHeaderKey k ∈ K -> keys_in K h -> keys_in K (Set_ k v h).
Proof. apply keys_in_insert. Qed.
Lemma keys_in_Add k v h : CanonicalHeaderKey k ∈ K -> keys_in K h -> keys_in K (Add k v h).
Proof. apply keys_in_insert. Qed.
Lemma keys_in_Del k h : keys_in K h -> keys_in K (Del k h).
Proof. intros Hh k' [vs Hk]. apply Hh. unfold Del in Hk. apply lookup_delete_Some in Hk as [_ ?]. eauto. Qed.
End keys.
Create HintDb hdr.
#[export] Hint Resolve keys_in_empty keys_in_Set keys_in_Add keys_in_Del : hdr.

Lemma emitCSTP_keys K h cfg id mtu :
  Forall (fun k => CanonicalHeaderKey k ∈ K)
    (well ++ map bs ["X-CSTP-DNS"; "X-CSTP-DNS-IP6"; "X-CSTP-Split-Include"; "X-CSTP-Split-Include-IP6"]%string) ->
  keys_in K h -> keys_in K (emitCSTPHeaders h cfg id mtu).
Proof.
  intros HK. rewrite Forall_forall in HK.
  assert (Hk : forall k, bool_decide (k ∈ well ++ map bs ["X-CSTP-DNS"; "X-CSTP-DNS-IP6"; "X-CSTP-Split-Include"; "X-CSTP-Split-Include-IP6"]%string) = true ->
    CanonicalHeaderKey k ∈ K) by (intros k Hk%bool_decide_eq_true; auto).
  assert (Hd : forall l h0, keys_in K h0 -> keys_in K (fold_left add_dns l h0)).
  { induction l as [|a l IH]; intros h0 H0; [done|]. apply IH. unfold add_dns.
    case_match; apply keys_in_Add; [by apply Hk; vm_compute|done|by apply Hk; vm_compute|done]. }
  assert (Hs : forall l h0, keys_in K h0 -> keys_in K (fold_left add_split l h0)).
  { induction l as [|a l IH]; intros h0 H0; [done|]. apply IH. unfold add_split.
    case_match; apply keys_in_Add; [by apply Hk; vm_compute|done|by apply Hk; vm_compute|done]. }
  intros Hh. unfold emitCSTPHeaders. cbv zeta.
  repeat (apply keys_in_Set; [by apply Hk; vm_compute|]). apply Hs, Hd.
  repeat case_match; repeat (apply keys_in_Set; [by apply Hk; vm_compute|]); done.
Qed.

(** ** Every pair once *)

Lemma canon_bytes_idem u s : canon_bytes u (canon_bytes u s) = canon_bytes u s.
Proof.
  revert u. induction s as [|c s IH]; intros u; [done|]. cbn [canon_bytes].
  assert (E : (if u then upper_byte (if u then upper_byte c else lower_byte c) else lower_byte (if u then upper_byte c else lower_byte c))
    = if u then upper_byte c else lower_byte c).
  { destruct u; unfold upper_byte, lower_byte; repeat case_match; simpl_bool; lia. }
  by rewrite E, IH.
Qed.
Lemma upper_token c : token_byte c = true -> token_byte (upper_byte c) = true.
Proof.
  unfold upper_byte. case_match eqn:E; [|done]. intros _. simpl_bool. unfold token_byte, in_range.
  rewrite (proj2 (Z.leb_le 65 (c - 32))), (proj2 (Z.leb_le (c - 32) 90)) by lia. by rewrite orb_true_r.
Qed.
Lemma lower_token c : token_byte c = true -> token_byte (lower_byte c) = true.
Proof.
  unfold lower_byte. case_match eqn:E; [|done]. intros _. simpl_bool. unfold token_byte, in_range.
  rewrite (proj2 (Z.leb_le 97 (c + 32))), (proj2 (Z.leb_le (c + 32) 122)) by lia. by rewrite !orb_true_r.
Qed.
Lemma canon_bytes_token u s : forallb token_byte s = true -> forallb token_byte (canon_bytes u s) = true.
Proof.
  revert u. induction s as [|c s IH]; intros u; [done|]. cbn [canon_bytes forallb].
  intros [Hc Hs]%andb_true_iff. rewrite IH by done. rewrite andb_true_r.
  destruct u; [by apply upper_token|by apply lower_token].
Qed.
Lemma CanonicalHeaderKey_idem k : CanonicalHeaderKey (CanonicalHeaderKey k) = CanonicalHeaderKey k.
Proof.
  unfold CanonicalHeaderKey. destruct (forallb token_byte k) eqn:E.
  - by rewrite canon_bytes_token, canon_bytes_idem.
  - by rewrite E.
Qed.

Definition keys_canonical (h : header) : Prop := forall k, is_Some (h !! k) -> CanonicalHeaderKey k = k.
Definition canon_pair (l : gostring * gostring) : gostring * gostring := (CanonicalHeaderKey l.1, l.2).

(** The wire name of a canonical key is that key in another casing. *)
Lemma wire_key_canonical k : CanonicalHeaderKey k = k -> CanonicalHeaderKey (connectWireHeaderKey k) = k.
Proof.
  intros Hk. unfold connectWireHeaderKey.
  assert (Hall : Forall (fun p => CanonicalHeaderKey p.2 = p.1) wire_names) by decide_closed.
  induction wire_names as [|p l IH]; [done|]. apply Forall_cons in Hall as [Hp Hl]. cbn.
  case_bool_decide as E; [cbn; congruence|]. by apply IH.
Qed.

Definition well_keys : list gostring := map CanonicalHeaderKey well.
Lemma emitted_iff h k : emitted h k = true <-> k ∈ well_keys /\ exists vs, h !! k = Some vs /\ vs <> [].
Proof.
  unfold emitted, well_keys. rewrite existsb_exists. setoid_rewrite andb_true_iff. setoid_rewrite bool_decide_eq_true.
  rewrite list_elem_of_fmap. unfold Values. split.
  - intros (w & Hw & <- & Hn). split; [exists w; by rewrite list_elem_of_In|].
    destruct (h !! CanonicalHeaderKey w) as [[|v vs]|]; [done|eauto|done].
  - intros [(w & -> & Hw) (vs & E & Hv)]. exists w. rewrite <- list_elem_of_In, E. split_and!; [done|done|]. by destruct vs.
Qed.

Lemma flat_map_pairs {A} (f : A -> list (gostring * gostring)) (g : gostring * gostring -> gostring * gostring) l :
  map g (flat_map f l) = flat_map (fun a => map g (f a)) l.
Proof. induction l as [|a l IH]; [done|]. cbn. by rewrite map_app, IH. Qed.

(** The pairs under well-known keys, and the others. *)
Lemma well_part h :
  map canon_pair (well_lines h) ≡ₚ pairs_of (filter (fun kv => emitted h kv.1 = true) (map_to_list h)).
Proof.
  set (F := fun k : gostring => vs ← h !! k; if is_nil vs then None else Some (k, vs)). set (L := omap F well_keys).
  assert (Hom : forall k l, omap F (k :: l) = match F k with Some y => y :: omap F l | None => omap F l end) by done.
  assert (HL : forall k vs, (k, vs) ∈ L <-> k ∈ well_keys /\ h !! k = Some vs /\ vs <> []).
  { intros k vs. unfold L. rewrite list_elem_of_omap. split.
    - intros (k' & Hk' & E). unfold F in E. destruct (h !! k') as [[|v vs']|] eqn:Eh; [done| |done]. cbn in E. injection E as <- <-. done.
    - intros (Hk & E & Hv). exists k. split; [done|]. unfold F. rewrite E. cbn. by destruct vs. }
  assert (HpL : pairs_of L = map canon_pair (well_lines h)).
  { unfold L, well_lines, well_keys. rewrite flat_map_pairs. induction well as [|w ws IH]; [done|]. cbn [map flat_map].
    rewrite Hom, <- IH, map_map. unfold Values, F at 1. cbn [canon_pair fst snd].
    destruct (h !! CanonicalHeaderKey w) as [[|v vs]|]; cbn; reflexivity. }
  rewrite <- HpL. apply Permutation_flat_map, NoDup_Permutation.
  - assert (Hnd : NoDup well_keys) by decide_closed. unfold L. clear -Hnd.
    induction Hnd as [|k ks Hk Hnd IH]; [constructor|].
    change (omap F (k :: ks)) with (match F k with Some y => y :: omap F ks | None => omap F ks end).
    destruct (F k) as [p|] eqn:E; [|done]. constructor; [|done]. intros Hp. apply list_elem_of_omap in Hp as (k' & Hk' & E'). apply Hk.
    assert (k = k') as ->; [|done]. unfold F in *. destruct (h !! k) as [[|]|], (h !! k') as [[|]|]; simplify_eq/=; done.
  - apply NoDup_filter, NoDup_map_to_list.
  - intros [k vs]. rewrite HL, list_elem_of_filter, elem_of_map_to_list. cbn [fst]. rewrite emitted_iff. split.
    + intros (Hk & E & Hv). split_and!; eauto.
    + intros ((Hk & vs' & E' & Hv) & E). split_and!; [done|done|congruence].
Qed.

Lemma rest_part h order :
  Forall (fun kv => CanonicalHeaderKey kv.1 = kv.1) order ->
  map canon_pair (rest_lines order h) = pairs_of (filter (fun kv => emitted h kv.1 <> true) order).
Proof.
  unfold rest_lines, pairs_of. rewrite flat_map_pairs. induction 1 as [|[k vs] l Hk Hl IH]; [done|].
  cbn [flat_map filter list_filter fst snd] in *. destruct (decide _) as [E|E].
  - apply not_true_is_false in E. rewrite E. cbn [flat_map fst snd]. rewrite IH. f_equal. rewrite map_map.
    apply map_ext. intros v. unfold canon_pair. cbn [fst snd]. by rewrite wire_key_canonical.
  - apply dec_stable in E. rewrite E. done.
Qed.

(** Each pair of the map is written once, under a name that is its key's. *)
Lemma response_pairs h order :
  keys_canonical h -> order ≡ₚ map_to_list h ->
  map canon_pair (response_lines order h) ≡ₚ pairs_of (map_to_list h).
Proof.
  intros Hk Ho. unfold response_lines. rewrite map_app, well_part, rest_part.
  - rewrite <- Ho. unfold pairs_of at 1 2. rewrite <- flat_map_app. change (flat_map _ ?l) with (pairs_of l).
    by rewrite filter_app_complement.
  - rewrite Forall_forall. intros [k vs]. rewrite Ho, elem_of_map_to_list. cbn. intros E. apply Hk. eauto.
Qed.

(** ** The names a client looks for *)

(** [handleConnect]'s header map: the cipher and session id of the DTLS offer,
    when there is one. *)
Definition connect_headers (cfg : Config) (rh : header) (id : Identity) (dtls : option (gostring * bytes)) : header :=
  let mtu := negotiateInnerMTU rh (if id_MTU id <=? 0 then DefaultMTU cfg else id_MTU id) in
  let h := family_headers rh id (emitCSTPHeaders ∅ cfg id mtu) in
  match dtls with Some (ocName, sid) => emitLegacyDTLSHeaders h ocName sid mtu | None => h end.

(** The names in the casing the client insists on. *)
Definition cstp_names : list gostring :=
  well ++ map bs ["X-CSTP-DNS"; "X-CSTP-DNS-IP6"; "X-CSTP-Split-Include"; "X-CSTP-Split-Include-IP6"]%string.
Definition dtls_names : list gostring := map bs
  ["X-DTLS-Session-ID"; "X-DTLS12-CipherSuite"; "X-DTLS-MTU"; "X-DTLS-Port"; "X-DTLS-Keepalive"; "X-DTLS-DPD";
   "X-DTLS-Rekey-Time"; "X-DTLS-Rekey-Method"]%string.
Definition cisco_names : list gostring := cstp_names ++ dtls_names.

Lemma cstp_keys K cfg rh id mtu :
  Forall (fun k => CanonicalHeaderKey k ∈ K) cstp_names -> keys_in K (family_headers rh id (emitCSTPHeaders ∅ cfg id mtu)).
Proof.
  intros HK. assert (He : keys_in K (emitCSTPHeaders ∅ cfg id mtu)) by (apply emitCSTP_keys; [done|apply keys_in_empty]).
  rewrite Forall_forall in HK. unfold family_headers. cbv zeta.
  assert (Hi : CanonicalHeaderKey (bs "X-CSTP-Split-Include-IP6") ∈ K) by (apply HK; decide_closed).
  repeat case_match; repeat first [apply keys_in_Del | apply keys_in_Add; [exact Hi|]]; done.
Qed.
Lemma connect_keys cfg rh id dtls :
  keys_in (map CanonicalHeaderKey (match dtls with Some _ => cisco_names | None => cstp_names end)) (connect_headers cfg rh id dtls).
Proof.
  unfold connect_headers. cbv zeta. destruct dtls as [[oc sid]|].
  - unfold emitLegacyDTLSHeaders. cbv zeta. repeat (apply keys_in_Set; [decide_closed|]). apply cstp_keys. decide_closed.
  - apply cstp_keys. decide_closed.
Qed.

(** A closed set of canonical keys names its lines as the client does. *)
Lemma wire_name_in h order names :
  keys_in (map CanonicalHeaderKey names) h -> (names = cisco_names \/ names = cstp_names) -> order ≡ₚ map_to_list h ->
  Forall (fun l => l.1 ∈ names) (response_lines order h).
Proof.
  intros Hk Hn Ho.
  assert (Hw : forall n, n ∈ well -> n ∈ names).
  { intros n Hin. destruct Hn as [-> | ->]; unfold cisco_names, cstp_names; rewrite !elem_of_app; auto. }
  assert (Hr : Forall (fun k => existsb (fun w => bool_decide (CanonicalHeaderKey w = k)) well = false ->
    connectWireHeaderKey k ∈ names) (map CanonicalHeaderKey names)) by (destruct Hn as [-> | ->]; decide_closed).
  rewrite Forall_forall in Hr. apply Forall_forall. intros [n v]. unfold response_lines.
  rewrite elem_of_app. cbn [fst]. intros [Hl|Hl].
  - unfold well_lines in Hl. apply list_elem_of_In, in_flat_map in Hl as (w & Hin & Hl).
    apply in_map_iff in Hl as (v' & [= <- _] & _). by apply Hw, list_elem_of_In.
  - unfold rest_lines in Hl. apply list_elem_of_In, in_flat_map in Hl as ([k vs] & Hin & Hl).
    apply list_elem_of_In in Hin. rewrite Ho in Hin. apply elem_of_map_to_list in Hin. cbn [fst snd] in Hl.
    destruct (emitted h k) eqn:E; [done|]. apply in_map_iff in Hl as (v' & [= <- _] & Hv). apply Hr; [by apply Hk; eauto|].
    apply not_true_is_false. intros (w & Hw' & Hc)%existsb_exists. apply bool_decide_eq_true in Hc. apply not_true_iff_false in E.
    apply E, emitted_iff. split; [apply list_elem_of_fmap; exists w; by rewrite list_elem_of_In|]. exists vs. split; [done|]. by intros ->.
Qed.

Lemma pairs_of_lookup h k v : (k, v) ∈ pairs_of (map_to_list h) <-> exists vs, h !! k = Some vs /\ v ∈ vs.
Proof.
  unfold pairs_of. rewrite list_elem_of_In, in_flat_map. split.
  - intros ([k' vs] & Hin & Hv). apply in_map_iff in Hv as (v' & [= -> ->] & Hv). exists vs.
    by rewrite <- elem_of_map_to_list, !list_elem_of_In.
  - intros (vs & Hk & Hv). exists (k, vs). rewrite <- list_elem_of_In, elem_of_map_to_list. split; [done|].
    apply in_map_iff. exists v. by rewrite <- list_elem_of_In.
Qed.
Lemma Values_lookup h k v : v ∈ Values h k <-> exists vs, h !! CanonicalHeaderKey k = Some vs /\ v ∈ vs.
Proof.
  unfold Values. destruct (h !! CanonicalHeaderKey k) as [vs|]; cbn; split; [by eauto|by intros (? & [= <-] & ?)| |by intros (? & ? & _)].
  intros Hv. by apply not_elem_of_nil in Hv.
Qed.

Section lines.
Context (cfg : Config) (rh : header) (id : Identity) (dtls : option (gostring * bytes)).
Local Abbreviation answer := (connect_headers cfg rh id dtls).
Context (order : list (gostring * list gostring)) (Ho : order ≡ₚ map_to_list answer).

Lemma answer_canonical : keys_canonical answer.
Proof.
  clear order Ho. intros k Hk. apply (connect_keys cfg rh id dtls) in Hk.
  assert (Hall : Forall (fun k => CanonicalHeaderKey k = k)
    (map CanonicalHeaderKey (match dtls with Some _ => cisco_names | None => cstp_names end))) by (destruct dtls; decide_closed).
  rewrite Forall_forall in Hall. by apply Hall.
Qed.
Lemma answer_names : Forall (fun l => l.1 ∈ match dtls with Some _ => cisco_names | None => cstp_names end) (response_lines order answer).
Proof. apply wire_name_in; [apply connect_keys|destruct dtls; auto|done]. Qed.

(** A name's lines are the values of its key. *)
Lemma line_iff n v :
  n ∈ (match dtls with Some _ => cisco_names | None => cstp_names end) ->
  (n, v) ∈ response_lines order answer <-> v ∈ Values answer n.
Proof.
  intros Hn. pose proof (response_pairs _ _ answer_canonical Ho) as Hp. pose proof answer_names as Hnm.
  rewrite Values_lookup, <- pairs_of_lookup, <- Hp. rewrite list_elem_of_fmap. split.
  - intros Hl. by exists (n, v).
  - intros ([n' v'] & [= Hc ->] & Hl). rewrite Forall_forall in Hnm. pose proof (Hnm _ Hl) as Hn'. cbn [fst] in Hn'.
    assert (Hinj : forall a b, a ∈ cisco_names -> b ∈ cisco_names -> CanonicalHeaderKey a = CanonicalHeaderKey b -> a = b).
    { intros a b Ha Hb E. assert (Hall : Forall (fun a => Forall (fun b => CanonicalHeaderKey a = CanonicalHeaderKey b -> a = b) cisco_names) cisco_names) by decide_closed.
      rewrite Forall_forall in Hall. specialize (Hall a Ha). rewrite Forall_forall in Hall. by apply Hall. }
    assert (Hsub : forall a, a ∈ (match dtls with Some _ => cisco_names | None => cstp_names end) -> a ∈ cisco_names).
    { intros a. clear. destruct dtls; [done|]. unfold cisco_names. rewrite elem_of_app. auto. }
    rewrite (Hinj n n'); auto.
Qed.
End lines.

(** ** Single values *)

Lemma Values_family k rh id h :
  CanonicalHeaderKey (bs "X-CSTP-Split-Include-IP6") <> CanonicalHeaderKey k ->
  CanonicalHeaderKey (bs "X-CSTP-Address") <> CanonicalHeaderKey k ->
  CanonicalHeaderKey (bs "X-CSTP-Netmask") <> CanonicalHeaderKey k -> Values (family_headers rh id h) k = Values h k.
Proof.
  intros H1 H2 H3. unfold family_headers. cbv zeta.
  repeat case_match; repeat first [rewrite Values_Del_ne by done | rewrite Values_Add_ne by done]; done.
Qed.
Lemma Values_lists k l1 l2 h :
  Forall (fun n => CanonicalHeaderKey n <> CanonicalHeaderKey k)
    (map bs ["X-CSTP-DNS"; "X-CSTP-DNS-IP6"; "X-CSTP-Split-Include"; "X-CSTP-Split-Include-IP6"]%string) ->
  Values (fold_left add_split l1 (fold_left add_dns l2 h)) k = Values h k.
Proof.
  intros HF. rewrite Forall_forall in HF.
  assert (Hk : forall n, bool_decide (n ∈ map bs ["X-CSTP-DNS"; "X-CSTP-DNS-IP6"; "X-CSTP-Split-Include"; "X-CSTP-Split-Include-IP6"]%string) = true ->
    CanonicalHeaderKey n <> CanonicalHeaderKey k) by (intros n Hn%bool_decide_eq_true; auto).
  assert (H2 : forall l h0, Values (fold_left add_dns l h0) k = Values h0 k).
  { induction l as [|a l IH]; intros h0; [done|]. cbn [fold_left]. rewrite IH. unfold add_dns.
    case_match; by rewrite Values_Add_ne by (by apply Hk; vm_compute). }
  rewrite <- (H2 l2 h). generalize (fold_left add_dns l2 h). induction l1 as [|a l IH]; intros h0; [done|].
  cbn [fold_left]. rewrite IH. unfold add_split. case_match; by rewrite Values_Add_ne by (by apply Hk; vm_compute).
Qed.
Lemma ip6_value cfg id mtu :
  Values (emitCSTPHeaders ∅ cfg id mtu) (bs "X-CSTP-Address-IP6")
  = if prefix_valid (id_IPv6 id) then [addr_string (pf_addr (id_IPv6 id)) ++ bs "/128"] else [].
Proof.
  unfold emitCSTPHeaders. cbv zeta. header_eval. rewrite Values_lists by decide_closed.
  destruct (is_nil (DefaultDomain cfg)), (is_nil (ServerName cfg)), (prefix_valid (id_IPv6CLAT id)), (prefix_valid (id_IPv6 id)); by header_eval.
Qed.
Lemma ip4_value cfg id mtu :
  Values (emitCSTPHeaders ∅ cfg id mtu) (bs "X-CSTP-Address") = if prefix_valid (id_IPv6CLAT id) then [bs "192.0.0.1"] else [].
Proof.
  unfold emitCSTPHeaders. cbv zeta. header_eval. rewrite Values_lists by decide_closed.
  destruct (is_nil (DefaultDomain cfg)), (is_nil (ServerName cfg)), (prefix_valid (id_IPv6CLAT id)), (prefix_valid (id_IPv6 id)); by header_eval.
Qed.
(** The last step leaves the values of other names. *)
Lemma Values_offer cfg rh id dtls k :
  Forall (fun n => CanonicalHeaderKey n <> CanonicalHeaderKey k) dtls_names ->
  Values (connect_headers cfg rh id dtls) k
  = Values (family_headers rh id (emitCSTPHeaders ∅ cfg id clatInnerMTUCap)) k.
Proof.
  intros HF. rewrite Forall_forall in HF. unfold connect_headers, negotiateInnerMTU. cbv zeta. destruct dtls as [[oc sid]|]; [|done].
  unfold emitLegacyDTLSHeaders. cbv zeta. by repeat (rewrite Values_Set_ne by (apply HF; decide_closed)).
Qed.
Lemma mtu_value cfg rh id dtls : Values (connect_headers cfg rh id dtls) (bs "X-CSTP-MTU") = [bs "1400"].
Proof.
  rewrite Values_offer, Values_family by decide_closed. unfold emitCSTPHeaders. cbv zeta. by header_eval.
Qed.
Lemma ip4_family cfg rh id :
  Values (family_headers rh id (emitCSTPHeaders ∅ cfg id clatInnerMTUCap)) (bs "X-CSTP-Address")
  = if prefix_valid (id_IPv6CLAT id) && negb (clientSuppressedV4 rh) then [bs "192.0.0.1"] else [].
Proof.
  unfold family_headers. cbv zeta. destruct (clientSuppressedV4 rh).
  - rewrite andb_false_r. rewrite Values_Del_ne by decide_closed. unfold Values, Del. by rewrite lookup_delete_eq.
  - rewrite andb_true_r. destruct (_ && _)%bool; header_eval; apply ip4_value.
Qed.
Lemma dtls_mtu_value cfg rh id oc sid : Values (connect_headers cfg rh id (Some (oc, sid))) (bs "X-DTLS-MTU") = [bs "1400"].
Proof. unfold connect_headers, emitLegacyDTLSHeaders. cbv zeta. by header_eval. Qed.
(** C32: The answer to a CONNECT says each thing once and in the casing the
    client looks for, whatever order the header map is walked in: every pair of
    the map is on exactly one line; every name is one of Cisco's spellings; the
    inner MTU is 1400 for the CSTP leg and, when DTLS is offered, for the DTLS
    leg as well, whatever the client, the device or the configuration ask for;
    without an offer no DTLS line is sent; the native lease is the device's
    address with /128, and the IPv4 lease is 192.0.0.1 exactly for a device with
    a CLAT address whose client did not ask for IPv6 alone. *)
Theorem connect_answer cfg rh id dtls order (Ho : order ≡ₚ map_to_list (connect_headers cfg rh id dtls)) :
  let lines := response_lines order (connect_headers cfg rh id dtls) in
  map canon_pair lines ≡ₚ pairs_of (map_to_list (connect_headers cfg rh id dtls))
  /\ Forall (fun l => l.1 ∈ cisco_names) lines
  /\ (forall v, (bs "X-CSTP-MTU", v) ∈ lines <-> v = bs "1400")
  /\ (forall v, (bs "X-DTLS-MTU", v) ∈ lines <-> dtls <> None /\ v = bs "1400")
  /\ (dtls = None -> Forall (fun l => has_prefix (bs "X-DTLS") l.1 = false) lines)
  /\ (forall v, (bs "X-CSTP-Address-IP6", v) ∈ lines
        <-> prefix_valid (id_IPv6 id) = true /\ v = addr_string (pf_addr (id_IPv6 id)) ++ bs "/128")
  /\ (forall v, (bs "X-CSTP-Address", v) ∈ lines
        <-> prefix_valid (id_IPv6CLAT id) = true /\ clientSuppressedV4 rh = false /\ v = bs "192.0.0.1").
Proof.
  cbv zeta. pose proof (answer_names cfg rh id dtls order Ho) as Hnm. split_and!.
  - apply response_pairs; [apply answer_canonical|done].
  - eapply Forall_impl; [exact Hnm|]. intros l. destruct dtls; [done|]. unfold cisco_names. rewrite elem_of_app. auto.
  - intros v. rewrite (line_iff cfg rh id _ order Ho) by (destruct dtls; decide_closed). rewrite mtu_value. apply list_elem_of_singleton.
  - intros v. destruct dtls as [[oc sid]|].
    + rewrite (line_iff cfg rh id _ order Ho) by decide_closed. rewrite dtls_mtu_value, list_elem_of_singleton. split; [by split|by intros [_ ?]].
    + split; [|by intros [? _]]. intros Hl. rewrite Forall_forall in Hnm. apply Hnm in Hl. exfalso. revert Hl. decide_closed.
  - intros ->. eapply Forall_impl; [exact Hnm|]. intros l Hl.
    assert (Hall : Forall (fun n => has_prefix (bs "X-DTLS") n = false) cstp_names) by decide_closed.
    rewrite Forall_forall in Hall. by apply Hall.
  - intros v. rewrite (line_iff cfg rh id _ order Ho) by (destruct dtls; decide_closed).
    rewrite Values_offer, Values_family, ip6_value by decide_closed. destruct (prefix_valid (id_IPv6 id)).
    + rewrite list_elem_of_singleton. split; [by split|by intros [_ ?]].
    + split; [by intros ?%not_elem_of_nil|by intros [? _]].
  - intros v. rewrite (line_iff cfg rh id _ order Ho) by (destruct dtls; decide_closed). rewrite Values_offer by decide_closed.
    rewrite ip4_family. destruct (prefix_valid (id_IPv6CLAT id)), (clientSuppressedV4 rh); cbn [andb negb];
      rewrite ?list_elem_of_singleton, ?elem_of_nil; split; try done; try (by intros (? & ? & ?)); by split_and!.
Qed.

(** * Witnesses *)

Definition cfg_sample : Config :=
  withDefaults (mkConfig (bs "vpn.example") [] [Addr4 [1; 1; 1; 1]; Addr6 ([0x20; 1; 0xd; 0xb8] ++ repeat 0 11 ++ [1]) []] [] [] 0 0 0 0 0 0 false).
Definition id_sample : Identity :=
  mkIdentity (bs "dev") (mkPrefix (Addr6 ([0xfd] ++ repeat 0 14 ++ [1]) []) 128)
    (mkPrefix (Addr6 ([0xfd; 1] ++ repeat 0 13 ++ [1]) []) 128) 1280 false.
Definition ios_request : header := Set_ (bs "User-Agent") (bs "Cisco AnyConnect VPN Agent for Apple iPhone") ∅.
Definition answer_sample : header :=
  connect_headers cfg_sample ios_request id_sample (Some (bs "ECDHE-RSA-AES128-GCM-SHA256", repeat 7 32)).

Lemma connect_answer_witness :
  (bs "X-DTLS-MTU", bs "1400") ∈ response_lines (map_to_list answer_sample) answer_sample
  /\ (bs "X-CSTP-Address", bs "192.0.0.1") ∈ response_lines (map_to_list answer_sample) answer_sample.
Proof.
  destruct (connect_answer cfg_sample ios_request id_sample (Some (bs "ECDHE-RSA-AES128-GCM-SHA256", repeat 7 32)) _ (Permutation_refl _))
    as (_ & _ & _ & Hd & _ & _ & Ha).
  split.
  - apply Hd. split; [discriminate|reflexivity].
  - apply Ha. split_and!; vm_compute; reflexivity.
Defined.
