(* ===== verification/CstpHttp.v ===== *)
(** [internal/cstp/server.go] and [handleConnect] of [connect.go]: routing, the
    two-step sign-in and the CONNECT. A handler is a program of session-table
    operations, each a critical section or an unlocked read of a row, so that
    handlers can be run alone ([run]) or interleaved ([CstpHttpRuns]). The
    verifier, the resolver, the binding installer and its source are interfaces
    of the configuration; XML decoding, SHA-256 and the connection's outcomes
    are arguments. The tunnel at the end of a CONNECT is [CstpTunnel]'s, its
    hand-over [CstpConfig.publish]. *)

From S2P Require Import Prelude Netip Utf8 HttpLib CstpSessions CstpConfig CstpHeaders CstpXml.

(** * Requests and outcomes *)

Record Request := mkRequest {
  rq_Method : gostring;
  rq_Path : gostring;
  rq_Header : header;
  rq_Body : Reader;
  rq_group : gostring;       (* the context's group URL *)
  rq_hijack : bool;          (* the connection can be hijacked *)
  rq_write : bool            (* the answer can be written to it *)
}.
Record DTLSBinding := mkBinding {
  bd_SourceIP : Addr; bd_PSK : bytes; bd_DeviceID : gostring; bd_UserID : gostring; bd_MTLSSubjectDN : gostring;
  bd_SourceV6 : Addr; bd_Token : bytes; bd_MasterSecret : bytes; bd_SessionID : bytes; bd_Cipher : gostring
}.
(** What the client sees: a reply, a tunnel, or a closed connection. *)
Inductive Outcome : Type :=
| Reply (status : Z) (h : header) (body : bytes)
| Connected (id : Identity) (sessionID : gostring) (dtls : option DTLSBinding) (h : header)
| Dropped.

Class Services := {
  Verify : gostring -> gostring -> option gostring;
  Resolve : gostring -> option Identity;
  DTLSBindingSource : option (Request -> Identity -> option DTLSBinding);
  DTLSBindingInstaller : option (DTLSBinding -> bool);
  xml_Decode : Reader -> option authEnvelope;
  Sum256 : bytes -> bytes
}.

(** * Programs of table operations *)

Inductive TableOp : Type -> Type :=
| NewOpaque : TableOp (option nat)
| LookupOpaque (id : gostring) : TableOp (option nat)
| StashUsername (id user : gostring) : TableOp bool
| ReadRow (s : nat) : TableOp session                       (* without the lock *)
| FindOpaque (id : gostring) : TableOp (option nat)         (* [promote]'s lookup *)
| CommitPromote (s : nat) (user dev tok : gostring) : TableOp unit
| LookupToken (tok : gostring) : TableOp (option nat)
| Touch (s : nat) : TableOp unit
| DrawRandom (n : nat) : TableOp (option bytes).
Inductive Prog (A : Type) : Type :=
| Ret (a : A)
| Call {B : Type} (op : TableOp B) (k : B -> Prog A).
Arguments Ret {A} a.
Arguments Call {A B} op k.
Notation "x <-- op ;; k" := (Call op (fun x => k)) (at level 100, op at next level, right associativity) : go_scope.

Definition no_row : session := mkSession [] [] [] [] 0 0.
Definition exec {B} (op : TableOp B) (now : Z) (rd : RandRead) (t : sessionTable) : B * sessionTable :=
  match op in TableOp B return B * sessionTable with
  | NewOpaque => newOpaque t now rd
  | LookupOpaque id => lookupOpaque t now id
  | StashUsername id user => stashUsername t now id user
  | ReadRow s => (default no_row (st_heap t !! s), t)
  | FindOpaque id => (st_byOpaque t !! id, t)
  | CommitPromote s user dev tok => (tt, promote_commit t now s user dev tok)
  | LookupToken tok => lookupToken t now tok
  | Touch s => (tt, touch t (Some s) now)
  | DrawRandom n => (rd n, t)
  end.
(** A handler running alone. *)
Fixpoint run {A} (p : Prog A) (now : Z) (rd : RandRead) (t : sessionTable) : A * sessionTable :=
  match p with
  | Ret a => (a, t)
  | Call op k => let '(b, t) := exec op now rd t in run (k b) now rd t
  end.

(** * Replies *)

(** [http.Error], [http.NotFound] *)
Definition http_Error (h : header) (msg : gostring) (code : Z) : Outcome :=
  Reply code (Set_ (bs "X-Content-Type-Options") (bs "nosniff")
    (Set_ (bs "Content-Type") (bs "text/plain; charset=utf-8") (Del (bs "Content-Length") h))) (msg ++ [10]).
Definition NotFound : Outcome := http_Error ∅ (bs "404 page not found") 404.

Definition webVPNContextCookie : gostring := bs "webvpncontext".
Definition setWebVPNContext (h : header) (opaqueID : gostring) : header := SetCookie webVPNContextCookie opaqueID 300 h.
Definition writeAuthXML (h : header) (status : Z) (body : bytes) : Outcome :=
  Reply status (Set_ (bs "X-Transcend-Version") (bs "1") (Set_ (bs "Content-Type") (bs "text/xml")
    (Set_ (bs "Connection") (bs "Keep-Alive") h))) body.

(** * Routing *)

Definition group_prefix : gostring := bs "/drive/access/".
(** The group-URL prefix moves from the path to the context. *)
Definition strip_group (r : Request) : Request :=
  let full := rq_Path r in
  if has_prefix group_prefix full then
    let rest := drop (length group_prefix) full in
    match index_byte 47 rest with
    | Some i => mkRequest (rq_Method r) (drop i rest) (rq_Header r) (rq_Body r) (take (length group_prefix + i) full) (rq_hijack r) (rq_write r)
    | None => mkRequest (rq_Method r) (bs "/") (rq_Header r) (rq_Body r) full (rq_hijack r) (rq_write r)
    end
  else r.
Definition authActionFor (r : Request) : gostring := if is_nil (rq_group r) then bs "/auth" else rq_group r ++ bs "/auth".
Definition webVPNCBaseFor (r : Request) : gostring := if is_nil (rq_group r) then bs "/" else rq_group r ++ bs "/".
Definition rejectAndroidCiscoSC (ua : gostring) : bool :=
  let lower := lower_search ua in
  if negb (contains (bs "anyconnect") lower) then false
  else contains (bs "android") lower && negb (contains (bs "openconnect") lower).

Inductive Route : Type := RForbidden | RInit | RAuth | RConnect | RProfile | RHousekeeping | RNotFound.
(** [ServeHTTP]'s tests on a stripped request. *)
Definition route_of (r : Request) : Route :=
  if rejectAndroidCiscoSC (Get (rq_Header r) (bs "User-Agent")) then RForbidden
  else if bool_decide (rq_Method r = bs "POST") && bool_decide (rq_Path r = bs "/") then RInit
  else if bool_decide (rq_Method r = bs "POST") && bool_decide (rq_Path r = bs "/auth") then RAuth
  else if bool_decide (rq_Method r = bs "CONNECT") && bool_decide (rq_Path r = bs "/CSCOSSLC/tunnel") then RConnect
  else if bool_decide (rq_Method r = bs "GET") && has_prefix (bs "/profiles/") (rq_Path r) then RProfile
  else if bool_decide (rq_Method r = bs "GET") && isAnyConnectHousekeepingPath (rq_Path r) then RHousekeeping
  else RNotFound.

(** * The canned bodies *)

(** A text whose double quotes are written as single ones. *)
Definition bsq (s : string) : gostring := map (fun c => if c =? 39 then 34 else c) (bs s).
Definition anyConnectProfileXML : gostring := bsq "<?xml version='1.0' encoding='UTF-8'?>
<AnyConnectProfile xmlns='http://schemas.xmlsoap.org/encoding/' xmlns:xsi='http://www.w3.org/2001/XMLSchema-instance' xsi:schemaLocation='http://schemas.xmlsoap.org/encoding/ AnyConnectProfile.xsd'>
  <ClientInitialization>
    <UseStartBeforeLogon UserControllable='false'>false</UseStartBeforeLogon>
    <AutomaticCertSelection UserControllable='false'>false</AutomaticCertSelection>
    <ShowPreConnectMessage>false</ShowPreConnectMessage>
    <CertificateStore>All</CertificateStore>
    <CertificateStoreOverride>false</CertificateStoreOverride>
    <ProxySettings>Native</ProxySettings>
    <AutoConnectOnStart UserControllable='false'>false</AutoConnectOnStart>
    <MinimizeOnConnect UserControllable='true'>true</MinimizeOnConnect>
    <LocalLanAccess UserControllable='true'>false</LocalLanAccess>
    <AutoReconnect UserControllable='false'>true<AutoReconnectBehavior UserControllable='false'>ReconnectAfterResume</AutoReconnectBehavior></AutoReconnect>
    <AutoUpdate UserControllable='false'>false</AutoUpdate>
    <RSASecurIDIntegration UserControllable='false'>Automatic</RSASecurIDIntegration>
    <WindowsLogonEnforcement>SingleLocalLogon</WindowsLogonEnforcement>
    <CertEnrollmentPin>pinAllowed</CertEnrollmentPin>
    <CertificateMatch>
      <KeyUsage>
        <MatchKey>Digital_Signature</MatchKey>
      </KeyUsage>
    </CertificateMatch>
  </ClientInitialization>
  <ServerList>
    <HostEntry>
      <HostName>ERA</HostName>
      <HostAddress>eracloud.app</HostAddress>
    </HostEntry>
  </ServerList>
</AnyConnectProfile>".
Definition anyConnectVPNManifestXML : gostring := bsq "<?xml version='1.0' encoding='UTF-8'?>
<vpn rev='1.0'>
</vpn>
".
Definition anyConnectUpdateTxt : gostring := bs "0,0,0000
".
Definition anyConnectVPNDownloader : gostring := bs "#!/bin/sh

exit 0".
Definition anyConnectEmptyHTML : gostring := bs "<html></html>
".

Definition handleProfile : Outcome :=
  Reply 200 (Set_ (bs "X-Transcend-Version") (bs "1") (Set_ (bs "Content-Type") (bs "text/xml; charset=utf-8")
    (Set_ (bs "Connection") (bs "Keep-Alive") ∅))) anyConnectProfileXML.
Definition handleAnyConnectHousekeeping (r : Request) : Outcome :=
  let h := Set_ (bs "X-Transcend-Version") (bs "1") (Set_ (bs "Connection") (bs "Keep-Alive") ∅) in
  let p := rq_Path r in
  let answer ctype body := Reply 200 (Set_ (bs "Content-Type") (bs ctype) h) body in
  if bool_decide (p = bs "/+CSCOT+/translation-table") || bool_decide (p = bs "/VPNManifest.xml")
     || bool_decide (p = bs "/1/VPNManifest.xml")
  then answer "text/xml; charset=utf-8"%string anyConnectVPNManifestXML
  else if bool_decide (p = bs "/1/binaries/update.txt") then answer "text/plain; charset=utf-8"%string anyConnectUpdateTxt
  else if bool_decide (p = bs "/1/binaries/vpndownloader.sh") then answer "application/x-shellscript"%string anyConnectVPNDownloader
  else answer "text/html; charset=utf-8"%string anyConnectEmptyHTML.

Section handlers.
Context `{Services} (cfg : Config) (certSHA1 : gostring).

(** * Sign-in *)

Definition body_limit : nat := Z.to_nat 65536.
(** [http.MaxBytesReader]: a longer body ends in an error. *)
Definition MaxBytesReader (r : Reader) : Reader :=
  if (body_limit <? length (rd_data r))%nat then mkReader (take body_limit (rd_data r)) ErrOther else r.
(** [io.ReadAll] of an [io.LimitReader]: a longer body is cut. *)
Definition ReadAll_limited (r : Reader) : option bytes :=
  if (body_limit <=? length (rd_data r))%nat then Some (take body_limit (rd_data r))
  else match rd_err r with EOF => Some (rd_data r) | _ => None end.
Definition parseAuthReply (r : Request) : option parsedAuth :=
  match ReadAll_limited (rq_Body r) with
  | None => None
  | Some body =>
    let trimmed := TrimSpace body in
    if has_prefix [60] trimmed then parseAuthRequest xml_Decode (mkReader trimmed EOF)
    else
      match ParseQuery body with
      | None => None
      | Some vals => Some (mkParsed authTypeAuthReply [] (query_get vals (bs "username")) (query_get vals (bs "password")) [])
      end
  end.

Definition handleInit (r : Request) : Prog Outcome :=
  match parseAuthRequest xml_Decode (MaxBytesReader (rq_Body r)) with
  | None => Ret (http_Error ∅ (bs "bad init xml") 400)
  | Some pa =>
    if negb (bool_decide (pa_Type pa = authTypeInit)) then Ret (http_Error ∅ (bs "unexpected config-auth type") 400)
    else
      sess <-- NewOpaque ;;
      match sess with
      | None => Ret (http_Error ∅ (bs "internal") 500)
      | Some s =>
        row <-- ReadRow s ;;
        match buildUsernameRequest (cs_opaqueID row) (bs "Please enter your username.") (authActionFor r) with
        | None => Ret (http_Error ∅ (bs "internal") 500)
        | Some body => Ret (writeAuthXML (setWebVPNContext ∅ (cs_opaqueID row)) 200 body)
        end
      end
  end.

(** The reply that asks for the username, or for the password. *)
Definition ask (form : option gostring) (opaqueID : gostring) : Outcome :=
  writeAuthXML (setWebVPNContext ∅ opaqueID) 200 (default [] form).
Definition prompt_password (r : Request) (opaqueID msg : gostring) : Outcome :=
  ask (buildPasswordRequest opaqueID msg (authActionFor r)) opaqueID.
(** The username step, [s] the session found. *)
Definition username_step (r : Request) (pa : parsedAuth) (s : option nat) (opaqueID : gostring) : Prog Outcome :=
  if negb (is_nil (pa_Username pa)) then
    match s with
    | Some _ =>
      _ <-- StashUsername opaqueID (pa_Username pa) ;;
      Ret (prompt_password r opaqueID (bs "Please enter your password."))
    | None =>
      fresh <-- NewOpaque ;;
      match fresh with
      | None => Ret (http_Error ∅ (bs "internal") 500)
      | Some s =>
        row <-- ReadRow s ;;
        _ <-- StashUsername (cs_opaqueID row) (pa_Username pa) ;;
        Ret (prompt_password r (cs_opaqueID row) (bs "Please enter your password."))
      end
    end
  else
    fresh <-- NewOpaque ;;
    match fresh with
    | None => Ret (http_Error ∅ (bs "internal") 500)
    | Some s =>
      row <-- ReadRow s ;;
      Ret (ask (buildUsernameRequest (cs_opaqueID row) (bs "Please enter your username.") (authActionFor r)) (cs_opaqueID row))
    end.

(** [promote]: the row, or [None] when it is gone or no token could be drawn. *)
Definition promote_prog {A} (opaqueID user dev : gostring) (k : option nat -> Prog A) : Prog A :=
  found <-- FindOpaque opaqueID ;;
  match found with
  | None => k None
  | Some s =>
    b <-- DrawRandom 32 ;;
    match b with
    | None => k None
    | Some b => _ <-- CommitPromote s user dev (b64url b) ;; k (Some s)
    end
  end.

(** The cookies of a completed sign-in. *)
Definition complete_headers (r : Request) (row row' : session) : header :=
  let h := SetCookie (bs "webvpncontext") (cs_opaqueID row) 0 ∅ in
  let h := SetCookie (bs "webvpn") (cs_token row') 0 h in
  let h := Add (bs "Set-Cookie") (bs "webvpnc=; expires=Thu, 01 Jan 1970 00:00:00 GMT; path=/; Secure; HttpOnly") h in
  Add (bs "Set-Cookie") (bs "webvpnc=" ++ buildWebVPNC (webVPNCBaseFor r) certSHA1 ++ bs "; path=/; Secure; HttpOnly") h.
Definition password_step (r : Request) (pa : parsedAuth) (s : nat) (opaqueID : gostring) : Prog Outcome :=
  row <-- ReadRow s ;;
  let username := cs_username row in
  if is_nil (pa_Password pa) then Ret (prompt_password r opaqueID (bs "Please enter your password."))
  else
    match Verify username (pa_Password pa) with
    | None => Ret (prompt_password r opaqueID (bs "Sign-in failed. Please try again."))
    | Some dev =>
      promote_prog opaqueID username dev (fun promoted =>
        match promoted with
        | None => Ret (http_Error ∅ (bs "internal") 500)
        | Some s =>
          row <-- ReadRow s ;;
          row' <-- ReadRow s ;;
          match buildAuthComplete with
          | None => Ret (http_Error (complete_headers r row row') (bs "internal") 500)
          | Some body => Ret (writeAuthXML (complete_headers r row row') 200 body)
          end
        end)
    end.
Definition auth_opaque (r : Request) (pa : parsedAuth) : gostring :=
  if is_nil (pa_OpaqueID pa) then default [] (Cookie (rq_Header r) webVPNContextCookie) else pa_OpaqueID pa.
Definition handleAuth (r : Request) : Prog Outcome :=
  match parseAuthReply r with
  | None => Ret (http_Error ∅ (bs "bad auth body") 400)
  | Some pa =>
    if negb (bool_decide (pa_Type pa = authTypeAuthReply)) then Ret (http_Error ∅ (bs "unexpected config-auth type") 400)
    else
      let opaqueID := auth_opaque r pa in
      sess <-- LookupOpaque opaqueID ;;
      match sess with
      | None => username_step r pa None opaqueID
      | Some s =>
        row <-- ReadRow s ;;
        if is_nil (cs_username row) then username_step r pa (Some s) opaqueID
        else password_step r pa s opaqueID
      end
  end.

(** * CONNECT *)

Definition sessionBindingToken (cookie : gostring) : bytes := take 12 (Sum256 cookie).
(** The binding published for a session: its token and the device's address
    replace the source's. *)
Definition connect_binding (b : DTLSBinding) (id : Identity) (token master sid : bytes) (oc : gostring) : DTLSBinding :=
  mkBinding (bd_SourceIP b) (bd_PSK b) (bd_DeviceID b) (bd_UserID b) (bd_MTLSSubjectDN b)
    (if IsValid (pf_addr (id_IPv6 id)) then pf_addr (id_IPv6 id) else bd_SourceV6 b)
    (sessionBindingToken token) master sid oc.
(** The DTLS offer: what the client and the source provide, if DTLS is on. *)
Definition dtls_terms (r : Request) (id : Identity) : option (DTLSBinding * bytes * gostring * (DTLSBinding -> bool)) :=
  if DTLSDisabled cfg || id_DTLSDisabled id then None
  else
    match DTLSBindingInstaller, DTLSBindingSource with
    | Some upsert, Some source =>
      match source r id with
      | None => None
      | Some b =>
        match parseClientMasterSecret (rq_Header r), selectDTLSCipher (rq_Header r) with
        | Some master, Some oc => Some (b, master, oc, upsert)
        | _, _ => None
        end
      end
    | _, _ => None
    end.
(** After the headers: hijack, answer, refresh the session, start the tunnel. *)
Definition connect_finish (r : Request) (id : Identity) (s : nat) (h : header) (dtls : option DTLSBinding) : Prog Outcome :=
  if negb (rq_hijack r) then Ret (http_Error h (bs "hijack failed") 500)
  else if negb (rq_write r) then Ret Dropped
  else
    _ <-- Touch s ;;
    row <-- ReadRow s ;;
    Ret (Connected id (cs_token row) dtls h).
Definition handleConnect (r : Request) : Prog Outcome :=
  sess <-- LookupToken (extractWebVPNCookie (rq_Header r)) ;;
  match sess with
  | None => Ret (http_Error (Set_ (bs "Connection") (bs "close") ∅) (bs "Unauthorized") 401)
  | Some s =>
    row <-- ReadRow s ;;
    match Resolve (cs_deviceID row) with
    | None => Ret (http_Error ∅ (bs "identity resolve failed") 502)
    | Some id =>
      let answer offer := connect_headers cfg (rq_Header r) id offer in
      match dtls_terms r id with
      | None => connect_finish r id s (answer None) None
      | Some (b, master, oc, upsert) =>
        row <-- ReadRow s ;;
        sid <-- DrawRandom 32 ;;
        match sid with
        | None => connect_finish r id s (answer None) None
        | Some sid =>
          let b := connect_binding b id (cs_token row) master sid oc in
          if upsert b then connect_finish r id s (answer (Some (oc, sid))) (Some b)
          else connect_finish r id s (answer None) None
        end
      end
    end
  end.

Definition ServeHTTP (r : Request) : Prog Outcome :=
  let r := strip_group r in
  match route_of r with
  | RForbidden => Ret (http_Error ∅ (bs "Cisco Secure Client on Android is not supported; use OpenConnect for Android.") 403)
  | RInit => handleInit r
  | RAuth => handleAuth r
  | RConnect => handleConnect r
  | RProfile => Ret handleProfile
  | RHousekeeping => Ret (handleAnyConnectHousekeeping r)
  | RNotFound => Ret NotFound
  end.
End handlers.
