(* ===== verification/CstpHttpRuns.v ===== *)
(** The CSTP handlers against the session table: requests served at the same
    time, their table operations interleaved, and the sign-in of one client from
    its first POST to its tunnel. *)

From S2P Require Import Prelude Netip Utf8 HttpLib CstpSessions CstpConfig CstpHeaders CstpXml CstpHttp.

(** * Group URLs *)

Lemma has_prefix_app_self p s : has_prefix p (p ++ s) = true.
Proof. induction p as [|c p IH]; cbn; [done|]. by rewrite Z.eqb_refl. Qed.
Lemma has_prefix_split p s : has_prefix p s = true -> s = p ++ drop (length p) s.
Proof.
  revert s. induction p as [|c p IH]; intros s; [done|]. destruct s as [|d s]; [done|]. cbn.
  intros [Hc Hp]%andb_true_iff. apply Z.eqb_eq in Hc. subst. f_equal. by apply IH.
Qed.
Lemma index_byte_Some c s i : index_byte c s = Some i -> exists s', s = take i s ++ c :: s' /\ index_byte c (take i s) = None /\ (i < length s)%nat.
Proof.
  revert i. induction s as [|b s IH]; intros i; cbn; [done|]. destruct (Z.eqb_spec b c) as [->|Hne].
  - intros [= <-]. exists s. split_and!; [done|done|lia].
  - destruct (index_byte c s) as [j|] eqn:E; [|done]. intros [= <-]. destruct (IH j eq_refl) as (s' & Hs & Hn & Hl).
    exists s'. cbn. split_and!; [by f_equal|by rewrite (proj2 (Z.eqb_neq _ _)), Hn by done|lia].
Qed.
Lemma index_byte_app c s s' : index_byte c s = None -> index_byte c (s ++ c :: s') = Some (length s).
Proof.
  induction s as [|b s IH]; cbn; [by rewrite Z.eqb_refl|]. destruct (b =? c); [done|].
  destruct (index_byte c s); [done|]. intros _. by rewrite IH.
Qed.

(** A request moved under a group URL. *)
Definition at_path (r : Request) (method path : gostring) : Request :=
  mkRequest method path (rq_Header r) (rq_Body r) [] (rq_hijack r) (rq_write r).
(** A group URL with a path after it is taken apart where the path starts. *)
Lemma strip_group_under r m tok rest :
  index_byte 47 tok = None ->
  strip_group (at_path r m (group_prefix ++ tok ++ 47 :: rest))
  = mkRequest m (47 :: rest) (rq_Header r) (rq_Body r) (group_prefix ++ tok) (rq_hijack r) (rq_write r).
Proof.
  intros Hn. unfold strip_group, at_path. cbn [rq_Path rq_Method rq_Header rq_Body rq_hijack rq_write].
  rewrite has_prefix_app_self. rewrite drop_app_length, index_byte_app by done. rewrite drop_app_length.
  f_equal. rewrite take_app_add, take_app_length. done.
Qed.

(** The group URL of a stripped request is empty or a prefix and a token. *)
Lemma strip_group_shape r :
  rq_group r = [] -> rq_group (strip_group r) = [] /\ has_prefix group_prefix (rq_Path r) = false
  \/ exists tok, rq_group (strip_group r) = group_prefix ++ tok /\ index_byte 47 tok = None.
Proof.
  intros Hg. unfold strip_group. destruct (has_prefix group_prefix (rq_Path r)) eqn:E; [right|by left].
  apply has_prefix_split in E. set (rest := drop (length group_prefix) (rq_Path r)) in *.
  destruct (index_byte 47 rest) as [i|] eqn:Ei; cbn [rq_group].
  - destruct (index_byte_Some _ _ _ Ei) as (s' & Hs & Hn & Hl). exists (take i rest). split; [|done].
    rewrite E. rewrite take_app_add. done.
  - by exists rest.
Qed.

(** C34: What the server tells a client to fetch next comes back to it: a POST to
    the form's action is the sign-in handler's, and a CONNECT to
    [CSCOSSLC/tunnel] under the advertised base is the tunnel handler's, both in
    the group the request came in with, whatever the token. *)
Theorem followups_route_back r r' (Hg : rq_group r = [])
    (Hua : rejectAndroidCiscoSC (Get (rq_Header r') (bs "User-Agent")) = false) :
  let post := strip_group (at_path r' (bs "POST") (authActionFor (strip_group r))) in
  let conn := strip_group (at_path r' (bs "CONNECT") (webVPNCBaseFor (strip_group r) ++ bs "CSCOSSLC/tunnel")) in
  route_of post = RAuth /\ rq_group post = rq_group (strip_group r)
  /\ route_of conn = RConnect /\ rq_group conn = rq_group (strip_group r).
Proof.
  cbv zeta. unfold authActionFor, webVPNCBaseFor. destruct (strip_group_shape r Hg) as [[-> _]|(tok & -> & Hn)].
  - change (strip_group (at_path r' (bs "POST") _)) with (at_path r' (bs "POST") (bs "/auth")).
    change (strip_group (at_path r' (bs "CONNECT") _)) with (at_path r' (bs "CONNECT") (bs "/CSCOSSLC/tunnel")).
    unfold route_of, at_path. cbn [rq_Header rq_Method rq_Path rq_group]. rewrite Hua. done.
  - assert (Hnil : is_nil (group_prefix ++ tok) = false) by done. rewrite Hnil, <- !app_assoc.
    change (bs "/auth") with (47 :: bs "auth"). change (bs "/" ++ bs "CSCOSSLC/tunnel") with (47 :: bs "CSCOSSLC/tunnel").
    rewrite !strip_group_under by done. unfold route_of. cbn [rq_Header rq_Method rq_Path rq_group]. rewrite Hua. done.
Qed.

(** * Requests in flight *)

Section runs.
Context `{Services} (cfg : Config) (certSHA1 : gostring) (ttl : Z).

Definition promos_after {B} (op : TableOp B) (ps : list Promo) : list Promo :=
  match op with CommitPromote s _ dev tok => mkPromo s dev tok :: ps | _ => ps end.
(** A token drawn was not drawn before. *)
Definition fresh_token {B} (op : TableOp B) (ps : list Promo) : Prop :=
  match op with CommitPromote _ _ _ tok => tok ∉ map pr_token ps | _ => True end.
Definition rd_ok (rd : RandRead) : Prop := forall n b, rd n = Some b -> length b = n.

(** The table with the promotions so far, the requests in flight with what is
    left of their handlers, and the outcomes. *)
Inductive http_steps : sessionTable -> list Promo -> list (Request * Prog Outcome) -> list (Request * Outcome) -> Prop :=
| hs_start : http_steps (newSessionTable ttl) [] [] []
| hs_request t ps ths outs r :
    http_steps t ps ths outs -> http_steps t ps ((r, ServeHTTP cfg certSHA1 r) :: ths) outs
| hs_op t ps l1 r B (op : TableOp B) k l2 outs now rd :
    http_steps t ps (l1 ++ (r, Call op k) :: l2) outs -> rd_ok rd -> fresh_token op ps ->
    http_steps (exec op now rd t).2 (promos_after op ps) (l1 ++ (r, k (exec op now rd t).1) :: l2) outs
| hs_done t ps l1 r o l2 outs :
    http_steps t ps (l1 ++ (r, Ret o) :: l2) outs -> http_steps t ps (l1 ++ l2) ((r, o) :: outs).

(** * What a handler may rely on *)

(** The rows made and the promotions done: both only grow. *)
Record World := mkWorld { w_rows : nat; w_ps : list Promo }.
Definition later (w w' : World) : Prop := (w_rows w <= w_rows w')%nat /\ w_ps w ⊆ w_ps w'.
#[local] Instance later_preorder : PreOrder later.
Proof.
  split; [intros w; by split|]. intros w1 w2 w3 [H1 H2] [H3 H4]. split; [lia|]. by etransitivity.
Qed.
Definition pre {B} (w : World) (op : TableOp B) : Prop :=
  match op with
  | CommitPromote s user dev tok => (s < w_rows w)%nat /\ tok <> [] /\ exists pw, Verify user pw = Some dev
  | _ => True
  end.
Definition post {B} (w : World) (op : TableOp B) : B -> Prop :=
  match op in TableOp B return B -> Prop with
  | FindOpaque _ => fun o => forall s, o = Some s -> (s < w_rows w)%nat
  | LookupToken tok => fun o => forall s, o = Some s -> exists p, p ∈ w_ps w /\ pr_token p = tok /\ pr_row p = s
  | ReadRow s => fun row => (exists p, p ∈ w_ps w /\ pr_row p = s) ->
      exists p, p ∈ w_ps w /\ pr_row p = s /\ pr_token p = cs_token row /\ pr_device p = cs_deviceID row
  | DrawRandom n => fun o => forall b, o = Some b -> length b = n
  | _ => fun _ => True
  end.
Fixpoint safe (good : World -> Outcome -> Prop) (w : World) (p : Prog Outcome) : Prop :=
  match p with
  | Ret o => good w o
  | Call op k => pre w op /\ forall w' b, later w w' -> post w' op b -> safe good w' (k b)
  end.
(** The promise on an outcome. *)
Definition offer_ok (r : Request) (id : Identity) (sid : gostring) (b : DTLSBinding) : Prop :=
  DTLSDisabled cfg = false /\ id_DTLSDisabled id = false
  /\ (exists upsert, DTLSBindingInstaller = Some upsert /\ upsert b = true)
  /\ parseClientMasterSecret (rq_Header r) = Some (bd_MasterSecret b)
  /\ bd_Cipher b ∈ dtlsCipherPrefs /\ bd_Cipher b ∈ offered_ciphers (rq_Header r)
  /\ length (bd_SessionID b) = 32%nat
  /\ (IsValid (pf_addr (id_IPv6 id)) = true -> bd_SourceV6 b = pf_addr (id_IPv6 id)).
Definition good (r : Request) (w : World) (o : Outcome) : Prop :=
  match o with
  | Connected id sid dtls h =>
    (exists p q s, p ∈ w_ps w /\ q ∈ w_ps w /\ s ∈ w_ps w /\ pr_row q = pr_row p /\ pr_row s = pr_row p
      /\ pr_token p = extractWebVPNCookie (rq_Header r) /\ Resolve (pr_device q) = Some id /\ pr_token s = sid)
    /\ h = connect_headers cfg (rq_Header r) id ((fun b => (bd_Cipher b, bd_SessionID b)) <$> dtls)
    /\ (forall b, dtls = Some b -> offer_ok r id sid b)
  | _ => True
  end.

Lemma good_later r w w' o : later w w' -> good r w o -> good r w' o.
Proof.
  intros [_ Hps]. destruct o as [| id sid dtls h|]; [done| |done].
  intros [(p & q & s & H1 & H2 & H3 & Hrest) Ho]. split; [|done]. exists p, q, s. split_and!; try apply Hps; try done; apply Hrest.
Qed.
Lemma safe_later r w w' p : later w w' -> safe (good r) w p -> safe (good r) w' p.
Proof.
  intros Hw. destruct p as [o|B op k]; [by apply good_later|]. cbn. intros [Hpre Hk]. split.
  - destruct op; try done. cbn in *. destruct Hpre as (? & ? & ?). destruct Hw. split_and!; [lia|done|done].
  - intros w2 b Hw2. apply Hk. by etransitivity.
Qed.

(** ** The handlers keep their promises *)

Lemma b64url_nonempty b : b <> [] -> b64url b <> [].
Proof. destruct b as [|x [|y [|z b]]]; done. Qed.

Lemma username_step_safe r w pa s opaqueID : safe (good r) w (username_step r pa s opaqueID).
Proof. unfold username_step. destruct (is_nil _), s as [s|]; cbn; repeat (intros; split || case_match || cbn); done. Qed.

Ltac safe_step := first [ done | progress cbn | intros ? | split | case_match ].

Lemma handleInit_safe r w : safe (good r) w (handleInit r).
Proof.
  unfold handleInit. destruct (parseAuthRequest _ _) as [pa|]; [|done]. destruct (negb _); [done|].
  split; [done|]. intros w1 [s|] _ _; [|done]. split; [done|]. intros w2 row _ _. by destruct (buildUsernameRequest _ _ _).
Qed.
Lemma password_step_safe r w pa s opaqueID : safe (good r) w (password_step certSHA1 r pa s opaqueID).
Proof.
  unfold password_step. split; [done|]. intros w1 row Hw1 _. cbv zeta. destruct (is_nil (pa_Password pa)); [done|].
  destruct (Verify (cs_username row) (pa_Password pa)) as [dev|] eqn:Ev; [|done].
  unfold promote_prog. split; [done|]. intros w2 found Hw2 Hf. destruct found as [s'|]; [|done].
  split; [done|]. intros w3 b Hw3 Hb. destruct b as [b|]; [|done].
  split.
  - cbn in *. specialize (Hf s' eq_refl). specialize (Hb b eq_refl). destruct Hw3. split_and!; [lia| |by exists (pa_Password pa)].
    apply b64url_nonempty. by intros ->.
  - intros w4 _ Hw4 _. repeat safe_step.
Qed.
Lemma handleAuth_safe r w : safe (good r) w (handleAuth certSHA1 r).
Proof.
  unfold handleAuth. destruct (parseAuthReply r) as [pa|]; [|done]. destruct (negb _); [done|]. cbv zeta.
  split; [done|]. intros w1 sess Hw1 _. destruct sess as [s|]; [|apply username_step_safe].
  split; [done|]. intros w2 row Hw2 _. destruct (is_nil _); [apply username_step_safe|apply password_step_safe].
Qed.

(** The tunnel is given out at the end; what was known of the row still is. *)
Lemma connect_finish_safe r w id s dtls p q :
  p ∈ w_ps w -> q ∈ w_ps w -> pr_row p = s -> pr_row q = s ->
  pr_token p = extractWebVPNCookie (rq_Header r) -> Resolve (pr_device q) = Some id ->
  (forall sid b, dtls = Some b -> offer_ok r id sid b) ->
  safe (good r) w (connect_finish r id s (connect_headers cfg (rq_Header r) id ((fun b => (bd_Cipher b, bd_SessionID b)) <$> dtls)) dtls).
Proof.
  intros Hp Hq Hps Hqs Htok Hres Hoff. unfold connect_finish. destruct (negb _); [done|]. destruct (negb _); [done|].
  split; [done|]. intros w1 _ Hw1 _. split; [done|]. intros w2 row Hw2 Hrow.
  assert (Hw : later w w2) by (by etransitivity). cbn [safe good]. cbn in Hrow.
  destruct Hrow as (x & Hx & Hxs & Hxt & _); [exists p; split; [by apply Hw|done]|].
  split_and!; [|done|by apply Hoff]. exists p, q, x. destruct Hw as [_ Hw]. split_and!; auto; congruence.
Qed.
Lemma handleConnect_safe r w : safe (good r) w (handleConnect cfg r).
Proof.
  unfold handleConnect. split; [done|]. intros w1 sess Hw1 Hs. destruct sess as [s|]; [|done].
  cbn in Hs. destruct (Hs s eq_refl) as (p & Hp & Htok & Hps).
  split; [done|]. intros w2 row Hw2 Hrow. cbn in Hrow.
  destruct Hrow as (q & Hq & Hqs & _ & Hqd); [exists p; split; [by apply Hw2|done]|].
  destruct (Resolve (cs_deviceID row)) as [id|] eqn:Er; [|done]. cbv zeta.
  assert (Hfin : forall w' dtls, later w2 w' -> (forall sid b, dtls = Some b -> offer_ok r id sid b) ->
    safe (good r) w' (connect_finish r id s (connect_headers cfg (rq_Header r) id ((fun b => (bd_Cipher b, bd_SessionID b)) <$> dtls)) dtls)).
  { intros w' dtls Hw' Hoff. apply (connect_finish_safe _ _ _ _ _ p q); try done; [|by apply Hw'|congruence].
    apply Hw', Hw2, Hp. }
  destruct (dtls_terms cfg r id) as [[[[b master] oc] upsert]|] eqn:Ed; [|apply (Hfin w2 None); [reflexivity|done]].
  split; [done|]. intros w3 row' Hw3 _. split; [done|]. intros w4 sid Hw4 Hsid.
  assert (Hw24 : later w2 w4) by (by etransitivity).
  destruct sid as [sid|]; [|apply (Hfin w4 None); done]. cbn in Hsid. specialize (Hsid sid eq_refl).
  destruct (upsert _) eqn:Eu; [|apply (Hfin w4 None); done].
  apply (Hfin w4 (Some (connect_binding b id (cs_token row') master sid oc))); [done|].
  intros sid' b' [= <-]. unfold dtls_terms in Ed. destruct (_ || _)%bool eqn:Edis; [done|]. apply orb_false_iff in Edis as [Hd1 Hd2].
  destruct DTLSBindingInstaller as [up|] eqn:Ei; [|done]. destruct DTLSBindingSource as [src|]; [|done].
  destruct (src r id) as [b0|]; [|done]. destruct (parseClientMasterSecret _) as [m|] eqn:Em; [|done].
  destruct (selectDTLSCipher _) as [c|] eqn:Ec; [|done]. injection Ed as <- <- <- <-.
  assert (Hc : c ∈ dtlsCipherPrefs /\ c ∈ offered_ciphers (rq_Header r)).
  { unfold selectDTLSCipher in Ec. revert Ec. induction dtlsCipherPrefs as [|x l IH]; [done|]. cbn. case_bool_decide.
    - intros [= <-]. split; [by left|done].
    - intros Ec. apply IH in Ec as [? ?]. split; [by right|done]. }
  unfold offer_ok, connect_binding. cbn [bd_MasterSecret bd_Cipher bd_SessionID bd_SourceV6]. split_and!; try done; try apply Hc.
  - by exists up.
  - by intros ->.
Qed.
Lemma ServeHTTP_safe r w : safe (good r) w (ServeHTTP cfg certSHA1 r).
Proof.
  unfold ServeHTTP. cbv zeta. assert (Hg : forall w o, good (strip_group r) w o -> good r w o).
  { intros w' o. unfold good, offer_ok, strip_group. by repeat case_match. }
  assert (Hs : forall p w, safe (good (strip_group r)) w p -> safe (good r) w p).
  { induction p as [o|B op k IH]; intros w'; cbn; [apply Hg|]. intros [Hp Hk]. split; [done|]. intros w2 b Hw2 Hb. by apply IH, Hk. }
  destruct (route_of (strip_group r)); try done.
  - apply Hs, handleInit_safe.
  - apply Hs, handleAuth_safe.
  - apply Hs, handleConnect_safe.
  - cbn. unfold handleAnyConnectHousekeeping. cbv zeta. by repeat case_match.
Qed.

(** * Every run *)

(** The rows of the heap are those below the next number. *)
Definition rows_full (t : sessionTable) : Prop := forall s, (s < st_next t)%nat -> is_Some (st_heap t !! s).
Definition world_of (t : sessionTable) (ps : list Promo) : World := mkWorld (st_next t) ps.

Lemma deleteLocked_heap t s : st_heap (deleteLocked t s) = st_heap t /\ st_next (deleteLocked t s) = st_next t.
Proof. unfold deleteLocked. by destruct (st_heap t !! s). Qed.
Lemma set_row_full t s f : rows_full t -> rows_full (set_row t s f).
Proof. intros Hf s' Hs'. unfold set_row. cbn in *. rewrite lookup_alter_is_Some. by apply Hf. Qed.
Lemma lookup_same t now id :
  st_heap (lookupOpaque t now id).2 = st_heap t /\ st_next (lookupOpaque t now id).2 = st_next t.
Proof.
  unfold lookupOpaque. destruct (st_byOpaque t !! id) as [s|]; [|done]. destruct (expired t now s); [|done]. apply deleteLocked_heap.
Qed.
Lemma lookupToken_same t now tok :
  st_heap (lookupToken t now tok).2 = st_heap t /\ st_next (lookupToken t now tok).2 = st_next t.
Proof.
  unfold lookupToken, lookupToken_in. case_bool_decide; [done|]. destruct (List.find _ _) as [[? s]|]; [|done].
  destruct (expired t now s); [|done]. apply deleteLocked_heap.
Qed.

Lemma exec_full {B} (op : TableOp B) now rd t : rows_full t -> rows_full (exec op now rd t).2 /\ (st_next t <= st_next (exec op now rd t).2)%nat.
Proof.
  intros Hf. destruct op as [|id|id user|s|id|s user dev tok|tok|s|n]; cbn [exec snd]; try (split; [done|lia]).
  - unfold newOpaque. destruct (randHex rd 8) as [id|]; [|split; [done|cbn; lia]]. split; [|cbn; lia].
    intros s Hs. cbn in *. rewrite lookup_insert_is_Some'. destruct (decide (s = st_next t)) as [->|]; [by left|right; apply Hf; lia].
  - destruct (lookup_same t now id) as [E1 E2]. unfold rows_full. rewrite E1, E2. split; [done|lia].
  - unfold stashUsername. destruct (st_byOpaque t !! id) as [s|]; [|split; [done|cbn; lia]].
    destruct (expired t now s); [split; [done|cbn; lia]|]. split; [by apply set_row_full|cbn; lia].
  - split; [|cbn; lia]. apply (set_row_full t s _ Hf).
  - destruct (lookupToken_same t now tok) as [E1 E2]. unfold rows_full. rewrite E1, E2. split; [done|lia].
  - split; [by apply set_row_full|cbn; lia].
Qed.

Lemma exec_run {B} (op : TableOp B) now rd t ps :
  sess_run ttl t ps -> rows_full t -> fresh_token op ps -> pre (world_of t ps) op ->
  sess_run ttl (exec op now rd t).2 (promos_after op ps).
Proof.
  intros Hr Hf Hfr Hp. destruct op as [|id|id user|s|id|s user dev tok|tok|s|n]; cbn [exec snd promos_after]; try done.
  - by apply sr_opaque.
  - by apply sr_lookup_opaque.
  - by apply sr_stash.
  - cbn in Hp. destruct Hp as (Hs & Ht & _). apply sr_promote; [done|by apply Hf|done|done].
  - by apply sr_lookup_token.
  - by apply sr_touch.
Qed.

Lemma exec_post {B} (op : TableOp B) now rd t ps :
  sess_run ttl t ps -> rows_full t -> rd_ok rd ->
  post (world_of (exec op now rd t).2 (promos_after op ps)) op (exec op now rd t).1.
Proof.
  intros Hr Hf Hrd. pose proof (sess_run_inv _ _ _ Hr) as I. destruct op as [|id|id user|s|id|s user dev tok|tok|s|n]; try done; cbn.
  - intros (p & Hp & Hs). pose proof (proj2 (proj2 (si_ps _ _ I))) as Hrows. rewrite Forall_forall in Hrows.
    specialize (Hrows p Hp). rewrite Hs in Hrows. destruct Hrows as [row Hrow]. rewrite Hrow. cbn.
    pose proof (si_row _ _ I s row Hrow) as Hl. destruct (last_promo ps s) as [x|] eqn:El.
    + apply last_promo_in in El as [Hx Hxs]. exists x. by destruct Hl as [-> ->].
    + by destruct (last_promo_None _ _ El p Hp).
  - intros s Hs. apply (si_next _ _ I). by apply (si_opaque _ _ I id).
  - intros s Hs. apply (lookupToken_resolves t ps _ now tok s I (Permutation_refl _)) in Hs as (Hne & row & Hrow & Htok & _).
    pose proof (si_row _ _ I s row Hrow) as Hl. destruct (last_promo ps s) as [p|] eqn:El; [|congruence].
    apply last_promo_in in El as [Hp Hps]. exists p. destruct Hl. split_and!; [done|congruence|done].
  - intros b Hb. by apply Hrd.
Qed.

Definition verified (p : Promo) : Prop := exists user pw, Verify user pw = Some (pr_device p).
Lemma http_steps_inv t ps ths outs :
  http_steps t ps ths outs ->
  sess_run ttl t ps /\ rows_full t /\ Forall verified ps
  /\ Forall (fun x => safe (good x.1) (world_of t ps) x.2) ths /\ Forall (fun x => good x.1 (world_of t ps) x.2) outs.
Proof.
  induction 1 as [|t ps ths outs r _ (H1 & H2 & H3 & H4 & H5)|t ps l1 r B op k l2 outs now rd _ (H1 & H2 & H3 & H4 & H5) Hrd Hfr
    |t ps l1 r o l2 outs _ (H1 & H2 & H3 & H4 & H5)].
  - split_and!; [apply sr_new|intros s Hs; cbn in Hs; lia|constructor|constructor|constructor].
  - split_and!; try done. constructor; [apply ServeHTTP_safe|done].
  - apply Forall_app in H4 as [Hl1 Hl2]. apply Forall_cons in Hl2 as [[Hpre Hk] Hl2].
    destruct (exec_full op now rd t H2) as [Hf Hn].
    assert (Hw : later (world_of t ps) (world_of (exec op now rd t).2 (promos_after op ps))).
    { split; [exact Hn|]. cbn. destruct op; cbn; try done. intros x Hx. by right. }
    split_and!.
    + by apply exec_run.
    + done.
    + destruct op; try done. cbn in *. constructor; [|done]. destruct Hpre as (_ & _ & pw & Hv). by exists user, pw.
    + rewrite Forall_app, Forall_cons. split_and!.
      * eapply Forall_impl; [exact Hl1|]. intros x. by apply safe_later.
      * apply Hk; [done|]. by apply exec_post.
      * eapply Forall_impl; [exact Hl2|]. intros x. by apply safe_later.
    + eapply Forall_impl; [exact H5|]. intros x. by apply good_later.
  - apply Forall_app in H4 as [Hl1 Hl2]. apply Forall_cons in Hl2 as [Ho Hl2].
    split_and!; [done|done|done|by apply Forall_app|by constructor].
Qed.

(** A handler that runs alone is one of the runs. *)
Fixpoint run_ps {A} (p : Prog A) (now : Z) (rd : RandRead) (t : sessionTable) (ps : list Promo) : list Promo :=
  match p with
  | Ret _ => ps
  | Call op k => let '(b, t') := exec op now rd t in run_ps (k b) now rd t' (promos_after op ps)
  end.
Fixpoint run_fresh {A} (p : Prog A) (now : Z) (rd : RandRead) (t : sessionTable) (ps : list Promo) : Prop :=
  match p with
  | Ret _ => True
  | Call op k => fresh_token op ps /\ let '(b, t') := exec op now rd t in run_fresh (k b) now rd t' (promos_after op ps)
  end.
Lemma run_http_steps p now rd : rd_ok rd -> forall t ps r ths outs,
  http_steps t ps ((r, p) :: ths) outs -> run_fresh p now rd t ps ->
  http_steps (run p now rd t).2 (run_ps p now rd t ps) ths ((r, (run p now rd t).1) :: outs).
Proof.
  intros Hrd. induction p as [o|B op k IH]; intros t ps r ths outs Hs Hf.
  - cbn. by apply (hs_done t ps [] r o ths outs).
  - cbn in Hf |- *. destruct Hf as [Hfr Hf]. pose proof (hs_op t ps [] r B op k ths outs now rd Hs Hrd Hfr) as Hs'.
    destruct (exec op now rd t) as [b t']. by apply IH.
Qed.

(** C12: Nobody gets a tunnel without signing in: however requests overlap, a
    CONNECT is answered with a tunnel only when its cookie is a token that was
    given to a row whose sign-in the verifier accepted; the identity is the
    resolver's for a device verified on that row, the headers are those of this
    request and identity, and a DTLS offer is made only when neither the server
    nor the device has it disabled, the installer took the binding, the master
    secret is the client's, the cipher is one the client offered and the
    binding's inner address is the device's. *)
Theorem connect_authenticated t ps ths outs r id sid dtls h
    (Hrun : http_steps t ps ths outs) (Hin : (r, Connected id sid dtls h) ∈ outs) :
  exists p q, p ∈ ps /\ q ∈ ps /\ pr_row q = pr_row p
  /\ pr_token p = extractWebVPNCookie (rq_Header r)
  /\ (exists user pw, Verify user pw = Some (pr_device q)) /\ Resolve (pr_device q) = Some id
  /\ h = connect_headers cfg (rq_Header r) id ((fun b => (bd_Cipher b, bd_SessionID b)) <$> dtls)
  /\ (forall b, dtls = Some b -> offer_ok r id sid b).
Proof.
  destruct (http_steps_inv _ _ _ _ Hrun) as (_ & _ & Hv & _ & Hg). rewrite Forall_forall in Hg. rewrite Forall_forall in Hv.
  destruct (Hg _ Hin) as [(p & q & s & Hp & Hq & _ & Hqp & _ & Ht & Hr & _) [Hh Hoff]].
  exists p, q. split_and!; try done. apply (Hv q Hq).
Qed.
End runs.

(** * One client's sign-in *)

Section signin.
Context `{Services} (cfg : Config) (certSHA1 : gostring).

Lemma init_run r now rd t pa b :
  parseAuthRequest xml_Decode (MaxBytesReader (rq_Body r)) = Some pa -> pa_Type pa = authTypeInit -> rd 8%nat = Some b ->
  run (handleInit r) now rd t
  = (ask (buildUsernameRequest (hexEncode b) (bs "Please enter your username.") (authActionFor r)) (hexEncode b), (newOpaque t now rd).2).
Proof.
  intros Hp Ht Hrd. unfold handleInit. rewrite Hp, bool_decide_eq_true_2 by done. cbn [negb run exec].
  unfold newOpaque, randHex. rewrite Hrd. cbn [fmap option_fmap option_map run exec snd st_heap]. rewrite lookup_insert_eq. done.
Qed.

Lemma lookupOpaque_live t now id s row :
  st_byOpaque t !! id = Some s -> st_heap t !! s = Some row -> now <= cs_expiresAt row -> lookupOpaque t now id = (Some s, t).
Proof.
  intros Ho Hs He. unfold lookupOpaque, expired. rewrite Ho, Hs. by rewrite (proj2 (Z.ltb_ge _ _)).
Qed.

Section reply.
Context (r : Request) (pa : parsedAuth) (now : Z) (rd : RandRead) (t : sessionTable) (id : gostring) (s : nat) (row : session).
Context (Hp : parseAuthReply r = Some pa) (Hty : pa_Type pa = authTypeAuthReply) (Hid : auth_opaque r pa = id)
  (Ho : st_byOpaque t !! id = Some s) (Hs : st_heap t !! s = Some row) (He : now <= cs_expiresAt row).

Lemma username_run :
  cs_username row = [] -> pa_Username pa <> [] ->
  run (handleAuth certSHA1 r) now rd t
  = (prompt_password r id (bs "Please enter your password."), (stashUsername t now id (pa_Username pa)).2).
Proof.
  intros Hu Hn. unfold handleAuth. rewrite Hp, bool_decide_eq_true_2 by done. cbn [negb]. cbv zeta. rewrite Hid.
  cbn [run exec]. rewrite (lookupOpaque_live _ _ _ _ _ Ho Hs He). cbn [run exec]. rewrite Hs. cbn [from_option Datatypes.id].
  rewrite Hu. cbn [is_nil]. unfold username_step. destruct (pa_Username pa) eqn:E; [done|]. cbn [is_nil negb run exec].
  by destruct (stashUsername _ _ _ _).
Qed.
Lemma password_run dev b :
  cs_username row <> [] -> pa_Password pa <> [] -> Verify (cs_username row) (pa_Password pa) = Some dev -> rd 32%nat = Some b ->
  let t' := promote_commit t now s (cs_username row) dev (b64url b) in
  let row' := mkSession (b64url b) (cs_opaqueID row) (cs_username row) dev (cs_createdAt row) (now + st_ttl t) in
  run (handleAuth certSHA1 r) now rd t = (writeAuthXML (complete_headers certSHA1 r row' row') 200 (default [] buildAuthComplete), t')
  /\ st_heap t' !! s = Some row'.
Proof.
  intros Hu Hpw Hv Hrd t' row'. assert (Hs' : st_heap t' !! s = Some row').
  { unfold t', promote_commit, set_row. cbn. by rewrite lookup_alter_eq, Hs. }
  split; [|done]. unfold handleAuth. rewrite Hp, bool_decide_eq_true_2 by done. cbn [negb]. cbv zeta. rewrite Hid.
  cbn [run exec]. rewrite (lookupOpaque_live _ _ _ _ _ Ho Hs He). cbn [run exec]. rewrite Hs. cbn [from_option Datatypes.id].
  assert (Hn1 : is_nil (cs_username row) = false) by (by destruct (cs_username row)).
  assert (Hn2 : is_nil (pa_Password pa) = false) by (by destruct (pa_Password pa)).
  rewrite Hn1. unfold password_step. cbn [run exec]. rewrite Hs. cbn [from_option Datatypes.id]. cbv zeta. rewrite Hn2, Hv.
  unfold promote_prog. cbn [run exec]. rewrite Ho. cbn [run exec]. rewrite Hrd. cbn [run exec].
  change (promote_commit _ _ _ _ _ _) with t'. rewrite Hs'. by cbn [from_option Datatypes.id run exec].
Qed.
End reply.

Lemma lookupToken_live t now tok s row k :
  (forall s' row', st_heap t !! s' = Some row' -> cs_token row' = tok -> s' = s) ->
  tok <> [] -> st_heap t !! s = Some row -> cs_token row = tok -> now <= cs_expiresAt row -> st_byToken t !! k = Some s ->
  lookupToken t now tok = (Some s, t).
Proof.
  intros Hu Hne Hs Ht He Hk. unfold lookupToken, lookupToken_in. rewrite bool_decide_eq_false_2 by done.
  destruct (List.find _ _) as [[k' s']|] eqn:Ef.
  - apply List.find_some in Ef as [_ Hm]. unfold token_matches in Hm. cbn in Hm. destruct (st_heap t !! s') as [r'|] eqn:Es; [|done].
    apply bool_decide_eq_true in Hm. rewrite (Hu s' r' Es Hm). unfold expired. rewrite Hs. by rewrite (proj2 (Z.ltb_ge _ _)).
  - exfalso. apply elem_of_map_to_list, list_elem_of_In in Hk. apply (List.find_none _ _ Ef) in Hk.
    unfold token_matches in Hk. cbn in Hk. rewrite Hs in Hk. by apply bool_decide_eq_false in Hk.
Qed.

(** A live token gets a tunnel, and the session lives on. *)
Lemma connect_run r now rd t tok s row id k :
  (forall s' row', st_heap t !! s' = Some row' -> cs_token row' = tok -> s' = s) ->
  tok <> [] -> st_heap t !! s = Some row -> cs_token row = tok -> now <= cs_expiresAt row -> st_byToken t !! k = Some s ->
  extractWebVPNCookie (rq_Header r) = tok -> Resolve (cs_deviceID row) = Some id -> rq_hijack r = true -> rq_write r = true ->
  exists dtls h, run (handleConnect cfg r) now rd t = (Connected id tok dtls h, touch t (Some s) now).
Proof.
  intros Hu Hne Hs Ht He Hk Hc Hr Hh Hw.
  assert (Hfin : forall h dtls, run (connect_finish r id s h dtls) now rd t = (Connected id tok dtls h, touch t (Some s) now)).
  { intros h dtls. unfold connect_finish. rewrite Hh, Hw. cbn [negb run exec]. unfold touch, set_row. cbn [st_heap].
    rewrite lookup_alter_eq, Hs. cbn. by rewrite Ht. }
  unfold handleConnect. cbn [run exec]. rewrite Hc, (lookupToken_live _ _ _ _ _ _ Hu Hne Hs Ht He Hk). cbn [run exec].
  rewrite Hs. cbn [from_option Datatypes.id]. rewrite Hr. cbv zeta. destruct (dtls_terms cfg r id) as [[[[b m] oc] up]|].
  - cbn [run exec]. rewrite Hs. cbn [from_option Datatypes.id]. destruct (rd 32%nat) as [sid|]; [|eauto].
    destruct (up _); eauto.
  - eauto.
Qed.

(** The requests of a sign-in: the init, the username, the password, the
    CONNECT; the session travels in the form or in the cookie. *)
Record signin_requests (r1 r2 r3 r4 : Request) (id user pw tok : gostring) : Prop := {
  sg_init : route_of (strip_group r1) = RInit
    /\ exists pa, parseAuthRequest xml_Decode (MaxBytesReader (rq_Body r1)) = Some pa /\ pa_Type pa = authTypeInit;
  sg_user : route_of (strip_group r2) = RAuth
    /\ exists pa, parseAuthReply r2 = Some pa /\ pa_Type pa = authTypeAuthReply /\ auth_opaque r2 pa = id /\ pa_Username pa = user;
  sg_pass : route_of (strip_group r3) = RAuth
    /\ exists pa, parseAuthReply r3 = Some pa /\ pa_Type pa = authTypeAuthReply /\ auth_opaque r3 pa = id /\ pa_Password pa = pw;
  sg_conn : route_of (strip_group r4) = RConnect /\ extractWebVPNCookie (rq_Header r4) = tok
    /\ rq_hijack r4 = true /\ rq_write r4 = true
}.
Lemma strip_group_fields r :
  rq_Header (strip_group r) = rq_Header r /\ rq_Body (strip_group r) = rq_Body r
  /\ rq_hijack (strip_group r) = rq_hijack r /\ rq_write (strip_group r) = rq_write r.
Proof. unfold strip_group. by repeat case_match. Qed.
Lemma parseAuthReply_strip r : parseAuthReply (strip_group r) = parseAuthReply r.
Proof. unfold parseAuthReply. by destruct (strip_group_fields r) as (_ & -> & _). Qed.
Lemma auth_opaque_strip r pa : auth_opaque (strip_group r) pa = auth_opaque r pa.
Proof. unfold auth_opaque. by destruct (strip_group_fields r) as (-> & _). Qed.

(** C13: A client that signs in gets its tunnel, and gets it again: from any
    reachable table, an init, the right username and the right password, each
    within the session's lifetime of the step that set it, are answered with the
    username form, the password form and the completion that carries the token;
    a CONNECT with that token within a lifetime gets a tunnel for the device's
    identity, and so does another one within a lifetime of the first. *)
Theorem signin_connects ttl t ps r1 r2 r3 r4 now1 now2 now3 now4 now5 rd1 rd2 rd3 rd4 rd5 b1 b3 user pw dev idn
    (Hrun : sess_run ttl t ps) (Hreq : signin_requests r1 r2 r3 r4 (hexEncode b1) user pw (b64url b3))
    (Hrd : rd1 8%nat = Some b1 /\ rd3 32%nat = Some b3) (Hne : user <> [] /\ pw <> [] /\ b3 <> [])
    (Hfresh : b64url b3 ∉ map pr_token ps) (Hv : Verify user pw = Some dev) (Hr : Resolve dev = Some idn)
    (Ht2 : now2 <= now1 + st_ttl t) (Ht3 : now3 <= now1 + st_ttl t)
    (Ht4 : now4 <= now3 + st_ttl t) (Ht5 : now5 <= now4 + st_ttl t) :
  let serve r := ServeHTTP cfg certSHA1 r in
  let x1 := run (serve r1) now1 rd1 t in
  let x2 := run (serve r2) now2 rd2 x1.2 in
  let x3 := run (serve r3) now3 rd3 x2.2 in
  let x4 := run (serve r4) now4 rd4 x3.2 in
  let x5 := run (serve r4) now5 rd5 x4.2 in
  x1.1 = ask (buildUsernameRequest (hexEncode b1) (bs "Please enter your username.") (authActionFor (strip_group r1))) (hexEncode b1)
  /\ x2.1 = prompt_password (strip_group r2) (hexEncode b1) (bs "Please enter your password.")
  /\ (exists row, cs_token row = b64url b3 /\ cs_deviceID row = dev /\ cs_username row = user
       /\ x3.1 = writeAuthXML (complete_headers certSHA1 (strip_group r3) row row) 200 (default [] buildAuthComplete))
  /\ (exists dtls h, x4.1 = Connected idn (b64url b3) dtls h) /\ (exists dtls h, x5.1 = Connected idn (b64url b3) dtls h).
Proof.
  cbv zeta. set (id := hexEncode b1) in *. set (tok := b64url b3) in *.
  destruct Hreq as [[Hq1 (pa1 & Hp1 & Hy1)] [Hq2 (pa2 & Hp2 & Hy2 & Hi2 & Hu2)] [Hq3 (pa3 & Hp3 & Hy3 & Hi3 & Hw3)] (Hq4 & Hc4 & Hh4 & Hwr4)].
  destruct Hrd as [Hrd1 Hrd3], Hne as (Hnu & Hnp & Hnb).
  set (s := st_next t). set (row0 := mkSession [] id [] [] now1 (now1 + st_ttl t)). set (row1 := mkSession [] id user [] now1 (now1 + st_ttl t)).
  set (t1 := (newOpaque t now1 rd1).2).
  assert (Et1 : t1 = mkST (<[s := row0]> (st_heap t)) (S s) (<[id := s]> (st_byOpaque t)) (st_byToken t) (st_ttl t)).
  { unfold t1, newOpaque, randHex. by rewrite Hrd1. }
  assert (E1 : run (ServeHTTP cfg certSHA1 r1) now1 rd1 t
    = (ask (buildUsernameRequest id (bs "Please enter your username.") (authActionFor (strip_group r1))) id, t1)).
  { unfold ServeHTTP. cbv zeta. rewrite Hq1. apply (init_run _ _ _ _ pa1); [|done|done]. by destruct (strip_group_fields r1) as (_ & -> & _). }
  rewrite E1. cbn [fst snd]. assert (Ho1 : st_byOpaque t1 !! id = Some s) by (rewrite Et1; apply lookup_insert_eq).
  assert (Hs1 : st_heap t1 !! s = Some row0) by (rewrite Et1; apply lookup_insert_eq).
  set (t2 := (stashUsername t1 now2 id user).2).
  assert (Et2 : t2 = set_row t1 s (fun r => mkSession (cs_token r) (cs_opaqueID r) user (cs_deviceID r) (cs_createdAt r) (cs_expiresAt r))).
  { unfold t2, stashUsername, expired. rewrite Ho1, Hs1. cbn [row0 cs_expiresAt]. by rewrite (proj2 (Z.ltb_ge _ _)). }
  assert (E2 : run (ServeHTTP cfg certSHA1 r2) now2 rd2 t1 = (prompt_password (strip_group r2) id (bs "Please enter your password."), t2)).
  { unfold ServeHTTP. cbv zeta. rewrite Hq2. unfold t2. rewrite <- Hu2.
    apply (username_run (strip_group r2) pa2 now2 rd2 t1 id s row0); try done; [by rewrite parseAuthReply_strip|by rewrite auth_opaque_strip|].
    by rewrite Hu2. }
  rewrite E2. cbn [fst snd]. assert (Ho2 : st_byOpaque t2 !! id = Some s) by (rewrite Et2; exact Ho1).
  assert (Hs2 : st_heap t2 !! s = Some row1) by (rewrite Et2; unfold set_row; cbn; by rewrite lookup_alter_eq, Hs1).
  assert (Httl : st_ttl t2 = st_ttl t) by (by rewrite Et2, Et1).
  destruct (password_run (strip_group r3) pa3 now3 rd3 t2 id s row1 ltac:(by rewrite parseAuthReply_strip) Hy3
    ltac:(by rewrite auth_opaque_strip) Ho2 Hs2 ltac:(exact Ht3) dev b3 Hnu ltac:(congruence) ltac:(by rewrite Hw3) Hrd3) as [E3 Hs3].
  cbv zeta in E3, Hs3. set (t3 := promote_commit t2 now3 s (cs_username row1) dev (b64url b3)) in *.
  set (row2 := mkSession (b64url b3) (cs_opaqueID row1) (cs_username row1) dev (cs_createdAt row1) (now3 + st_ttl t2)) in *.
  assert (E3' : run (ServeHTTP cfg certSHA1 r3) now3 rd3 t2
    = (writeAuthXML (complete_headers certSHA1 (strip_group r3) row2 row2) 200 (default [] buildAuthComplete), t3)).
  { unfold ServeHTTP. cbv zeta. rewrite Hq3. exact E3. }
  rewrite E3'. cbn [fst snd]. clear E3 E3'.
  assert (R2 : sess_run ttl t2 ps) by (apply sr_stash, sr_opaque, Hrun).
  assert (Htn : tok <> []) by (by apply b64url_nonempty).
  assert (R3 : sess_run ttl t3 (mkPromo s dev tok :: ps)) by (apply sr_promote; eauto).
  assert (Hk3 : st_byToken t3 !! tok = Some s) by apply lookup_insert_eq.
  assert (Huniq : forall t' ps' row, sess_run ttl t' ps' -> st_heap t' !! s = Some row -> cs_token row = tok ->
    forall s' row', st_heap t' !! s' = Some row' -> cs_token row' = tok -> s' = s).
  { intros t' ps' row R Hrow Htk s' row' Hs' Htk'. eapply (token_unique t' ps' s' s); eauto using sess_run_inv; congruence. }
  assert (Hconn : forall t' ps' row now rd, sess_run ttl t' ps' -> st_heap t' !! s = Some row -> cs_token row = tok -> cs_deviceID row = dev ->
    now <= cs_expiresAt row -> st_byToken t' !! tok = Some s ->
    exists dtls h, run (ServeHTTP cfg certSHA1 r4) now rd t' = (Connected idn tok dtls h, touch t' (Some s) now)).
  { intros t' ps' row now rd R Hrow Htk Hd He Hk. unfold ServeHTTP. cbv zeta. rewrite Hq4.
    destruct (strip_group_fields r4) as (Eh & _ & Ej & Ew).
    apply (connect_run (strip_group r4) now rd t' tok s row idn tok); rewrite ?Eh, ?Ej, ?Ew; try done; [|congruence].
    by apply (Huniq t' ps' row). }
  destruct (Hconn t3 _ row2 now4 rd4 R3 Hs3 eq_refl eq_refl ltac:(cbn; lia) Hk3) as (d4 & h4 & E4). rewrite E4. cbn [fst snd].
  set (t4 := touch t3 (Some s) now4).
  assert (Hs4 : st_heap t4 !! s = Some (mkSession tok id user dev now1 (now4 + st_ttl t2))).
  { unfold t4, touch, set_row. cbn [st_heap]. by rewrite lookup_alter_eq, Hs3. }
  destruct (Hconn t4 _ _ now5 rd5 (sr_touch _ _ _ (Some s) now4 R3) Hs4 eq_refl eq_refl ltac:(cbn; lia) Hk3) as (d5 & h5 & E5). rewrite E5. cbn [fst snd].
  split_and!; [done|done|by exists row2|by exists d4, h4|by exists d5, h5].
Qed.
End signin.

(** * Witnesses *)

Definition init_envelope : authEnvelope := mkEnvelope (bs "config-auth") (bs "vpn") authTypeInit [] None None None None [] [].
Definition binding_sample : DTLSBinding := mkBinding AddrNone [] dev_sample [] [] AddrNone [] [] [] [].
#[local] Instance services_sample : Services := {
  Verify user pw := if bool_decide (user = alice) && bool_decide (pw = bs "secret") then Some dev_sample else None;
  Resolve d := if bool_decide (d = dev_sample) then Some id_sample else None;
  DTLSBindingSource := Some (fun _ _ => Some binding_sample);
  DTLSBindingInstaller := Some (fun _ => true);
  xml_Decode r := if is_nil (rd_data r) then None else Some init_envelope;
  Sum256 b := repeat (fold_right Z.add 0 b mod 256) 32
}.
Definition request (method path : string) (h : header) (body : bytes) : Request :=
  mkRequest (bs method) (bs path) h (mkReader body EOF) [] true true.
Definition opaque_cookie : header := Set_ (bs "Cookie") (bs "webvpncontext=" ++ opaque_sample) ∅.
Definition r1_sample : Request := request "POST" "/drive/access/tok" ∅ (bs "<config-auth/>").
Definition r2_sample : Request := request "POST" "/drive/access/tok/auth" opaque_cookie (bs "username=alice").
Definition r3_sample : Request := request "POST" "/drive/access/tok/auth" opaque_cookie (bs "password=secret").
Definition r4_sample : Request := request "CONNECT" "/drive/access/tok/CSCOSSLC/tunnel"
  (Set_ (bs "X-Dtls12-Ciphersuite") (bs "AES128-SHA:ECDHE-RSA-AES256-GCM-SHA384")
    (Set_ (bs "X-Dtls-Master-Secret") (repeat 97 96) (Set_ (bs "Cookie") (bs "webvpn=" ++ tok_sample 1) ∅))) [].

Lemma followups_route_back_witness :
  route_of (strip_group (at_path r2_sample (bs "POST") (authActionFor (strip_group r1_sample)))) = RAuth
  /\ authActionFor (strip_group r1_sample) = bs "/drive/access/tok/auth".
Proof.
  destruct (followups_route_back r1_sample r2_sample eq_refl ltac:(vm_compute; reflexivity)) as (H & _).
  split; [exact H|vm_compute; reflexivity].
Defined.

Lemma requests_sample : signin_requests r1_sample r2_sample r3_sample r4_sample opaque_sample alice (bs "secret") (tok_sample 1).
Proof.
  split.
  - split; [vm_compute; reflexivity|]. eexists. split; vm_compute; reflexivity.
  - split; [vm_compute; reflexivity|]. eexists. split_and!; vm_compute; reflexivity.
  - split; [vm_compute; reflexivity|]. eexists. split_and!; vm_compute; reflexivity.
  - split_and!; vm_compute; reflexivity.
Qed.

Lemma signin_connects_witness :
  let serve r := ServeHTTP cfg_sample (bs "00") r in
  let t1 := (run (serve r1_sample) 10 (rd_sample 5) (newSessionTable 100)).2 in
  let t2 := (run (serve r2_sample) 20 (rd_sample 6) t1).2 in
  let t3 := (run (serve r3_sample) 30 (rd_sample 1) t2).2 in
  exists dtls h, (run (serve r4_sample) 130 (rd_sample 7) t3).1 = Connected id_sample (tok_sample 1) dtls h.
Proof.
  cbv zeta.
  pose proof (signin_connects cfg_sample (bs "00") 100 _ [] r1_sample r2_sample r3_sample r4_sample 10 20 30 130 140
    (rd_sample 5) (rd_sample 6) (rd_sample 1) (rd_sample 7) (rd_sample 7) (repeat 5 8) (repeat 1 32) alice (bs "secret") dev_sample id_sample
    (sr_new 100) requests_sample (conj eq_refl eq_refl) ltac:(split_and!; discriminate) ltac:(decide_closed) eq_refl eq_refl
    ltac:(cbn; lia) ltac:(cbn; lia) ltac:(cbn; lia) ltac:(cbn; lia)) as H.
  exact (proj1 (proj2 (proj2 (proj2 H)))).
Defined.

Lemma rd_sample_ok x : rd_ok (rd_sample x).
Proof. intros n b [= <-]. apply repeat_length. Qed.
Definition is_connected (o : Outcome) : bool := match o with Connected _ _ _ _ => true | _ => false end.
Lemma connect_authenticated_witness :
  exists t ps outs id sid dtls h, http_steps cfg_sample (bs "00") 100 t ps [] ((r4_sample, Connected id sid dtls h) :: outs)
  /\ exists q, q ∈ ps /\ Resolve (pr_device q) = Some id.
Proof.
  pose proof (hs_request cfg_sample (bs "00") 100 _ _ _ _ r1_sample (hs_start _ _ _)) as R.
  apply (run_http_steps cfg_sample (bs "00") 100 _ 10 (rd_sample 5) (rd_sample_ok 5)) in R; [|vm_compute; tauto].
  apply (hs_request _ _ _ _ _ _ _ r2_sample) in R.
  apply (run_http_steps cfg_sample (bs "00") 100 _ 20 (rd_sample 6) (rd_sample_ok 6)) in R; [|vm_compute; tauto].
  apply (hs_request _ _ _ _ _ _ _ r3_sample) in R.
  apply (run_http_steps cfg_sample (bs "00") 100 _ 30 (rd_sample 1) (rd_sample_ok 1)) in R.
  2: { vm_compute. repeat split. intros H. inversion H. }
  apply (hs_request _ _ _ _ _ _ _ r4_sample) in R.
  apply (run_http_steps cfg_sample (bs "00") 100 _ 130 (rd_sample 7) (rd_sample_ok 7)) in R; [|vm_compute; tauto].
  match type of R with http_steps _ _ _ _ _ _ ((_, ?o) :: ?outs) =>
    assert (E : is_connected o = true) by (vm_compute; reflexivity); destruct o as [| id sid dtls h|]; try discriminate E end.
  destruct (connect_authenticated _ _ _ _ _ _ _ r4_sample id sid dtls h R ltac:(by left)) as (p & q & _ & Hq & _ & _ & _ & Hr & _).
  do 7 eexists. split; [exact R|]. exists q. split; [exact Hq|exact Hr].
Defined.
