(* ===== verification/Clat.v ===== *)
(** [internal/clat]: the constants, the address mapping and the NAT66/NAT44
    rewriting of [nat.go]. The gvisor accessors it calls are the operations of
    the class [Gvisor], with their documented behaviour as laws; protocol
    numbers, sizes and offsets of gvisor's [header] package are the numerals of
    the formats. The in-place updates return the new packet. *)

From S2P Require Import Prelude.

(** * The gvisor operations used *)

Class Gvisor := {
  (** [checksum.Combine]: adds its arguments and the carry. *)
  Combine : Z -> Z -> Z;
  Combine_spec a b : 0 <= a < 2 ^ 16 -> 0 <= b < 2 ^ 16 -> Combine a b = (a + b) mod 2 ^ 16 + (a + b) / 2 ^ 16;
  (** [header.IPv6Fragment.FragmentOffset] and [.NextHeader]. *)
  frag6_FragmentOffset : bytes -> Z;
  frag6_FragmentOffset_spec b : bytes_ok b -> frag6_FragmentOffset b = be16 (slice b 2 4) / 8;
  frag6_NextHeader : bytes -> Z;
  frag6_NextHeader_spec b : frag6_NextHeader b = byte_at b 0;
  (** [header.IPv4.FragmentOffset], in bytes. *)
  ipv4_FragmentOffset : bytes -> Z;
  ipv4_FragmentOffset_spec b : bytes_ok b -> ipv4_FragmentOffset b = be16 (slice b 6 8) mod 2 ^ 13 * 8
}.

(** * Constants *)

Definition MessageTransportHeaderSize : nat := 16.
Definition DCCPProtocolNumber : Z := 33.
Definition DCCPMinimumSize : nat := 12.
Definition DCCPChecksumOffset : nat := 6.
Definition IPv4ProtocolOffset : nat := 9.
Definition IPv4AddressSize : nat := 4.
Definition IPv4SourceAddressOffset : nat := 12.
Definition IPv4DestinationAddressOffset : nat := IPv4SourceAddressOffset + IPv4AddressSize.
Definition IPv6AddressSize : nat := 16.
Definition IPv6SourceAddressOffset : nat := 8.
Definition IPv6DestinationAddressOffset : nat := IPv6SourceAddressOffset + IPv6AddressSize.
Definition SIITPrefixSize : nat := 12.
(** 64:ff9b::/96 *)
Definition SIITPrefix : bytes := [0; 0x64; 0xff; 0x9b] ++ repeat 0 12.
Definition IPv6OutboundMTU : Z := 1420.
Definition IPv4OutboundMTU : Z := 1400.

Definition TCPProtocolNumber : Z := 6.
Definition UDPProtocolNumber : Z := 17.
Definition ICMPv6ProtocolNumber : Z := 58.
Definition IPv6FragmentHeader : Z := 44.
Definition IPv6NextHeaderOffset : nat := 6.
Definition IPv6FixedHeaderSize : nat := 40.
Definition IPv6FragmentHeaderSize : nat := 8.
Definition IPv4MinimumSize : nat := 20.
Definition TCPMinimumSize : nat := 20.
Definition TCPChecksumOffset : nat := 16.
Definition UDPMinimumSize : nat := 8.
Definition ICMPv6MinimumSize : nat := 8.
Definition ICMPv6ChecksumOffset : nat := 2.

(** * [mapping.go] *)

(** [None] is the nil slice. *)
Record Mapping := mkMapping { mp_ipv4 : option bytes; mp_ipv6 : option bytes }.
Definition cloneIP (addr : bytes) : option bytes := if is_nil addr then None else Some addr.
Definition SetIP (m : Mapping) (addr : bytes) : Mapping :=
  if (length addr =? 4)%nat then mkMapping (cloneIP addr) (mp_ipv6 m)
  else if (length addr =? 16)%nat then mkMapping (mp_ipv4 m) (cloneIP addr)
  else m.
Definition Clear (m : Mapping) : Mapping := mkMapping None None.
Definition IPv4 (m : Mapping) : option bytes := mp_ipv4 m.
Definition IPv6 (m : Mapping) : option bytes := mp_ipv6 m.
Definition IPs (m : Mapping) : option bytes * option bytes := (mp_ipv4 m, mp_ipv6 m).

(** * [nat.go] *)

Section nat.
Context `{Gvisor}.

(** [^x] of a [uint16]. *)
Definition not16 (x : Z) : Z := 2 ^ 16 - 1 - x.
(** The big-endian word at an offset. *)
Definition word_at (l : bytes) (i : nat) : Z := Z.lor (byte_at l (S i)) (Z.shiftl (byte_at l i) 8).

(** The loop over the address, two bytes at a time. *)
Fixpoint update_words (csum : Z) (old new : bytes) : Z :=
  match old with
  | _ :: _ :: old' => update_words (Combine csum (Combine (word_at new 0) (not16 (word_at old 0)))) old' (drop 2 new)
  | _ => csum
  end.
Definition natPartialUpdateChecksum (packet : bytes) (checksumOffset : nat) (old new : bytes) : bytes :=
  let updated := not16 (update_words (not16 (word_at packet checksumOffset)) old new) in
  <[checksumOffset := u8 (Z.shiftr updated 8)]> (<[S checksumOffset := u8 updated]> packet).

(** What a transport asks of the rewriting: nothing, a checksum repair, or
    that the packet be left alone because it is cut short. *)
Inductive Slot : Type := SlotNone | SlotChecksum (off : nat) | SlotShort.
#[export] Instance Slot_eq_dec : EqDecision Slot.
Proof. solve_decision. Defined.
Definition slot (packetLength start minSize csumOffset : nat) : Slot :=
  if (packetLength <? start + minSize)%nat then SlotShort else SlotChecksum (start + csumOffset).

Definition nat66_slot (p : bytes) : Slot :=
  let n := length p in
  let nh := byte_at p IPv6NextHeaderOffset in
  if nh =? TCPProtocolNumber then slot n IPv6FixedHeaderSize TCPMinimumSize TCPChecksumOffset
  else if nh =? DCCPProtocolNumber then slot n IPv6FixedHeaderSize DCCPMinimumSize DCCPChecksumOffset
  else if nh =? UDPProtocolNumber then slot n IPv6FixedHeaderSize UDPMinimumSize 6
  else if nh =? IPv6FragmentHeader then
    if (n <? IPv6FixedHeaderSize + IPv6FragmentHeaderSize)%nat then SlotShort
    else
      let frag := slice p IPv6FixedHeaderSize (IPv6FixedHeaderSize + IPv6FragmentHeaderSize) in
      let start := (IPv6FixedHeaderSize + IPv6FragmentHeaderSize)%nat in
      if negb (frag6_FragmentOffset frag =? 0) then SlotNone
      else
        let fnh := frag6_NextHeader frag in
        if fnh =? TCPProtocolNumber then slot n start TCPMinimumSize TCPChecksumOffset
        else if fnh =? DCCPProtocolNumber then slot n start DCCPMinimumSize DCCPChecksumOffset
        else if fnh =? UDPProtocolNumber then slot n start UDPMinimumSize 6
        else if fnh =? ICMPv6ProtocolNumber then slot n start ICMPv6MinimumSize ICMPv6ChecksumOffset
        else SlotNone
  else if nh =? ICMPv6ProtocolNumber then slot n IPv6FixedHeaderSize ICMPv6MinimumSize ICMPv6ChecksumOffset
  else SlotNone.

(** [copy(p[off:off+n], src)] *)
Definition copy_at (p : bytes) (off n : nat) (src : bytes) : bytes :=
  take off p ++ take n src ++ drop (off + length (take n src)) p.

Definition NAT66InPlaceTranslateAddress (p to : bytes) (addressOffset : nat) : bytes :=
  if (length p <? IPv6FixedHeaderSize)%nat then p
  else
    let addr := slice p addressOffset (addressOffset + IPv6AddressSize) in
    match nat66_slot p with
    | SlotShort => p
    | SlotChecksum off => copy_at (natPartialUpdateChecksum p off addr to) addressOffset IPv6AddressSize to
    | SlotNone => copy_at p addressOffset IPv6AddressSize to
    end.

Definition nat44_slot (p : bytes) : Slot :=
  let n := length p in
  let proto := byte_at p IPv4ProtocolOffset in
  let first := ipv4_FragmentOffset p =? 0 in
  if proto =? TCPProtocolNumber then
    if negb first then SlotNone else slot n IPv4MinimumSize TCPMinimumSize TCPChecksumOffset
  else if proto =? DCCPProtocolNumber then
    if negb first then SlotNone else slot n IPv4MinimumSize DCCPMinimumSize DCCPChecksumOffset
  else if proto =? UDPProtocolNumber then
    if negb first then SlotNone else slot n IPv4MinimumSize UDPMinimumSize 6
  else SlotNone.
Definition NAT44InPlaceTranslateAddress (p to : bytes) (addressOffset : nat) : bytes :=
  if (length p <? IPv4MinimumSize)%nat then p
  else
    let addr := slice p addressOffset (addressOffset + IPv4AddressSize) in
    match nat44_slot p with
    | SlotShort => p
    | SlotChecksum off =>
      copy_at (natPartialUpdateChecksum (natPartialUpdateChecksum p off addr to) 10 addr to) addressOffset IPv4AddressSize to
    | SlotNone => copy_at (natPartialUpdateChecksum p 10 addr to) addressOffset IPv4AddressSize to
    end.
End nat.

(** * One's-complement sums *)

(** The sum of the words of a list, an odd last byte padded with zero: the
    number a checksum is the complement of modulo [2 ^ 16 - 1]. *)
Fixpoint words_sum (l : bytes) : Z :=
  match l with a :: b :: l' => (a * 256 + b) + words_sum l' | [a] => a * 256 | [] => 0 end.
Definition same_sum (a b : Z) : Prop := a mod (2 ^ 16 - 1) = b mod (2 ^ 16 - 1).

Lemma word_at_be l i : bytes_ok l -> word_at l i = byte_at l i * 256 + byte_at l (S i).
Proof.
  intros Hl. pose proof (bytes_ok_at l i Hl) as Ha. pose proof (bytes_ok_at l (S i) Hl) as Hb.
  unfold word_at, is_byte in *. rewrite Z.lor_comm, Z.shiftl_mul_pow2 by lia.
  pose proof (Z.add_lor_land (byte_at l i * 2 ^ 8) (byte_at l (S i))) as E.
  assert (Z.land (byte_at l i * 2 ^ 8) (byte_at l (S i)) = 0) as E0; [|lia].
  apply Z.bits_inj'. intros n Hn. rewrite Z.land_spec, Z.bits_0. destruct (decide (n < 8)).
  - by rewrite Z.mul_pow2_bits_low by lia.
  - rewrite (Z.bits_above_log2 (byte_at l (S i))); [by rewrite andb_false_r|lia|].
    destruct (decide (byte_at l (S i) = 0)) as [->|]; [cbn; lia|].
    apply Z.log2_lt_pow2; [lia|]. apply Z.lt_le_trans with (2 ^ 8); [lia|]. apply Z.pow_le_mono_r; lia.
Qed.
Lemma word_at_range l i : bytes_ok l -> 0 <= word_at l i < 2 ^ 16.
Proof.
  intros Hl. rewrite word_at_be by done. pose proof (bytes_ok_at l i Hl). pose proof (bytes_ok_at l (S i) Hl).
  unfold is_byte in *. lia.
Qed.
Lemma not16_range x : 0 <= x < 2 ^ 16 -> 0 <= not16 x < 2 ^ 16.
Proof. unfold not16. lia. Qed.

Section combine.
Context `{Gvisor}.
Lemma Combine_range a b : 0 <= a < 2 ^ 16 -> 0 <= b < 2 ^ 16 -> 0 <= Combine a b < 2 ^ 16.
Proof. intros Ha Hb. rewrite Combine_spec by done. Z.to_euclidean_division_equations. lia. Qed.
Lemma Combine_sum a b : 0 <= a < 2 ^ 16 -> 0 <= b < 2 ^ 16 -> same_sum (Combine a b) (a + b).
Proof.
  intros Ha Hb. rewrite Combine_spec by done. unfold same_sum.
  pose proof (Z.div_mod (a + b) (2 ^ 16) ltac:(lia)) as E. rewrite E at 3.
  replace (2 ^ 16 * ((a + b) / 2 ^ 16) + (a + b) mod 2 ^ 16)
    with ((a + b) mod 2 ^ 16 + (a + b) / 2 ^ 16 + (a + b) / 2 ^ 16 * (2 ^ 16 - 1)) by lia.
  by rewrite Z.mod_add by lia.
Qed.
End combine.

Section nat_lemmas.
Context `{Gvisor}.

Lemma same_sum_trans a b c : same_sum a b -> same_sum b c -> same_sum a c.
Proof. unfold same_sum. congruence. Qed.
Lemma same_sum_add a b c d : same_sum a b -> same_sum c d -> same_sum (a + c) (b + d).
Proof. unfold same_sum. intros E1 E2. rewrite Z.add_mod, E1, E2, <- Z.add_mod by lia. done. Qed.
Lemma same_sum_not16 x : same_sum (not16 x) (- x).
Proof. unfold same_sum, not16. replace (2 ^ 16 - 1 - x) with (- x + 1 * (2 ^ 16 - 1)) by lia. by rewrite Z.mod_add by lia. Qed.

Lemma bytes_ok_cons b l : bytes_ok (b :: l) <-> is_byte b /\ bytes_ok l.
Proof. apply Forall_cons. Qed.

(** The loop adds the new words and subtracts the old ones. *)
Lemma update_words_spec old : forall new csum,
  bytes_ok old -> bytes_ok new -> length new = length old -> Nat.Even (length old) -> 0 <= csum < 2 ^ 16 ->
  0 <= update_words csum old new < 2 ^ 16
  /\ same_sum (update_words csum old new) (csum + words_sum new - words_sum old).
Proof.
  induction old as [old IH] using (induction_ltof1 _ length). unfold ltof in IH.
  intros new csum Ho Hn Hl Hev Hc. destruct old as [|a [|b old]].
  - destruct new; [|done]. cbn. split; [done|]. by rewrite Z.sub_0_r, Z.add_0_r.
  - by destruct Hev as [[|k] Hk]; cbn in Hk; [|lia].
  - destruct new as [|x [|y new]]; try done. cbn [update_words].
    assert (Hw1 : 0 <= word_at (x :: y :: new) 0 < 2 ^ 16) by by apply word_at_range.
    assert (Hw2 : 0 <= not16 (word_at (a :: b :: old) 0) < 2 ^ 16) by (apply not16_range; by apply word_at_range).
    pose proof (Combine_range _ _ Hw1 Hw2) as Hr1. pose proof (Combine_range _ _ Hc Hr1) as Hr2.
    change (drop 2 (x :: y :: new)) with new.
    destruct (IH old ltac:(cbn; lia) new (Combine csum (Combine (word_at (x :: y :: new) 0) (not16 (word_at (a :: b :: old) 0)))))
      as [Hb Hs]; [rewrite !bytes_ok_cons in Ho; tauto|rewrite !bytes_ok_cons in Hn; tauto|cbn in Hl; lia|destruct Hev as [k Hk]; exists (k - 1)%nat; cbn in Hk; lia|done|].
    split; [done|]. eapply same_sum_trans; [exact Hs|].
    replace (csum + words_sum (x :: y :: new) - words_sum (a :: b :: old))
      with (csum + (word_at (x :: y :: new) 0 + - word_at (a :: b :: old) 0) + (words_sum new + - words_sum old))
      by (rewrite !word_at_be by done; cbn; lia).
    unfold Z.sub. rewrite <- Z.add_assoc. apply same_sum_add; [|done].
    eapply same_sum_trans; [by apply Combine_sum|]. apply same_sum_add; [done|].
    eapply same_sum_trans; [by apply Combine_sum|]. apply same_sum_add; [done|]. apply same_sum_not16.
Qed.

(** The checksum word replaced in place. *)
Lemma natPartialUpdateChecksum_app l1 h l l2 old new :
  bytes_ok (l1 ++ h :: l :: l2) -> bytes_ok old -> bytes_ok new -> length new = length old -> Nat.Even (length old) ->
  exists h' l', natPartialUpdateChecksum (l1 ++ h :: l :: l2) (length l1) old new = l1 ++ h' :: l' :: l2
    /\ is_byte h' /\ is_byte l'
    /\ same_sum ((h' * 256 + l') + words_sum new) ((h * 256 + l) + words_sum old).
Proof.
  intros Hp Ho Hn Hl Hev. unfold natPartialUpdateChecksum.
  set (w := word_at (l1 ++ h :: l :: l2) (length l1)).
  assert (Hw : w = h * 256 + l).
  { unfold w. rewrite word_at_be by done. unfold byte_at. by rewrite !app_nth2, Nat.sub_diag, Nat.sub_succ_l, Nat.sub_diag by lia. }
  pose proof (word_at_range _ (length l1) Hp) as Hwr. fold w in Hwr.
  destruct (update_words_spec old new (not16 w)) as [Hr Hs]; [done..|by apply not16_range|].
  set (u := update_words (not16 w) old new) in *. pose proof (not16_range u Hr) as Hnr.
  rewrite !insert_app_r_alt by lia. replace (S (length l1) - length l1)%nat with 1%nat by lia. rewrite Nat.sub_diag.
  cbn [insert list_insert]. do 2 eexists. split; [done|]. split; [apply u8_byte|]. split; [apply u8_byte|].
  replace (u8 (Z.shiftr (not16 u) 8) * 256 + u8 (not16 u)) with (not16 u).
  2: { unfold u8. rewrite Z.shiftr_div_pow2 by lia. Z.to_euclidean_division_equations. lia. }
  rewrite <- Hw. apply same_sum_trans with (- u + words_sum new).
  { apply same_sum_add; [apply same_sum_not16|done]. }
  assert (Hu : same_sum u (- w + words_sum new - words_sum old)).
  { eapply same_sum_trans; [exact Hs|]. unfold Z.sub. rewrite <- !Z.add_assoc.
    apply same_sum_add; [apply same_sum_not16|done]. }
  unfold same_sum in *. rewrite <- Z.add_mod_idemp_l, <- (Z.sub_0_l u), Zminus_mod, Hu, <- Zminus_mod, Z.add_mod_idemp_l by lia.
  f_equal. lia.
Qed.

Lemma copy_at_app l1 l2 l3 off n src :
  length l1 = off -> length l2 = n -> length src = n -> copy_at (l1 ++ l2 ++ l3) off n src = l1 ++ src ++ l3.
Proof.
  intros <- H2 Hs. unfold copy_at. rewrite take_app_length, take_ge by lia. do 2 f_equal.
  rewrite app_assoc. apply drop_app_length'. rewrite length_app. lia.
Qed.

Lemma words_sum_app l1 l2 : Nat.Even (length l1) -> words_sum (l1 ++ l2) = words_sum l1 + words_sum l2.
Proof.
  induction l1 as [l1 IH] using (induction_ltof1 _ length). unfold ltof in IH. intros [k Hk].
  destruct l1 as [|a [|b l1]]; [done|cbn in Hk; lia|]. cbn in *. rewrite IH; [lia|lia|]. exists (k - 1)%nat. lia.
Qed.

Lemma slot_checksum n start m off c :
  slot n start m off = SlotChecksum c -> c = (start + off)%nat /\ (start + m <= n)%nat.
Proof. unfold slot. case_match; simpl_bool; [done|]. intros [= <-]. lia. Qed.

(** Where a repaired checksum lies. *)
Lemma nat66_slot_bounds p c :
  nat66_slot p = SlotChecksum c -> (40 <= c)%nat /\ (c + 2 <= length p)%nat /\ Nat.Even c.
Proof.
  unfold nat66_slot, IPv6FixedHeaderSize, IPv6FragmentHeaderSize, TCPMinimumSize, TCPChecksumOffset, DCCPMinimumSize,
    DCCPChecksumOffset, UDPMinimumSize, ICMPv6MinimumSize, ICMPv6ChecksumOffset.
  intros Hs. repeat case_match; try done; apply slot_checksum in Hs as [-> Hn];
    (split_and!; [lia|lia|]); [exists 28%nat|exists 23%nat|exists 23%nat|exists 32%nat|exists 27%nat|exists 27%nat|exists 25%nat|exists 21%nat]; lia.
Qed.

(** What the receiver's verification adds up, the length and protocol of the
    pseudo-header apart, which the rewriting does not touch: both addresses and
    everything after the fixed header. *)
Definition pseudo_sum (p : bytes) : Z := words_sum (slice p 8 40) + words_sum (drop 40 p).

(** A packet around the address at [off]. *)
Lemma packet_split (p : bytes) off :
  (off + 16 <= 40)%nat -> (40 <= length p)%nat ->
  p = take off p ++ slice p off (off + 16) ++ slice p (off + 16) 40 ++ drop 40 p
  /\ length (take off p) = off /\ length (slice p off (off + 16)) = 16%nat
  /\ length (slice p (off + 16) 40) = (24 - off)%nat.
Proof.
  intros Ho Hl. rewrite !length_slice, length_take by lia. split_and!; try lia.
  rewrite (slice_drop p (off + 16) 40) by lia. symmetry. apply take_slice_drop; lia.
Qed.

(** The checksum repaired in what follows the fixed header. *)
Lemma repair_tail p c addr to :
  bytes_ok p -> bytes_ok addr -> bytes_ok to -> length to = length addr -> Nat.Even (length addr) ->
  (40 <= c)%nat -> (c + 2 <= length p)%nat -> Nat.Even c ->
  exists T', natPartialUpdateChecksum p c addr to = take 40 p ++ T'
    /\ length T' = (length p - 40)%nat /\ bytes_ok T'
    /\ take (c - 40) T' = slice p 40 c /\ drop (c - 38) T' = drop (c + 2) p
    /\ same_sum (words_sum T' + words_sum to) (words_sum (drop 40 p) + words_sum addr).
Proof.
  intros Hp Ha Ht Hl Hev H40 Hc Hcev.
  assert (Hs : p = take c p ++ slice p c (c + 2) ++ drop (c + 2) p) by (symmetry; apply take_slice_drop; lia).
  assert (Hl2 : length (slice p c (c + 2)) = 2%nat) by (rewrite length_slice by lia; lia).
  destruct (slice p c (c + 2)) as [|h [|l [|]]]; try done. cbn [app] in Hs.
  pose proof (natPartialUpdateChecksum_app (take c p) h l (drop (c + 2) p) addr to) as Hn.
  rewrite <- Hs in Hn. rewrite length_take_le in Hn by lia.
  destruct (Hn Hp Ha Ht Hl Hev) as (h' & l' & -> & Hh & Hl' & Hsum). clear Hn.
  assert (Htk : take c p = take 40 p ++ slice p 40 c).
  { unfold slice. rewrite <- (take_drop 40 (take c p)) at 1. rewrite take_take, Nat.min_l by lia. f_equal.
    rewrite skipn_firstn_comm. done. }
  assert (Hd40 : drop 40 p = slice p 40 c ++ h :: l :: drop (c + 2) p).
  { rewrite Hs at 1. rewrite Htk, <- app_assoc. apply drop_app_length'. rewrite length_take_le; lia. }
  assert (Hlen : length (slice p 40 c) = (c - 40)%nat) by (apply length_slice; lia).
  exists (slice p 40 c ++ h' :: l' :: drop (c + 2) p). split; [by rewrite Htk, <- app_assoc|].
  rewrite length_app. cbn [length]. rewrite length_drop, Hlen. split_and!; [lia| | | |].
  - apply bytes_ok_app. split; [by apply bytes_ok_slice|]. rewrite !bytes_ok_cons. split_and!; auto with bytes.
  - apply take_app_length'. lia.
  - replace (c - 38)%nat with (length (slice p 40 c ++ [h'; l'])) by (rewrite length_app, Hlen; cbn; lia).
    replace (slice p 40 c ++ h' :: l' :: drop (c + 2) p) with ((slice p 40 c ++ [h'; l']) ++ drop (c + 2) p)
      by (by rewrite <- app_assoc). apply drop_app_length.
  - assert (Hev2 : Nat.Even (length (slice p 40 c))) by (rewrite Hlen; destruct Hcev as [k ->]; exists (k - 20)%nat; lia).
    rewrite Hd40, !words_sum_app by done. cbn [words_sum].
    replace (words_sum (slice p 40 c) + (h' * 256 + l' + words_sum (drop (c + 2) p)) + words_sum to)
      with (words_sum (slice p 40 c) + words_sum (drop (c + 2) p) + (h' * 256 + l' + words_sum to)) by lia.
    replace (words_sum (slice p 40 c) + (h * 256 + l + words_sum (drop (c + 2) p)) + words_sum addr)
      with (words_sum (slice p 40 c) + words_sum (drop (c + 2) p) + (h * 256 + l + words_sum addr)) by lia.
    by apply same_sum_add.
Qed.

(** The rewritten packet. *)
Lemma nat66_image p to off :
  bytes_ok p -> bytes_ok to -> length to = 16%nat -> (40 <= length p)%nat -> (off + 16 <= 40)%nat ->
  nat66_slot p <> SlotShort ->
  exists T', NAT66InPlaceTranslateAddress p to off = take off p ++ to ++ slice p (off + 16) 40 ++ T'
    /\ length T' = length (drop 40 p) /\ bytes_ok T'
    /\ match nat66_slot p with
       | SlotChecksum c => take (c - 40) T' = slice p 40 c /\ drop (c - 38) T' = drop (c + 2) p
           /\ same_sum (words_sum T' + words_sum to) (words_sum (drop 40 p) + words_sum (slice p off (off + 16)))
       | _ => T' = drop 40 p
       end.
Proof.
  intros Hp Ht Hl H40 Hoff Hs. unfold NAT66InPlaceTranslateAddress, IPv6FixedHeaderSize, IPv6AddressSize.
  rewrite (proj2 (Nat.ltb_ge _ _)) by lia.
  destruct (packet_split p off Hoff H40) as (Esp & L1 & L2 & L3).
  assert (Htake : take off p ++ slice p off (off + 16) ++ slice p (off + 16) 40 = take 40 p).
  { rewrite Esp at 4. rewrite !app_assoc. rewrite take_app_length'; [done|]. rewrite !length_app. lia. }
  assert (Hcopy : forall T, copy_at (take 40 p ++ T) off 16 to = take off p ++ to ++ slice p (off + 16) 40 ++ T).
  { intros T. rewrite <- Htake, <- !app_assoc. by apply copy_at_app. }
  destruct (nat66_slot p) as [|c|] eqn:E; [| |done].
  - exists (drop 40 p). rewrite <- (take_drop 40 p) at 1. rewrite Hcopy. split_and!; auto with bytes.
  - apply nat66_slot_bounds in E as (Hc1 & Hc2 & Hc3).
    destruct (repair_tail p c (slice p off (off + 16)) to) as (T' & -> & HlT & HT & Htk & Hdr & Hsum);
      [done|auto with bytes|done|lia|rewrite L2; by exists 8%nat|done..|].
    exists T'. rewrite Hcopy, length_drop. split_and!; auto.
Qed.

(** The rewriting by slot. *)
Lemma nat66_by_slot p to off (Hp : bytes_ok p) (Hto : bytes_ok to) (Hl : length to = 16%nat)
  (H40 : (40 <= length p)%nat) (Hoff : off = IPv6SourceAddressOffset \/ off = IPv6DestinationAddressOffset) :
  let p' := NAT66InPlaceTranslateAddress p to off in
  length p' = length p /\ bytes_ok p'
  /\ match nat66_slot p with
     | SlotShort => p' = p
     | SlotNone => p' = take off p ++ to ++ drop (off + 16) p
     | SlotChecksum c =>
       slice p' off (off + 16) = to /\ take off p' = take off p
       /\ slice p' (off + 16) c = slice p (off + 16) c /\ drop (c + 2) p' = drop (c + 2) p
       /\ same_sum (pseudo_sum p') (pseudo_sum p)
     end.
Proof.
  cbv zeta. assert (Ho : (off + 16 <= 40)%nat /\ (8 <= off)%nat /\ Nat.Even off).
  { destruct Hoff as [->| ->]; unfold IPv6DestinationAddressOffset, IPv6SourceAddressOffset, IPv6AddressSize;
      (split; [lia|split; [lia|]]); [by exists 4%nat|by exists 12%nat]. }
  destruct Ho as (Ho & Ho8 & Hev). destruct (packet_split p off Ho H40) as (Esp & L1 & L2 & L3).
  destruct (decide (nat66_slot p = SlotShort)) as [Hs|Hs].
  { rewrite Hs. unfold NAT66InPlaceTranslateAddress, IPv6FixedHeaderSize. rewrite Hs.
    case_match; done. }
  destruct (nat66_image p to off Hp Hto Hl H40 Ho Hs) as (T' & -> & HlT & HT & HS).
  assert (Hlen : length (take off p ++ to ++ slice p (off + 16) 40 ++ T') = length p).
  { pose proof (f_equal length Esp) as Hlp. rewrite !length_app in *. lia. }
  split; [done|]. split.
  { rewrite !bytes_ok_app. split_and!; auto with bytes. }
  destruct (nat66_slot p) as [|c|] eqn:E; [| |done].
  - subst T'. by rewrite slice_drop by lia.
  - destruct HS as (Htk & Hdr & Hsum). apply nat66_slot_bounds in E as (Hc1 & Hc2 & Hc3). split_and!.
    + by rewrite (slice_app_eq _ to) by lia.
    + by rewrite take_app_length' by done.
    + unfold slice at 1. rewrite (app_assoc (take off p)), drop_app_length' by (rewrite length_app; lia).
      rewrite take_app_ge by lia. rewrite L3. replace (c - (off + 16) - (24 - off))%nat with (c - 40)%nat by lia.
      rewrite Htk. unfold slice. rewrite <- (take_drop (40 - (off + 16)) (drop (off + 16) p)) at 2.
      rewrite take_app_ge by (rewrite length_take, length_drop; lia). f_equal.
      rewrite length_take, length_drop, drop_drop. f_equal; [lia|f_equal; lia].
    + rewrite !app_assoc, drop_app_ge by (rewrite !length_app; lia). rewrite !length_app, L1, Hl, L3.
      by replace (c + 2 - (off + 16 + (24 - off)))%nat with (c - 38)%nat by lia.
    + unfold pseudo_sum.
      assert (H8 : slice (take off p ++ to ++ slice p (off + 16) 40 ++ T') 8 40 = drop 8 (take off p) ++ to ++ slice p (off + 16) 40).
      { unfold slice at 1. rewrite drop_app_le by lia. rewrite !app_assoc, take_app_le by (rewrite !length_app, length_drop; lia).
        rewrite take_ge by (rewrite !length_app, length_drop; lia). by rewrite <- !app_assoc. }
      assert (H8' : slice p 8 40 = drop 8 (take off p) ++ slice p off (off + 16) ++ slice p (off + 16) 40).
      { rewrite Esp at 1. unfold slice at 1. rewrite drop_app_le by lia. rewrite !app_assoc, take_app_le by (rewrite !length_app, length_drop; lia).
        rewrite take_ge by (rewrite !length_app, length_drop; lia). by rewrite <- !app_assoc. }
      assert (H40' : drop 40 (take off p ++ to ++ slice p (off + 16) 40 ++ T') = T').
      { rewrite !app_assoc. apply drop_app_length'. rewrite !length_app. lia. }
      assert (Hw : forall a, length a = 16%nat -> words_sum (drop 8 (take off p) ++ a ++ slice p (off + 16) 40)
        = words_sum (drop 8 (take off p)) + words_sum (slice p (off + 16) 40) + words_sum a).
      { intros a Ha. destruct Hev as [k Hk]. rewrite !words_sum_app; [lia|rewrite Ha; by exists 8%nat|].
        rewrite length_drop, L1. exists (k - 4)%nat. lia. }
      rewrite H8, H8', H40', !Hw by done.
      replace (words_sum (drop 8 (take off p)) + words_sum (slice p (off + 16) 40) + words_sum to + words_sum T')
        with (words_sum (drop 8 (take off p)) + words_sum (slice p (off + 16) 40) + (words_sum T' + words_sum to)) by lia.
      replace (words_sum (drop 8 (take off p)) + words_sum (slice p (off + 16) 40) + words_sum (slice p off (off + 16)) + words_sum (drop 40 p))
        with (words_sum (drop 8 (take off p)) + words_sum (slice p (off + 16) 40) + (words_sum (drop 40 p) + words_sum (slice p off (off + 16)))) by lia.
      by apply same_sum_add.
Qed.

(** The transports whose checksum covers the addresses: the protocol number,
    the least length of the header and the place of the checksum (TCP, DCCP,
    UDP, ICMPv6). *)
Inductive covered : Z -> nat -> nat -> Prop :=
| covered_tcp : covered 6 20 16
| covered_dccp : covered 33 12 6
| covered_udp : covered 17 8 6
| covered_icmp6 : covered 58 8 2.
(** Where a packet's transport begins: after the fixed header, or after the
    fragment header of a first fragment. *)
Inductive l4_at (p : bytes) : Z -> nat -> Prop :=
| l4_direct : byte_at p 6 <> 44 -> l4_at p (byte_at p 6) 40
| l4_fragment : byte_at p 6 = 44 -> (48 <= length p)%nat -> be16 (slice p 42 44) / 8 = 0 -> l4_at p (byte_at p 40) 48.

Lemma frag_fields p :
  bytes_ok p -> frag6_FragmentOffset (slice p 40 48) = be16 (slice p 42 44) / 8 /\ frag6_NextHeader (slice p 40 48) = byte_at p 40.
Proof.
  intros Hp. rewrite frag6_FragmentOffset_spec, frag6_NextHeader_spec by auto with bytes. split; [by rewrite slice_slice by lia|].
  unfold byte_at, slice. change (nth 40 p 0) with (nth (40 + 0) p 0). rewrite <- nth_skipn. by destruct (drop 40 p).
Qed.
(** The code's choice of slot, by transport. *)
Lemma nat66_slot_l4 p proto start m c :
  bytes_ok p -> l4_at p proto start -> covered proto m c -> nat66_slot p = slot (length p) start m c.
Proof.
  intros Hp Hl Hc. unfold nat66_slot. change (IPv6FixedHeaderSize + IPv6FragmentHeaderSize)%nat with 48%nat. change IPv6FixedHeaderSize with 40%nat.
  destruct (frag_fields p Hp) as [-> ->]. unfold IPv6NextHeaderOffset. destruct Hl as [Hne|Hf Hn Ho].
  - generalize dependent (byte_at p 6). by intros ? _ [].
  - rewrite Hf, Ho. rewrite (proj2 (Nat.ltb_ge _ _)) by lia. generalize dependent (byte_at p 40). by intros ? [].
Qed.
Lemma nat66_slot_cut p : byte_at p 6 = 44 -> (length p < 48)%nat -> nat66_slot p = SlotShort.
Proof.
  intros Hf Hn. unfold nat66_slot, IPv6NextHeaderOffset. rewrite Hf. change (IPv6FixedHeaderSize + IPv6FragmentHeaderSize)%nat with 48%nat.
  by rewrite (proj2 (Nat.ltb_lt _ _)).
Qed.
Lemma nat66_slot_other p :
  bytes_ok p -> (forall proto start m c, l4_at p proto start -> ~ covered proto m c) -> (byte_at p 6 = 44 -> (48 <= length p)%nat) ->
  nat66_slot p = SlotNone.
Proof.
  intros Hp Hno Hcut. unfold nat66_slot. change (IPv6FixedHeaderSize + IPv6FragmentHeaderSize)%nat with 48%nat. change IPv6FixedHeaderSize with 40%nat.
  destruct (frag_fields p Hp) as [-> ->]. unfold IPv6NextHeaderOffset, TCPProtocolNumber, DCCPProtocolNumber, UDPProtocolNumber, IPv6FragmentHeader, ICMPv6ProtocolNumber.
  destruct (Z.eqb_spec (byte_at p 6) 44) as [Hf|Hf].
  - rewrite Hf. rewrite (proj2 (Nat.ltb_ge _ _)) by auto. cbn [Z.eqb Pos.eqb]. destruct (Z.eqb_spec (be16 (slice p 42 44) / 8) 0) as [Ho|]; [|done].
    cbn [negb]. pose proof (fun m c => Hno _ _ m c (l4_fragment p Hf (Hcut Hf) Ho)) as HN.
    repeat match goal with |- context [byte_at p 40 =? ?k] => destruct (Z.eqb_spec (byte_at p 40) k) as [E|_]; [exfalso; rewrite E in HN; eapply HN; constructor|] end.
    done.
  - pose proof (fun m c => Hno _ _ m c (l4_direct p Hf)) as HN.
    repeat match goal with |- context [byte_at p 6 =? ?k] => destruct (Z.eqb_spec (byte_at p 6) k) as [E|_]; [exfalso; rewrite E in HN; eapply HN; constructor|] end.
    done.
Qed.

(** C21: The NAT66 rewriting is checksum neutral. On a well-formed packet the
    address at the source or destination offset is replaced and the length kept.
    When the packet carries the whole header of a TCP, DCCP, UDP or ICMPv6
    transport, directly or in a first fragment, its checksum field is repaired
    so that what the receiver adds up over both addresses and the transport is
    the same modulo [2 ^ 16 - 1] as before, and no byte outside the address and
    that field changes. A packet cut short of that header, or of its fragment
    header, is left as it is; in any other only the address changes. *)
Theorem NAT66_checksum_neutral p to off (Hp : bytes_ok p) (Hto : bytes_ok to) (Hl : length to = 16%nat)
  (H40 : (40 <= length p)%nat) (Hoff : off = 8%nat \/ off = 24%nat) :
  let p' := NAT66InPlaceTranslateAddress p to off in
  length p' = length p /\ bytes_ok p'
  /\ (forall proto start m c, l4_at p proto start -> covered proto m c ->
       if (start + m <=? length p)%nat
       then slice p' off (off + 16) = to /\ take off p' = take off p
            /\ slice p' (off + 16) (start + c) = slice p (off + 16) (start + c)
            /\ drop (start + c + 2) p' = drop (start + c + 2) p
            /\ same_sum (pseudo_sum p') (pseudo_sum p)
       else p' = p)
  /\ (byte_at p 6 = 44 -> (length p < 48)%nat -> p' = p)
  /\ ((forall proto start m c, l4_at p proto start -> ~ covered proto m c) -> (byte_at p 6 = 44 -> (48 <= length p)%nat) ->
       p' = take off p ++ to ++ drop (off + 16) p).
Proof.
  cbv zeta. destruct (nat66_by_slot p to off Hp Hto Hl H40 Hoff) as (H1 & H2 & HS). split; [done|]. split; [done|]. split_and!.
  - intros proto start m c Hl4 Hc. rewrite (nat66_slot_l4 p proto start m c) in HS by done. unfold slot in HS.
    destruct (Nat.leb_spec (start + m) (length p)); [rewrite (proj2 (Nat.ltb_ge _ _)) in HS by done; exact HS|].
    by rewrite (proj2 (Nat.ltb_lt _ _)) in HS by done.
  - intros Hf Hn. by rewrite nat66_slot_cut in HS.
  - intros Hno Hcut. by rewrite nat66_slot_other in HS.
Qed.

(** NAT44 leaves the address alone on a packet too short for its transport. *)
Lemma NAT44_short p to off : nat44_slot p = SlotShort -> NAT44InPlaceTranslateAddress p to off = p.
Proof. intros E. unfold NAT44InPlaceTranslateAddress. rewrite E. by case_match. Qed.
End nat_lemmas.

(** * Witnesses *)

(** gvisor's operations as documented. *)
#[export, refine] Instance gvisor_sample : Gvisor := {
  Combine a b := (a + b) mod 2 ^ 16 + (a + b) / 2 ^ 16;
  frag6_FragmentOffset b := be16 (slice b 2 4) / 8;
  frag6_NextHeader b := byte_at b 0;
  ipv4_FragmentOffset b := be16 (slice b 6 8) mod 2 ^ 13 * 8
}.
Proof. all: done. Defined.

Definition sample_src : bytes := [0; 0x64; 0xff; 0x9b; 0; 0; 0; 0; 0; 0; 0; 0; 192; 0; 0; 1].
Definition sample_clat : bytes := [0xfd; 0; 0; 7; 0; 0; 0; 0; 0; 0; 0; 0; 0; 0; 0; 9].
(** A UDP packet, eight bytes of transport. *)
Definition sample_udp : bytes :=
  [96; 0; 0; 0; 0; 10; 17; 64] ++ sample_src ++ SIITPrefix ++ [0x30; 0x39; 0; 53; 0; 10; 0x12; 0x34; 65; 66].
(** A TCP packet cut after eight bytes of transport. *)
Definition sample_short : bytes :=
  [96; 0; 0; 0; 0; 8; 6; 64] ++ sample_src ++ SIITPrefix ++ [0; 1; 0; 2; 0; 0; 0; 0].

Lemma NAT66_checksum_neutral_witness :
  slice (NAT66InPlaceTranslateAddress sample_udp sample_clat 8) 8 24 = sample_clat
  /\ same_sum (pseudo_sum (NAT66InPlaceTranslateAddress sample_udp sample_clat 8)) (pseudo_sum sample_udp).
Proof.
  assert (Hp : bytes_ok sample_udp) by decide_closed. assert (Hto : bytes_ok sample_clat) by decide_closed.
  assert (H40 : (40 <= length sample_udp)%nat) by decide_closed.
  assert (Hl4 : l4_at sample_udp 17 40) by (apply l4_direct; discriminate).
  destruct (NAT66_checksum_neutral sample_udp sample_clat 8 Hp Hto eq_refl H40 (or_introl eq_refl)) as (_ & _ & Hc & _ & _).
  destruct (Hc _ _ _ _ Hl4 covered_udp) as (Hs & _ & _ & _ & Hsum).
  split; [exact Hs|exact Hsum].
Defined.
