(* ===== verification/SiitBuf.v ===== *)
(** What [internal/clat/siit46.go] and [siit64.go] work with: one buffer, slices
    into it that alias it, and the panics of slicing out of range. A computation
    takes the buffer and returns its result and the new buffer, or [None] when it
    panics. The accessors of gvisor's [header] package are the operations of the
    class [GvisorHeader], with the layout of the headers as laws. *)

From S2P Require Import Prelude Clat.

(** * Writing bytes over bytes *)

Definition patch (l : bytes) (off : nat) (new : bytes) : bytes := take off l ++ new ++ drop (off + length new) l.
Definition put32 (v : Z) : bytes := [u8 (v / 2 ^ 24); u8 (v / 2 ^ 16); u8 (v / 2 ^ 8); u8 v].
Definition be32 (l : bytes) : Z := be16 (slice l 0 2) * 2 ^ 16 + be16 (slice l 2 4).

Section patch.
Implicit Types l new : bytes.

Lemma length_patch l off new : (off + length new <= length l)%nat -> length (patch l off new) = length l.
Proof. intros. unfold patch. rewrite !length_app, length_take, length_drop. lia. Qed.
Lemma bytes_ok_patch l off new : bytes_ok l -> bytes_ok new -> bytes_ok (patch l off new).
Proof. intros. unfold patch. rewrite !bytes_ok_app. split_and!; auto with bytes. Qed.

Lemma slice_patch_before l off new i j : (i <= j)%nat -> (j <= off)%nat -> (off <= length l)%nat -> slice (patch l off new) i j = slice l i j.
Proof.
  intros Hij Hj Ho. unfold patch, slice. rewrite drop_app_le by (rewrite length_take; lia).
  rewrite take_app_le by (rewrite length_drop, length_take; lia).
  rewrite skipn_firstn_comm, take_take. f_equal. lia.
Qed.
Lemma slice_patch_after l off new i j :
  (off + length new <= i)%nat -> (off <= length l)%nat -> slice (patch l off new) i j = slice l i j.
Proof.
  intros Hi Ho. unfold patch, slice. rewrite app_assoc, drop_app_ge by (rewrite length_app, length_take; lia).
  rewrite drop_drop. f_equal. f_equal. rewrite length_app, length_take. lia.
Qed.
Lemma slice_patch_in l off new i j :
  (off <= i)%nat -> (i <= j)%nat -> (j <= off + length new)%nat -> (off <= length l)%nat ->
  slice (patch l off new) i j = slice new (i - off) (j - off).
Proof.
  intros Hi Hij Hj Ho. unfold patch, slice. rewrite drop_app_ge by (rewrite length_take; lia). rewrite length_take_le by lia.
  rewrite drop_app_le by lia. rewrite take_app_le by (rewrite length_drop; lia). f_equal. lia.
Qed.
Lemma slice_all l n : length l = n -> slice l 0 n = l.
Proof. intros <-. rewrite slice_0. by apply take_ge. Qed.
Lemma slice_patch_same l off new j :
  j = (off + length new)%nat -> (off <= length l)%nat -> slice (patch l off new) off j = new.
Proof.
  intros -> Ho. rewrite slice_patch_in by lia. rewrite Nat.sub_diag. apply slice_all. lia.
Qed.

Lemma byte_at_patch_out l off new i :
  (i < off \/ off + length new <= i)%nat -> (off <= length l)%nat -> byte_at (patch l off new) i = byte_at l i.
Proof.
  intros Hi Ho. unfold byte_at, patch. destruct Hi as [Hi|Hi].
  - rewrite app_nth1 by (rewrite length_take; lia). rewrite <- (take_drop off l) at 2. by rewrite app_nth1 by (rewrite length_take; lia).
  - rewrite !app_nth2 by (rewrite ?length_take; lia). rewrite nth_skipn. f_equal. rewrite length_take. lia.
Qed.
Lemma byte_at_patch_in l off new i :
  (off <= i)%nat -> (i < off + length new)%nat -> (off <= length l)%nat -> byte_at (patch l off new) i = byte_at new (i - off).
Proof.
  intros H1 H2 Ho. unfold byte_at, patch. rewrite app_nth2 by (rewrite length_take; lia). rewrite length_take_le by lia.
  by rewrite app_nth1 by lia.
Qed.
Lemma byte_at_slice l i j k : (i + k < j)%nat -> byte_at (slice l i j) k = byte_at l (i + k).
Proof.
  intros H. unfold byte_at, slice. rewrite nth_firstn, nth_skipn. by rewrite (proj2 (Nat.ltb_lt _ _)) by lia.
Qed.

Lemma take_patch l off new n : (n <= off)%nat -> (off <= length l)%nat -> take n (patch l off new) = take n l.
Proof. intros. rewrite <- !slice_0. by apply slice_patch_before; lia. Qed.
Lemma drop_patch_after l off new n : (off + length new <= n)%nat -> (off <= length l)%nat -> drop n (patch l off new) = drop n l.
Proof.
  intros H Ho. unfold patch. rewrite app_assoc, drop_app_ge by (rewrite length_app, length_take; lia).
  rewrite drop_drop. f_equal. rewrite length_app, length_take. lia.
Qed.
Lemma drop_patch l off new n : (n <= off)%nat -> (off <= length l)%nat -> drop n (patch l off new) = patch (drop n l) (off - n) new.
Proof.
  intros H Ho. unfold patch. rewrite drop_app_le by (rewrite length_take; lia). rewrite skipn_firstn_comm, drop_drop.
  do 3 f_equal. lia.
Qed.
(** A write within a slice is a write to the buffer. *)
Lemma patch_in_slice l lo hi off new :
  (lo + off + length new <= hi)%nat -> (hi <= length l)%nat ->
  patch l lo (patch (slice l lo hi) off new) = patch l (lo + off) new.
Proof.
  intros H1 H2. assert (Hs : length (slice l lo hi) = (hi - lo)%nat) by (apply length_slice; lia).
  unfold patch at 1. rewrite length_patch by lia. rewrite Hs. unfold patch.
  rewrite <- !app_assoc.
  replace (take (lo + off) l) with (take lo l ++ take off (slice l lo hi)).
  2: { unfold slice. rewrite take_take, Nat.min_l by lia. apply take_take_drop. }
  rewrite <- app_assoc. do 3 f_equal.
  unfold slice. rewrite skipn_firstn_comm, drop_drop. replace (lo + off + length new)%nat with (lo + (off + length new))%nat by lia.
  replace (drop (lo + (hi - lo)) l) with (drop (hi - lo - (off + length new)) (drop (lo + (off + length new)) l))
    by (rewrite drop_drop; f_equal; lia).
  apply take_drop.
Qed.

Lemma patch_app_l a b off new : (off + length new <= length a)%nat -> patch (a ++ b) off new = patch a off new ++ b.
Proof.
  intros Ho. unfold patch. rewrite take_app_le by lia. rewrite drop_app_le by lia. by rewrite <- !app_assoc.
Qed.
Lemma patch_app_r a b off new : patch (a ++ b) (length a + off) new = a ++ patch b off new.
Proof.
  unfold patch. rewrite take_app_ge by lia. rewrite drop_app_ge by lia.
  replace (length a + off - length a)%nat with off by lia. replace (length a + off + length new - length a)%nat with (off + length new)%nat by lia.
  by rewrite <- app_assoc.
Qed.
End patch.

Lemma lor_byte a b : is_byte a -> is_byte b -> is_byte (Z.lor a b).
Proof.
  unfold is_byte. intros Ha Hb. assert (0 <= Z.lor a b) by (apply Z.lor_nonneg; lia). split; [done|].
  destruct (decide (Z.lor a b = 0)) as [->|Hne]; [lia|]. change 256 with (2 ^ 8). apply Z.log2_lt_pow2; [lia|].
  rewrite Z.log2_lor by lia. apply Z.max_lub_lt.
  - destruct (decide (a = 0)) as [->|]; [cbn; lia|]. apply Z.log2_lt_pow2; lia.
  - destruct (decide (b = 0)) as [->|]; [cbn; lia|]. apply Z.log2_lt_pow2; lia.
Qed.
Lemma bytes_ok_zeros k : bytes_ok (repeat 0 k).
Proof.
  apply Forall_forall. intros x Hx. apply list_elem_of_In, repeat_spec in Hx as ->. unfold is_byte. lia.
Qed.
Lemma length_put32 v : length (put32 v) = 4%nat.
Proof. done. Qed.
Lemma put32_ok v : bytes_ok (put32 v).
Proof. repeat constructor; apply u8_byte. Qed.
#[export] Hint Resolve bytes_ok_patch put32_ok : bytes.
#[export] Hint Rewrite length_put32 : len.

(** * One's-complement sums *)

(** A sum of 16-bit words, folded. *)
Definition folded (s : Z) : Z := if s =? 0 then 0 else (s - 1) mod (2 ^ 16 - 1) + 1.

Lemma folded_sum s : 0 <= s -> same_sum (folded s) s /\ 0 <= folded s < 2 ^ 16.
Proof.
  intros Hs. unfold folded, same_sum. destruct (Z.eqb_spec s 0) as [->|]; [done|]. pose proof (Z.mod_pos_bound (s - 1) (2 ^ 16 - 1) ltac:(lia)).
  split; [|lia]. rewrite Z.add_mod_idemp_l by lia. f_equal. lia.
Qed.
Lemma words_sum_nonneg l : bytes_ok l -> 0 <= words_sum l.
Proof.
  revert l. fix IH 1. intros [|a [|b l]]; cbn [words_sum]; [done| |]; rewrite ?bytes_ok_cons; unfold is_byte; [lia|].
  intros (? & ? & Hl). specialize (IH l Hl). lia.
Qed.
Lemma words_sum_put16 v : 0 <= v < 2 ^ 16 -> words_sum (put16 v) = v.
Proof. intros Hv. pose proof (be16_put16 v [] Hv) as E. unfold be16, put16, byte_at in E. cbn [nth app] in E. unfold put16. cbn [words_sum]. lia. Qed.
Lemma words_sum_be16 l : length l = 2%nat -> words_sum l = be16 l.
Proof. intros Hl. destruct l as [|a [|b [|]]]; try done. unfold be16, byte_at. cbn [words_sum nth]. lia. Qed.
Lemma words_sum_patch l off v :
  Nat.Even off -> (off + 2 <= length l)%nat -> 0 <= v < 2 ^ 16 ->
  words_sum (patch l off (put16 v)) = words_sum l - be16 (slice l off (off + 2)) + v.
Proof.
  intros He Ho Hv. assert (Et : length (take off l) = off) by (rewrite length_take; lia).
  assert (Ep : Nat.Even (length (put16 v))) by (by exists 1%nat).
  unfold patch. rewrite !words_sum_app by (rewrite ?Et; done). rewrite words_sum_put16 by done. change (length (put16 v)) with 2%nat.
  assert (El : l = take off l ++ slice l off (off + 2) ++ drop (off + 2) l).
  { symmetry. apply take_slice_drop; lia. }
  assert (E2 : length (slice l off (off + 2)) = 2%nat) by (rewrite length_slice; lia).
  rewrite El at 3. rewrite !words_sum_app by (rewrite ?Et, ?E2; done || by exists 1%nat).
  rewrite (words_sum_be16 (slice l off (off + 2))) by done. lia.
Qed.

(** A checksum written into its zeroed field makes the sum all ones. *)
Lemma words_sum_filled l off :
  bytes_ok l -> Nat.Even off -> (off + 2 <= length l)%nat -> 0 < words_sum l -> be16 (slice l off (off + 2)) = 0 ->
  folded (words_sum (patch l off (put16 (2 ^ 16 - 1 - folded (words_sum l))))) = 2 ^ 16 - 1.
Proof.
  intros Hl He Ho Hp Hz. destruct (folded_sum (words_sum l) ltac:(lia)) as [Hs Hb].
  rewrite words_sum_patch by (done || lia). rewrite Hz. unfold folded, same_sum in *.
  set (w := words_sum l) in *. set (f := if w =? 0 then 0 else _) in *.
  rewrite (proj2 (Z.eqb_neq _ _)) by (destruct (Z.eqb_spec w 0); subst f; pose proof (Z.mod_pos_bound (w - 1) (2 ^ 16 - 1)); lia).
  replace (w - 0 + (2 ^ 16 - 1 - f) - 1) with ((w - f) + (2 ^ 16 - 1 - 1)) by lia.
  rewrite Z.add_mod, Zminus_mod, Hs, Z.sub_diag by lia. reflexivity.
Qed.

(** * gvisor's headers *)

(** [header.IPv4Fields] as used here. *)
Record IPv4Fields := mkIPv4Fields {
  f4_TOS : Z; f4_TotalLength : Z; f4_ID : Z; f4_TTL : Z; f4_Protocol : Z; f4_SrcAddr : bytes; f4_DstAddr : bytes
}.

Class GvisorHeader := {
  gh_checksums :: Gvisor;
  (** [checksum.Checksum] *)
  Checksum : bytes -> Z -> Z;
  Checksum_spec b i : bytes_ok b -> 0 <= i < 2 ^ 16 -> Checksum b i = folded (i + words_sum b);
  (** [header.IPVersion] *)
  IPVersion : bytes -> Z;
  IPVersion_spec b : IPVersion b = if is_nil b then -1 else Z.shiftr (byte_at b 0) 4;
  (** Readers of [header.IPv4] *)
  v4_HeaderLength : bytes -> Z;
  v4_HeaderLength_spec b : (20 <= length b)%nat -> v4_HeaderLength b = byte_at b 0 mod 16 * 4;
  v4_TotalLength : bytes -> Z;
  v4_TotalLength_spec b : (20 <= length b)%nat -> v4_TotalLength b = be16 (slice b 2 4);
  v4_Protocol : bytes -> Z;
  v4_Protocol_spec b : (20 <= length b)%nat -> v4_Protocol b = byte_at b 9;
  v4_Flags : bytes -> Z;
  v4_Flags_spec b : (20 <= length b)%nat -> v4_Flags b = byte_at b 6 / 2 ^ 5;
  v4_TOS : bytes -> Z * Z;
  v4_TOS_spec b : (20 <= length b)%nat -> v4_TOS b = (byte_at b 1, 0);
  v4_TTL : bytes -> Z;
  v4_TTL_spec b : (20 <= length b)%nat -> v4_TTL b = byte_at b 8;
  v4_ID : bytes -> Z;
  v4_ID_spec b : (20 <= length b)%nat -> v4_ID b = be16 (slice b 4 6);
  (** The types of the options, [None] when the iterator reports a problem. *)
  v4_OptionTypes : bytes -> option (list Z);
  (** Writers of [header.IPv4] *)
  v4_SetHeaderLength : bytes -> Z -> bytes;
  v4_SetHeaderLength_spec b n : (20 <= length b)%nat -> 0 <= n < 64 -> v4_SetHeaderLength b n = patch b 0 [4 * 16 + n / 4];
  v4_SetTOS : bytes -> Z * Z -> bytes;
  v4_SetTOS_spec b t : (20 <= length b)%nat -> v4_SetTOS b t = patch b 1 [t.1];
  v4_SetTotalLength : bytes -> Z -> bytes;
  v4_SetTotalLength_spec b n : (20 <= length b)%nat -> v4_SetTotalLength b n = patch b 2 (put16 n);
  v4_SetID : bytes -> Z -> bytes;
  v4_SetID_spec b n : (20 <= length b)%nat -> v4_SetID b n = patch b 4 (put16 n);
  v4_SetFlagsFragmentOffset : bytes -> Z -> Z -> bytes;
  v4_SetFlagsFragmentOffset_spec b f o : (20 <= length b)%nat ->
    v4_SetFlagsFragmentOffset b f o = patch b 6 (put16 (Z.lor (u16 (Z.shiftl f 13)) (o / 8)));
  v4_SetTTL : bytes -> Z -> bytes;
  v4_SetTTL_spec b n : (20 <= length b)%nat -> v4_SetTTL b n = patch b 8 [n];
  v4_SetChecksum : bytes -> Z -> bytes;
  v4_SetChecksum_spec b n : (20 <= length b)%nat -> v4_SetChecksum b n = patch b 10 (put16 n);
  v4_Encode : bytes -> IPv4Fields -> bytes;
  v4_Encode_spec b f : (20 <= length b)%nat -> length (f4_SrcAddr f) = 4%nat -> length (f4_DstAddr f) = 4%nat ->
    v4_Encode b f = patch b 0 ([69; f4_TOS f] ++ put16 (f4_TotalLength f) ++ put16 (f4_ID f) ++ [0; 0; f4_TTL f; f4_Protocol f; 0; 0]
                               ++ f4_SrcAddr f ++ f4_DstAddr f);
  (** Readers and writers of [header.IPv6] *)
  v6_PayloadLength : bytes -> Z;
  v6_PayloadLength_spec b : (40 <= length b)%nat -> v6_PayloadLength b = be16 (slice b 4 6);
  v6_NextHeader : bytes -> Z;
  v6_NextHeader_spec b : (40 <= length b)%nat -> v6_NextHeader b = byte_at b 6;
  v6_HopLimit : bytes -> Z;
  v6_HopLimit_spec b : (40 <= length b)%nat -> v6_HopLimit b = byte_at b 7;
  v6_TOS : bytes -> Z * Z;
  v6_TOS_spec b : (40 <= length b)%nat -> v6_TOS b = (u8 (be16 (slice b 0 2) / 2 ^ 4), be32 (slice b 0 4) mod 2 ^ 20);
  v6_SetTOS : bytes -> Z * Z -> bytes;
  v6_SetTOS_spec b t : (40 <= length b)%nat -> v6_SetTOS b t = patch b 0 (put32 (6 * 2 ^ 28 + t.1 * 2 ^ 20 + t.2 mod 2 ^ 20));
  v6_SetPayloadLength : bytes -> Z -> bytes;
  v6_SetPayloadLength_spec b n : (40 <= length b)%nat -> v6_SetPayloadLength b n = patch b 4 (put16 n);
  v6_SetNextHeader : bytes -> Z -> bytes;
  v6_SetNextHeader_spec b n : (40 <= length b)%nat -> v6_SetNextHeader b n = patch b 6 [n];
  v6_SetHopLimit : bytes -> Z -> bytes;
  v6_SetHopLimit_spec b n : (40 <= length b)%nat -> v6_SetHopLimit b n = patch b 7 [n];
  (** [header.IPv6Fragment] *)
  frag6_More : bytes -> bool;
  frag6_More_spec b : (8 <= length b)%nat -> frag6_More b = Z.odd (byte_at b 3);
  frag6_ID : bytes -> Z;
  frag6_ID_spec b : (8 <= length b)%nat -> frag6_ID b = be32 (slice b 4 8);
  (** [header.ICMPv4] and [header.ICMPv6], whose type, code and checksum are
      alike; the payload starts after eight bytes. *)
  icmp_Type : bytes -> Z;
  icmp_Type_spec b : (1 <= length b)%nat -> icmp_Type b = byte_at b 0;
  icmp_Code : bytes -> Z;
  icmp_Code_spec b : (2 <= length b)%nat -> icmp_Code b = byte_at b 1;
  icmp_SetType : bytes -> Z -> bytes;
  icmp_SetType_spec b n : (1 <= length b)%nat -> icmp_SetType b n = patch b 0 [n];
  icmp_SetCode : bytes -> Z -> bytes;
  icmp_SetCode_spec b n : (2 <= length b)%nat -> icmp_SetCode b n = patch b 1 [n];
  icmp_SetChecksum : bytes -> Z -> bytes;
  icmp_SetChecksum_spec b n : (4 <= length b)%nat -> icmp_SetChecksum b n = patch b 2 (put16 n);
  icmp4_MTU : bytes -> Z;
  icmp4_MTU_spec b : (8 <= length b)%nat -> icmp4_MTU b = be16 (slice b 6 8);
  icmp4_SetMTU : bytes -> Z -> bytes;
  icmp4_SetMTU_spec b n : (8 <= length b)%nat -> icmp4_SetMTU b n = patch b 6 (put16 n);
  icmp6_MTU : bytes -> Z;
  icmp6_MTU_spec b : (8 <= length b)%nat -> icmp6_MTU b = be32 (slice b 4 8);
  icmp6_SetMTU : bytes -> Z -> bytes;
  icmp6_SetMTU_spec b n : (8 <= length b)%nat -> icmp6_SetMTU b n = patch b 4 (put32 n);
  (** [header.UDP] *)
  udp_SetChecksum : bytes -> Z -> bytes;
  udp_SetChecksum_spec b n : (8 <= length b)%nat -> udp_SetChecksum b n = patch b 6 (put16 n)
}.
(** Composites of the accessors: [IPv4.PayloadLength] and
    [IPv4.CalculateChecksum]. *)
Definition v4_PayloadLength `{GvisorHeader} (b : bytes) : Z := u16 (v4_TotalLength b - v4_HeaderLength b).
Definition v4_CalculateChecksum `{GvisorHeader} (b : bytes) : Z := Checksum (take (Z.to_nat (v4_HeaderLength b)) b) 0.

(** * Slices of the buffer *)

(** [buffer[s_lo:s_hi]]; its capacity reaches to the end of the buffer. *)
Record Slice := mkSlice { s_lo : nat; s_hi : nat }.
Definition s_len (s : Slice) : nat := s_hi s - s_lo s.

(** [None] is a panic. *)
Definition M (A : Type) : Type := bytes -> option (A * bytes).
#[export] Instance M_ret : MRet M := fun A a buf => Some (a, buf).
#[export] Instance M_bind : MBind M := fun A B k m buf =>
  match m buf with Some (a, buf') => k a buf' | None => None end.

(** [s[a:b]], whose bound is the capacity, and [s[a:]]. *)
Definition sub (s : Slice) (a b : nat) : M Slice := fun buf =>
  if ((a <=? b) && (s_lo s + b <=? length buf))%nat then Some (mkSlice (s_lo s + a) (s_lo s + b), buf) else None.
Definition from (s : Slice) (a : nat) : M Slice := sub s a (s_len s).
(** A reader and a writer of a header, given the slice's bytes. *)
Definition ask {A} (s : Slice) (f : bytes -> A) : M A := fun buf => Some (f (slice buf (s_lo s) (s_hi s)), buf).
Definition modify (s : Slice) (f : bytes -> bytes) : M unit := fun buf =>
  Some (tt, patch buf (s_lo s) (f (slice buf (s_lo s) (s_hi s)))).
(** [s[i]], [s[i] = v], [PutUint16(s[i:], v)], [PutUint32(s[i:], v)] *)
Definition load (s : Slice) (i : nat) : M Z := fun buf =>
  if (i <? s_len s)%nat then Some (byte_at buf (s_lo s + i), buf) else None.
Definition put (s : Slice) (i : nat) (v : bytes) : M unit := fun buf =>
  if (i + length v <=? s_len s)%nat then Some (tt, patch buf (s_lo s + i) v) else None.
Definition store (s : Slice) (i : nat) (v : Z) : M unit := put s i [v].
(** [copy(s, src)] from a slice, which may overlap, and from a value; [clear]. *)
Definition copy_bytes (s : Slice) (src : bytes) : M unit := fun buf => Some (tt, patch buf (s_lo s) (take (s_len s) src)).
Definition copy (dst src : Slice) : M unit := fun buf =>
  copy_bytes dst (slice buf (s_lo src) (s_hi src)) buf.
Definition clear (s : Slice) : M unit := modify s (fun b => repeat 0 (length b)).
Definition buffer_len : M nat := fun buf => Some (length buf, buf).
(** An accessor indexes its slice, and panics when it is too short. *)
Definition need (s : Slice) (k : nat) : M unit := fun buf => if (s_len s <? k)%nat then None else Some (tt, buf).
Definition when (b : bool) (m : M unit) : M unit := if b then m else mret tt.

(** * Weakest preconditions *)

(** The computation ends in [Q], or panics where [P] allows it. *)
Definition wp (P : Prop) {A} (m : M A) (Q : A -> bytes -> Prop) (buf : bytes) : Prop :=
  match m buf with Some (a, buf') => Q a buf' | None => P end.
(** A slice lies within the buffer. *)
Definition s_ok (s : Slice) (buf : bytes) : Prop := (s_lo s <= s_hi s)%nat /\ (s_hi s <= length buf)%nat.

Section wp.
Context (P : Prop).
Implicit Types (buf : bytes) (s : Slice).

Lemma wp_ret {A} (a : A) Q buf : Q a buf -> wp P (mret a) Q buf.
Proof. done. Qed.
Lemma wp_bind {A B} (m : M B) (k : B -> M A) Q buf : wp P m (fun b => wp P (k b) Q) buf -> wp P (m ≫= k) Q buf.
Proof. unfold wp, mbind, M_bind. destruct (m buf) as [[b buf']|]; done. Qed.
Lemma wp_mono {A} (m : M A) Q Q' buf : wp P m Q buf -> (forall a buf', Q a buf' -> Q' a buf') -> wp P m Q' buf.
Proof. unfold wp. destruct (m buf) as [[a buf']|]; auto. Qed.

Lemma wp_sub_or s a b Q buf :
  ((a <= b)%nat -> (s_lo s + b <= length buf)%nat -> Q (mkSlice (s_lo s + a) (s_lo s + b)) buf) ->
  ((b < a)%nat \/ (length buf < s_lo s + b)%nat -> P) -> wp P (sub s a b) Q buf.
Proof. intros HQ HP. unfold wp, sub. destruct (a <=? b)%nat eqn:E1, (s_lo s + b <=? length buf)%nat eqn:E2; simpl_bool; cbn; auto. Qed.
Lemma wp_sub s a b Q buf :
  (a <= b)%nat -> (s_lo s + b <= length buf)%nat -> Q (mkSlice (s_lo s + a) (s_lo s + b)) buf -> wp P (sub s a b) Q buf.
Proof. intros H1 H2 HQ. apply wp_sub_or; [done|lia]. Qed.
Lemma wp_from s a Q buf :
  (a <= s_len s)%nat -> s_ok s buf -> Q (mkSlice (s_lo s + a) (s_hi s)) buf -> wp P (from s a) Q buf.
Proof.
  intros H1 [H2 H3] HQ. unfold s_len in H1. apply wp_sub; unfold s_len; [lia|lia|]. by replace (s_lo s + (s_hi s - s_lo s))%nat with (s_hi s) by lia.
Qed.
Lemma wp_buffer_len Q buf : Q (length buf) buf -> wp P buffer_len Q buf.
Proof. done. Qed.
Lemma wp_ask {A} s (f : bytes -> A) Q buf : Q (f (slice buf (s_lo s) (s_hi s))) buf -> wp P (ask s f) Q buf.
Proof. done. Qed.
Lemma wp_need_or s k Q buf : ((k <= s_len s)%nat -> Q tt buf) -> ((s_len s < k)%nat -> P) -> wp P (need s k) Q buf.
Proof. intros HQ HP. unfold wp, need. destruct (_ <? _)%nat eqn:E; simpl_bool; auto. Qed.
Lemma wp_need s k Q buf : (k <= s_len s)%nat -> Q tt buf -> wp P (need s k) Q buf.
Proof. intros H HQ. apply wp_need_or; [done|lia]. Qed.
Lemma wp_load s i Q buf : (i < s_len s)%nat -> Q (byte_at buf (s_lo s + i)) buf -> wp P (load s i) Q buf.
Proof. intros H HQ. unfold wp, load. by rewrite (proj2 (Nat.ltb_lt _ _)) by done. Qed.
Lemma wp_put s i v Q buf : (i + length v <= s_len s)%nat -> Q tt (patch buf (s_lo s + i) v) -> wp P (put s i v) Q buf.
Proof. intros H HQ. unfold wp, put. by rewrite (proj2 (Nat.leb_le _ _)) by done. Qed.
Lemma wp_copy_bytes s v Q buf : Q tt (patch buf (s_lo s) (take (s_len s) v)) -> wp P (copy_bytes s v) Q buf.
Proof. done. Qed.
Lemma wp_copy d s Q buf : Q tt (patch buf (s_lo d) (take (s_len d) (slice buf (s_lo s) (s_hi s)))) -> wp P (copy d s) Q buf.
Proof. done. Qed.
(** A header's writer, by its law. *)
Lemma wp_modify s f off new Q buf :
  s_ok s buf -> (off + length new <= s_len s)%nat ->
  f (slice buf (s_lo s) (s_hi s)) = patch (slice buf (s_lo s) (s_hi s)) off new ->
  Q tt (patch buf (s_lo s + off) new) -> wp P (modify s f) Q buf.
Proof.
  intros [H1 H2] H3 Hf HQ. unfold wp, modify. unfold s_len in H3. rewrite Hf, patch_in_slice by lia. done.
Qed.
Lemma wp_clear s Q buf : s_ok s buf -> Q tt (patch buf (s_lo s) (repeat 0 (s_len s))) -> wp P (clear s) Q buf.
Proof. intros [H1 H2] HQ. unfold wp, clear, modify. rewrite length_slice by lia. done. Qed.
End wp.

(** ** A window of the buffer being filled in *)

Lemma patch_window l s x off new :
  (off + length new <= length x)%nat -> (s + length x <= length l)%nat ->
  patch (patch l s x) (s + off) new = patch l s (patch x off new).
Proof.
  intros H1 H2. rewrite <- (patch_in_slice (patch l s x) s (s + length x) off new) by (rewrite ?length_patch; lia).
  rewrite slice_patch_same by lia. assert (Hl : length (patch x off new) = length x) by (apply length_patch; lia).
  unfold patch at 1. by rewrite take_patch, drop_patch_after by lia.
Qed.
Lemma patch_self l s e : (s <= e)%nat -> (e <= length l)%nat -> patch l s (slice l s e) = l.
Proof. intros H1 H2. unfold patch. rewrite length_slice by lia. replace (s + (e - s))%nat with e by lia. by apply take_slice_drop. Qed.

(** What was written lies between [lo] and [hi]. *)
Definition frame (lo hi : nat) (buf buf' : bytes) : Prop :=
  length buf' = length buf /\ bytes_ok buf' /\ take lo buf' = take lo buf /\ drop hi buf' = drop hi buf.
Lemma frame_refl lo hi buf : bytes_ok buf -> frame lo hi buf buf.
Proof. done. Qed.
Lemma frame_trans lo hi a b c : frame lo hi a b -> frame lo hi b c -> frame lo hi a c.
Proof. intros (H1 & H2 & H3 & H4) (H5 & H6 & H7 & H8). split_and!; congruence. Qed.
Lemma frame_patch lo hi buf off new :
  bytes_ok buf -> bytes_ok new -> (lo <= off)%nat -> (off + length new <= hi)%nat -> (off + length new <= length buf)%nat ->
  frame lo hi buf (patch buf off new).
Proof.
  intros. split_and!; [apply length_patch; lia|by apply bytes_ok_patch|apply take_patch; lia|apply drop_patch_after; lia].
Qed.
Lemma frame_slice lo hi buf buf' i j : frame lo hi buf buf' -> (j <= lo)%nat -> slice buf' i j = slice buf i j.
Proof. intros (_ & _ & Ht & _) Hj. by rewrite <- (slice_take_eq buf' lo), Ht, slice_take_eq by done. Qed.
Lemma frame_byte_at lo hi buf buf' i : frame lo hi buf buf' -> (i < lo)%nat -> byte_at buf' i = byte_at buf i.
Proof.
  intros Hf Hi. pose proof (frame_slice _ _ _ _ i (S i) Hf Hi) as E.
  rewrite <- (Nat.add_0_r i), <- !(byte_at_slice _ i (S i) 0) by lia. by rewrite E.
Qed.
Lemma frame_le lo hi lo' hi' buf buf' : frame lo hi buf buf' -> (lo' <= lo)%nat -> (hi <= hi')%nat -> frame lo' hi' buf buf'.
Proof.
  intros Hf Hl Hh. pose proof (frame_slice _ _ _ _ 0 lo' Hf Hl) as E. rewrite !slice_0 in E.
  destruct Hf as (H1 & H2 & H3 & H4). split_and!; [done|done|done|].
  replace hi' with (hi + (hi' - hi))%nat by lia. by rewrite <- !drop_drop, H4.
Qed.

(** * Computations that write within bounds *)

Lemma wp_and P {A} (m : M A) (Q1 Q2 : A -> bytes -> Prop) buf :
  wp P m Q1 buf -> wp P m Q2 buf -> wp P m (fun a b => Q1 a b /\ Q2 a b) buf.
Proof. unfold wp. destruct (m buf) as [[a b]|]; auto. Qed.


Section keeps.
Context (P : Prop) (lo hi n : nat).

(** Whatever it reads, the computation writes bytes between [lo] and [hi] only. *)
Definition keeps {A} (m : M A) : Prop :=
  forall buf, bytes_ok buf -> length buf = n -> wp P m (fun _ buf' => frame lo hi buf buf') buf.

Lemma keeps_ret {A} (a : A) : keeps (mret a).
Proof. intros buf Hb _. by apply wp_ret. Qed.
Lemma keeps_bind {A B} (m : M A) (k : A -> M B) : keeps m -> (forall a, keeps (k a)) -> keeps (m ≫= k).
Proof.
  intros Hm Hk buf Hb Hn. apply wp_bind. eapply wp_mono; [by apply Hm|]. cbv beta. intros a buf' Hf.
  destruct (Hf) as (Hl & Hb' & _). eapply wp_mono; [apply Hk; [done|congruence]|]. cbv beta. intros b buf'' Hf'. by eapply frame_trans.
Qed.
Lemma keeps_ask {A} s (f : bytes -> A) : keeps (ask s f).
Proof. intros buf Hb _. by apply wp_ask. Qed.
Lemma keeps_need s k : (k <= s_len s)%nat -> keeps (need s k).
Proof. intros H buf Hb _. by apply wp_need. Qed.
Lemma keeps_bind_ret {A B} (a : A) (k : A -> M B) : keeps (k a) -> keeps (mret a ≫= k).
Proof. intros Hk buf Hb Hn. apply wp_bind, wp_ret. by apply Hk. Qed.
Lemma keeps_bind_sub {A} s a b (k : Slice -> M A) :
  (a <= b)%nat -> (s_lo s + b <= n)%nat -> keeps (k (mkSlice (s_lo s + a) (s_lo s + b))) -> keeps (sub s a b ≫= k).
Proof. intros H1 H2 Hk buf Hb Hn. apply wp_bind, wp_sub; [done|lia|]. by apply Hk. Qed.
Lemma keeps_bind_from {A} s a (k : Slice -> M A) :
  (s_lo s + a <= s_hi s)%nat -> (s_hi s <= n)%nat -> keeps (k (mkSlice (s_lo s + a) (s_hi s))) -> keeps (from s a ≫= k).
Proof.
  intros H1 H2 Hk buf Hb Hn. apply wp_bind, wp_from; [unfold s_len; lia|unfold s_ok; lia|]. by apply Hk.
Qed.
Lemma keeps_load s i : (i < s_len s)%nat -> keeps (load s i).
Proof. intros H buf Hb _. by apply wp_load. Qed.
Lemma keeps_put s i v :
  bytes_ok v -> (i + length v <= s_len s)%nat -> (lo <= s_lo s + i)%nat -> (s_lo s + i + length v <= hi)%nat -> (hi <= n)%nat ->
  keeps (put s i v).
Proof. intros Hv H1 H2 H3 H4 buf Hb Hn. apply wp_put; [done|]. apply frame_patch; lia || done. Qed.
Lemma keeps_clear s : (s_lo s <= s_hi s)%nat -> (lo <= s_lo s)%nat -> (s_hi s <= hi)%nat -> (hi <= n)%nat -> keeps (clear s).
Proof.
  intros H1 H2 H3 H4 buf Hb Hn. apply wp_clear; [unfold s_ok; lia|]. apply frame_patch; rewrite ?repeat_length; unfold s_len; try lia; [done|].
  apply bytes_ok_zeros.
Qed.
Lemma keeps_copy_bytes s v :
  bytes_ok v -> (lo <= s_lo s)%nat -> (s_lo s + Nat.min (s_len s) (length v) <= hi)%nat -> (hi <= n)%nat -> keeps (copy_bytes s v).
Proof.
  intros Hv H2 H3 H4 buf Hb Hn. apply wp_copy_bytes. apply frame_patch; rewrite ?length_take; auto with bytes; lia.
Qed.
(** A header's writer, by its law. *)
Lemma keeps_modify s f k off new :
  (forall b, (k <= length b)%nat -> f b = patch b off new) -> (s_lo s + k <= s_hi s)%nat -> (s_hi s <= n)%nat ->
  bytes_ok new -> (off + length new <= k)%nat -> (lo <= s_lo s + off)%nat -> (s_lo s + off + length new <= hi)%nat -> (hi <= n)%nat ->
  keeps (modify s f).
Proof.
  intros Hf Hk Hs Hv H1 H2 H3 H4 buf Hb Hn. eapply (wp_modify _ s f off new).
  - unfold s_ok. lia.
  - unfold s_len. lia.
  - apply Hf. rewrite length_slice by lia. lia.
  - apply frame_patch; lia || done.
Qed.
(** A writer of a word that may depend on the bytes it finds. *)
Lemma keeps_modify_word s f k off :
  (forall b, (k <= length b)%nat -> exists v, f b = patch b off (put16 v)) -> (s_lo s + k <= s_hi s)%nat -> (s_hi s <= n)%nat ->
  (off + 2 <= k)%nat -> (lo <= s_lo s + off)%nat -> (s_lo s + off + 2 <= hi)%nat -> (hi <= n)%nat -> keeps (modify s f).
Proof.
  intros Hf Hk Hs H1 H2 H3 H4 buf Hb Hn. destruct (Hf (slice buf (s_lo s) (s_hi s))) as [v Hv]; [rewrite length_slice; lia|].
  eapply (wp_modify _ s f off (put16 v)); rewrite ?length_put16; [unfold s_ok; lia|unfold s_len; lia|exact Hv|].
  apply frame_patch; rewrite ?length_put16; auto with bytes; lia.
Qed.
(** What the next step needs of the bytes read. *)
Lemma keeps_bind_ask {A B} s (f : bytes -> A) (k : A -> M B) :
  (s_lo s <= s_hi s)%nat -> (s_hi s <= n)%nat ->
  (forall b, bytes_ok b -> length b = s_len s -> keeps (k (f b))) -> keeps (ask s f ≫= k).
Proof.
  intros H1 H2 Hk buf Hb Hn. apply wp_bind, wp_ask. apply Hk; [auto with bytes|rewrite length_slice by lia; done|done|done].
Qed.
End keeps.

(** * A concrete instance *)

(** gvisor's option iterator: the end of the list, padding, or an option with
    its length. *)
Fixpoint option_types (fuel : nat) (o : bytes) : option (list Z) :=
  match fuel, o with
  | S fuel, t :: rest =>
    if t =? 0 then Some []
    else if t =? 1 then cons 1 <$> option_types fuel rest
    else
      match rest with
      | [] => None
      | n :: _ =>
        if (n <? 2) || (Z.of_nat (length o) <? n) then None
        else cons t <$> option_types fuel (drop (Z.to_nat n) o)
      end
  | _, _ => Some []
  end.
#[export, refine] Instance header_sample : GvisorHeader := {
  Checksum b i := folded (i + words_sum b);
  IPVersion b := if is_nil b then -1 else Z.shiftr (byte_at b 0) 4;
  v4_HeaderLength b := byte_at b 0 mod 16 * 4;
  v4_TotalLength b := be16 (slice b 2 4);
  v4_Protocol b := byte_at b 9;
  v4_Flags b := byte_at b 6 / 2 ^ 5;
  v4_TOS b := (byte_at b 1, 0);
  v4_TTL b := byte_at b 8;
  v4_ID b := be16 (slice b 4 6);
  v4_OptionTypes b := option_types (length b) b;
  v4_SetHeaderLength b n := patch b 0 [4 * 16 + n / 4];
  v4_SetTOS b t := patch b 1 [t.1];
  v4_SetTotalLength b n := patch b 2 (put16 n);
  v4_SetID b n := patch b 4 (put16 n);
  v4_SetFlagsFragmentOffset b f o := patch b 6 (put16 (Z.lor (u16 (Z.shiftl f 13)) (o / 8)));
  v4_SetTTL b n := patch b 8 [n];
  v4_SetChecksum b n := patch b 10 (put16 n);
  v4_Encode b f := patch b 0 ([69; f4_TOS f] ++ put16 (f4_TotalLength f) ++ put16 (f4_ID f) ++ [0; 0; f4_TTL f; f4_Protocol f; 0; 0]
                              ++ f4_SrcAddr f ++ f4_DstAddr f);
  v6_PayloadLength b := be16 (slice b 4 6);
  v6_NextHeader b := byte_at b 6;
  v6_HopLimit b := byte_at b 7;
  v6_TOS b := (u8 (be16 (slice b 0 2) / 2 ^ 4), be32 (slice b 0 4) mod 2 ^ 20);
  v6_SetTOS b t := patch b 0 (put32 (6 * 2 ^ 28 + t.1 * 2 ^ 20 + t.2 mod 2 ^ 20));
  v6_SetPayloadLength b n := patch b 4 (put16 n);
  v6_SetNextHeader b n := patch b 6 [n];
  v6_SetHopLimit b n := patch b 7 [n];
  frag6_More b := Z.odd (byte_at b 3);
  frag6_ID b := be32 (slice b 4 8);
  icmp_Type b := byte_at b 0;
  icmp_Code b := byte_at b 1;
  icmp_SetType b n := patch b 0 [n];
  icmp_SetCode b n := patch b 1 [n];
  icmp_SetChecksum b n := patch b 2 (put16 n);
  icmp4_MTU b := be16 (slice b 6 8);
  icmp4_SetMTU b n := patch b 6 (put16 n);
  icmp6_MTU b := be32 (slice b 4 8);
  icmp6_SetMTU b n := patch b 4 (put32 n);
  udp_SetChecksum b n := patch b 6 (put16 n)
}.
Proof. all: done. Defined.
