(* ===== verification/Siit46.v ===== *)
(** [internal/clat/siit46.go]: the in-place translation of an IPv4 packet to
    IPv6, over the buffer of [SiitBuf]. The translator never looks at the
    options' contents: gvisor's iterator gives their types. *)

From S2P Require Import Prelude Clat SiitBuf.

(** * Constants of gvisor's [header] package and of [constants.go] *)

Definition IPv4FlagReserved : Z := 4.
Definition IPv4FlagMoreFragments : Z := 1.
Definition IPv4OptionLooseSourceRouteType : Z := 131.
Definition IPv4OptionStrictSourceRouteType : Z := 137.
Definition IPsecAuthenticationHeaderProtocolNumber : Z := 51.
Definition IPv6MobilityExtHdrIdentifier : Z := 135.
Definition HIPProtocolNumber : Z := 139.
Definition Shim6ProtocolNumber : Z := 140.
Definition IPv6HopByHopOptionsExtHdrIdentifier : Z := 0.
Definition IPv6RoutingExtHdrIdentifier : Z := 43.
Definition IPv6FragmentExtHdrIdentifier : Z := 44.
Definition IPv6DestinationOptionsExtHdrIdentifier : Z := 60.
Definition IGMPProtocolNumber : Z := 2.
Definition ICMPv4ProtocolNumber : Z := 1.
Definition ICMPv4MinimumSize : nat := 8.
Definition IPv4Version : Z := 4.
Definition IPv4MinimumMTU : Z := 68.
Definition IPv6MinimumMTU : Z := 1280.
Definition IPv6ExtensionHeaderNextHeaderOffset : nat := 0.
Definition IPv6FragmentExtensionHeaderFlagOffset : nat := 3.
Definition PlateauMTUs : list Z := [65535; 32000; 17914; 8166; 4352; 2002; 1492; 1006; 508; 296; 68; 0].

Definition ICMPv4EchoReply : Z := 0.
Definition ICMPv4DstUnreachable : Z := 3.
Definition ICMPv4Echo : Z := 8.
Definition ICMPv4TimeExceeded : Z := 11.
Definition ICMPv4ParamProblem : Z := 12.
Definition ICMPv4NetUnreachable : Z := 0.
Definition ICMPv4HostUnreachable : Z := 1.
Definition ICMPv4ProtoUnreachable : Z := 2.
Definition ICMPv4PortUnreachable : Z := 3.
Definition ICMPv4FragmentationNeeded : Z := 4.
Definition ICMPv4SourceRouteFailed : Z := 5.
Definition ICMPv4DestinationNetworkUnknown : Z := 6.
Definition ICMPv4DestinationHostUnknown : Z := 7.
Definition ICMPv4SourceHostIsolated : Z := 8.
Definition ICMPv4NetProhibited : Z := 9.
Definition ICMPv4HostProhibited : Z := 10.
Definition ICMPv4NetUnreachableForTos : Z := 11.
Definition ICMPv4HostUnreachableForTos : Z := 12.
Definition ICMPv4AdminProhibited : Z := 13.
Definition ICMPv4PrecedenceCutInEffect : Z := 15.
Definition ICMPv4TTLExceeded : Z := 0.
Definition ICMPv4ReassemblyTimeout : Z := 1.
Definition ICMPv4UnusedCode : Z := 0.

Definition ICMPv6DstUnreachable : Z := 1.
Definition ICMPv6PacketTooBig : Z := 2.
Definition ICMPv6TimeExceeded : Z := 3.
Definition ICMPv6ParamProblem : Z := 4.
Definition ICMPv6EchoRequest : Z := 128.
Definition ICMPv6EchoReply : Z := 129.
Definition ICMPv6NetworkUnreachable : Z := 0.
Definition ICMPv6Prohibited : Z := 1.
Definition ICMPv6BeyondScope : Z := 2.
Definition ICMPv6AddressUnreachable : Z := 3.
Definition ICMPv6PortUnreachable : Z := 4.
Definition ICMPv6HopLimitExceeded : Z := 0.
Definition ICMPv6ReassemblyTimeout : Z := 1.
Definition ICMPv6ErroneousHeader : Z := 0.
Definition ICMPv6UnknownHeader : Z := 1.
Definition ICMPv6UnusedCode : Z := 0.

(** [switch x { case l...: }] *)
Definition one_of (x : Z) (l : list Z) : bool := existsb (Z.eqb x) l.

Definition isTransportProtocolForbiddenForIPv4 (protocol : Z) : bool :=
  one_of protocol [IPv6HopByHopOptionsExtHdrIdentifier; IGMPProtocolNumber; IPv6RoutingExtHdrIdentifier;
    IPv6FragmentExtHdrIdentifier; IPsecAuthenticationHeaderProtocolNumber; ICMPv6ProtocolNumber;
    IPv6DestinationOptionsExtHdrIdentifier; IPv6MobilityExtHdrIdentifier; HIPProtocolNumber; Shim6ProtocolNumber].

Inductive SIIT46Result : Type := SIIT46Untranslated | SIIT46Translated | SIIT46Dropped.
Record siit46IPv4Metadata := mkMeta {
  headerLength : Z; totalLength : Z; payloadLength : Z; protocol : Z; flags : Z; fragmentOffset : Z; isFragmented : bool
}.

(** * What is translated *)

Definition isICMPv4PacketHeaderTranslatable (icmpv4Type icmpv4Code : Z) (restOfHeader : bytes) : bool :=
  let r := byte_at restOfHeader in
  if one_of icmpv4Type [ICMPv4Echo; ICMPv4EchoReply] then icmpv4Code =? ICMPv4UnusedCode
  else if icmpv4Type =? ICMPv4DstUnreachable then
    (icmpv4Code =? ICMPv4FragmentationNeeded) && (Z.lor (r 0%nat) (r 1%nat) =? 0)
    || one_of icmpv4Code [ICMPv4NetUnreachable; ICMPv4HostUnreachable; ICMPv4SourceRouteFailed; ICMPv4DestinationNetworkUnknown;
         ICMPv4DestinationHostUnknown; ICMPv4SourceHostIsolated; ICMPv4NetUnreachableForTos; ICMPv4HostUnreachableForTos;
         ICMPv4NetProhibited; ICMPv4HostProhibited; ICMPv4AdminProhibited; ICMPv4PrecedenceCutInEffect; ICMPv4ProtoUnreachable;
         ICMPv4PortUnreachable]
       && (Z.lor (Z.lor (Z.lor (r 0%nat) (r 1%nat)) (r 2%nat)) (r 3%nat) =? 0)
  else if icmpv4Type =? ICMPv4TimeExceeded then
    one_of icmpv4Code [ICMPv4TTLExceeded; ICMPv4ReassemblyTimeout]
    && (Z.lor (Z.lor (Z.lor (r 0%nat) (r 1%nat)) (r 2%nat)) (r 3%nat) =? 0)
  else if icmpv4Type =? ICMPv4ParamProblem then
    one_of icmpv4Code [0; 2] && (Z.lor (Z.lor (r 1%nat) (r 2%nat)) (r 3%nat) =? 0)
    && ((r 0%nat <=? 3) || (8 <=? r 0%nat) && (r 0%nat <=? 9) || (12 <=? r 0%nat) && (r 0%nat <=? 15)
        || (16 <=? r 0%nat) && (r 0%nat <=? 19))
  else false.

(** The arithmetic of the writes. *)
Ltac win_const := unfold IPv4ProtocolOffset, IPv6DestinationAddressOffset, IPv4DestinationAddressOffset, IPv6FixedHeaderSize, IPv6FragmentHeaderSize, IPv4MinimumSize, IPv6SourceAddressOffset, IPv6DestinationAddressOffset,
  IPv6AddressSize, SIITPrefixSize, IPv4SourceAddressOffset, IPv4DestinationAddressOffset, IPv4AddressSize, MessageTransportHeaderSize,
  IPv6ExtensionHeaderNextHeaderOffset, IPv6FragmentExtensionHeaderFlagOffset in *.
Ltac win_lia := win_const; cbn [length put16 put32 s_lo s_hi] in *; lia.
Ltac win_len := unfold s_ok, s_len; cbn [s_lo s_hi];
  repeat first [rewrite length_patch by win_lia | rewrite length_slice by (rewrite ?length_patch by win_lia; win_lia)]; win_lia.
Ltac explicit4 l := let E := fresh in destruct l as [|? [|? [|? [|? [|]]]]] eqn:E; try discriminate; clear E.

Ltac win_fold HX :=
  lazymatch goal with |- wp _ _ _ (patch ?b ?s ?Y) =>
    let X' := fresh "X" in let E := fresh "EX" in
    remember Y as X' eqn:E;
    lazymatch type of HX with length _ = ?k =>
      let H' := fresh HX in assert (H' : length X' = k) by (rewrite E, length_patch; win_lia); clear HX; rename H' into HX
    end
  end.
Ltac win_modify law HX :=
  apply wp_bind; eapply wp_modify; [win_len| |apply law; win_len|]; [win_len|]; cbn [s_lo];
  rewrite patch_window by win_len; win_fold HX.

Ltac win_put HX :=
  unfold store; apply wp_bind, wp_put; [win_len|]; cbn [s_lo]; rewrite <- ?Nat.add_assoc; rewrite patch_window by win_len; win_fold HX.
(** The writes on a window of known bytes, computed. *)
Ltac win_explicit Hlen :=
  repeat match goal with E : ?X = patch _ _ _ |- _ => subst X end;
  lazymatch type of Hlen with length ?X = ?k =>
    repeat (destruct X as [|? X]; [discriminate Hlen|]); destruct X; [|discriminate Hlen] end.
Ltac win_collapse Hlen :=
  win_explicit Hlen;
  repeat match goal with |- context [put32 ?v] => explicit4 (put32 v) end;
  repeat match goal with |- context [slice ?h ?i ?j] => explicit4 (slice h i j) end;
  cbn [patch app take drop length Nat.add put16 byte_at nth SIITPrefix repeat]; reflexivity.

Section siit46.
Context `{GvisorHeader}.

Definition siitPrefixChecksum : Z := Checksum (take SIITPrefixSize SIITPrefix) 0.
Definition siit46TransportChecksumDelta : Z := Combine siitPrefixChecksum siitPrefixChecksum.

Definition isICMPv4PacketTranslatable (icmpv4Packet : bytes) : bool :=
  (ICMPv4MinimumSize <=? length icmpv4Packet)%nat && (Checksum icmpv4Packet 0 =? 0xffff)
  && isICMPv4PacketHeaderTranslatable (icmp_Type icmpv4Packet) (icmp_Code icmpv4Packet) (drop 4 icmpv4Packet).
Definition containsAnyForbiddenIPv4Options (options : bytes) : bool :=
  match v4_OptionTypes options with
  | None => true
  | Some types => existsb (fun t => one_of t [IPv4OptionLooseSourceRouteType; IPv4OptionStrictSourceRouteType]) types
  end.
Definition parseSIIT46IPv4Packet (p : bytes) : option siit46IPv4Metadata :=
  if negb (IPVersion p =? IPv4Version) then None
  else if (length p <? IPv4MinimumSize)%nat then None
  else
    let hl := v4_HeaderLength p in
    if (hl <? Z.of_nat IPv4MinimumSize) || (Z.of_nat (length p) <? hl) then None
    else
      let tl := v4_TotalLength p in
      if (tl <? hl) || (Z.of_nat (length p) <? tl) then None
      else
        let proto := v4_Protocol p in
        if isTransportProtocolForbiddenForIPv4 proto then None
        else
          let fl := v4_Flags p in
          if negb (Z.land fl IPv4FlagReserved =? 0) then None
          else
            let fo := ipv4_FragmentOffset p in
            let pl := u16 (tl - hl) in
            let more := negb (Z.land fl IPv4FlagMoreFragments =? 0) in
            if more && negb (pl mod 8 =? 0) then None
            else
              let fragd := more || negb (fo =? 0) in
              let meta := mkMeta hl tl pl proto fl fo fragd in
              if negb (Checksum (take (Z.to_nat hl) p) 0 =? 0xffff) then None
              else if (hl =? Z.of_nat IPv4MinimumSize) && negb (proto =? ICMPv4ProtocolNumber) then Some meta
              else if negb (hl =? Z.of_nat IPv4MinimumSize)
                      && containsAnyForbiddenIPv4Options (slice p IPv4MinimumSize (Z.to_nat hl)) then None
              else if negb (proto =? ICMPv4ProtocolNumber) then Some meta
              else if negb fragd && isICMPv4PacketTranslatable (slice p (Z.to_nat hl) (Z.to_nat tl)) then Some meta
              else None.

Definition isIPv4PacketTranslatable (p : bytes) : bool := match parseSIIT46IPv4Packet p with Some _ => true | None => false end.

(** * Room for the new header *)

(** The header moved down, the room for the packet and the new headroom;
    [None] stands for the nil slices. *)
Definition makeRoomForIPv6Header (reserved : nat) (meta : siit46IPv4Metadata) : M (option (Slice * Slice * nat)) :=
  let hl := Z.to_nat (headerLength meta) in
  n ← buffer_len;
  if ((n <? reserved) || (n - reserved <? MessageTransportHeaderSize + hl))%nat then mret None
  else
    let room := (IPv6FixedHeaderSize + if isFragmented meta then IPv6FragmentHeaderSize else 0)%nat in
    if ((reserved <? room) || (n <? reserved - room + MessageTransportHeaderSize + hl) || (255 <? reserved - room + hl))%nat
    then mret None
    else
      let new := (reserved - room)%nat in
      destination ← sub (mkSlice 0 n) new (new + MessageTransportHeaderSize + hl);
      ipv4Header ← from destination MessageTransportHeaderSize;
      let start := (new + hl + MessageTransportHeaderSize)%nat in
      if (n <? start)%nat then mret None
      else
        ipv6Packet ← sub (mkSlice 0 n) start n;
        copy destination (mkSlice reserved n);;
        mret (Some (ipv4Header, ipv6Packet, (new + hl)%nat)).

(** * The header *)

(** The prefix and then an IPv4 address, at an offset of an IPv6 header. *)
Definition copy_address (ipv6Packet : Slice) (off : nat) (v4 : M bytes) : M unit :=
  dst ← from ipv6Packet off;
  copy_bytes dst (take SIITPrefixSize SIITPrefix);;
  dst ← from ipv6Packet (off + SIITPrefixSize);
  v4 ← v4;
  copy_bytes dst v4.
Definition siit46TranslateHeader (ipv4Header ipv6Packet : Slice) (meta : siit46IPv4Metadata) : M (Z * Z) :=
  tos ← ask ipv4Header v4_TOS;
  modify ipv6Packet (fun b => v6_SetTOS b tos);;
  ttl ← ask ipv4Header v4_TTL;
  modify ipv6Packet (fun b => v6_SetHopLimit b ttl);;
  let transportProtocol := if protocol meta =? ICMPv4ProtocolNumber then ICMPv6ProtocolNumber else protocol meta in
  fo ← (if isFragmented meta then
    let fo := fragmentOffset meta in
    frag ← sub ipv6Packet IPv6FixedHeaderSize (IPv6FixedHeaderSize + IPv6FragmentHeaderSize);
    clear frag;;
    id ← ask ipv4Header v4_ID;
    put frag 4 (put32 id);;
    put frag 2 (put16 fo);;
    store frag IPv6ExtensionHeaderNextHeaderOffset transportProtocol;;
    when (negb (Z.land (flags meta) IPv4FlagMoreFragments =? 0))
      (f ← load frag IPv6FragmentExtensionHeaderFlagOffset;
       store frag IPv6FragmentExtensionHeaderFlagOffset (Z.lor f 1));;
    modify ipv6Packet (fun b => v6_SetNextHeader b IPv6FragmentHeader);;
    modify ipv6Packet (fun b => v6_SetPayloadLength b (u16 (payloadLength meta + Z.of_nat IPv6FragmentHeaderSize)));;
    mret fo
  else
    modify ipv6Packet (fun b => v6_SetNextHeader b transportProtocol);;
    modify ipv6Packet (fun b => v6_SetPayloadLength b (payloadLength meta));;
    mret 0);
  copy_address ipv6Packet IPv6SourceAddressOffset
    (src ← sub ipv4Header IPv4SourceAddressOffset (IPv4SourceAddressOffset + IPv4AddressSize); ask src (fun b => b));;
  copy_address ipv6Packet IPv6DestinationAddressOffset
    (src ← sub ipv4Header IPv4DestinationAddressOffset (IPv4DestinationAddressOffset + IPv4AddressSize); ask src (fun b => b));;
  mret (fo, transportProtocol).

(** * ICMP *)

(** The MTU reported for "fragmentation needed". *)
Definition icmp_mtu (icmpv4Packet : bytes) : Z :=
  let mtu := icmp4_MTU icmpv4Packet in
  if mtu <? IPv4MinimumMTU then
    let ip := drop 8 icmpv4Packet in
    if (length ip <? IPv4MinimumSize)%nat then IPv4MinimumMTU
    else
      let total := v4_TotalLength ip in
      let fix plateau l := match l with
        | [] => mtu
        | p :: l' => if p <? IPv4MinimumMTU then mtu else if p <? total then p else plateau l'
        end in
      Z.max IPv4MinimumMTU (plateau PlateauMTUs)
  else mtu.
(** The pointer of a parameter problem, where it translates. *)
Definition icmp_pointer (p : Z) : option Z :=
  if p =? 0 then Some 0 else if p =? 1 then Some 1 else if one_of p [2; 3] then Some 4 else if p =? 8 then Some 7
  else if p =? 9 then Some 6 else if one_of p [12; 13; 14; 15] then Some 8 else if one_of p [16; 17; 18; 19] then Some 24
  else None.
Definition set_type (s : Slice) (t : Z) : M unit := need s 1;; modify s (fun b => icmp_SetType b t).
Definition set_code (s : Slice) (c : Z) : M unit := need s 2;; modify s (fun b => icmp_SetCode b c).

(** [siit46TranslateICMPTransport] before the quote; whether a quote follows. *)
Definition siit46TranslateICMPHeader (icmp : Slice) : M bool :=
  type ← ask icmp icmp_Type;
  if type =? ICMPv4Echo then set_type icmp ICMPv6EchoRequest;; mret false
  else if type =? ICMPv4EchoReply then set_type icmp ICMPv6EchoReply;; mret false
  else if type =? ICMPv4DstUnreachable then
    code ← ask icmp icmp_Code;
    (if one_of code [ICMPv4NetUnreachable; ICMPv4HostUnreachable; ICMPv4SourceRouteFailed; ICMPv4DestinationNetworkUnknown;
          ICMPv4DestinationHostUnknown; ICMPv4SourceHostIsolated; ICMPv4NetUnreachableForTos; ICMPv4HostUnreachableForTos]
     then set_type icmp ICMPv6DstUnreachable;; set_code icmp ICMPv6NetworkUnreachable
     else if one_of code [ICMPv4NetProhibited; ICMPv4HostProhibited; ICMPv4AdminProhibited; ICMPv4PrecedenceCutInEffect]
     then set_type icmp ICMPv6DstUnreachable;; set_code icmp ICMPv6Prohibited
     else if code =? ICMPv4ProtoUnreachable
     then set_type icmp ICMPv6ParamProblem;; set_code icmp ICMPv6UnknownHeader;; put icmp 4 (put32 (Z.of_nat IPv6NextHeaderOffset))
     else if code =? ICMPv4PortUnreachable
     then set_type icmp ICMPv6DstUnreachable;; set_code icmp ICMPv6PortUnreachable
     else if code =? ICMPv4FragmentationNeeded
     then
       set_type icmp ICMPv6PacketTooBig;; set_code icmp ICMPv6UnusedCode;;
       mtu ← ask icmp icmp_mtu;
       modify icmp (fun b => icmp6_SetMTU b
         (Z.max IPv6MinimumMTU (Z.min (Z.min (mtu + 20) IPv6OutboundMTU) (IPv4OutboundMTU + 20))))
     else mret tt);;
    mret true
  else if type =? ICMPv4TimeExceeded then set_type icmp ICMPv6TimeExceeded;; mret true
  else if type =? ICMPv4ParamProblem then
    set_type icmp ICMPv6ParamProblem;; set_code icmp ICMPv6ErroneousHeader;;
    p ← load icmp 4;
    (match icmp_pointer p with Some v => store icmp 7 v | None => mret tt end);;
    store icmp 4 0;;
    mret true
  else mret false.

(** The checksum of an ICMPv6 message in a packet, its field cleared before. *)
Definition pseudo6 (addrs transport : bytes) (proto : Z) : Z :=
  not16 (Combine (Combine (Combine (Checksum addrs 0) (u16 (Z.of_nat (length transport)))) proto) (Checksum transport 0)).
Definition set_icmp6_checksum (addrs icmp : Slice) : M unit :=
  need icmp 4;;
  modify icmp (fun b => icmp_SetChecksum b 0);;
  addrs ← ask addrs (fun b => b);
  modify icmp (fun b => icmp_SetChecksum b (pseudo6 addrs b ICMPv6ProtocolNumber)).

Definition quoteExpansion : nat := IPv6FixedHeaderSize - IPv4MinimumSize.
(** The quotes that are expanded: what the code reads of the quoted packet. *)
Record Quote := mkQuote { q_protocol : Z; q_TOS : Z * Z; q_TTL : Z; q_payload : Z; q_src : bytes; q_dst : bytes }.
Definition read_quote (quote : bytes) : option Quote :=
  if (length quote <? IPv4MinimumSize)%nat then None
  else if negb (IPVersion quote =? IPv4Version) then None
  else if negb (v4_HeaderLength quote =? Z.of_nat IPv4MinimumSize) then None
  else if negb (Z.land (v4_Flags quote) IPv4FlagMoreFragments =? 0) || negb (ipv4_FragmentOffset quote =? 0) then None
  else
    let proto := v4_Protocol quote in
    let q := mkQuote proto (v4_TOS quote) (v4_TTL quote) (v4_PayloadLength quote)
      (slice quote IPv4SourceAddressOffset (IPv4SourceAddressOffset + IPv4AddressSize))
      (slice quote IPv4DestinationAddressOffset (IPv4DestinationAddressOffset + IPv4AddressSize)) in
    if one_of proto [TCPProtocolNumber; UDPProtocolNumber] then
      if (length quote <? IPv4MinimumSize + 8)%nat then None else Some q
    else if proto =? ICMPv4ProtocolNumber then
      if (length quote <? IPv4MinimumSize + ICMPv4MinimumSize)%nat then None
      else if one_of (icmp_Type (drop IPv4MinimumSize quote)) [ICMPv4Echo; ICMPv4EchoReply] then Some q
      else None
    else None.

(** The quoted packet's new header, and its ICMP message if it has one: [false]
    when that is no echo. *)
Definition quote_header (quote : Slice) (q : Quote) : M unit :=
  head ← sub quote 0 IPv6FixedHeaderSize;
  clear head;;
  modify quote (fun b => v6_SetTOS b (q_TOS q));;
  modify quote (fun b => v6_SetHopLimit b (q_TTL q));;
  modify quote (fun b => v6_SetPayloadLength b (q_payload q));;
  modify quote (fun b => v6_SetNextHeader b (if q_protocol q =? ICMPv4ProtocolNumber then ICMPv6ProtocolNumber else q_protocol q));;
  copy_address quote IPv6SourceAddressOffset (mret (q_src q));;
  copy_address quote IPv6DestinationAddressOffset (mret (q_dst q)).
Definition quote_icmp (quote : Slice) (q : Quote) : M bool :=
  if q_protocol q =? ICMPv4ProtocolNumber then
    quotedICMP ← from quote IPv6FixedHeaderSize;
    need quotedICMP 1;;
    type ← ask quotedICMP icmp_Type;
    if one_of type [ICMPv4Echo; ICMPv4EchoReply] then
      (if type =? ICMPv4Echo then set_type quotedICMP ICMPv6EchoRequest else set_type quotedICMP ICMPv6EchoReply);;
      addrs ← sub quote IPv6SourceAddressOffset (IPv6SourceAddressOffset + IPv6AddressSize * 2);
      set_icmp6_checksum addrs quotedICMP;;
      mret true
    else mret false
  else mret true.

Definition siit46TranslateICMPErrorQuote (reserved : nat) (ipv6Packet icmpv6Packet : Slice) : M (option Slice * nat) :=
  quote ← from icmpv6Packet 8;
  shape ← ask quote read_quote;
  match shape with
  | None => mret (None, reserved)
  | Some q =>
    if (reserved <? quoteExpansion)%nat then mret (None, reserved)
    else
      n ← buffer_len;
      let buffer := mkSlice 0 n in
      let oldPacketStart := (reserved + MessageTransportHeaderSize)%nat in
      pl ← ask ipv6Packet v6_PayloadLength;
      let oldPacketLength := (IPv6FixedHeaderSize + Z.to_nat pl)%nat in
      let newPacketStart := (oldPacketStart - quoteExpansion)%nat in
      dst ← sub buffer newPacketStart (newPacketStart + oldPacketLength);
      src ← sub buffer oldPacketStart (oldPacketStart + oldPacketLength);
      copy dst src;;
      let reserved := (reserved - quoteExpansion)%nat in
      let newPacketLength := (oldPacketLength + quoteExpansion)%nat in
      ipv6Packet ← sub buffer newPacketStart (newPacketStart + newPacketLength);
      pl ← ask ipv6Packet v6_PayloadLength;
      icmpv6Packet ← sub ipv6Packet IPv6FixedHeaderSize (IPv6FixedHeaderSize + Z.to_nat pl + quoteExpansion);
      quote ← from icmpv6Packet 8;
      let oldQuoteLength := (s_len quote - quoteExpansion)%nat in
      dst ← sub quote IPv6FixedHeaderSize (IPv6FixedHeaderSize + oldQuoteLength - IPv4MinimumSize);
      src ← sub quote IPv4MinimumSize oldQuoteLength;
      copy dst src;;
      quote_header quote q;;
      inner ← quote_icmp quote q;
      if negb inner then mret (None, reserved)
      else
        modify ipv6Packet (fun b => v6_SetPayloadLength b (u16 (v6_PayloadLength b + Z.of_nat quoteExpansion)));;
        mret (Some ipv6Packet, reserved)
  end.
Definition siit46TranslateICMPTransport (reserved : nat) (ipv6Packet : Slice) : M (Slice * nat) :=
  icmp ← from ipv6Packet IPv6FixedHeaderSize;
  translateQuote ← siit46TranslateICMPHeader icmp;
  if (translateQuote : bool) then
    r ← siit46TranslateICMPErrorQuote reserved ipv6Packet icmp;
    match r with
    | (Some packet, reserved) => mret (packet, reserved)
    | (None, reserved) => mret (ipv6Packet, reserved)
    end
  else mret (ipv6Packet, reserved).

(** * The transport checksum *)

Definition siit46PartialUpdateTransportChecksum (transport : Slice) (checksumOffset : nat) : M unit :=
  field ← sub transport checksumOffset (checksumOffset + 2);
  old ← ask field be16;
  put transport checksumOffset (put16 (not16 (Combine (not16 old) siit46TransportChecksumDelta))).
(** [false] drops the packet. *)
Definition siit46UpdateTransportChecksum (ipv6Packet : Slice) (meta : siit46IPv4Metadata) (fo proto : Z) : M bool :=
  if negb (fo =? 0) then mret true
  else
    let transportStart := (IPv6FixedHeaderSize + if isFragmented meta then IPv6FragmentHeaderSize else 0)%nat in
    pl ← ask ipv6Packet v6_PayloadLength;
    let transportEnd := if proto =? ICMPv6ProtocolNumber then (IPv6FixedHeaderSize + Z.to_nat pl)%nat
                        else (transportStart + Z.to_nat (payloadLength meta))%nat in
    transport ← sub ipv6Packet transportStart transportEnd;
    let partial minSize off :=
      if (s_len transport <? minSize)%nat then mret true
      else siit46PartialUpdateTransportChecksum transport off;; mret true in
    if proto =? TCPProtocolNumber then partial TCPMinimumSize TCPChecksumOffset
    else if proto =? DCCPProtocolNumber then partial DCCPMinimumSize DCCPChecksumOffset
    else if proto =? UDPProtocolNumber then
      if (s_len transport <? UDPMinimumSize)%nat then mret true
      else
        b7 ← load transport 7; b6 ← load transport 6;
        if negb (Z.lor b7 b6 =? 0) then siit46PartialUpdateTransportChecksum transport 6;; mret true
        else if isFragmented meta then mret false
        else
          addrs ← sub ipv6Packet IPv6SourceAddressOffset (IPv6SourceAddressOffset + IPv6AddressSize * 2);
          addrs ← ask addrs (fun b => b);
          modify transport (fun b => udp_SetChecksum b (pseudo6 addrs b UDPProtocolNumber));;
          mret true
    else if proto =? ICMPv6ProtocolNumber then
      if (s_len transport <? ICMPv6MinimumSize)%nat then mret true
      else
        addrs ← sub ipv6Packet IPv6SourceAddressOffset (IPv6SourceAddressOffset + IPv6AddressSize * 2);
        set_icmp6_checksum addrs transport;;
        mret true
    else mret true.

(** [None] is a panic; else the result and the headroom. *)
Definition SIIT46InPlaceTranslate (reserved : nat) : M (SIIT46Result * nat) :=
  n ← buffer_len;
  let packetStart := (reserved + MessageTransportHeaderSize)%nat in
  if ((n <? reserved) || (n <? packetStart))%nat then mret (SIIT46Dropped, reserved)
  else
    meta ← ask (mkSlice packetStart n) parseSIIT46IPv4Packet;
    match meta with
    | None => mret (SIIT46Untranslated, reserved)
    | Some meta =>
      room ← makeRoomForIPv6Header reserved meta;
      match room with
      | None => mret (SIIT46Dropped, reserved)
      | Some (ipv4Header, ipv6Packet, reserved) =>
        h ← siit46TranslateHeader ipv4Header ipv6Packet meta;
        let '(fo, proto) := (h : Z * Z) in
        r ← (if proto =? ICMPv6ProtocolNumber then siit46TranslateICMPTransport reserved ipv6Packet
             else mret (ipv6Packet, reserved));
        let '(ipv6Packet, reserved) := (r : Slice * nat) in
        ok ← siit46UpdateTransportChecksum ipv6Packet meta fo proto;
        if negb ok then mret (SIIT46Dropped, reserved) else mret (SIIT46Translated, reserved)
      end
    end.

(** * What the parser promises *)

Record parsed (p : bytes) (meta : siit46IPv4Metadata) : Prop := {
  pd_version : Z.shiftr (byte_at p 0) 4 = 4;
  pd_hl : headerLength meta = byte_at p 0 mod 16 * 4;
  pd_tl : totalLength meta = be16 (slice p 2 4);
  pd_hl20 : 20 <= headerLength meta < 64;
  pd_hltl : headerLength meta <= totalLength meta;
  pd_len : totalLength meta <= Z.of_nat (length p);
  pd_tl16 : totalLength meta < 2 ^ 16;
  pd_pl : payloadLength meta = totalLength meta - headerLength meta;
  pd_proto : protocol meta = byte_at p 9;
  pd_allowed : isTransportProtocolForbiddenForIPv4 (protocol meta) = false;
  pd_flags : flags meta = byte_at p 6 / 2 ^ 5;
  pd_fo : fragmentOffset meta = be16 (slice p 6 8) mod 2 ^ 13 * 8;
  pd_frag : isFragmented meta = negb (Z.land (flags meta) IPv4FlagMoreFragments =? 0) || negb (fragmentOffset meta =? 0);
  pd_icmp : protocol meta = ICMPv4ProtocolNumber -> isFragmented meta = false /\ 8 <= payloadLength meta
}.

Lemma parse_ok p meta : bytes_ok p -> parseSIIT46IPv4Packet p = Some meta -> parsed p meta.
Proof.
  intros Hp. unfold parseSIIT46IPv4Packet, IPv4MinimumSize. rewrite IPVersion_spec.
  destruct (negb _) eqn:Ev; [done|]. destruct (length p <? 20)%nat eqn:E20; [done|]. simpl_bool.
  rewrite v4_HeaderLength_spec, v4_TotalLength_spec, v4_Protocol_spec, v4_Flags_spec by done.
  rewrite ipv4_FragmentOffset_spec by done.
  pose proof (bytes_ok_at p 0 Hp) as Hb0. pose proof (be16_bound (slice p 2 4) (bytes_ok_slice _ _ _ Hp)) as Htl.
  unfold is_byte in Hb0. set (hl := byte_at p 0 mod 16 * 4). set (tl := be16 (slice p 2 4)) in *.
  assert (Hhl : 0 <= hl < 64) by (unfold hl; Z.to_euclidean_division_equations; lia).
  destruct (_ || _)%bool eqn:E1; [done|]. destruct (_ || _)%bool eqn:E2 in |- *; [done|].
  destruct (isTransportProtocolForbiddenForIPv4 _) eqn:Ef; [done|]. destruct (negb _) in |- *; [done|].
  set (more := negb (Z.land _ IPv4FlagMoreFragments =? 0)). destruct (more && _)%bool; [done|].
  simpl_bool. change (Z.of_nat 20) with 20 in *.
  assert (Hpl : u16 (tl - hl) = tl - hl) by (unfold u16; rewrite Z.mod_small; lia).
  rewrite Hpl. set (m := mkMeta _ _ _ _ _ _ _). destruct (negb _) in |- *; [done|].
  assert (Hm : (protocol m = ICMPv4ProtocolNumber -> isFragmented m = false /\ 8 <= payloadLength m) -> parsed p m).
  { intros Hi. split; cbn; try done; try lia. destruct p; [done|]. cbn in *. done. }
  assert (Hother : byte_at p 9 <> ICMPv4ProtocolNumber -> parsed p m) by (intros Hne; apply Hm; done).
  assert (Hdone : Some m = Some meta -> parsed p m -> parsed p meta) by congruence.
  destruct (Z.eqb_spec hl 20), (Z.eqb_spec (byte_at p 9) ICMPv4ProtocolNumber) as [Ei|Ei]; cbn [negb andb]; intros Heq;
    repeat match type of Heq with (if ?c then _ else _) = _ => destruct c eqn:? end; try done; apply Hdone; auto.
  all: apply Hm; intros _; match goal with E : (negb _ && isICMPv4PacketTranslatable _)%bool = true |- _ =>
    apply andb_true_iff in E as [Ef1%negb_true_iff Ef2] end; split; [exact Ef1|]; cbn.
  all: unfold isICMPv4PacketTranslatable, ICMPv4MinimumSize in Ef2; simpl_bool; rewrite length_slice in * by lia; lia.
Qed.

(** * The header written *)

Definition more_fragments (meta : siit46IPv4Metadata) : bool := negb (Z.land (flags meta) IPv4FlagMoreFragments =? 0).
Definition v6_protocol (meta : siit46IPv4Metadata) : Z :=
  if protocol meta =? ICMPv4ProtocolNumber then ICMPv6ProtocolNumber else protocol meta.
Definition room (meta : siit46IPv4Metadata) : nat := IPv6FixedHeaderSize + if isFragmented meta then IPv6FragmentHeaderSize else 0.
(** The IPv6 header, with its fragment header, of an IPv4 header [h]. *)
Definition v6_image (h : bytes) (meta : siit46IPv4Metadata) : bytes :=
  let more := if more_fragments meta then Z.lor (u8 (fragmentOffset meta)) 1 else u8 (fragmentOffset meta) in
  put32 (6 * 2 ^ 28 + byte_at h 1 * 2 ^ 20)
  ++ put16 (if isFragmented meta then u16 (payloadLength meta + 8) else payloadLength meta)
  ++ [if isFragmented meta then IPv6FragmentHeader else v6_protocol meta; byte_at h 8]
  ++ (take 12 SIITPrefix ++ slice h 12 16) ++ (take 12 SIITPrefix ++ slice h 16 20)
  ++ if isFragmented meta
     then [v6_protocol meta; 0; u8 (fragmentOffset meta / 256); more] ++ put32 (be16 (slice h 4 6))
     else [].
Lemma length_v6_image h meta : (20 <= length h)%nat -> length (v6_image h meta) = room meta.
Proof.
  intros Hh. unfold v6_image, room. rewrite !length_app, !length_slice by lia. by destruct (isFragmented meta).
Qed.

(** A step that writes in the window [x] of the buffer. *)
Lemma v6_image_ok h meta : bytes_ok h -> is_byte (protocol meta) -> bytes_ok (v6_image h meta).
Proof.
  intros Hh Hp. assert (Hv : is_byte (v6_protocol meta)) by (unfold v6_protocol; by case_match).
  assert (H1 : is_byte 1) by (unfold is_byte; lia). assert (H0 : is_byte 0) by (unfold is_byte; lia).
  assert (Hpre : bytes_ok (take 12 SIITPrefix)) by decide_closed.
  unfold v6_image. rewrite !bytes_ok_app. split_and!; auto with bytes.
  - rewrite !bytes_ok_cons. split_and!; [destruct (isFragmented meta); [decide_closed|done]|by apply bytes_ok_at|constructor].
  - destruct (isFragmented meta); [|constructor]. rewrite bytes_ok_app, !bytes_ok_cons.
    split_and!; try done; try apply u8_byte; [|constructor|apply put32_ok].
    destruct (more_fragments meta); [apply lor_byte|]; try done; apply u8_byte.
Qed.
Lemma length_addressed X off v :
  (off + 16 <= length X)%nat -> length v = 4%nat -> length (patch (patch X off (take 12 SIITPrefix)) (off + 12) v) = length X.
Proof.
  intros Ho Hv. assert (H12 : length (take 12 SIITPrefix) = 12%nat) by done.
  rewrite length_patch; rewrite length_patch; lia.
Qed.
Lemma wp_copy_address P buf s n X off (rd : M bytes) v Q :
  n = length buf -> (s + length X <= n)%nat -> (off + 16 <= length X)%nat -> length v = 4%nat ->
  (forall Y, length Y = length X -> rd (patch buf s Y) = Some (v, patch buf s Y)) ->
  Q tt (patch buf s (patch (patch X off (take 12 SIITPrefix)) (off + 12) v)) ->
  wp P (copy_address (mkSlice s n) off rd) Q (patch buf s X).
Proof.
  intros -> Hs Ho Hv Hrd HQ. unfold copy_address. assert (H12 : length (take 12 SIITPrefix) = 12%nat) by done.
  apply wp_bind, wp_from; [win_len|win_len|]. apply wp_bind, wp_copy_bytes. cbn [s_lo].
  rewrite take_ge by (unfold SIITPrefixSize, s_len in *; cbn [s_lo s_hi]; rewrite ?length_patch in * by lia; lia).
  change SIITPrefixSize with 12%nat. rewrite patch_window by lia. set (X1 := patch X off _) in *.
  assert (HX1 : length X1 = length X) by (unfold X1; rewrite length_patch; lia).
  apply wp_bind, wp_from; [win_len|win_len|]. apply wp_bind. unfold wp at 1. rewrite Hrd by done.
  apply wp_copy_bytes. cbn [s_lo]. rewrite take_ge by (unfold s_len; cbn [s_lo s_hi]; lia).
  rewrite patch_window by lia. exact HQ.
Qed.

Ltac win_address HX Haddr v Hv o :=
  apply wp_bind, (wp_copy_address _ _ _ _ _ _ _ v);
    [done|lia|win_lia|exact Hv|intros ? ?; apply (Haddr _ o); lia|];
  lazymatch goal with |- wp _ _ _ (patch ?b ?s ?Y) =>
    let X' := fresh "X" in let E := fresh "EX" in
    remember Y as X' eqn:E;
    lazymatch type of HX with length _ = ?k =>
      let H' := fresh HX in assert (H' : length X' = k) by (rewrite E, length_addressed; [exact HX|win_lia|exact Hv]); clear HX; rename H' into HX
    end
  end.

Ltac win_finish HX Haddr h H8 H9 Eimg Hlen Ek :=
  win_address HX Haddr (slice h 12 16) H8 12%nat; win_address HX Haddr (slice h 16 20) H9 16%nat;
  apply wp_ret; split; [done|]; f_equal; rewrite Eimg; clearbody h; rewrite Ek in Hlen; win_const; clear HX; win_collapse Hlen.
Lemma translateHeader_wp P (a hl s n : nat) meta buf :
  n = length buf -> (20 <= hl)%nat -> (a + hl <= s)%nat -> (s + room meta <= n)%nat ->
  wp P (siit46TranslateHeader (mkSlice a (a + hl)) (mkSlice s n) meta)
    (fun r buf' => r = (if isFragmented meta then fragmentOffset meta else 0, v6_protocol meta)
       /\ buf' = patch buf s (v6_image (slice buf a (a + hl)) meta)) buf.
Proof.
  intros Hn Hhl Ha Hs. set (h := slice buf a (a + hl)). set (k := room meta) in *.
  assert (Hk : (40 <= k)%nat) by (unfold k, room, IPv6FixedHeaderSize; lia).
  remember (slice buf s (s + k)) as X eqn:EX0. assert (HX : length X = k) by (rewrite EX0, length_slice; lia).
  assert (Hbuf : patch buf s X = buf) by (rewrite EX0; apply patch_self; lia).
  rewrite <- Hbuf at 1.
  assert (Hh : forall Y, length Y = k -> slice (patch buf s Y) a (a + hl) = h).
  { intros Y HY. apply slice_patch_before; lia. }
  assert (Hlh : (20 <= length h)%nat) by (unfold h; rewrite length_slice; lia).
  assert (Haddr : forall Y o, length Y = k -> (o + 4 <= 20)%nat ->
    (src ← sub (mkSlice a (a + hl)) o (o + 4); ask src (fun b => b)) (patch buf s Y) = Some (slice h o (o + 4), patch buf s Y)).
  { intros Y o HY Ho. unfold mbind, M_bind, sub, ask. cbn [s_lo s_hi]. rewrite (proj2 (Nat.leb_le _ _)) by lia.
    rewrite length_patch by lia. rewrite (proj2 (Nat.leb_le (a + (o + 4)) _)) by lia. cbn.
    rewrite <- (Hh Y HY), slice_slice by lia. done. }
  assert (H8 : length (slice h 12 16) = 4%nat) by (rewrite length_slice; lia).
  assert (H9 : length (slice h 16 20) = 4%nat) by (rewrite length_slice; lia).
  assert (Eimg : v6_image h meta = v6_image h meta) by done. unfold v6_image at 2 in Eimg.
  unfold siit46TranslateHeader.
  apply wp_bind, wp_ask. cbn [s_lo s_hi]. rewrite Hh, v4_TOS_spec by done.
  pose proof HX as Hlen. win_modify v6_SetTOS_spec HX. cbn [fst snd] in EX. rewrite Z.mod_0_l, Z.add_0_r in EX by done.
  apply wp_bind, wp_ask. cbn [s_lo s_hi]. rewrite Hh, v4_TTL_spec by done.
  win_modify v6_SetHopLimit_spec HX.
  cbn zeta. change (if protocol meta =? ICMPv4ProtocolNumber then ICMPv6ProtocolNumber else protocol meta) with (v6_protocol meta).
  apply wp_bind. destruct (isFragmented meta) eqn:Ef; cbv iota in Eimg.
  - assert (Ek : k = 48%nat) by (unfold k, room; by rewrite Ef).
    apply wp_bind, wp_sub; [win_len|win_len|]. 
    apply wp_bind, wp_clear; [win_len|]. cbn [s_lo]. change (s_len _) with (s + 48 - (s + 40))%nat.
    replace (s + 48 - (s + 40))%nat with 8%nat by lia. cbn [repeat]. rewrite patch_window by win_len. win_fold HX.
    apply wp_bind, wp_ask. cbn [s_lo s_hi]. rewrite Hh, v4_ID_spec by done.
    do 3 win_put HX.
    change (negb (Z.land (flags meta) IPv4FlagMoreFragments =? 0)) with (more_fragments meta).
    destruct (more_fragments meta); unfold when.
    + do 2 apply wp_bind. apply wp_load; [win_len|]. cbn [s_lo]. rewrite <- Nat.add_assoc, byte_at_patch_in by win_len.
      replace (s + (IPv6FixedHeaderSize + IPv6FragmentExtensionHeaderFlagOffset) - s)%nat with 43%nat by win_lia.
      unfold store. apply wp_put; [win_len|]. cbn [s_lo]. rewrite <- ?Nat.add_assoc; rewrite patch_window by win_len; win_fold HX.
      win_modify v6_SetNextHeader_spec HX. win_modify v6_SetPayloadLength_spec HX. apply wp_ret.
      win_finish HX Haddr h H8 H9 Eimg Hlen Ek.
    + apply wp_bind, wp_ret. win_modify v6_SetNextHeader_spec HX. win_modify v6_SetPayloadLength_spec HX. apply wp_ret.
      win_finish HX Haddr h H8 H9 Eimg Hlen Ek.
  - assert (Ek : k = 40%nat) by (unfold k, room; by rewrite Ef).
    win_modify v6_SetNextHeader_spec HX. win_modify v6_SetPayloadLength_spec HX. apply wp_ret.
    win_finish HX Haddr h H8 H9 Eimg Hlen Ek.
Qed.


(** The buffer after the two header stages: from the packet's new start it
    holds the IPv6 header and then what followed the IPv4 header. *)
Definition new_reserved (reserved : nat) (meta : siit46IPv4Metadata) : nat := reserved - room meta + Z.to_nat (headerLength meta).
Definition new_start (reserved : nat) (meta : siit46IPv4Metadata) : nat := new_reserved reserved meta + MessageTransportHeaderSize.

Lemma makeRoom_wp P reserved meta buf :
  let p := drop (reserved + MessageTransportHeaderSize) buf in
  let hl := Z.to_nat (headerLength meta) in
  bytes_ok buf -> parsed p meta -> (reserved + MessageTransportHeaderSize <= length buf)%nat ->
  wp P (makeRoomForIPv6Header reserved meta)
    (fun o buf' => match o with
       | None => buf' = buf
       | Some (h4, p6, r') =>
         r' = new_reserved reserved meta /\ (room meta <= reserved)%nat
         /\ h4 = mkSlice (new_start reserved meta - hl) (new_start reserved meta - hl + hl)
         /\ p6 = mkSlice (new_start reserved meta) (length buf)
         /\ length buf' = length buf /\ bytes_ok buf'
         /\ slice buf' (new_start reserved meta - hl) (new_start reserved meta - hl + hl) = take hl p
         /\ drop (new_start reserved meta) buf' = drop (new_start reserved meta) buf
       end) buf.
Proof.
  cbv zeta. set (p := drop _ _). set (hl := Z.to_nat (headerLength meta)). intros Hb Hp Hn.
  assert (Hlp : length p = (length buf - (reserved + 16))%nat) by apply length_drop.
  pose proof (pd_hl20 _ _ Hp) as H20. pose proof (pd_hltl _ _ Hp) as Hhl. pose proof (pd_len _ _ Hp) as Hlen.
  assert (Hhn : (hl <= length p)%nat) by lia.
  unfold new_start, new_reserved, makeRoomForIPv6Header. fold hl.
  change (IPv6FixedHeaderSize + (if isFragmented meta then IPv6FragmentHeaderSize else 0))%nat with (room meta).
  unfold MessageTransportHeaderSize in *. apply wp_bind, wp_buffer_len.
  destruct ((length buf <? reserved)%nat || _)%bool eqn:E1; [by apply wp_ret|]. simpl_bool.
  destruct (((reserved <? room meta)%nat || _) || _)%bool eqn:E2; [by apply wp_ret|]. simpl_bool.
  apply wp_bind, wp_sub; [lia|cbn; lia|]. apply wp_bind, wp_from; [unfold s_len; cbn; lia|unfold s_ok; cbn; lia|].
  cbv zeta. destruct (_ <? _)%nat eqn:E3; [simpl_bool; lia|].
  apply wp_bind, wp_sub; [lia|cbn; lia|]. apply wp_bind, wp_copy, wp_ret. cbn [s_lo s_hi]. unfold s_len. cbn [s_lo s_hi Nat.add].
  set (src := take _ (slice buf reserved (length buf))).
  assert (Esrc : src = slice buf reserved (reserved + (16 + hl))).
  { unfold src, slice. rewrite take_take. f_equal. lia. }
  assert (Hls : length src = (16 + hl)%nat) by (rewrite Esrc, length_slice; lia).
  assert (Hsp : slice src 16 (16 + hl) = take hl p).
  { rewrite Esrc, slice_slice by lia. unfold p, slice. f_equal. lia. }
  split_and!; try done.
  - f_equal; lia.
  - by rewrite length_patch by lia.
  - rewrite Esrc. auto with bytes.
  - rewrite slice_patch_in by lia. rewrite <- Hsp. f_equal; lia.
  - apply drop_patch_after; lia.
Qed.

Lemma header_stage P reserved meta buf :
  let p := drop (reserved + MessageTransportHeaderSize) buf in
  let hl := Z.to_nat (headerLength meta) in
  bytes_ok buf -> parsed p meta -> (reserved + MessageTransportHeaderSize <= length buf)%nat ->
  wp P (makeRoomForIPv6Header reserved meta)
    (fun o buf' => match o with
       | None => buf' = buf
       | Some (h4, p6, r') =>
         r' = new_reserved reserved meta /\ p6 = mkSlice (new_start reserved meta) (length buf)
         /\ (new_start reserved meta + room meta = reserved + MessageTransportHeaderSize + hl)%nat
         /\ wp P (siit46TranslateHeader h4 p6 meta)
              (fun r buf'' => r = (if isFragmented meta then fragmentOffset meta else 0, v6_protocol meta)
                 /\ length buf'' = length buf /\ bytes_ok buf''
                 /\ drop (new_start reserved meta) buf'' = v6_image (take hl p) meta ++ drop hl p) buf'
       end) buf.
Proof.
  cbv zeta. set (p := drop _ _). set (hl := Z.to_nat (headerLength meta)). intros Hb Hp Hn.
  assert (Hlp : length p = (length buf - (reserved + 16))%nat) by apply length_drop.
  pose proof (pd_hl20 _ _ Hp) as H20. pose proof (pd_hltl _ _ Hp) as Hhl. pose proof (pd_len _ _ Hp) as Hlen.
  eapply wp_mono; [by apply makeRoom_wp|]. cbv zeta. fold p hl. intros [[[h4 p6] r']|] buf1; [|done].
  intros (-> & Hr & -> & -> & Hl1 & Hb1 & Hh & Hd). unfold MessageTransportHeaderSize in Hn.
  assert (Hst : (new_start reserved meta + room meta = reserved + MessageTransportHeaderSize + hl)%nat).
  { unfold new_start, new_reserved, MessageTransportHeaderSize. fold hl. lia. }
  split_and!; [done|done|done|]. unfold MessageTransportHeaderSize in Hst.
  assert (Hs16 : (hl + 16 <= new_start reserved meta)%nat).
  { unfold new_start, new_reserved, MessageTransportHeaderSize. fold hl. lia. }
  eapply wp_mono; [apply translateHeader_wp; lia|]. cbv beta. intros r buf2 (-> & ->).
  rewrite Hh. assert (Him : length (v6_image (take hl p) meta) = room meta).
  { apply length_v6_image. rewrite length_take. lia. }
  split_and!; [done|rewrite length_patch; lia| |].
  - apply bytes_ok_patch; [done|]. assert (Hpk : bytes_ok p) by (unfold p; auto with bytes).
    apply v6_image_ok; [auto with bytes|]. rewrite (pd_proto _ _ Hp). auto with bytes.
  - rewrite drop_patch by lia. rewrite Nat.sub_diag. unfold patch. rewrite take_0. cbn [app]. f_equal.
    rewrite Him, Hd. unfold p. rewrite !drop_drop. f_equal. unfold MessageTransportHeaderSize. lia.
Qed.

(** * The ICMP message *)

Lemma icmp_pointer_byte p v : icmp_pointer p = Some v -> is_byte v.
Proof. unfold icmp_pointer, is_byte. intros Hp. repeat case_match; simplify_eq; lia. Qed.

Section icmp.
Context (P : Prop) (lo n : nat) (Hn : (lo + 8 <= n)%nat).
Abbreviation icmp := (mkSlice lo n).

Lemma keeps_set_type t : is_byte t -> keeps P lo (lo + 8) n (set_type icmp t).
Proof.
  intros Ht. apply keeps_bind; [apply keeps_need; unfold s_len; cbn; lia|intros _].
  eapply (keeps_modify _ _ _ _ _ _ 1 0 [t]); try (unfold s_len; cbn; lia); [intros; by apply icmp_SetType_spec|by apply Forall_singleton].
Qed.
Lemma keeps_set_code t : is_byte t -> keeps P lo (lo + 8) n (set_code icmp t).
Proof.
  intros Ht. apply keeps_bind; [apply keeps_need; unfold s_len; cbn; lia|intros _].
  eapply (keeps_modify _ _ _ _ _ _ 2 1 [t]); try (unfold s_len; cbn; lia); [intros; by apply icmp_SetCode_spec|by apply Forall_singleton].
Qed.
Lemma keeps_icmp_put i v : bytes_ok v -> (i + length v <= 8)%nat -> keeps P lo (lo + 8) n (put icmp i v).
Proof. intros Hv Hi. apply keeps_put; unfold s_len; cbn [s_lo s_hi]; lia || done. Qed.
Lemma keeps_set_mtu f : keeps P lo (lo + 8) n (modify icmp (fun b => icmp6_SetMTU b f)).
Proof.
  eapply (keeps_modify _ _ _ _ _ _ 8 4 (put32 f)); try (unfold s_len; cbn; lia); [intros; by apply icmp6_SetMTU_spec|apply put32_ok].
Qed.

Lemma TranslateICMPHeader_keeps : keeps P lo (lo + 8) n (siit46TranslateICMPHeader icmp).
Proof.
  unfold siit46TranslateICMPHeader. apply keeps_bind; [apply keeps_ask|]. intros type.
  assert (Hload : keeps P lo (lo + 8) n (load icmp 4)) by (apply keeps_load; unfold s_len; cbn; lia).
  repeat first
    [ apply keeps_ret | apply keeps_ask | exact Hload | apply keeps_set_mtu | apply keeps_set_type; decide_closed | apply keeps_set_code; decide_closed
    | apply keeps_icmp_put; [by auto with bytes|cbn; lia] | apply keeps_icmp_put; [decide_closed|cbn; lia]
    | apply keeps_bind; [|intros ?] | case_match ].
  apply keeps_icmp_put; [|cbn; lia]. apply Forall_singleton. by eapply icmp_pointer_byte.
Qed.
End icmp.

Record quote_ok (q : Quote) : Prop := {
  qo_ttl : is_byte (q_TTL q);
  qo_protocol : is_byte (q_protocol q);
  qo_src : length (q_src q) = 4%nat /\ bytes_ok (q_src q);
  qo_dst : length (q_dst q) = 4%nat /\ bytes_ok (q_dst q)
}.
Lemma read_quote_ok c q :
  bytes_ok c -> read_quote c = Some q ->
  (28 <= length c)%nat /\ quote_ok q
  /\ (q_protocol q = ICMPv4ProtocolNumber -> one_of (byte_at c 20) [ICMPv4Echo; ICMPv4EchoReply] = true).
Proof.
  intros Hc. unfold read_quote, IPv4MinimumSize, ICMPv4MinimumSize.
  destruct (length c <? 20)%nat eqn:E20; [done|]. simpl_bool.
  destruct (negb _); [done|]. destruct (negb _); [done|]. destruct (_ || _)%bool; [done|].
  rewrite v4_Protocol_spec, v4_TTL_spec by done. set (q0 := mkQuote _ _ _ _ _ _).
  assert (Hq : quote_ok q0).
  { split; cbn [q_TTL q_protocol q_src q_dst q0]; auto with bytes; unfold IPv4DestinationAddressOffset, IPv4SourceAddressOffset, IPv4AddressSize;
      (split; [rewrite length_slice by lia; done|auto with bytes]). }
  destruct (one_of _ [TCPProtocolNumber; _]) eqn:Et.
  { destruct (_ <? _)%nat eqn:E28; [done|]. simpl_bool. intros Heq. assert (q = q0) as -> by congruence.
    split_and!; [lia|done|]. cbn [q_protocol q0]. intros Hx. by rewrite Hx in Et. }
  destruct (byte_at c 9 =? _) eqn:Ep; [|done]. destruct (_ <? _)%nat eqn:E28; [done|]. simpl_bool.
  rewrite icmp_Type_spec by (rewrite length_drop; lia).
  assert (E : byte_at (drop 20 c) 0 = byte_at c 20) by (unfold byte_at; by rewrite nth_skipn). rewrite E.
  destruct (one_of (byte_at c 20) _); [|done]. intros Heq. assert (q = q0) as -> by congruence. split_and!; [lia|done|done].
Qed.

Lemma keeps_copy_address P lo hi n s off v :
  (s_lo s + off + 16 <= s_hi s)%nat -> (s_hi s <= n)%nat -> bytes_ok v -> length v = 4%nat ->
  (lo <= s_lo s + off)%nat -> (s_lo s + off + 16 <= hi)%nat -> (hi <= n)%nat ->
  keeps P lo hi n (copy_address s off (mret v)).
Proof.
  intros H1 H2 Hv Hl H3 H4 H5. unfold copy_address, SIITPrefixSize.
  assert (H12 : length (take 12 SIITPrefix) = 12%nat) by done.
  apply keeps_bind_from; [lia|lia|]. apply keeps_bind.
  { apply keeps_copy_bytes; cbn [s_lo s_hi]; [decide_closed|lia|lia|lia]. }
  intros _. apply keeps_bind_from; [lia|lia|]. apply keeps_bind_ret. apply keeps_copy_bytes; cbn [s_lo s_hi]; done || lia.
Qed.

Lemma quote_header_keeps P lo e n q :
  (lo + 40 <= e)%nat -> (e <= n)%nat -> quote_ok q -> keeps P lo (lo + 40) n (quote_header (mkSlice lo e) q).
Proof.
  intros He Hn [H1 H2 [H3 H3'] [H4 H4']]. unfold quote_header.
  assert (Hm : forall f k off new, (forall b, (40 <= length b)%nat -> f b = patch b off new) -> k = length new -> (off + k <= 40)%nat ->
    bytes_ok new -> keeps P lo (lo + 40) n (modify (mkSlice lo e) f)).
  { intros f k off new Hf -> Ho Hok. eapply (keeps_modify _ _ _ _ _ _ 40 off new); cbn [s_lo s_hi]; done || lia. }
  apply keeps_bind_sub; [win_lia|win_lia|]. apply keeps_bind; [apply keeps_clear; win_lia|intros _].
  apply keeps_bind; [eapply (Hm _ 4%nat); [intros; by apply v6_SetTOS_spec|done|lia|apply put32_ok]|intros _].
  apply keeps_bind; [eapply (Hm _ 1%nat); [intros; by apply v6_SetHopLimit_spec|done|lia|by apply Forall_singleton]|intros _].
  apply keeps_bind; [eapply (Hm _ 2%nat); [intros; by apply v6_SetPayloadLength_spec|done|lia|apply put16_ok]|intros _].
  apply keeps_bind; [eapply (Hm _ 1%nat); [intros; by apply v6_SetNextHeader_spec|done|lia|apply Forall_singleton; by case_match]|intros _].
  apply keeps_bind; [|intros _]; apply keeps_copy_address; win_lia || done.
Qed.

(** The quoted echo: its type and checksum. *)
Lemma quote_icmp_wp P lo e n q buf :
  (lo + 40 <= e)%nat -> (e <= n)%nat -> n = length buf -> bytes_ok buf ->
  (q_protocol q = ICMPv4ProtocolNumber -> (lo + 41 <= e)%nat -> one_of (byte_at buf (lo + 40)) [ICMPv4Echo; ICMPv4EchoReply] = true) ->
  (q_protocol q = ICMPv4ProtocolNumber -> (e < lo + 44)%nat -> P) ->
  wp P (quote_icmp (mkSlice lo e) q) (fun ok buf' => ok = true /\ frame (lo + 40) e buf buf') buf.
Proof.
  intros He Hen Hn Hb Hecho HP. unfold quote_icmp. destruct (Z.eqb_spec (q_protocol q) ICMPv4ProtocolNumber) as [Ep|]; [|by apply wp_ret].
  specialize (Hecho Ep). specialize (HP Ep).
  apply wp_bind, wp_from; [win_len|win_len|]. cbn [s_lo s_hi]. change IPv6FixedHeaderSize with 40%nat.
  apply wp_bind, wp_need_or; unfold s_len; cbn [s_lo s_hi]; [|intros; apply HP; lia]. intros H1.
  apply wp_bind, wp_ask. cbn [s_lo s_hi]. rewrite icmp_Type_spec by (rewrite length_slice; lia).
  rewrite byte_at_slice, Nat.add_0_r by lia. rewrite Hecho by lia.
  apply wp_bind. apply wp_mono with (Q := fun _ b => frame (lo + 40) e buf b).
  { assert (Hst : forall t, is_byte t -> keeps P (lo + 40) e n (set_type (mkSlice (lo + 40) e) t)).
    { intros t Ht. apply keeps_bind; [apply keeps_need; unfold s_len; cbn; lia|intros _].
      eapply (keeps_modify _ _ _ _ _ _ 1 0 [t]); cbn; try lia; [intros; by apply icmp_SetType_spec|by apply Forall_singleton]. }
    case_match; apply Hst; done || decide_closed. }
  intros _ b1 F1. pose proof F1 as (Hl1 & Hb1 & _). apply wp_bind, wp_sub; [win_lia|win_lia|].
  set (addrs := mkSlice _ _). unfold set_icmp6_checksum. apply wp_bind.
  apply wp_bind, wp_need_or; unfold s_len; cbn [s_lo s_hi]; [|intros; apply HP; lia]. intros H4.
  assert (Hck : forall f, (forall b, (4 <= length b)%nat -> exists v, f b = patch b 2 (put16 v)) -> keeps P (lo + 40) e n (modify (mkSlice (lo + 40) e) f)).
  { intros f Hf. apply (keeps_modify_word _ _ _ _ _ _ 4 2); cbn [s_lo s_hi]; done || lia. }
  eapply wp_mono with (Q := fun _ b => frame (lo + 40) e b1 b).
  { apply (keeps_bind P (lo + 40) e n); [|intros _|done|lia].
    - apply Hck. intros b ?. exists 0. by apply icmp_SetChecksum_spec.
    - apply keeps_bind; [apply keeps_ask|intros ad]. apply Hck. intros b ?. eexists. by apply icmp_SetChecksum_spec. }
  intros _ b2 F2. apply wp_ret. split; [done|]. by eapply frame_trans.
Qed.

(** An IPv6 packet with a payload of [pl] bytes starts at [s]. *)
Record packet_at (buf : bytes) (s pl : nat) : Prop := {
  pk_version : Z.shiftr (byte_at buf s) 4 = 6;
  pk_length : be16 (slice buf (s + 4) (s + 6)) = Z.of_nat pl;
  pk_room : (s + 40 + pl <= length buf)%nat
}.
Lemma packet_at_frame lo hi buf buf' s pl : frame lo hi buf buf' -> (s + 6 <= lo)%nat -> packet_at buf s pl -> packet_at buf' s pl.
Proof.
  intros Hf Hlo [H1 H2 H3]. destruct (Hf) as (Hl & _). split; [|by rewrite (frame_slice _ _ _ _ _ _ Hf) by lia|by rewrite Hl].
  by rewrite (frame_byte_at _ _ _ _ _ Hf) by lia.
Qed.
Lemma packet_at_payload buf s pl e : packet_at buf s pl -> (s + 40 <= e)%nat -> (e <= length buf)%nat -> v6_PayloadLength (slice buf s e) = Z.of_nat pl.
Proof.
  intros [_ Hpl _] He Hn. rewrite v6_PayloadLength_spec by (rewrite length_slice; lia). by rewrite slice_slice by lia.
Qed.

Lemma quote_wp P reserved s n pl buf :
  s = (reserved + 16)%nat -> n = length buf -> bytes_ok buf -> packet_at buf s pl -> (8 <= pl)%nat -> Z.of_nat pl < 2 ^ 16 - 20 ->
  ((s + 40 + pl < n)%nat -> P) ->
  wp P (siit46TranslateICMPErrorQuote reserved (mkSlice s n) (mkSlice (s + 40) n))
    (fun r buf' => length buf' = n /\ bytes_ok buf' /\ match r.1 with
       | None => r.2 = reserved /\ buf' = buf
       | Some p6 => (r.2 + 16 = s - 20)%nat /\ p6 = mkSlice (s - 20) (s + 40 + pl) /\ packet_at buf' (s - 20) (pl + 20)
       end) buf.
Proof.
  intros Hs Hn Hb Hpk H8 H16 HP. pose proof (pk_room _ _ _ Hpk) as Hroom. unfold siit46TranslateICMPErrorQuote.
  apply wp_bind, wp_from; [win_len|win_len|]. cbn [s_lo s_hi]. apply wp_bind, wp_ask. cbn [s_lo s_hi].
  destruct (read_quote _) as [q|] eqn:Eq; [|by apply wp_ret].
  apply read_quote_ok in Eq as (H28 & Hq & Hecho); [|auto with bytes]. rewrite length_slice in H28 by lia.
  destruct (reserved <? quoteExpansion)%nat eqn:E20; [by apply wp_ret|]. simpl_bool. change quoteExpansion with 20%nat in *.
  apply wp_bind, wp_buffer_len, wp_bind, wp_ask. cbn [s_lo s_hi]. rewrite (packet_at_payload _ _ pl) by (done || lia).
  cbv zeta. rewrite Nat2Z.id. unfold IPv6FixedHeaderSize, MessageTransportHeaderSize, IPv4MinimumSize. rewrite <- Hs.
  apply wp_bind, wp_sub; [lia|cbn; lia|]. apply wp_bind, wp_sub; [lia|cbn; lia|]. cbn [s_lo s_hi]; rewrite ?Nat.add_0_l.
  apply wp_bind, wp_copy. cbn [s_lo s_hi]. unfold s_len. cbn [s_lo s_hi]. rewrite take_ge by (rewrite length_slice; lia).
  set (pkt := slice buf s (s + (40 + pl))). assert (Hpl : length pkt = (40 + pl)%nat) by (unfold pkt; rewrite length_slice; lia).
  set (b1 := patch buf (s - 20) pkt). assert (Hl1 : length b1 = length buf) by (apply length_patch; lia).
  assert (Hb1 : bytes_ok b1) by (unfold b1, pkt; auto with bytes).
  assert (Hmv : forall i j, (i <= j)%nat -> (j <= 40 + pl)%nat -> slice b1 (s - 20 + i) (s - 20 + j) = slice buf (s + i) (s + j)).
  { intros i j Hi Hj. unfold b1. rewrite slice_patch_in by lia.
    replace (s - 20 + i - (s - 20))%nat with i by lia. replace (s - 20 + j - (s - 20))%nat with j by lia.
    unfold pkt. apply slice_slice. lia. }
  assert (Hmv1 : forall i, (i < 40 + pl)%nat -> byte_at b1 (s - 20 + i) = byte_at buf (s + i)).
  { intros i Hi. pose proof (Hmv i (S i) ltac:(lia) ltac:(lia)) as E. apply (f_equal (fun l => byte_at l 0)) in E.
    rewrite !byte_at_slice, !Nat.add_0_r in E by lia. done. }
  assert (Hpk1 : packet_at b1 (s - 20) pl).
  { destruct Hpk as [V L R]. split; [|by rewrite Hmv by lia|rewrite Hl1; lia].
    pose proof (Hmv1 0%nat ltac:(lia)) as E. rewrite !Nat.add_0_r in E. by rewrite E. }
  apply wp_bind, wp_sub; [lia|cbn [s_lo]; lia|]. cbn [s_lo s_hi]; rewrite ?Nat.add_0_l. apply wp_bind, wp_ask. cbn [s_lo s_hi].
  rewrite (packet_at_payload _ _ pl) by (done || lia). rewrite Nat2Z.id.
  apply wp_bind, wp_sub; [lia|cbn [s_lo]; lia|]. apply wp_bind, wp_from; [unfold s_len; cbn [s_lo s_hi]; lia|unfold s_ok; cbn [s_lo s_hi]; lia|].
  cbn [s_lo s_hi]. unfold s_len. cbn [s_lo s_hi].
  replace (s - 20 + 40 + 8)%nat with (s + 28)%nat by lia. replace (s - 20 + (40 + pl + 20))%nat with (s + 40 + pl)%nat by lia.
  replace (s + 40 + pl - (s + 28) - 20)%nat with (pl - 8)%nat by lia.
  apply wp_bind, wp_sub_or; cbn [s_lo]; [|intros [?|?]; [apply HP; lia|lia]]. intros Hlong _.
  apply wp_bind, wp_sub; [lia|cbn [s_lo]; lia|]. apply wp_bind, wp_copy. cbn [s_lo s_hi]. unfold s_len. cbn [s_lo s_hi].
  set (tail := take _ _). set (b2 := patch b1 _ tail).
  assert (Ht : tail = slice b1 (s + 28 + 20) (s + 28 + (pl - 8))).
  { unfold tail. apply take_ge. rewrite length_slice; lia. }
  assert (Hlt : length tail = (pl - 28)%nat) by (rewrite Ht, length_slice; lia).
  assert (F2 : frame (s + 28) (s + 40 + pl) b1 b2).
  { apply frame_patch; [done| |lia|lia|lia]. rewrite Ht. auto with bytes. }
  destruct (F2) as (Hl2 & Hb2 & _).
  assert (Hb68 : (29 <= pl)%nat -> byte_at b2 (s + 68) = byte_at buf (s + 48 + 20)).
  { intros H29. unfold b2. rewrite byte_at_patch_in by lia. rewrite Ht, byte_at_slice by lia.
    replace (s + 28 + 20 + (s + 68 - (s + 28 + 40)))%nat with (s - 20 + 68)%nat by lia. rewrite Hmv1 by lia. f_equal. lia. }
  apply wp_bind. eapply wp_mono; [apply (quote_header_keeps P (s + 28) (s + 40 + pl) n q); [lia|lia|done|done|lia]|].
  cbv beta. intros _ b3 F3. destruct (F3) as (Hl3 & Hb3 & Ht3 & Hd3).
  apply wp_bind. eapply wp_mono; [apply (quote_icmp_wp P (s + 28) (s + 40 + pl) n q b3)|]; [lia|lia|lia|done| | |].
  { intros Ep Hle. specialize (Hecho Ep). replace (s + 28 + 40)%nat with (s + 68)%nat in * by lia.
    assert (E3 : byte_at b3 (s + 68) = byte_at b2 (s + 68)).
    { apply (f_equal (fun l => byte_at l 0)) in Hd3. unfold byte_at in Hd3 |- *. by rewrite !nth_skipn, !Nat.add_0_r in Hd3. }
    rewrite E3, Hb68 by lia. rewrite byte_at_slice in Hecho by lia. by replace (s + 40 + 8 + 20)%nat with (s + 48 + 20)%nat in Hecho by lia. }
  { intros Ep Hlt'. apply HP. lia. }
  cbv beta. intros ok b4 [-> F4]. destruct (F4) as (Hl4 & Hb4 & _). cbn [negb].
  assert (Hpk4 : packet_at b4 (s - 20) pl).
  { eapply packet_at_frame; [exact F4|lia|]. eapply packet_at_frame; [exact F3|lia|]. eapply packet_at_frame; [exact F2|lia|]. done. }
  apply wp_bind.
  eapply (wp_modify _ _ _ 4 (put16 (Z.of_nat (pl + 20)))); cbn [s_lo s_hi]; [win_len|win_len| |].
  { rewrite (packet_at_payload _ _ pl) by (done || lia). rewrite v6_SetPayloadLength_spec by (rewrite length_slice; lia).
    do 2 f_equal. unfold u16. rewrite Z.mod_small; lia. }
  apply wp_ret. cbn [fst snd]. replace (s - 20 + 4)%nat with (s - 16)%nat by lia. set (b5 := patch b4 _ _).
  assert (Hl5 : length b5 = length buf) by (unfold b5; rewrite length_patch; cbn; lia).
  split_and!; [lia|apply bytes_ok_patch; [done|apply put16_ok]|lia|f_equal; lia|].
  split.
  - unfold b5. rewrite byte_at_patch_out by (cbn; lia). apply (pk_version _ _ _ Hpk4).
  - unfold b5. replace (s - 20 + 4)%nat with (s - 16)%nat by lia. rewrite slice_patch_same by (cbn; lia).
    rewrite <- (app_nil_r (put16 _)). apply be16_put16. lia.
  - lia.
Qed.

Lemma ICMPTransport_wp P reserved s n pl buf :
  s = (reserved + 16)%nat -> n = length buf -> bytes_ok buf -> packet_at buf s pl -> (8 <= pl)%nat -> Z.of_nat pl < 2 ^ 16 - 20 ->
  ((s + 40 + pl < n)%nat -> P) ->
  wp P (siit46TranslateICMPTransport reserved (mkSlice s n))
    (fun r buf' => length buf' = n /\ bytes_ok buf' /\ exists s' e pl', (r.2 + 16 = s')%nat /\ r.1 = mkSlice s' e
       /\ (s' + 40 <= e)%nat /\ (e <= n)%nat /\ packet_at buf' s' pl') buf.
Proof.
  intros Hs Hn Hb Hpk H8 H16 HP. pose proof (pk_room _ _ _ Hpk) as Hroom. unfold siit46TranslateICMPTransport.
  apply wp_bind, wp_from; [win_len|win_len|]. cbn [s_lo s_hi]. change IPv6FixedHeaderSize with 40%nat.
  apply wp_bind. eapply wp_mono; [apply (TranslateICMPHeader_keeps P (s + 40) n ltac:(lia)); [done|lia]|].
  cbv beta. intros tq b1 F1. destruct (F1) as (Hl1 & Hb1 & _).
  assert (Hpk1 : packet_at b1 s pl) by (eapply packet_at_frame; [exact F1|lia|done]).
  assert (Hsame : length b1 = n /\ bytes_ok b1 /\ exists s' e pl', (reserved + 16 = s')%nat /\ mkSlice s n = mkSlice s' e
       /\ (s' + 40 <= e)%nat /\ (e <= n)%nat /\ packet_at b1 s' pl').
  { split_and!; [lia|done|]. exists s, n, pl. split_and!; try done; lia. }
  destruct tq; [|by apply wp_ret].
  apply wp_bind. eapply wp_mono; [apply (quote_wp P reserved s n pl b1); done || lia|].
  cbv beta. intros [[p6|] r'] b2; cbn [fst snd]; intros (Hl2 & Hb2 & Hpost).
  - destruct Hpost as (Hr & -> & Hpk2). apply wp_ret. cbn [fst snd]. split_and!; [done|done|].
    exists (s - 20)%nat, (s + 40 + pl)%nat, (pl + 20)%nat. split_and!; try done; lia.
  - destruct Hpost as (-> & ->). by apply wp_ret.
Qed.

(** The transport's checksum is written within the packet. *)
Lemma keeps_icmp6_checksum P lo e n addrs :
  (lo + 4 <= e)%nat -> (e <= n)%nat -> keeps P lo n n (set_icmp6_checksum addrs (mkSlice lo e)).
Proof.
  intros H4 He. unfold set_icmp6_checksum. apply keeps_bind; [apply keeps_need; win_len|intros _].
  assert (Hck : forall f, (forall b, (4 <= length b)%nat -> exists v, f b = patch b 2 (put16 v)) -> keeps P lo n n (modify (mkSlice lo e) f)).
  { intros f Hf. apply (keeps_modify_word _ _ _ _ _ _ 4 2); cbn [s_lo s_hi]; done || lia. }
  apply keeps_bind; [|intros _].
  - apply Hck. intros b ?. exists 0. by apply icmp_SetChecksum_spec.
  - apply keeps_bind; [apply keeps_ask|intros ad]. apply Hck. intros b ?. eexists. by apply icmp_SetChecksum_spec.
Qed.
Lemma keeps_partial P lo e n off :
  (lo + off + 2 <= e)%nat -> (e <= n)%nat -> keeps P lo n n (siit46PartialUpdateTransportChecksum (mkSlice lo e) off).
Proof.
  intros Ho He. unfold siit46PartialUpdateTransportChecksum. apply keeps_bind_sub; [lia|cbn [s_lo]; lia|].
  apply keeps_bind; [apply keeps_ask|intros old]. apply keeps_put; unfold s_len; cbn [s_lo s_hi]; auto with bytes; cbn [length put16]; lia.
Qed.
Lemma UpdateTransportChecksum_wp P s e n pl meta fo proto buf :
  n = length buf -> bytes_ok buf -> (s + 40 <= e)%nat -> (e <= n)%nat -> packet_at buf s pl ->
  (proto <> ICMPv6ProtocolNumber -> s + room meta + Z.to_nat (payloadLength meta) <= n)%nat ->
  (proto = ICMPv6ProtocolNumber -> isFragmented meta = false) ->
  wp P (siit46UpdateTransportChecksum (mkSlice s e) meta fo proto) (fun _ buf' => frame (s + 40) n buf buf') buf.
Proof.
  intros Hn Hb He Hen Hpk Hroom Hfrag. pose proof (pk_room _ _ _ Hpk) as Hpr. unfold siit46UpdateTransportChecksum.
  destruct (negb _); [by apply wp_ret, frame_refl|].
  apply wp_bind, wp_ask. cbn [s_lo s_hi]. rewrite (packet_at_payload _ _ pl) by (done || lia). rewrite Nat2Z.id.
  change (IPv6FixedHeaderSize + (if isFragmented meta then IPv6FragmentHeaderSize else 0))%nat with (room meta).
  assert (Hr40 : (40 <= room meta)%nat) by (unfold room, IPv6FixedHeaderSize; lia).
  set (te := if proto =? ICMPv6ProtocolNumber then _ else _).
  assert (Hte : (room meta <= te)%nat /\ (s + te <= n)%nat).
  { unfold te, IPv6FixedHeaderSize. destruct (Z.eqb_spec proto ICMPv6ProtocolNumber) as [Ei|Ei].
    - unfold room. rewrite (Hfrag Ei). unfold IPv6FixedHeaderSize. lia.
    - specialize (Hroom Ei). lia. }
  clearbody te. apply wp_bind, wp_sub; [lia|cbn [s_lo]; lia|]. cbn [s_lo]. set (tr := mkSlice _ _).
  enough (Hk : keeps P (s + room meta) n n _) by (eapply wp_mono; [by apply Hk|]; cbv beta; intros ? ? F; eapply frame_le; [exact F|lia|lia]).
  assert (Hpart : forall m off, (off + 2 <= m)%nat -> keeps P (s + room meta) n n
    (if (s_len tr <? m)%nat then mret true else siit46PartialUpdateTransportChecksum tr off;; mret true)).
  { intros m off Hm. destruct (_ <? _)%nat eqn:E; [apply keeps_ret|]. simpl_bool. unfold s_len, tr in E. cbn [s_lo s_hi] in E.
    apply keeps_bind; [apply keeps_partial; lia|intros _; apply keeps_ret]. }
  cbv zeta. case_match; [apply Hpart; unfold TCPMinimumSize, TCPChecksumOffset; lia|].
  case_match; [apply Hpart; unfold DCCPMinimumSize, DCCPChecksumOffset; lia|].
  case_match.
  { destruct (s_len tr <? _)%nat eqn:E; [apply keeps_ret|]. simpl_bool. unfold UDPMinimumSize in E.
    apply keeps_bind; [apply keeps_load; lia|intros b7]. apply keeps_bind; [apply keeps_load; lia|intros b6].
    unfold s_len, tr in E. cbn [s_lo s_hi] in E.
    case_match; [apply keeps_bind; [apply keeps_partial; lia|intros _; apply keeps_ret]|]. case_match; [apply keeps_ret|].
    apply keeps_bind_sub; [win_lia|win_lia|]. apply keeps_bind; [apply keeps_ask|intros ad].
    apply keeps_bind; [|intros _; apply keeps_ret]. intros b' Hb' Hl'.
    eapply (wp_modify _ _ _ 6 (put16 _)); unfold tr; [win_len|win_len|apply udp_SetChecksum_spec; win_len|].
    cbn [s_lo s_hi]. apply frame_patch; rewrite ?length_put16; auto with bytes; lia. }
  case_match; [|apply keeps_ret]. destruct (s_len tr <? _)%nat eqn:E; [apply keeps_ret|]. simpl_bool. unfold ICMPv6MinimumSize in E.
  unfold s_len, tr in E. cbn [s_lo s_hi] in E. apply keeps_bind_sub; [win_lia|win_lia|].
  apply keeps_bind; [apply keeps_icmp6_checksum; lia|intros _; apply keeps_ret].
Qed.

(** * The contract *)

(** An ICMP message followed, in its buffer, by bytes that are not its packet's. *)
Definition trailing_icmp (p : bytes) : Prop :=
  exists meta, parseSIIT46IPv4Packet p = Some meta /\ protocol meta = ICMPv4ProtocolNumber
    /\ totalLength meta < Z.of_nat (length p).

Lemma v6_image_packet buf s rest h meta :
  length h = Z.to_nat (headerLength meta) -> 20 <= headerLength meta < 64 -> is_byte (byte_at h 1) ->
  payloadLength meta = totalLength meta - headerLength meta -> headerLength meta <= totalLength meta < 2 ^ 16 ->
  drop s buf = v6_image h meta ++ rest -> (Z.to_nat (payloadLength meta) <= length rest)%nat -> (s <= length buf)%nat ->
  packet_at buf s (if isFragmented meta then Z.to_nat (payloadLength meta) + 8 else Z.to_nat (payloadLength meta))%nat.
Proof.
  intros Hh H20 Htos Hpl Htl Hd Hr Hs. assert (Hlen : (s + room meta + Z.to_nat (payloadLength meta) <= length buf)%nat).
  { apply (f_equal length) in Hd. rewrite length_drop, length_app, length_v6_image in Hd by lia. lia. }
  assert (Hb : forall i, byte_at buf (s + i) = byte_at (v6_image h meta ++ rest) i).
  { intros i. rewrite <- Hd. unfold byte_at. by rewrite nth_skipn. }
  assert (Hsl : slice buf (s + 4) (s + 6) = slice (v6_image h meta ++ rest) 4 6) by (rewrite <- Hd, slice_drop_eq; done).
  split.
  - rewrite <- (Nat.add_0_r s), Hb. unfold is_byte in Htos. cbn. unfold u8. rewrite Z.shiftr_div_pow2 by lia.
    Z.to_euclidean_division_equations. lia.
  - rewrite Hsl. change (slice (v6_image h meta ++ rest) 4 6) with
      (put16 (if isFragmented meta then u16 (payloadLength meta + 8) else payloadLength meta)).
    rewrite <- (app_nil_r (put16 _)). destruct (isFragmented meta); rewrite be16_put16.
    + unfold u16. rewrite Z.mod_small; lia.
    + unfold u16. rewrite Z.mod_small; lia.
    + lia.
    + lia.
  - unfold room, IPv6FixedHeaderSize, IPv6FragmentHeaderSize in Hlen. destruct (isFragmented meta); lia.
Qed.

Lemma SIIT46_wp reserved buf :
  bytes_ok buf ->
  let p := drop (reserved + MessageTransportHeaderSize) buf in
  wp (trailing_icmp p) (SIIT46InPlaceTranslate reserved) (fun r buf' =>
    length buf' = length buf /\ bytes_ok buf'
    /\ match r.1 with
       | SIIT46Untranslated => parseSIIT46IPv4Packet p = None /\ buf' = buf /\ r.2 = reserved
       | SIIT46Dropped => True
       | SIIT46Translated => exists pl, packet_at buf' (r.2 + MessageTransportHeaderSize) pl
       end) buf.
Proof.
  intros Hb. cbv zeta. set (p := drop _ _). unfold SIIT46InPlaceTranslate, MessageTransportHeaderSize in *.
  apply wp_bind, wp_buffer_len. destruct ((length buf <? reserved)%nat || _)%bool eqn:E0; [by apply wp_ret; split_and!|]. simpl_bool.
  apply wp_bind, wp_ask. cbn [s_lo s_hi].
  assert (Ep : slice buf (reserved + 16) (length buf) = p).
  { unfold slice, p. apply take_ge. rewrite length_drop. lia. }
  rewrite Ep. destruct (parseSIIT46IPv4Packet p) as [meta|] eqn:Em; [|by apply wp_ret; split_and!].
  assert (Hp : bytes_ok p) by (unfold p; auto with bytes). pose proof (parse_ok p meta Hp Em) as Hm.
  assert (Hlp : length p = (length buf - (reserved + 16))%nat) by apply length_drop.
  pose proof (pd_hl20 _ _ Hm) as H20. pose proof (pd_hltl _ _ Hm) as Hhl. pose proof (pd_len _ _ Hm) as Hlen.
  pose proof (pd_pl _ _ Hm) as Hpl. pose proof (pd_tl16 _ _ Hm) as Htl. set (hl := Z.to_nat (headerLength meta)).
  apply wp_bind. eapply wp_mono; [by apply header_stage|]. cbv zeta. fold p hl. intros [[[h4 p6] r']|] buf1.
  2: { intros ->. by apply wp_ret; split_and!. }
  intros (-> & -> & Hst & Hh). apply wp_bind. eapply wp_mono; [exact Hh|]. cbv beta. clear Hh h4 buf1.
  intros ? b2 (-> & Hl2 & Hb2 & Hd2). set (s := new_start reserved meta) in *. unfold MessageTransportHeaderSize in Hst.
  set (pl := Z.to_nat (payloadLength meta)).
  assert (Hpk2 : packet_at b2 s (if isFragmented meta then pl + 8 else pl)%nat).
  { apply (v6_image_packet _ _ (drop hl p) (take hl p)); rewrite ?length_drop, ?length_take; try done; try lia.
    apply bytes_ok_at. auto with bytes. }
  pose proof (pk_room _ _ _ Hpk2) as Hroom2.
  assert (Hs : s = (new_reserved reserved meta + 16)%nat) by done.
  cbv beta iota. destruct (Z.eqb_spec (v6_protocol meta) ICMPv6ProtocolNumber) as [Ei|Ei].
  - assert (Ep4 : protocol meta = ICMPv4ProtocolNumber).
    { revert Ei. unfold v6_protocol. destruct (Z.eqb_spec (protocol meta) ICMPv4ProtocolNumber) as [|Hne]; [done|]. intros Ep4.
      pose proof (pd_allowed _ _ Hm) as Ha. by rewrite Ep4 in Ha. }
    destruct (pd_icmp _ _ Hm Ep4) as [Ef H8]. rewrite Ef in Hpk2, Hroom2.
    assert (Er40 : room meta = 40%nat) by (unfold room; by rewrite Ef).
    apply wp_bind. eapply wp_mono; [apply (ICMPTransport_wp _ (new_reserved reserved meta) s (length buf) pl b2); try done; try lia|].
    { intros Hlt. exists meta. split_and!; [done|done|]. lia. }
    cbv beta. intros [p6 r'] b3 (Hl3 & Hb3 & s' & e & pl' & Hr' & Hp6 & He & Hen & Hpk3). cbn [fst snd] in *. subst p6.
    apply wp_bind. eapply wp_mono; [apply (UpdateTransportChecksum_wp _ s' e (length buf) pl'); try done; try lia|].
    cbv beta. intros ok b4 F4. destruct (F4) as (Hl4 & Hb4 & _). destruct ok; apply wp_ret; cbn [fst snd]; (split; [congruence|split; [done|]]); [|done].
    exists pl'. rewrite Hr'. eapply packet_at_frame; [exact F4|lia|done].
  - apply wp_bind, wp_ret. cbv beta iota. apply wp_bind.
    eapply wp_mono; [apply (UpdateTransportChecksum_wp _ s (length buf) (length buf) (if isFragmented meta then pl + 8 else pl)%nat); try done; try lia|].
    cbv beta. intros ok b4 F4. destruct (F4) as (Hl4 & Hb4 & _). destruct ok; apply wp_ret; cbn [fst snd]; (split; [congruence|split; [done|]]); [|done].
    eexists. eapply packet_at_frame; [exact F4| |exact Hpk2]. unfold s, new_start, MessageTransportHeaderSize. lia.
Qed.

(** C22: The IPv4-to-IPv6 translator never slices out of range, unless the packet
    is an ICMP message followed by bytes that are not its own. It returns a
    buffer of the same length: untouched if the packet was left alone, with a
    whole IPv6 packet at the new start if it was translated. *)
Theorem SIIT46_contract reserved buf :
  bytes_ok buf ->
  let p := drop (reserved + MessageTransportHeaderSize) buf in
  wp (trailing_icmp p) (SIIT46InPlaceTranslate reserved) (fun r buf' =>
    length buf' = length buf /\ bytes_ok buf'
    /\ match r.1 with
       | SIIT46Untranslated => parseSIIT46IPv4Packet p = None /\ buf' = buf /\ r.2 = reserved
       | SIIT46Dropped => True
       | SIIT46Translated => exists pl, packet_at buf' (r.2 + MessageTransportHeaderSize) pl
       end) buf.
Proof. apply SIIT46_wp. Qed.
End siit46.

(** * Witnesses *)

(** UDP from 192.0.0.1 to 8.8.8.8. *)
Definition v4_udp : bytes :=
  [69; 0; 0; 28; 0; 0; 0; 0; 64; 17; 170; 192; 192; 0; 0; 1; 8; 8; 8; 8; 48; 57; 0; 53; 0; 8; 18; 52].
(** The answer, as a quote. *)
Definition v4_quote : bytes :=
  [69; 0; 0; 28; 0; 0; 0; 0; 64; 17; 170; 192; 8; 8; 8; 8; 192; 0; 0; 1; 0; 53; 48; 57; 0; 8; 18; 52].
(** A port unreachable with that quote, and one without a quote that is followed
    by the same bytes. *)
Definition v4_unreachable : bytes :=
  [69; 0; 0; 56; 0; 0; 0; 0; 64; 1; 170; 180; 192; 0; 0; 1; 8; 8; 8; 8; 3; 3; 186; 82; 0; 0; 0; 0] ++ v4_quote.
Definition v4_trailing : bytes :=
  [69; 0; 0; 28; 0; 0; 0; 0; 64; 1; 170; 208; 192; 0; 0; 1; 8; 8; 8; 8; 3; 3; 252; 252; 0; 0; 0; 0] ++ v4_quote.
Definition in_buffer (p : bytes) : bytes := repeat 0 64 ++ p.
Definition translated46 (p : bytes) : option (SIIT46Result * bytes) :=
  '(res, r, buf) ← SIIT46InPlaceTranslate 48 (in_buffer p); Some (res, drop (r + 16) buf).

Example udp_translated :
  translated46 v4_udp = Some (SIIT46Translated,
    [96; 0; 0; 0; 0; 8; 17; 64] ++ (take 12 SIITPrefix ++ [192; 0; 0; 1]) ++ (take 12 SIITPrefix ++ [8; 8; 8; 8])
    ++ [48; 57; 0; 53; 0; 8; 18; 52]).
Proof. vm_compute. reflexivity. Qed.
Example unreachable_translated :
  (fun r => (r.1, take 8 r.2, slice r.2 40 42, slice r.2 48 56, length r.2)) <$> translated46 v4_unreachable
  = Some (SIIT46Translated, [96; 0; 0; 0; 0; 56; 58; 64], [1; 4], [96; 0; 0; 0; 0; 8; 17; 64], 96%nat).
Proof. vm_compute. reflexivity. Qed.
Example trailing_panics : translated46 v4_trailing = None.
Proof. vm_compute. reflexivity. Qed.

Definition unreachable_buffer : bytes := in_buffer v4_unreachable.
Lemma unreachable_alone : ~ trailing_icmp (drop (48 + MessageTransportHeaderSize) unreachable_buffer).
Proof.
  assert (E : (fun m => totalLength m <? 56) <$> parseSIIT46IPv4Packet (drop (48 + MessageTransportHeaderSize) unreachable_buffer) = Some false)
    by (vm_compute; reflexivity).
  assert (El : length (drop (48 + MessageTransportHeaderSize) unreachable_buffer) = 56%nat) by (vm_compute; reflexivity).
  intros (meta & Hm & _ & Hlt). rewrite Hm in E. rewrite El in Hlt. cbn in E. injection E as E. lia.
Qed.
Lemma SIIT46_contract_witness :
  exists r buf', SIIT46InPlaceTranslate 48 unreachable_buffer = Some ((SIIT46Translated, r), buf')
    /\ length buf' = length unreachable_buffer /\ exists pl, packet_at buf' (r + 16) pl.
Proof.
  assert (Hb : bytes_ok unreachable_buffer) by decide_closed.
  pose proof (SIIT46_contract 48 unreachable_buffer Hb) as Hc. cbv zeta in Hc. unfold wp in Hc.
  assert (Er : (fun x => fst (fst x)) <$> SIIT46InPlaceTranslate 48 unreachable_buffer = Some SIIT46Translated) by (vm_compute; reflexivity).
  revert Hc Er. pose proof unreachable_alone as Ha. revert Ha. generalize unreachable_buffer. intros b Ha.
  destruct (SIIT46InPlaceTranslate 48 b) as [[[res r] buf']|]; [|done].
  intros Hc Er. cbn in Er. injection Er as ->. destruct Hc as (Hl & _ & Hpk). by exists r, buf'.
Defined.
