(* ===== verification/Siit46Image.v ===== *)
(** What [siit46.go] makes of a packet that is no ICMP message: the exact bytes,
    and that its checksum stays right. *)

From S2P Require Import Prelude Clat SiitBuf Siit46.


Section image.
Context `{GH : GvisorHeader}.

(** The prefix is checksum neutral: its words add up to 0xffff. *)
Lemma delta_ones : siit46TransportChecksumDelta = 0xffff.
Proof.
  unfold siit46TransportChecksumDelta, siitPrefixChecksum. rewrite Checksum_spec by (decide_closed || lia).
  rewrite Combine_spec by (vm_compute; done). reflexivity.
Qed.

(** The checksum field after the update: what it was, but for one of the two
    zeros. *)
Definition normal (c : Z) : Z := if c =? 0xffff then 0 else c.
Lemma partial_normal c : 0 <= c < 2 ^ 16 -> not16 (Combine (not16 c) siit46TransportChecksumDelta) = normal c.
Proof.
  intros Hc. rewrite delta_ones. rewrite Combine_spec by (unfold not16; lia). unfold not16, normal.
  destruct (Z.eqb_spec c 0xffff) as [->|]; [reflexivity|]. Z.to_euclidean_division_equations. lia.
Qed.

(** Where a transport of [n] bytes has its checksum. *)
Definition checksum_field (proto : Z) (n : nat) : option nat :=
  if proto =? TCPProtocolNumber then if (n <? TCPMinimumSize)%nat then None else Some TCPChecksumOffset
  else if proto =? DCCPProtocolNumber then if (n <? DCCPMinimumSize)%nat then None else Some DCCPChecksumOffset
  else if proto =? UDPProtocolNumber then if (n <? UDPMinimumSize)%nat then None else Some 6%nat
  else None.
Lemma checksum_field_bound proto n off : checksum_field proto n = Some off -> (6 <= off)%nat /\ (off + 2 <= n)%nat /\ Nat.Even off.
Proof.
  unfold checksum_field, TCPMinimumSize, DCCPMinimumSize, UDPMinimumSize, TCPChecksumOffset, DCCPChecksumOffset.
  repeat case_match; intros [= <-]; simpl_bool; (split_and!; [lia|lia|]); [by exists 8%nat|by exists 3%nat|by exists 3%nat].
Qed.
(** A UDP datagram sent without a checksum. *)
Definition unchecked (meta : siit46IPv4Metadata) (t : bytes) : bool :=
  (fragmentOffset meta =? 0) && (protocol meta =? UDPProtocolNumber) && (UDPMinimumSize <=? length t)%nat
  && (be16 (slice t 6 8) =? 0).
Definition v6_addresses (h : bytes) : bytes := (take 12 SIITPrefix ++ slice h 12 16) ++ (take 12 SIITPrefix ++ slice h 16 20).
(** The transport of the translated packet. *)
Definition translated_transport (h : bytes) (meta : siit46IPv4Metadata) (t : bytes) : bytes :=
  if unchecked meta t then patch t 6 (put16 (pseudo6 (v6_addresses h) t UDPProtocolNumber))
  else if negb (fragmentOffset meta =? 0) then t
  else
    match checksum_field (protocol meta) (length t) with
    | Some off => patch t off (put16 (normal (be16 (slice t off (off + 2)))))
    | None => t
    end.

Lemma makeRoom_some P reserved p meta buf :
  parsed p meta -> p = drop (reserved + MessageTransportHeaderSize) buf -> (reserved + MessageTransportHeaderSize <= length buf)%nat ->
  (room meta <= reserved)%nat -> (reserved - room meta + Z.to_nat (headerLength meta) <= 255)%nat ->
  wp P (makeRoomForIPv6Header reserved meta) (fun o _ => is_Some o) buf.
Proof.
  intros Hp Ep Hn Hr H255. assert (Hlp : length p = (length buf - (reserved + 16))%nat) by (rewrite Ep; apply length_drop).
  pose proof (pd_hl20 _ _ Hp) as H20. pose proof (pd_hltl _ _ Hp) as Hhl. pose proof (pd_len _ _ Hp) as Hlen.
  unfold makeRoomForIPv6Header, MessageTransportHeaderSize in *.
  change (IPv6FixedHeaderSize + (if isFragmented meta then IPv6FragmentHeaderSize else 0))%nat with (room meta).
  set (hl := Z.to_nat (headerLength meta)) in *. apply wp_bind, wp_buffer_len.
  destruct ((length buf <? reserved)%nat || _)%bool eqn:E1; [rewrite ?orb_true_iff, ?Nat.ltb_lt in E1; lia|].
  destruct (((reserved <? room meta)%nat || _) || _)%bool eqn:E2; [rewrite !orb_true_iff, !Nat.ltb_lt in E2; lia|].
  rewrite orb_false_iff, !Nat.ltb_ge in E1. clear E2.
  apply wp_bind, wp_sub; [lia|cbn; lia|]. apply wp_bind, wp_from; [unfold s_len; cbn; lia|unfold s_ok; cbn; lia|].
  cbv zeta. destruct (length buf <? _ + 16)%nat eqn:E3; [apply Nat.ltb_lt in E3; lia|].
  apply wp_bind, wp_sub; [lia|cbn; lia|]. by apply wp_bind, wp_copy, wp_ret.
Qed.

(** The checksum stage on a packet whose header and transport are known. *)
Lemma transport_stage P s n meta (h t tail buf : bytes) :
  n = length buf -> bytes_ok buf -> (s <= n)%nat -> (20 <= length h)%nat ->
  drop s buf = v6_image h meta ++ t ++ tail -> length t = Z.to_nat (payloadLength meta) ->
  (isFragmented meta = false -> fragmentOffset meta = 0) -> protocol meta <> ICMPv4ProtocolNumber -> protocol meta <> ICMPv6ProtocolNumber ->
  wp P (siit46UpdateTransportChecksum (mkSlice s n) meta (if isFragmented meta then fragmentOffset meta else 0) (v6_protocol meta))
    (fun ok buf' =>
       ok = negb (unchecked meta t && isFragmented meta)
       /\ (ok = true -> drop s buf' = v6_image h meta ++ translated_transport h meta t ++ tail)) buf.
Proof.
  intros Hn Hb Hs Hh Hd Ht Hfo H4 H6. set (img := v6_image h meta) in *. assert (Hi : length img = room meta) by (by apply length_v6_image).
  assert (Hr40 : (40 <= room meta)%nat) by (unfold room, IPv6FixedHeaderSize; lia).
  assert (Hlen : (s + room meta + length t <= n)%nat).
  { apply (f_equal length) in Hd. rewrite length_drop, !length_app in Hd. lia. }
  assert (Etr : slice buf (s + room meta) (s + room meta + length t) = t).
  { rewrite <- Nat.add_assoc, <- slice_drop_eq, Hd. rewrite <- Hi. unfold slice. rewrite drop_app_length.
    replace (length img + length t - length img)%nat with (length t) by lia. apply take_app_length. }
  assert (Ead : slice buf (s + 8) (s + 40) = v6_addresses h).
  { rewrite <- slice_drop_eq, Hd. unfold img, v6_image. unfold v6_addresses.
    assert (H12 : length (slice h 12 16) = 4%nat) by (rewrite length_slice; lia).
    assert (H16 : length (slice h 16 20) = 4%nat) by (rewrite length_slice; lia).
    explicit4 (slice h 12 16). explicit4 (slice h 16 20). reflexivity. }
  assert (Htok : bytes_ok t) by (rewrite <- Etr; auto with bytes).
  assert (Epro : v6_protocol meta = protocol meta) by (unfold v6_protocol; by destruct (Z.eqb_spec (protocol meta) ICMPv4ProtocolNumber)).
  assert (Efo : (if isFragmented meta then fragmentOffset meta else 0) = fragmentOffset meta) by (destruct (isFragmented meta); [done|symmetry; auto]).
  rewrite Epro, Efo. unfold siit46UpdateTransportChecksum, translated_transport.
  destruct (fragmentOffset meta =? 0) eqn:Ef0; cbn [negb]; [|apply wp_ret; unfold unchecked; by rewrite Ef0].
  apply wp_bind, wp_ask. rewrite (proj2 (Z.eqb_neq (protocol meta) ICMPv6ProtocolNumber)) by done.
  change (IPv6FixedHeaderSize + (if isFragmented meta then IPv6FragmentHeaderSize else 0))%nat with (room meta).
  rewrite <- Ht. apply wp_bind, wp_sub; [lia|cbn [s_lo]; lia|]. cbn [s_lo].
  set (tr := mkSlice _ _). assert (Hsl : s_len tr = length t) by (unfold s_len, tr; cbn [s_lo s_hi]; lia).
  assert (Epatch : forall off new, (off + length new <= length t)%nat ->
    drop s (patch buf (s + room meta + off) new) = img ++ patch t off new ++ tail).
  { intros off new Ho. rewrite drop_patch by lia. replace (s + room meta + off - s)%nat with (length img + off)%nat by lia.
    rewrite Hd, patch_app_r, patch_app_l by done. done. }
  assert (Hpart : forall m off, checksum_field (protocol meta) (length t) = (if (length t <? m)%nat then None else Some off) ->
    unchecked meta t = false ->
    wp P (if (s_len tr <? m)%nat then mret true else siit46PartialUpdateTransportChecksum tr off;; mret true)
      (fun ok buf' => ok = negb (unchecked meta t && isFragmented meta) /\ (ok = true -> drop s buf' = img ++
         (if unchecked meta t then patch t 6 (put16 (pseudo6 (v6_addresses h) t UDPProtocolNumber))
          else match checksum_field (protocol meta) (length t) with
               | Some off => patch t off (put16 (normal (be16 (slice t off (off + 2))))) | None => t end) ++ tail)) buf).
  { intros m off Hck Hun. rewrite Hun, Hsl. rewrite Hck. cbn [andb negb]. destruct (length t <? m)%nat eqn:Em; [by apply wp_ret|].
    destruct (checksum_field_bound _ _ _ Hck) as (Ho6 & Ho & _).
    apply wp_bind. unfold siit46PartialUpdateTransportChecksum. apply wp_bind, wp_sub; [lia|cbn [s_lo tr]; lia|].
    apply wp_bind, wp_ask. cbn [s_lo s_hi tr].
    assert (Eold : slice buf (s + room meta + off) (s + room meta + (off + 2)) = slice t off (off + 2)).
    { rewrite <- Etr, slice_slice by lia. done. }
    rewrite Eold, partial_normal by (apply be16_bound; auto with bytes).
    apply wp_put; [rewrite Hsl; cbn; lia|]. apply wp_ret. split; [done|]. intros _. cbn [s_lo tr]. by rewrite Epatch by (cbn; lia). }
  cbv zeta.
  assert (Hun : protocol meta <> UDPProtocolNumber -> unchecked meta t = false).
  { intros Hne. unfold unchecked. rewrite (proj2 (Z.eqb_neq (protocol meta) UDPProtocolNumber)) by done. by rewrite andb_false_r. }
  destruct (Z.eqb_spec (protocol meta) TCPProtocolNumber) as [E|]; [apply Hpart; [unfold checksum_field; by rewrite E|apply Hun; by rewrite E]|].
  destruct (Z.eqb_spec (protocol meta) DCCPProtocolNumber) as [E|]; [apply Hpart; [unfold checksum_field; by rewrite E|apply Hun; by rewrite E]|].
  destruct (Z.eqb_spec (protocol meta) UDPProtocolNumber) as [E|];
    [|apply wp_ret; rewrite Hun by done; split; [done|]; intros _; rewrite Hd; unfold checksum_field;
     by repeat (rewrite (proj2 (Z.eqb_neq _ _)) by done)].
  destruct (s_len tr <? UDPMinimumSize)%nat eqn:E8.
  { rewrite Hsl in E8. assert (Hg : (UDPMinimumSize <=? length t)%nat = false) by (by apply Nat.leb_gt, Nat.ltb_lt).
    apply wp_ret. unfold unchecked, checksum_field. rewrite Hg, E8, andb_false_r, E. split; [done|]. by intros _. }
  rewrite Hsl in E8. simpl_bool. unfold UDPMinimumSize in E8.
  apply wp_bind, wp_load; [lia|]. apply wp_bind, wp_load; [lia|]. cbn [s_lo tr].
  assert (Eb : forall i, (i < length t)%nat -> byte_at buf (s + room meta + i) = byte_at t i).
  { intros i Hlt. rewrite <- Etr, byte_at_slice by lia. done. }
  rewrite !Eb by lia.
  assert (Ezero : (Z.lor (byte_at t 7) (byte_at t 6) =? 0) = (be16 (slice t 6 8) =? 0)).
  { unfold be16. rewrite !byte_at_slice by lia. change (6 + 0)%nat with 6%nat. change (6 + 1)%nat with 7%nat.
    pose proof (bytes_ok_at t 6 Htok) as B6. pose proof (bytes_ok_at t 7 Htok) as B7. unfold is_byte in *.
    apply eq_true_iff_eq. rewrite !Z.eqb_eq, Z.lor_eq_0_iff. lia. }
  assert (Eun : unchecked meta t = (be16 (slice t 6 8) =? 0)).
  { unfold unchecked. rewrite Ef0, E, Z.eqb_refl. rewrite (proj2 (Nat.leb_le UDPMinimumSize (length t))) by (unfold UDPMinimumSize; lia). done. }
  rewrite Ezero. destruct (be16 (slice t 6 8) =? 0) eqn:Ez; cbn [negb].
  - rewrite Eun. cbn [andb]. destruct (isFragmented meta); [by apply wp_ret|].
    apply wp_bind, wp_sub; [win_lia|win_lia|]. apply wp_bind, wp_ask. cbn [s_lo s_hi].
    assert (Ead' : slice buf (s + IPv6SourceAddressOffset) (s + (IPv6SourceAddressOffset + IPv6AddressSize * 2)) = v6_addresses h)
      by (rewrite <- Ead; f_equal; win_lia).
    rewrite Ead'. apply wp_bind. eapply (wp_modify _ _ _ 6 (put16 (pseudo6 (v6_addresses h) t UDPProtocolNumber))); cbn [s_lo s_hi].
    + unfold s_ok, tr. cbn [s_lo s_hi]. lia.
    + rewrite Hsl, length_put16. lia.
    + unfold tr. cbn [s_lo s_hi]. rewrite Nat.add_assoc, Etr. apply udp_SetChecksum_spec. lia.
    + apply wp_ret. split; [done|]. intros _. cbn [s_lo tr]. rewrite Epatch; [done|rewrite length_put16; lia].
  - assert (H8 : (length t <? 8)%nat = false) by (apply Nat.ltb_ge; lia).
    pose proof (Hpart 8%nat 6%nat) as Hp. rewrite Hsl, H8 in Hp.
    apply Hp; [unfold checksum_field, UDPMinimumSize; rewrite E, H8; done|exact Eun].
Qed.

(** ** Checksums *)

Lemma normal_sum c : 0 <= c < 2 ^ 16 -> same_sum (normal c) c /\ 0 <= normal c < 2 ^ 16.
Proof. intros Hc. unfold normal. destruct (Z.eqb_spec c 0xffff) as [->|]; [done|split; [done|lia]]. Qed.

Lemma pseudo6_sum addrs t proto :
  bytes_ok addrs -> bytes_ok t -> 0 <= proto < 2 ^ 16 -> Z.of_nat (length t) < 2 ^ 16 ->
  0 <= pseudo6 addrs t proto < 2 ^ 16
  /\ same_sum (pseudo6 addrs t proto + (words_sum addrs + Z.of_nat (length t) + proto + words_sum t)) 0.
Proof.
  intros Ha Ht Hp Hl. unfold pseudo6. pose proof (words_sum_nonneg _ Ha) as Na. pose proof (words_sum_nonneg _ Ht) as Nt.
  rewrite !Checksum_spec by (done || lia). rewrite !Z.add_0_l.
  destruct (folded_sum _ Na) as [Sa Ba]. destruct (folded_sum _ Nt) as [St Bt].
  assert (El : u16 (Z.of_nat (length t)) = Z.of_nat (length t)) by (unfold u16; rewrite Z.mod_small; lia). rewrite El.
  set (L := Z.of_nat (length t)) in *. assert (BL : 0 <= L < 2 ^ 16) by lia.
  pose proof (Combine_range _ _ Ba BL) as B1. pose proof (Combine_range _ _ B1 Hp) as B2. pose proof (Combine_range _ _ B2 Bt) as B3.
  match goal with |- context [not16 ?x] => set (S3 := x) in * end. split; [unfold not16; lia|].
  assert (HS : same_sum S3 (words_sum addrs + L + proto + words_sum t)).
  { eapply same_sum_trans; [by apply Combine_sum|]. apply same_sum_add; [|done].
    eapply same_sum_trans; [by apply Combine_sum|]. apply same_sum_add; [|done].
    eapply same_sum_trans; [by apply Combine_sum|]. by apply same_sum_add. }
  eapply same_sum_trans; [apply same_sum_add; [apply same_sum_not16|]; symmetry; exact HS|]. by rewrite Z.add_opp_diag_l.
Qed.

Lemma v6_addresses_sum h : (20 <= length h)%nat -> same_sum (words_sum (v6_addresses h)) (words_sum (slice h 12 20)).
Proof.
  intros Hh. assert (E : slice h 12 20 = slice h 12 16 ++ slice h 16 20).
  { unfold slice. change (drop 16 h) with (drop (12 + 4) h). rewrite <- drop_drop. symmetry. apply take_take_drop. }
  unfold v6_addresses. rewrite E. assert (H12 : length (slice h 12 16) = 4%nat) by (rewrite length_slice; lia).
  assert (H16 : length (slice h 16 20) = 4%nat) by (rewrite length_slice; lia).
  explicit4 (slice h 12 16). explicit4 (slice h 16 20). cbn [take SIITPrefix repeat app words_sum].
  unfold same_sum. match goal with |- ?x mod _ = ?y mod _ => replace x with (y + 2 * (2 ^ 16 - 1)) by lia end.
  by rewrite Z.mod_add by lia.
Qed.

(** The checksum over the pseudo header and the transport is as right, or as
    wrong, as it was. *)
Lemma transport_neutral h meta t off :
  bytes_ok h -> (20 <= length h)%nat -> bytes_ok t -> Z.of_nat (length t) < 2 ^ 16 ->
  fragmentOffset meta = 0 -> checksum_field (protocol meta) (length t) = Some off ->
  if unchecked meta t then
    same_sum (words_sum (v6_addresses h) + Z.of_nat (length t) + UDPProtocolNumber + words_sum (translated_transport h meta t)) 0
  else
    same_sum (words_sum (v6_addresses h) + words_sum (translated_transport h meta t)) (words_sum (slice h 12 20) + words_sum t).
Proof.
  intros Hh H20 Ht Hl Hfo Hck. destruct (checksum_field_bound _ _ _ Hck) as (H6 & Hoff & He).
  unfold translated_transport. rewrite Hck, Hfo. cbn [Z.eqb negb].
  assert (Hc : 0 <= be16 (slice t off (off + 2)) < 2 ^ 16) by (apply be16_bound; auto with bytes).
  destruct (unchecked meta t) eqn:Eu.
  - assert (Ead : bytes_ok (v6_addresses h)).
    { unfold v6_addresses. assert (bytes_ok (take 12 SIITPrefix)) by decide_closed. rewrite !bytes_ok_app. split_and!; auto with bytes. }
    destruct (pseudo6_sum (v6_addresses h) t UDPProtocolNumber) as [Hb Hs]; [done|done|done|done|].
    unfold unchecked in Eu. simpl_bool. rewrite words_sum_patch by (done || (by exists 3%nat) || lia).
    change (6 + 2)%nat with 8%nat. replace (be16 (slice t 6 8)) with 0 by lia.
    match goal with |- same_sum ?x 0 => replace x with
      (pseudo6 (v6_addresses h) t UDPProtocolNumber + (words_sum (v6_addresses h) + Z.of_nat (length t) + UDPProtocolNumber + words_sum t)) by lia end.
    exact Hs.
  - destruct (normal_sum _ Hc) as [Hs Hb]. rewrite words_sum_patch by done.
    apply same_sum_add; [by apply v6_addresses_sum|]. set (c := be16 _) in *.
    replace (words_sum t) with (words_sum t - c + c) at 2 by lia. by apply same_sum_add.
Qed.

(** C23: A packet other than ICMP that has the headroom translates to the bytes of
    RFC 7915: the IPv6 header (with a fragment header when it is a fragment),
    then its payload unchanged but for the checksum field, then whatever followed
    it. The transport checksum is as right as it was, and a UDP datagram sent
    without one gets it; only the first fragment of such a datagram is dropped. *)
Theorem SIIT46_transport_exact reserved buf meta
  (Hb : bytes_ok buf) (Hm : parseSIIT46IPv4Packet (drop (reserved + MessageTransportHeaderSize) buf) = Some meta)
  (H4 : protocol meta <> ICMPv4ProtocolNumber) (Hroom : (room meta <= reserved)%nat) (H255 : (new_reserved reserved meta <= 255)%nat) :
  let p := drop (reserved + MessageTransportHeaderSize) buf in
  let h := take (Z.to_nat (headerLength meta)) p in
  let t := slice p (Z.to_nat (headerLength meta)) (Z.to_nat (totalLength meta)) in
  exists buf',
    if unchecked meta t && isFragmented meta
    then SIIT46InPlaceTranslate reserved buf = Some ((SIIT46Dropped, new_reserved reserved meta), buf')
    else
      SIIT46InPlaceTranslate reserved buf = Some ((SIIT46Translated, new_reserved reserved meta), buf')
      /\ drop (new_start reserved meta) buf' = v6_image h meta ++ translated_transport h meta t ++ drop (Z.to_nat (totalLength meta)) p
      /\ (forall off, fragmentOffset meta = 0 -> checksum_field (protocol meta) (length t) = Some off ->
            if unchecked meta t
            then same_sum (words_sum (v6_addresses h) + Z.of_nat (length t) + UDPProtocolNumber
                           + words_sum (translated_transport h meta t)) 0
            else same_sum (words_sum (v6_addresses h) + words_sum (translated_transport h meta t))
                          (words_sum (slice h 12 20) + words_sum t)).
Proof.
  cbv zeta. set (p := drop _ _) in *. set (hl := Z.to_nat (headerLength meta)). set (tl := Z.to_nat (totalLength meta)).
  set (h := take hl p). set (t := slice p hl tl).
  assert (Hp : bytes_ok p) by (unfold p; auto with bytes). pose proof (parse_ok p meta Hp Hm) as Hpd.
  assert (Hlp : length p = (length buf - (reserved + 16))%nat) by apply length_drop.
  pose proof (pd_hl20 _ _ Hpd) as H20. pose proof (pd_hltl _ _ Hpd) as Hhl. pose proof (pd_len _ _ Hpd) as Hlen.
  pose proof (pd_pl _ _ Hpd) as Hpl. pose proof (pd_tl16 _ _ Hpd) as Htl.
  assert (Hn : (reserved + 16 <= length buf)%nat) by lia.
  assert (Hh : length h = hl) by (unfold h; rewrite length_take; lia).
  assert (Ht : length t = Z.to_nat (payloadLength meta)) by (unfold t; rewrite length_slice; lia).
  assert (Hd : drop hl p = t ++ drop tl p).
  { unfold t, slice. rewrite <- (take_drop (tl - hl) (drop hl p)) at 1. f_equal. rewrite drop_drop. f_equal. lia. }
  assert (H6 : protocol meta <> ICMPv6ProtocolNumber).
  { pose proof (pd_allowed _ _ Hpd) as Ha. intros E. by rewrite E in Ha. }
  assert (Hfo : isFragmented meta = false -> fragmentOffset meta = 0).
  { rewrite (pd_frag _ _ Hpd). intros [_ E]%orb_false_iff. by apply negb_false_iff, Z.eqb_eq in E. }
  assert (Hw : wp False (SIIT46InPlaceTranslate reserved) (fun r buf' =>
     r = (if unchecked meta t && isFragmented meta then SIIT46Dropped else SIIT46Translated, new_reserved reserved meta)
     /\ (unchecked meta t && isFragmented meta = false ->
         drop (new_start reserved meta) buf' = v6_image h meta ++ translated_transport h meta t ++ drop tl p)) buf).
  { unfold SIIT46InPlaceTranslate, MessageTransportHeaderSize in *. apply wp_bind, wp_buffer_len.
    destruct ((length buf <? reserved)%nat || _)%bool eqn:E0; [rewrite orb_true_iff, !Nat.ltb_lt in E0; lia|].
    apply wp_bind, wp_ask. cbn [s_lo s_hi].
    assert (Ep : slice buf (reserved + 16) (length buf) = p) by (unfold slice, p; apply take_ge; rewrite length_drop; lia).
    rewrite Ep, Hm. apply wp_bind. eapply wp_mono.
    { apply wp_and; [by apply (header_stage False reserved meta buf)|].
      by apply (makeRoom_some False reserved p); try done; unfold MessageTransportHeaderSize. }
    cbv zeta beta. intros [[[h4 p6] r']|] buf1 [Hst [? [=]]].
    unfold MessageTransportHeaderSize in Hst. fold p hl h in Hst.
    destruct Hst as (-> & -> & Hst & Hhd). apply wp_bind. eapply wp_mono; [exact Hhd|]. cbv beta.
    intros ? b2 (-> & Hl2 & Hb2 & Hd2). rewrite Hd in Hd2. cbv beta iota.
    assert (Ev : (v6_protocol meta =? ICMPv6ProtocolNumber) = false).
    { unfold v6_protocol. rewrite (proj2 (Z.eqb_neq (protocol meta) ICMPv4ProtocolNumber)) by done. by apply Z.eqb_neq. }
    rewrite Ev. apply wp_bind, wp_ret. cbv beta iota. apply wp_bind.
    eapply wp_mono; [apply (transport_stage False (new_start reserved meta) (length buf) meta h t (drop tl p) b2); done || lia|].
    cbv beta. intros ok b3 [-> Hd3]. destruct (unchecked meta t && isFragmented meta) eqn:Eu; cbn [negb] in *; apply wp_ret.
    - by split.
    - split; [done|]. intros _. by apply Hd3. }
  unfold wp in Hw. destruct (SIIT46InPlaceTranslate reserved buf) as [[r buf']|]; [|done]. destruct Hw as [-> Hw]. exists buf'.
  destruct (unchecked meta t && isFragmented meta); [done|]. split_and!; [done|by apply Hw|].
  intros off Hf Hck. apply (transport_neutral h meta t off); unfold h, t; auto with bytes; fold h t; try done; lia.
Qed.
End image.

(** * Witness *)

(** A UDP datagram sent without a checksum gets one. *)
Definition v4_unchecked : bytes := take 26 v4_udp ++ [0; 0].
Lemma SIIT46_transport_exact_witness :
  exists buf', SIIT46InPlaceTranslate 48 (in_buffer v4_unchecked) = Some ((SIIT46Translated, 28%nat), buf')
    /\ slice (drop 44 buf') 46 48 = [255; 94].
Proof.
  assert (Hb : bytes_ok (in_buffer v4_unchecked)) by decide_closed.
  destruct (parseSIIT46IPv4Packet (drop (48 + MessageTransportHeaderSize) (in_buffer v4_unchecked))) as [meta|] eqn:Em; [|by vm_compute in Em].
  vm_compute in Em. injection Em as <-.
  destruct (SIIT46_transport_exact 48 (in_buffer v4_unchecked) (mkMeta 20 28 8 17 0 0 false) Hb) as [buf' Hx];
    [vm_compute; reflexivity|done|decide_closed|decide_closed|].
  exists buf'. destruct Hx as (E & Hd & _). split; [exact E|].
  change (new_start 48 (mkMeta 20 28 8 17 0 0 false)) with 44%nat in Hd. rewrite Hd. vm_compute. reflexivity.
Defined.
