(* ===== verification/Siit64.v ===== *)
(** [internal/clat/siit64.go]: the in-place translation of an IPv6 packet to
    IPv4, over the buffer of [SiitBuf]. The fragment header is a slice of the
    buffer that the new header overwrites. *)

From S2P Require Import Prelude Clat SiitBuf Siit46.

(** * Constants *)

Definition IPv6Version : Z := 6.
Definition IPv6ExtensionHeaderSizeMultiple : nat := 8.
Definition IPv6ExtensionHeaderMinimumSize : nat := IPv6ExtensionHeaderSizeMultiple.
Definition IPv6ExtensionHeaderHeaderExtensionLengthOffset : nat := 1.
Definition IPv6RoutingExtensionHeaderSegmentsLeftOffset : nat := 3.
Definition IPv6FragmentExtensionHeaderReservedOffset : nat := 1.
Definition IPv6FragmentExtensionHeaderFlagReserved : Z := 6.

Definition isIPv6ExtensionHeader (nextHeader : Z) : bool :=
  one_of nextHeader [IPv6HopByHopOptionsExtHdrIdentifier; IPv6RoutingExtHdrIdentifier; IPv6FragmentExtHdrIdentifier;
    IPv6DestinationOptionsExtHdrIdentifier].
Definition isTransportProtocolForbiddenForIPv6 (protocol : Z) : bool :=
  one_of protocol [IPv6HopByHopOptionsExtHdrIdentifier; ICMPv4ProtocolNumber; IGMPProtocolNumber; IPv6RoutingExtHdrIdentifier;
    IPv6FragmentExtHdrIdentifier; IPsecAuthenticationHeaderProtocolNumber; IPv6DestinationOptionsExtHdrIdentifier;
    IPv6MobilityExtHdrIdentifier; HIPProtocolNumber; Shim6ProtocolNumber].

Definition isICMPv6PacketHeaderTranslatable (icmpv6Type icmpv6Code : Z) (restOfHeader : bytes) : bool :=
  let r := byte_at restOfHeader in
  if one_of icmpv6Type [ICMPv6EchoRequest; ICMPv6EchoReply] then icmpv6Code =? ICMPv6UnusedCode
  else if icmpv6Type =? ICMPv6DstUnreachable then
    one_of icmpv6Code [ICMPv6NetworkUnreachable; ICMPv6Prohibited; ICMPv6BeyondScope; ICMPv6AddressUnreachable; ICMPv6PortUnreachable]
  else if icmpv6Type =? ICMPv6PacketTooBig then (icmpv6Code =? ICMPv6UnusedCode) && (Z.lor (r 0%nat) (r 1%nat) =? 0)
  else if icmpv6Type =? ICMPv6TimeExceeded then one_of icmpv6Code [ICMPv6HopLimitExceeded; ICMPv6ReassemblyTimeout]
  else if icmpv6Type =? ICMPv6ParamProblem then
    (icmpv6Code =? ICMPv6ErroneousHeader) && (Z.lor (Z.lor (r 0%nat) (r 1%nat)) (r 2%nat) =? 0)
    && ((r 3%nat <=? 1) || (4 <=? r 3%nat) && (r 3%nat <=? 39))
    || (icmpv6Code =? ICMPv6UnknownHeader) && (Z.lor (Z.lor (Z.lor (r 0%nat) (r 1%nat)) (r 2%nat)) (r 3%nat) =? 0)
  else false.

(** * What is translated *)

(** The answer of the parsers when they say yes: where the fragment header is,
    if there is one, and the payload. *)
Record Parsed6 := mkParsed6 { p6_fragment : option nat; p6_nextHeader : Z; p6_payloadOffset : nat; p6_payloadLength : nat }.

Section walk.
Implicit Type packet : bytes.

(** One turn of the loop: [None] returns [false]. *)
Definition extension_header packet (nextHeader : Z) (payloadOffset : nat) : option (option nat * Z * nat) :=
  if (length packet - payloadOffset <? IPv6ExtensionHeaderMinimumSize)%nat then None
  else
    let at' i := byte_at packet (payloadOffset + i) in
    if (nextHeader =? IPv6RoutingExtHdrIdentifier) && negb (at' IPv6RoutingExtensionHeaderSegmentsLeftOffset =? 0) then None
    else
      let fragment := if nextHeader =? IPv6RoutingExtHdrIdentifier then None
                      else if nextHeader =? IPv6FragmentExtHdrIdentifier then Some payloadOffset else None in
      if (match fragment with
          | Some _ => negb (at' IPv6FragmentExtensionHeaderReservedOffset =? 0)
                      || negb (Z.land (at' IPv6FragmentExtensionHeaderFlagOffset) IPv6FragmentExtensionHeaderFlagReserved =? 0)
          | None => false
          end) then None
      else
        let size := (IPv6ExtensionHeaderMinimumSize
                     + Z.to_nat (at' IPv6ExtensionHeaderHeaderExtensionLengthOffset) * IPv6ExtensionHeaderSizeMultiple)%nat in
        if (length packet - payloadOffset <? size)%nat then None
        else Some (fragment, at' IPv6ExtensionHeaderNextHeaderOffset, (payloadOffset + size)%nat).
(** The loop, [None] when the fuel runs out. *)
Fixpoint walk (fuel : nat) packet (fragment : option nat) (nextHeader : Z) (payloadOffset : nat)
  : option (option (option nat * Z * nat)) :=
  match fuel with
  | O => None
  | S fuel =>
    match fragment with
    | Some _ => Some (Some (fragment, nextHeader, payloadOffset))
    | None =>
      if isIPv6ExtensionHeader nextHeader then
        match extension_header packet nextHeader payloadOffset with
        | None => Some None
        | Some (fragment, nextHeader, payloadOffset) => walk fuel packet fragment nextHeader payloadOffset
        end
      else Some (Some (fragment, nextHeader, payloadOffset))
    end
  end.
End walk.

Section siit64.
Context `{GvisorHeader}.

Definition siit64SourceChecksumDelta : Z := not16 siitPrefixChecksum.

Definition isEveryIPv6ExtensionHeaderTranslatable (packet : bytes) : option (option nat * Z * nat) :=
  match walk (S (length packet)) packet None (v6_NextHeader packet) IPv6FixedHeaderSize with
  | Some (Some (fragment, nextHeader, payloadOffset)) =>
    if isTransportProtocolForbiddenForIPv6 nextHeader then None else Some (fragment, nextHeader, payloadOffset)
  | _ => None
  end.
Definition isIPv6HeaderTranslatable (ipv6Packet : bytes) : option Parsed6 :=
  if (length ipv6Packet <? IPv6FixedHeaderSize)%nat then None
  else
    let packetLength := (IPv6FixedHeaderSize + Z.to_nat (v6_PayloadLength ipv6Packet))%nat in
    if (length ipv6Packet <? packetLength)%nat then None
    else
      let nextHeader := v6_NextHeader ipv6Packet in
      if negb (isIPv6ExtensionHeader nextHeader) then
        if isTransportProtocolForbiddenForIPv6 nextHeader then None
        else Some (mkParsed6 None nextHeader IPv6FixedHeaderSize (packetLength - IPv6FixedHeaderSize))
      else
        match isEveryIPv6ExtensionHeaderTranslatable (take packetLength ipv6Packet) with
        | None => None
        | Some (fragment, nextHeader, payloadOffset) =>
          Some (mkParsed6 fragment nextHeader payloadOffset (packetLength - payloadOffset))
        end.
Definition isICMPv6PacketTranslatable (ipv6Packet icmpv6Packet : bytes) : bool :=
  (ICMPv6MinimumSize <=? length icmpv6Packet)%nat
  && (Combine (Combine (Combine
        (Checksum (slice ipv6Packet IPv6SourceAddressOffset (IPv6SourceAddressOffset + IPv6AddressSize * 2)) 0)
        (u16 (Z.of_nat (length icmpv6Packet)))) ICMPv6ProtocolNumber) (Checksum icmpv6Packet 0) =? 0xffff)
  && isICMPv6PacketHeaderTranslatable (icmp_Type icmpv6Packet) (icmp_Code icmpv6Packet) (drop 4 icmpv6Packet).
Definition fragment_bytes (ipv6Packet : bytes) (off : nat) : bytes := slice ipv6Packet off (off + IPv6FragmentHeaderSize).
Definition isIPv6PacketTranslatable (ipv6Packet : bytes) : option Parsed6 :=
  if negb (IPVersion ipv6Packet =? IPv6Version) then None
  else
    match isIPv6HeaderTranslatable ipv6Packet with
    | None => None
    | Some r =>
      let frag := fragment_bytes ipv6Packet <$> p6_fragment r in
      if match frag with Some f => frag6_More f && negb (p6_payloadLength r mod 8 =? 0)%nat | None => false end then None
      else if negb (p6_nextHeader r =? ICMPv6ProtocolNumber) then Some r
      else if match frag with Some f => negb (frag6_More f) && (frag6_FragmentOffset f =? 0) | None => true end
              && isICMPv6PacketTranslatable ipv6Packet
                   (slice ipv6Packet (p6_payloadOffset r) (p6_payloadOffset r + p6_payloadLength r))
      then Some r else None
    end.

(** * The header *)

(** The counter before, the identification and the counter after. *)
Definition GenerateIPv4FragmentID (counter : Z) : Z * Z :=
  let counter := (counter + 1) mod 2 ^ 32 in (u16 ((counter - 1) mod 2 ^ 32), counter).

Definition makeRoomForIPv4Header (reserved payloadOffset : nat) : M (option (Slice * Slice * nat)) :=
  n ← buffer_len;
  if ((n <? reserved) || (n <? payloadOffset) || (reserved <? IPv4MinimumSize)
      || (n - reserved <? MessageTransportHeaderSize + payloadOffset))%nat then mret None
  else
    let new := (reserved - IPv4MinimumSize)%nat in
    if (n <? new + MessageTransportHeaderSize + payloadOffset)%nat then mret None
    else
      destination ← sub (mkSlice 0 n) new (new + MessageTransportHeaderSize + payloadOffset);
      ipv6Header ← from destination MessageTransportHeaderSize;
      let start := (new + payloadOffset + MessageTransportHeaderSize)%nat in
      if (n <? start)%nat then mret None
      else
        ipv4Packet ← sub (mkSlice 0 n) start n;
        copy destination (mkSlice reserved n);;
        mret (Some (ipv6Header, ipv4Packet, (new + payloadOffset)%nat)).

(** [copy(dst[off:], src[from:to])] *)
Definition copy_part (dst : Slice) (off : nat) (src : Slice) (lo hi : nat) : M unit :=
  d ← from dst off; s ← sub src lo hi; copy d s.
Definition siit64TranslateHeader (ipv6Header ipv4Packet : Slice) (fragment : option Slice) (nextHeader : Z) (payloadLength : nat)
    (counter : Z) : M (Z * Z * Z) :=
  modify ipv4Packet (fun b => v4_SetHeaderLength b (Z.of_nat IPv4MinimumSize));;
  tos ← ask ipv6Header v6_TOS;
  modify ipv4Packet (fun b => v4_SetTOS b tos);;
  modify ipv4Packet (fun b => v4_SetTotalLength b (u16 (Z.of_nat (IPv4MinimumSize + payloadLength))));;
  let transportProtocol := if nextHeader =? ICMPv6ProtocolNumber then ICMPv4ProtocolNumber else nextHeader in
  fragmented ← (match fragment with
    | Some f => more ← ask f frag6_More; fo ← ask f frag6_FragmentOffset; mret (if more || negb (fo =? 0) then Some f else None)
    | None => mret None
    end);
  r ← (match fragmented : option Slice with
    | Some f =>
      fo ← ask f frag6_FragmentOffset;
      let fragmentOffset := u16 (fo * 8) in
      id ← ask f frag6_ID;
      modify ipv4Packet (fun b => v4_SetID b (id mod 2 ^ 16));;
      flags ← load f IPv6FragmentExtensionHeaderFlagOffset;
      modify ipv4Packet (fun b => v4_SetFlagsFragmentOffset b flags fragmentOffset);;
      mret (fragmentOffset, counter)
    | None =>
      let '(id, counter) := GenerateIPv4FragmentID counter in
      modify ipv4Packet (fun b => v4_SetID b id);;
      modify ipv4Packet (fun b => v4_SetFlagsFragmentOffset b 0 0);;
      mret (0, counter)
    end);
  let '(fragmentOffset, counter) := r in
  ttl ← ask ipv6Header v6_HopLimit;
  modify ipv4Packet (fun b => v4_SetTTL b ttl);;
  store ipv4Packet IPv4ProtocolOffset transportProtocol;;
  copy_part ipv4Packet IPv4SourceAddressOffset ipv6Header (IPv6SourceAddressOffset + SIITPrefixSize) (IPv6SourceAddressOffset + IPv6AddressSize);;
  copy_part ipv4Packet IPv4DestinationAddressOffset ipv6Header
    (IPv6DestinationAddressOffset + SIITPrefixSize) (IPv6DestinationAddressOffset + IPv6AddressSize);;
  mret (fragmentOffset, transportProtocol, counter).

(** * ICMP *)

(** The quotes that are compacted: what the code reads of the quoted packet. *)
Record Quote6 := mkQuote6 { q6_nextHeader : Z; q6_TOS : Z; q6_hopLimit : Z; q6_payload : Z; q6_src : bytes; q6_dst : bytes }.
Definition read_quote6 (quote : bytes) : option Quote6 :=
  if (length quote <? IPv6FixedHeaderSize)%nat then None
  else if negb (IPVersion quote =? IPv6Version) then None
  else
    let next := v6_NextHeader quote in
    if isIPv6ExtensionHeader next then None
    else
      let q := mkQuote6 next (v6_TOS quote).1 (v6_HopLimit quote) (v6_PayloadLength quote)
        (slice quote (IPv6SourceAddressOffset + SIITPrefixSize) (IPv6SourceAddressOffset + IPv6AddressSize))
        (slice quote (IPv6DestinationAddressOffset + SIITPrefixSize) (IPv6DestinationAddressOffset + IPv6AddressSize)) in
      if next =? ICMPv6ProtocolNumber then
        if (length quote <? IPv6FixedHeaderSize + ICMPv6MinimumSize)%nat then None
        else if one_of (icmp_Type (drop IPv6FixedHeaderSize quote)) [ICMPv6EchoRequest; ICMPv6EchoReply] then Some q else None
      else Some q.
Definition set_icmp4_checksum (icmp : Slice) : M unit :=
  need icmp 4;;
  modify icmp (fun b => icmp_SetChecksum b 0);;
  modify icmp (fun b => icmp_SetChecksum b (not16 (Checksum b 0))).
(** [SetChecksum(0)] and [SetChecksum(^CalculateChecksum())] *)
Definition set_header_checksum (ipv4Packet : Slice) : M unit :=
  modify ipv4Packet (fun b => v4_SetChecksum b 0);;
  modify ipv4Packet (fun b => v4_SetChecksum b (not16 (v4_CalculateChecksum b))).
Definition quote_fields (q : Quote6) : IPv4Fields :=
  mkIPv4Fields (q6_TOS q) (u16 (Z.of_nat IPv4MinimumSize + q6_payload q)) 0 (q6_hopLimit q)
    (if q6_nextHeader q =? ICMPv6ProtocolNumber then ICMPv4ProtocolNumber else q6_nextHeader q) (q6_src q) (q6_dst q).
Definition siit64TranslateICMPErrorQuote (icmpv4Packet : Slice) : M unit :=
  quote ← from icmpv4Packet 8;
  shape ← ask quote read_quote6;
  match shape with
  | None => mret tt
  | Some q =>
    dst ← from quote IPv4MinimumSize;
    src ← from quote IPv6FixedHeaderSize;
    copy dst src;;
    vacated ← from quote (s_len quote - (IPv6FixedHeaderSize - IPv4MinimumSize));
    clear vacated;;
    modify quote (fun b => v4_Encode b (quote_fields q));;
    set_header_checksum quote;;
    if negb (q6_nextHeader q =? ICMPv6ProtocolNumber) then mret tt
    else
      quotedICMP ← from quote IPv4MinimumSize;
      need quotedICMP 1;;
      type ← ask quotedICMP icmp_Type;
      if type =? ICMPv6EchoRequest then set_type quotedICMP ICMPv4Echo;; set_icmp4_checksum quotedICMP
      else if type =? ICMPv6EchoReply then set_type quotedICMP ICMPv4EchoReply;; set_icmp4_checksum quotedICMP
      else mret tt
  end.

(** The pointer of a parameter problem, where it translates. *)
Definition icmp_pointer6 (p : Z) : option Z :=
  if p =? 0 then Some 0 else if p =? 1 then Some 1 else if one_of p [4; 5] then Some 2 else if p =? 6 then Some 9
  else if p =? 7 then Some 8 else if one_of p (map Z.of_nat (seq 8 16)) then Some 12
  else if one_of p (map Z.of_nat (seq 24 16)) then Some 16 else None.
(** The MTU reported for a packet too big. *)
Definition icmp_mtu4 (mtu : Z) : Z :=
  Z.max IPv4MinimumMTU (Z.min (Z.min (Z.max 20 (mtu mod 2 ^ 16) - 20) IPv4OutboundMTU) (IPv6OutboundMTU - 20)).
(** [siit64TranslateICMPTransport] before the quote. *)
Definition siit64TranslateICMPHeader (icmp : Slice) : M bool :=
  type ← ask icmp icmp_Type;
  if type =? ICMPv6EchoRequest then set_type icmp ICMPv4Echo;; mret false
  else if type =? ICMPv6EchoReply then set_type icmp ICMPv4EchoReply;; mret false
  else if type =? ICMPv6DstUnreachable then
    set_type icmp ICMPv4DstUnreachable;;
    code ← ask icmp icmp_Code;
    (if one_of code [ICMPv6NetworkUnreachable; ICMPv6BeyondScope; ICMPv6AddressUnreachable] then set_code icmp ICMPv4HostUnreachable
     else if code =? ICMPv6Prohibited then set_code icmp ICMPv4HostProhibited
     else if code =? ICMPv6PortUnreachable then set_code icmp ICMPv4PortUnreachable
     else mret tt);;
    mret true
  else if type =? ICMPv6PacketTooBig then
    set_type icmp ICMPv4DstUnreachable;;
    set_code icmp ICMPv4FragmentationNeeded;;
    modify icmp (fun b => icmp4_SetMTU b (icmp_mtu4 (icmp6_MTU b)));;
    mret true
  else if type =? ICMPv6TimeExceeded then set_type icmp ICMPv4TimeExceeded;; mret true
  else if type =? ICMPv6ParamProblem then
    code ← ask icmp icmp_Code;
    (if code =? ICMPv6ErroneousHeader then
       set_type icmp ICMPv4ParamProblem;;
       set_code icmp ICMPv4UnusedCode;;
       p ← load icmp 7;
       (match icmp_pointer6 p with Some v => store icmp 4 v | None => mret tt end);;
       store icmp 7 0
     else if code =? ICMPv6UnknownHeader then
       set_type icmp ICMPv4DstUnreachable;;
       set_code icmp ICMPv4ProtoUnreachable;;
       pointer ← sub icmp 4 8;
       clear pointer
     else mret tt);;
    mret true
  else mret false.
Definition siit64TranslateICMPTransport (icmpv4Packet : Slice) : M unit :=
  translateQuote ← siit64TranslateICMPHeader icmpv4Packet;
  when translateQuote (siit64TranslateICMPErrorQuote icmpv4Packet).

(** * The transport checksum *)

Definition siit64PartialUpdateTransportChecksum (ipv6DestinationPrefix transport : Slice) (checksumOffset : nat) : M unit :=
  prefix ← ask ipv6DestinationPrefix (fun b => Checksum b 0);
  field ← sub transport checksumOffset (checksumOffset + 2);
  old ← ask field be16;
  put transport checksumOffset (put16 (not16 (Combine (not16 old) (Combine siit64SourceChecksumDelta (not16 prefix))))).
Definition siit64UpdateTransportChecksum (ipv6DestinationPrefix transport : Slice) (fragmentOffset transportProtocol : Z) : M unit :=
  if negb (fragmentOffset =? 0) then mret tt
  else
    let partial minSize off :=
      if (s_len transport <? minSize)%nat then mret tt
      else siit64PartialUpdateTransportChecksum ipv6DestinationPrefix transport off in
    if transportProtocol =? ICMPv4ProtocolNumber then
      if (s_len transport <? ICMPv4MinimumSize)%nat then mret tt else set_icmp4_checksum transport
    else if transportProtocol =? TCPProtocolNumber then partial TCPMinimumSize TCPChecksumOffset
    else if transportProtocol =? DCCPProtocolNumber then partial DCCPMinimumSize DCCPChecksumOffset
    else if transportProtocol =? UDPProtocolNumber then partial UDPMinimumSize 6%nat
    else mret tt.

(** [None] is a panic; else whether it was translated, the headroom and the
    identification counter. *)
Definition SIIT64InPlaceTranslate (reserved : nat) (counter : Z) : M (bool * nat * Z) :=
  n ← buffer_len;
  let packetStart := (reserved + MessageTransportHeaderSize)%nat in
  if ((n <? reserved) || (n <? packetStart))%nat then mret (false, reserved, counter)
  else
    packet ← sub (mkSlice 0 n) packetStart n;
    parsed ← ask packet isIPv6PacketTranslatable;
    match parsed with
    | None => mret (false, reserved, counter)
    | Some r =>
      let fragment := (fun off => mkSlice (packetStart + off) (packetStart + off + IPv6FragmentHeaderSize)) <$> p6_fragment r in
      room ← makeRoomForIPv4Header reserved (p6_payloadOffset r);
      match room with
      | None => mret (false, reserved, counter)
      | Some (ipv6Header, ipv4Packet, reserved) =>
        h ← siit64TranslateHeader ipv6Header ipv4Packet fragment (p6_nextHeader r) (p6_payloadLength r) counter;
        let '(fragmentOffset, transportProtocol, counter) := (h : Z * Z * Z) in
        transport ← sub ipv4Packet IPv4MinimumSize (IPv4MinimumSize + p6_payloadLength r);
        when (transportProtocol =? ICMPv4ProtocolNumber) (siit64TranslateICMPTransport transport);;
        prefix ← sub ipv6Header IPv6DestinationAddressOffset (IPv6DestinationAddressOffset + SIITPrefixSize);
        siit64UpdateTransportChecksum prefix transport fragmentOffset transportProtocol;;
        set_header_checksum ipv4Packet;;
        mret (true, reserved, counter)
      end
    end.

(** * The walk over the extension headers *)

Lemma extension_header_ok packet next po frag next' po' :
  bytes_ok packet -> extension_header packet next po = Some (frag, next', po') ->
  (po + 8 <= po')%nat /\ (po' <= length packet)%nat /\ is_byte next'
  /\ match frag with
     | Some f => f = po /\ po' = (po + 8)%nat /\ next = IPv6FragmentExtHdrIdentifier
     | None => True
     end.
Proof.
  intros Hp. unfold extension_header. destruct (_ <? IPv6ExtensionHeaderMinimumSize)%nat eqn:E8; [done|].
  set (routing := next =? IPv6RoutingExtHdrIdentifier). destruct (routing && _)%bool; [done|].
  set (f0 := if routing then None else _). destruct (match f0 with Some _ => _ | None => false end) eqn:Ef; [done|].
  destruct (length packet - po <? _ + _)%nat eqn:El; [done|]. intros Heq.
  remember f0 as f1 eqn:E0. injection Heq as -> <- <-. apply Nat.ltb_ge in E8, El.
  unfold IPv6ExtensionHeaderMinimumSize, IPv6ExtensionHeaderSizeMultiple in *.
  split_and!; [lia|lia|by apply bytes_ok_at|]. destruct frag as [f|]; [|done].
  apply orb_false_iff in Ef as [Ef _]. apply negb_false_iff, Z.eqb_eq in Ef.
  unfold IPv6FragmentExtensionHeaderReservedOffset, IPv6ExtensionHeaderHeaderExtensionLengthOffset in *. rewrite Ef.
  unfold f0 in E0. destruct routing; [done|]. destruct (Z.eqb_spec next IPv6FragmentExtHdrIdentifier); [|done].
  injection E0 as ->. split_and!; [done|cbn; lia|done].
Qed.
(** The loop ends: a header is at least eight bytes. *)
Lemma walk_terminates packet frag next po fuel :
  bytes_ok packet -> (length packet - po < fuel)%nat -> (po <= length packet)%nat -> is_Some (walk fuel packet frag next po).
Proof.
  intros Hp. revert frag next po. induction fuel as [|fuel IH]; intros frag next po Hf Hpo; [lia|]. cbn [walk].
  destruct frag; [done|]. destruct (isIPv6ExtensionHeader next); [|done].
  destruct (extension_header packet next po) as [[[frag' next'] po']|] eqn:E; [|done].
  destruct (extension_header_ok _ _ _ _ _ _ Hp E) as (H1 & H2 & _). apply IH; lia.
Qed.
Lemma walk_ok packet frag next po fuel frag' next' po' :
  bytes_ok packet -> (40 <= po <= length packet)%nat -> is_byte next ->
  match frag with Some f => (40 <= f)%nat /\ po = (f + 8)%nat | None => True end ->
  walk fuel packet frag next po = Some (Some (frag', next', po')) ->
  (40 <= po' <= length packet)%nat /\ is_byte next'
  /\ match frag' with Some f => (40 <= f)%nat /\ po' = (f + 8)%nat | None => True end.
Proof.
  intros Hp. revert frag next po. induction fuel as [|fuel IH]; intros frag next po Hpo Hb Hf; [done|]. cbn [walk].
  destruct frag as [f|]; [by intros [= <- <- <-]|]. destruct (isIPv6ExtensionHeader next); [|by intros [= <- <- <-]].
  destruct (extension_header packet next po) as [[[frag1 next1] po1]|] eqn:E; [|done].
  destruct (extension_header_ok _ _ _ _ _ _ Hp E) as (H1 & H2 & H3 & H4). apply IH; [lia|done|].
  destruct frag1 as [f1|]; [|done]. destruct H4 as (-> & -> & _). lia.
Qed.

(** * What the parsers promise *)

Record parsed6 (p : bytes) (r : Parsed6) : Prop := {
  ps_version : byte_at p 0 / 2 ^ 4 = 6;
  ps_offset : (40 <= p6_payloadOffset r)%nat;
  ps_length : Z.of_nat (p6_payloadOffset r + p6_payloadLength r) = 40 + be16 (slice p 4 6);
  ps_room : (p6_payloadOffset r + p6_payloadLength r <= length p)%nat;
  ps_next : is_byte (p6_nextHeader r) /\ isTransportProtocolForbiddenForIPv6 (p6_nextHeader r) = false;
  ps_fragment : match p6_fragment r with Some f => (40 <= f)%nat /\ p6_payloadOffset r = (f + 8)%nat | None => True end;
  ps_icmp : p6_nextHeader r = ICMPv6ProtocolNumber -> (8 <= p6_payloadLength r)%nat
}.
Lemma header6_ok p r :
  bytes_ok p -> byte_at p 0 / 2 ^ 4 = 6 -> isIPv6HeaderTranslatable p = Some r ->
  (p6_nextHeader r = ICMPv6ProtocolNumber -> (8 <= p6_payloadLength r)%nat) -> parsed6 p r.
Proof.
  intros Hp Hv Hr Hi. unfold isIPv6HeaderTranslatable, IPv6FixedHeaderSize in Hr.
  destruct (_ <? 40)%nat eqn:E40; [done|]. apply Nat.ltb_ge in E40.
  rewrite v6_PayloadLength_spec, v6_NextHeader_spec in Hr by done.
  pose proof (be16_bound (slice p 4 6) (bytes_ok_slice _ _ _ Hp)) as Hpl. set (pl := be16 (slice p 4 6)) in *.
  destruct (_ <? _)%nat eqn:El; [done|]. apply Nat.ltb_ge in El.
  destruct (negb (isIPv6ExtensionHeader _)).
  { destruct (isTransportProtocolForbiddenForIPv6 _) eqn:Ef; [done|]. assert (r = mkParsed6 None (byte_at p 6) 40 (40 + Z.to_nat pl - 40)) as -> by congruence.
    split; cbn [p6_fragment p6_nextHeader p6_payloadOffset p6_payloadLength] in *; try done; try lia; auto with bytes. }
  set (packet := take _ p) in *. assert (Hpk : bytes_ok packet) by (unfold packet; auto with bytes).
  assert (Hlk : length packet = (40 + Z.to_nat pl)%nat) by (unfold packet; rewrite length_take; lia).
  unfold isEveryIPv6ExtensionHeaderTranslatable, IPv6FixedHeaderSize in Hr.
  destruct (walk _ packet _ _ 40) as [[[[frag next] po]|]|] eqn:Ew; [|done|done].
  destruct (isTransportProtocolForbiddenForIPv6 next) eqn:Ef; [done|].
  rewrite v6_NextHeader_spec in Ew by lia.
  apply walk_ok in Ew as (Ho & Hb & Hf); [|done|lia|by apply bytes_ok_at|done].
  assert (r = mkParsed6 frag next po (40 + Z.to_nat pl - po)) as -> by congruence.
  split; cbn [p6_fragment p6_nextHeader p6_payloadOffset p6_payloadLength] in *; try done; try lia.
Qed.
Lemma parse6_ok p r : bytes_ok p -> isIPv6PacketTranslatable p = Some r -> parsed6 p r.
Proof.
  intros Hp Hr. unfold isIPv6PacketTranslatable in Hr. rewrite IPVersion_spec in Hr.
  destruct (negb _) eqn:Ev in Hr; [done|].
  assert (Hv : byte_at p 0 / 2 ^ 4 = 6).
  { apply negb_false_iff, Z.eqb_eq in Ev. destruct p; cbn [is_nil] in Ev; [done|]. rewrite Z.shiftr_div_pow2 in Ev by lia. exact Ev. }
  destruct (isIPv6HeaderTranslatable p) as [r'|] eqn:Eh; [|done].
  assert (Hl : (p6_payloadOffset r' + p6_payloadLength r' <= length p)%nat -> r = r' /\
     (p6_nextHeader r' = ICMPv6ProtocolNumber -> (8 <= p6_payloadLength r')%nat)).
  { intros Hroom. cbv zeta in Hr. destruct (match _ with Some _ => _ | None => false end); [done|].
    destruct (negb (p6_nextHeader r' =? ICMPv6ProtocolNumber)) eqn:En.
    { split; [congruence|]. intros E. by rewrite E in En. }
    destruct (_ && _)%bool eqn:Ei in Hr; [|done]. split; [congruence|]. intros _. apply andb_true_iff in Ei as [_ Ei].
    unfold isICMPv6PacketTranslatable, ICMPv6MinimumSize in Ei. rewrite !andb_true_iff, Nat.leb_le in Ei.
    rewrite length_slice in Ei by lia. lia. }
  assert (Hroom : (p6_payloadOffset r' + p6_payloadLength r' <= length p)%nat).
  { clear -Hp Eh. unfold isIPv6HeaderTranslatable, IPv6FixedHeaderSize in Eh.
    destruct (_ <? 40)%nat eqn:E40; [done|]. destruct (length p <? 40 + _)%nat eqn:El; [done|]. apply Nat.ltb_ge in El, E40.
    destruct (negb _); [destruct (isTransportProtocolForbiddenForIPv6 _); [done|]; injection Eh as <-; cbn; lia|].
    unfold isEveryIPv6ExtensionHeaderTranslatable, IPv6FixedHeaderSize in Eh.
    destruct (walk _ _ _ _ 40) as [[[[frag next] po]|]|] eqn:Ew; [|done|done].
    destruct (isTransportProtocolForbiddenForIPv6 next); [done|]. injection Eh as <-. cbn.
    apply walk_ok in Ew as (Ho & _); [|auto with bytes|rewrite length_take; lia| |done].
    - rewrite length_take in Ho. lia.
    - rewrite v6_NextHeader_spec by (rewrite length_take; lia). apply bytes_ok_at. auto with bytes. }
  destruct (Hl Hroom) as [-> Hi]. by apply header6_ok.
Qed.

(** * The header written *)

Definition v4_protocol (nextHeader : Z) : Z := if nextHeader =? ICMPv6ProtocolNumber then ICMPv4ProtocolNumber else nextHeader.
(** The identification, the word of the flags and the offset, the fragment's
    offset in bytes and the counter left. *)
Definition frag_info (frag : option bytes) (counter : Z) : Z * Z * Z * Z :=
  let fresh := let '(id, counter) := GenerateIPv4FragmentID counter in (id, 0, 0, counter) in
  match frag with
  | Some f =>
    let fo := be16 (slice f 2 4) / 8 in
    if Z.odd (byte_at f 3) || negb (fo =? 0)
    then (be32 (slice f 4 8) mod 2 ^ 16, Z.lor (u16 (Z.shiftl (byte_at f 3) 13)) (u16 (fo * 8) / 8), u16 (fo * 8), counter)
    else fresh
  | None => fresh
  end.
(** The IPv4 header of an IPv6 header [h], the checksum field [ck]. *)
Definition v4_image (h : bytes) (payloadLength : nat) (id word nextHeader : Z) (ck : bytes) : bytes :=
  [69; u8 (be16 (slice h 0 2) / 2 ^ 4)] ++ put16 (u16 (Z.of_nat (IPv4MinimumSize + payloadLength))) ++ put16 id ++ put16 word
  ++ [byte_at h 7; v4_protocol nextHeader] ++ ck ++ slice h 20 24 ++ slice h 36 40.
Lemma length_v4_image h pl id word next ck : (40 <= length h)%nat -> length ck = 2%nat -> length (v4_image h pl id word next ck) = 20%nat.
Proof. intros Hh Hk. unfold v4_image. rewrite !length_app, !length_slice by lia. rewrite Hk. done. Qed.

Lemma v4_image_ok h pl id word next ck : bytes_ok h -> is_byte next -> bytes_ok ck -> bytes_ok (v4_image h pl id word next ck).
Proof.
  intros Hh Hn Hk. unfold v4_image, v4_protocol. rewrite !bytes_ok_app, !bytes_ok_cons.
  split_and!; auto with bytes; try decide_closed; try apply Forall_nil_2. by destruct (_ =? _).
Qed.

Lemma wp_copy_part P buf s n X off a po lo hi v Q :
  n = length buf -> (s + length X <= n)%nat -> (off + (hi - lo) <= length X)%nat -> (lo <= hi)%nat -> (hi <= po)%nat -> (a + po <= s)%nat ->
  v = slice buf (a + lo) (a + hi) ->
  Q tt (patch buf s (patch X off v)) ->
  wp P (copy_part (mkSlice s n) off (mkSlice a (a + po)) lo hi) Q (patch buf s X).
Proof.
  intros -> Hs Ho Hl Hh Ha Hv HQ. unfold copy_part. apply wp_bind, wp_from; [win_len|win_len|]. cbn [s_lo s_hi].
  apply wp_bind, wp_sub; [lia|cbn [s_lo]; rewrite length_patch by lia; lia|]. apply wp_copy. cbn [s_lo s_hi].
  rewrite slice_patch_before by lia. rewrite <- Hv.
  assert (Lv : length v = (hi - lo)%nat) by (rewrite Hv, length_slice; lia).
  rewrite take_ge by (unfold s_len; cbn [s_lo s_hi]; lia). rewrite patch_window by lia. exact HQ.
Qed.

Lemma translateHeader64_wp P (a po s n : nat) fragment next pl counter buf :
  n = length buf -> bytes_ok buf -> (40 <= po)%nat -> (a + po <= s)%nat -> (s + 20 <= n)%nat ->
  match fragment with Some f => f = mkSlice (s + 12) (s + 20) | None => True end ->
  wp P (siit64TranslateHeader (mkSlice a (a + po)) (mkSlice s n) fragment next pl counter)
    (fun r buf' => let '(id, word, fo, counter') := frag_info ((fun _ => slice buf (s + 12) (s + 20)) <$> fragment) counter in
       r = (fo, v4_protocol next, counter')
       /\ buf' = patch buf s (v4_image (slice buf a (a + po)) pl id word next (slice buf (s + 10) (s + 12)))) buf.
Proof.
  intros Hn Hb Hpo Ha Hs Hf. set (h := slice buf a (a + po)).
  remember (slice buf s (s + 20)) as X eqn:EX0. assert (HX : length X = 20%nat) by (rewrite EX0, length_slice; lia).
  assert (Hbuf : patch buf s X = buf) by (rewrite EX0; apply patch_self; lia).
  assert (Hfr : slice buf (s + 12) (s + 20) = slice X 12 20) by (rewrite EX0, slice_slice by lia; done).
  assert (Hck : slice buf (s + 10) (s + 12) = slice X 10 12) by (rewrite EX0, slice_slice by lia; done).
  rewrite Hfr, Hck. assert (Hok : bytes_ok (slice X 12 20)) by (rewrite <- Hfr; auto with bytes).
  rewrite <- Hbuf at 1.
  assert (Hh : forall Y, length Y = 20%nat -> slice (patch buf s Y) a (a + po) = h) by (intros Y HY; apply slice_patch_before; lia).
  assert (Hlh : length h = po) by (unfold h; rewrite length_slice; lia).
  assert (Hwin : forall Y i j, length Y = 20%nat -> (i <= j)%nat -> (j <= 20)%nat -> slice (patch buf s Y) (s + i) (s + j) = slice Y i j).
  { intros Y i j HY Hi Hj. rewrite slice_patch_in by lia. f_equal; lia. }
  assert (Hsrc : slice h 20 24 = slice buf (a + 20) (a + 24)) by (unfold h; apply slice_slice; lia).
  assert (Hdst : slice h 36 40 = slice buf (a + 36) (a + 40)) by (unfold h; apply slice_slice; lia).
  assert (L20 : length (slice h 20 24) = 4%nat) by (rewrite length_slice; lia).
  assert (L36 : length (slice h 36 40) = 4%nat) by (rewrite length_slice; lia).
  unfold siit64TranslateHeader. pose proof HX as Hlen.
  win_modify v4_SetHeaderLength_spec HX.
  apply wp_bind, wp_ask. cbn [s_lo s_hi]. rewrite Hh, v6_TOS_spec by (rewrite ?Hlh; done).
  win_modify v4_SetTOS_spec HX. cbn [fst snd] in *. win_modify v4_SetTotalLength_spec HX. cbv zeta.
  change (if next =? ICMPv6ProtocolNumber then ICMPv4ProtocolNumber else next) with (v4_protocol next).
  assert (HF : slice X2 12 20 = slice X 12 20).
  { clear -Hlen EX EX1 EX2. win_explicit Hlen. reflexivity. }
  set (f0 := slice X 12 20) in *. assert (Lf0 : length f0 = 8%nat) by (unfold f0; rewrite length_slice; lia).
  set (fr := match fragment with Some f => if Z.odd (byte_at f0 3) || negb (be16 (slice f0 2 4) / 8 =? 0) then Some f else None | None => None end).
  apply wp_bind. apply wp_mono with (Q := fun r b => r = fr /\ b = patch buf s X2).
  { unfold fr. destruct fragment as [f|]; [|by apply wp_ret]. subst f.
    apply wp_bind, wp_ask. cbn [s_lo s_hi]. rewrite Hwin, HF by (done || lia). rewrite frag6_More_spec by lia.
    apply wp_bind, wp_ask. cbn [s_lo s_hi]. rewrite Hwin, HF by (done || lia). rewrite frag6_FragmentOffset_spec by done.
    by apply wp_ret. }
  cbv beta. intros ? ? [-> ->]. apply wp_bind. pose proof HX as HX2.
  apply wp_mono with (Q := fun r b => let '(id, word, fo, counter') := frag_info ((fun _ => f0) <$> fragment) counter in
    r = (fo, counter') /\ b = patch buf s (patch (patch X2 4 (put16 id)) 6 (put16 word))).
  { unfold fr, frag_info. destruct fragment as [f|]; cbn [fmap option_fmap option_map].
    - destruct (Z.odd (byte_at f0 3) || _)%bool.
      + subst f. apply wp_bind, wp_ask. cbn [s_lo s_hi]. rewrite Hwin, HF by (done || lia). rewrite frag6_FragmentOffset_spec by done. cbv zeta.
        apply wp_bind, wp_ask. cbn [s_lo s_hi]. rewrite Hwin, HF by (done || lia). rewrite frag6_ID_spec by lia.
        win_modify v4_SetID_spec HX. apply wp_bind, wp_load; [unfold s_len, IPv6FragmentExtensionHeaderFlagOffset; cbn; lia|].
        assert (Eb : byte_at (patch buf s X3) (s + 12 + IPv6FragmentExtensionHeaderFlagOffset) = byte_at f0 3).
        { rewrite byte_at_patch_in by (unfold IPv6FragmentExtensionHeaderFlagOffset; lia).
          replace (s + 12 + IPv6FragmentExtensionHeaderFlagOffset - s)%nat with 15%nat by (unfold IPv6FragmentExtensionHeaderFlagOffset; lia).
          rewrite EX3, byte_at_patch_out by (rewrite ?length_put16; lia). rewrite <- HF, byte_at_slice by lia. done. }
        cbn [s_lo]. rewrite Eb. win_modify v4_SetFlagsFragmentOffset_spec HX. apply wp_ret. split; [done|]. by rewrite EX4, EX3.
      + unfold GenerateIPv4FragmentID. win_modify v4_SetID_spec HX. win_modify v4_SetFlagsFragmentOffset_spec HX. apply wp_ret. split; [done|]. by rewrite EX4, EX3.
    - unfold GenerateIPv4FragmentID. win_modify v4_SetID_spec HX. win_modify v4_SetFlagsFragmentOffset_spec HX. apply wp_ret. split; [done|]. by rewrite EX4, EX3. }
  destruct (frag_info _ counter) as [[[id word] fo] counter']. intros ? ? [-> ->].
  remember (patch (patch X2 4 (put16 id)) 6 (put16 word)) as X3 eqn:EX3.
  assert (HX3 : length X3 = 20%nat) by (rewrite EX3, !length_patch; rewrite ?length_patch; rewrite ?length_put16; lia). clear HX. rename HX3 into HX.
  cbv beta iota. apply wp_bind, wp_ask. cbn [s_lo s_hi]. rewrite Hh, v6_HopLimit_spec by (rewrite ?Hlh; done).
  win_modify v4_SetTTL_spec HX. win_put HX.
  assert (H12 : length (slice buf (a + 20) (a + 24)) = 4%nat) by (rewrite <- Hsrc; exact L20).
  assert (H16 : length (slice buf (a + 36) (a + 40)) = 4%nat) by (rewrite <- Hdst; exact L36).
  apply wp_bind. eapply wp_copy_part; [done|win_lia|win_lia|win_lia|win_lia|lia|reflexivity|].
  change (slice buf (a + (IPv6SourceAddressOffset + SIITPrefixSize)) (a + (IPv6SourceAddressOffset + IPv6AddressSize)))
    with (slice buf (a + 20) (a + 24)). win_fold HX.
  apply wp_bind. eapply wp_copy_part; [done|win_lia|win_lia|win_lia|win_lia|lia|reflexivity|].
  change (slice buf (a + (IPv6DestinationAddressOffset + SIITPrefixSize)) (a + (IPv6DestinationAddressOffset + IPv6AddressSize)))
    with (slice buf (a + 36) (a + 40)). win_fold HX.
  apply wp_ret. split; [done|]. f_equal. unfold v4_image. rewrite Hsrc, Hdst.
  assert (Ek : slice X 10 12 = [byte_at X 10; byte_at X 11]) by (clear -Hlen; win_explicit Hlen; reflexivity).
  rewrite Ek. change (4 * 16 + Z.of_nat IPv4MinimumSize / 4) with 69 in EX.
  set (tos := u8 (be16 (slice h 0 2) / 2 ^ 4)) in *. set (ttl := byte_at h 7) in *. clearbody tos ttl. clear -Hlen H12 H16 EX EX1 EX2 EX3 EX4 EX5 EX6 EX7.
  win_const. win_collapse Hlen.
Qed.

(** * What ICMP and the checksums write *)

Section icmp.
Context (P : Prop) (lo e n : nat) (He : (e <= n)%nat).
Abbreviation icmp := (mkSlice lo e).
Abbreviation within := (keeps P lo e n).

Lemma within_type t : (lo + 1 <= e)%nat -> is_byte t -> within (set_type icmp t).
Proof.
  intros H1 Ht. apply keeps_bind; [apply keeps_need; unfold s_len; cbn [s_lo s_hi]; lia|intros _].
  eapply (keeps_modify _ _ _ _ _ _ 1 0 [t]); cbn [s_lo s_hi length]; try lia; [intros; by apply icmp_SetType_spec|by apply Forall_singleton].
Qed.
Lemma within_code t : (lo + 2 <= e)%nat -> is_byte t -> within (set_code icmp t).
Proof.
  intros H1 Ht. apply keeps_bind; [apply keeps_need; unfold s_len; cbn [s_lo s_hi]; lia|intros _].
  eapply (keeps_modify _ _ _ _ _ _ 2 1 [t]); cbn [s_lo s_hi length]; try lia; [intros; by apply icmp_SetCode_spec|by apply Forall_singleton].
Qed.
Lemma within_store i v : (lo + i + 1 <= e)%nat -> is_byte v -> within (store icmp i v).
Proof. intros H1 Hv. apply keeps_put; unfold s_len; cbn [s_lo s_hi length]; try lia. by apply Forall_singleton. Qed.
Lemma within_checksum : (lo + 4 <= e)%nat -> within (set_icmp4_checksum icmp).
Proof.
  intros H1. apply keeps_bind; [apply keeps_need; unfold s_len; cbn [s_lo s_hi]; lia|intros _].
  apply keeps_bind; [|intros _]; apply (keeps_modify_word _ _ _ _ _ _ 4 2); cbn [s_lo s_hi]; try lia;
    intros b ?; eexists; by apply icmp_SetChecksum_spec.
Qed.
Lemma within_header_checksum : (lo + 20 <= e)%nat -> within (set_header_checksum icmp).
Proof.
  intros H1. apply keeps_bind; [|intros _]; apply (keeps_modify_word _ _ _ _ _ _ 20 10); cbn [s_lo s_hi]; try lia;
    intros b ?; eexists; by apply v4_SetChecksum_spec.
Qed.
Lemma within_clear a b : (lo <= a)%nat -> (a <= b)%nat -> (b <= e)%nat -> within (clear (mkSlice a b)).
Proof. intros. apply keeps_clear; cbn [s_lo s_hi]; lia. Qed.

Lemma icmp_pointer6_byte p v : icmp_pointer6 p = Some v -> is_byte v.
Proof. unfold icmp_pointer6, is_byte. intros Hp. repeat case_match; simplify_eq; lia. Qed.
Lemma within_header : (lo + 8 <= e)%nat -> within (siit64TranslateICMPHeader icmp).
Proof.
  intros H8. unfold siit64TranslateICMPHeader. apply keeps_bind; [apply keeps_ask|]. intros type.
  assert (Hload : within (load icmp 7)) by (apply keeps_load; unfold s_len; cbn [s_lo s_hi]; lia).
  assert (Hmtu : forall f, (forall b, (8 <= length b)%nat -> exists v, f b = patch b 6 (put16 v)) -> within (modify icmp f)).
  { intros f Hf. apply (keeps_modify_word _ _ _ _ _ _ 8 6); cbn [s_lo s_hi]; done || lia. }
  repeat first
    [ apply keeps_ret | apply keeps_ask | exact Hload | apply within_type; [lia|decide_closed] | apply within_code; [lia|decide_closed]
    | apply within_store; [lia|decide_closed]
    | apply keeps_bind_sub; [lia|cbn [s_lo]; lia|cbn [s_lo]; apply within_clear; lia]
    | apply keeps_bind; [|intros ?] | case_match ].
  - apply Hmtu. intros b ?. eexists. by apply icmp4_SetMTU_spec.
  - apply within_store; [lia|]. by eapply icmp_pointer6_byte.
Qed.
End icmp.

Record quote6_ok (q : Quote6) : Prop := {
  q6o_tos : is_byte (q6_TOS q);
  q6o_hop : is_byte (q6_hopLimit q);
  q6o_next : is_byte (q6_nextHeader q);
  q6o_src : length (q6_src q) = 4%nat /\ bytes_ok (q6_src q);
  q6o_dst : length (q6_dst q) = 4%nat /\ bytes_ok (q6_dst q)
}.
Lemma read_quote6_ok c q :
  bytes_ok c -> read_quote6 c = Some q ->
  (40 <= length c)%nat /\ quote6_ok q /\ (q6_nextHeader q = ICMPv6ProtocolNumber -> (48 <= length c)%nat).
Proof.
  intros Hc. unfold read_quote6, IPv6FixedHeaderSize, ICMPv6MinimumSize.
  destruct (length c <? 40)%nat eqn:E40; [done|]. apply Nat.ltb_ge in E40.
  destruct (negb _); [done|]. destruct (isIPv6ExtensionHeader _); [done|].
  rewrite v6_TOS_spec, v6_HopLimit_spec, v6_NextHeader_spec by done. cbv zeta. cbn [fst]. set (q0 := mkQuote6 _ _ _ _ _ _).
  assert (Hq : quote6_ok q0).
  { split; cbn [q6_TOS q6_hopLimit q6_nextHeader q6_src q6_dst q0]; auto with bytes;
      (split; [rewrite length_slice by win_lia; done|auto with bytes]). }
  destruct (Z.eqb_spec (byte_at c 6) ICMPv6ProtocolNumber) as [Ei|Ei].
  - destruct (_ <? 40 + 8)%nat eqn:E48; [done|]. apply Nat.ltb_ge in E48. destruct (one_of _ _); [|done].
    intros Heq. assert (q = q0) as -> by congruence. split_and!; [lia|done|lia].
  - intros Heq. assert (q = q0) as -> by congruence. split_and!; [lia|done|done].
Qed.
Lemma keeps_copy P lo hi n d s :
  (s_hi d <= s_hi s)%nat -> (lo <= s_lo d)%nat -> (s_lo d + (s_hi s - s_lo s) <= hi)%nat -> (hi <= n)%nat -> (s_hi s <= n)%nat ->
  keeps P lo hi n (copy d s).
Proof.
  intros H1 H2 H3 H4 H5 buf Hb Hn. apply wp_copy. set (v := take _ _).
  assert (Hv : (length v <= s_hi s - s_lo s)%nat).
  { unfold v, slice. rewrite !length_take. lia. }
  apply frame_patch; [done|unfold v; auto with bytes|lia|lia|lia].
Qed.
Lemma keeps_quote64 P lo e n :
  (e <= n)%nat -> (lo + 8 <= e)%nat -> keeps P lo e n (siit64TranslateICMPErrorQuote (mkSlice lo e)).
Proof.
  intros He H8. unfold siit64TranslateICMPErrorQuote. apply keeps_bind_from; cbn [s_lo s_hi]; [lia|lia|].
  apply keeps_bind_ask; cbn [s_lo s_hi]; [lia|lia|]. intros b Hb Hl. destruct (read_quote6 b) as [q|] eqn:Eq; [|apply keeps_ret].
  destruct (read_quote6_ok b q Hb Eq) as (H40 & [Q1 Q2 Q3 [Q4 Q4'] [Q5 Q5']] & H48).
  rewrite Hl in H40, H48. unfold s_len in H40, H48 |- *. cbn [s_lo s_hi] in H40, H48 |- *.
  change IPv4MinimumSize with 20%nat. change IPv6FixedHeaderSize with 40%nat.
  do 2 (apply keeps_bind_from; cbn [s_lo s_hi]; [lia|lia|]).
  apply keeps_bind; [apply keeps_copy; cbn [s_lo s_hi]; lia|intros _].
  apply keeps_bind_from; cbn [s_lo s_hi]; [lia|lia|]. apply keeps_bind; [apply within_clear; lia|intros _].
  assert (Hq : forall m, keeps P (lo + 8) e n m -> keeps P lo e n (m : M unit)).
  { intros m Hm buf' Hb' Hl'. eapply wp_mono; [by apply Hm|]. cbv beta. intros _ b' F. eapply frame_le; [exact F|lia|lia]. }
  apply keeps_bind; [|intros _].
  { apply Hq. eapply (keeps_modify _ _ _ _ _ _ 20 0); cbn [s_lo s_hi]; [intros b' ?; by apply v4_Encode_spec|lia|lia| | |lia| |lia].
    - unfold quote_fields. cbn [f4_TOS f4_TotalLength f4_ID f4_TTL f4_Protocol f4_SrcAddr f4_DstAddr].
      rewrite !bytes_ok_app, !bytes_ok_cons. split_and!; auto with bytes; try decide_closed; try apply Forall_nil_2.
      destruct (_ =? _); [decide_closed|done].
    - cbn [length app put16]. unfold quote_fields. cbn [f4_SrcAddr f4_DstAddr]. rewrite !length_app. cbn [length]. lia.
    - cbn [length app put16]. unfold quote_fields. cbn [f4_SrcAddr f4_DstAddr]. rewrite !length_app. cbn [length]. lia. }
  apply keeps_bind; [apply Hq, within_header_checksum; lia|intros _].
  destruct (Z.eqb_spec (q6_nextHeader q) ICMPv6ProtocolNumber) as [Ei|]; cbn [negb]; [|apply keeps_ret]. specialize (H48 Ei).
  apply keeps_bind_from; cbn [s_lo s_hi]; [lia|lia|]. apply keeps_bind; [apply keeps_need; unfold s_len; cbn [s_lo s_hi]; lia|intros _].
  apply keeps_bind; [apply keeps_ask|intros type].
  assert (Hi : forall m, keeps P (lo + 8 + 20) e n m -> keeps P lo e n (m : M unit)).
  { intros m Hm buf' Hb' Hl'. eapply wp_mono; [by apply Hm|]. cbv beta. intros _ b' F. eapply frame_le; [exact F|lia|lia]. }
  repeat case_match; [| |apply keeps_ret]; apply Hi; (apply keeps_bind; [apply within_type; [lia|lia|decide_closed]|intros _; apply within_checksum; lia]).
Qed.
Lemma keeps_icmp64 P lo e n : (e <= n)%nat -> (lo + 8 <= e)%nat -> keeps P lo e n (siit64TranslateICMPTransport (mkSlice lo e)).
Proof.
  intros He H8. unfold siit64TranslateICMPTransport. apply keeps_bind; [by apply within_header|]. intros []; [by apply keeps_quote64|apply keeps_ret].
Qed.
Lemma keeps_checksum64 P prefix lo e n fo proto :
  (lo <= e)%nat -> (e <= n)%nat -> keeps P lo e n (siit64UpdateTransportChecksum prefix (mkSlice lo e) fo proto).
Proof.
  intros Hl He. unfold siit64UpdateTransportChecksum. destruct (negb _); [apply keeps_ret|]. cbv zeta. unfold s_len. cbn [s_lo s_hi].
  assert (Hpart : forall m off, (off + 2 <= m)%nat -> keeps P lo e n
    (if (e - lo <? m)%nat then mret tt else siit64PartialUpdateTransportChecksum prefix (mkSlice lo e) off)).
  { intros m off Hm. destruct (_ <? _)%nat eqn:E; [apply keeps_ret|]. apply Nat.ltb_ge in E. unfold siit64PartialUpdateTransportChecksum.
    apply keeps_bind; [apply keeps_ask|intros pre]. apply keeps_bind_sub; [lia|cbn [s_lo]; lia|]. apply keeps_bind; [apply keeps_ask|intros old].
    apply keeps_put; unfold s_len; cbn [s_lo s_hi]; auto with bytes; rewrite ?length_put16; lia. }
  destruct (proto =? ICMPv4ProtocolNumber).
  { destruct (_ <? _)%nat eqn:E; [apply keeps_ret|]. apply Nat.ltb_ge in E. unfold ICMPv4MinimumSize in E. apply within_checksum; lia. }
  destruct (proto =? TCPProtocolNumber); [apply Hpart; unfold TCPMinimumSize, TCPChecksumOffset; lia|].
  destruct (proto =? DCCPProtocolNumber); [apply Hpart; unfold DCCPMinimumSize, DCCPChecksumOffset; lia|].
  destruct (proto =? UDPProtocolNumber); [apply Hpart; unfold UDPMinimumSize; lia|apply keeps_ret].
Qed.
End siit64.
