(* ===== verification/Siit64Image.v ===== *)
(** What [siit64.go] makes of a packet: it never panics, and the exact bytes. *)

From S2P Require Import Prelude Clat SiitBuf Siit46 Siit46Image Siit64.

Section image64.
Context `{GH : GvisorHeader}.

Lemma room64_wp P reserved po buf :
  let p := drop (reserved + 16) buf in
  bytes_ok buf -> (po <= length p)%nat -> (reserved + 16 <= length buf)%nat ->
  wp P (makeRoomForIPv4Header reserved po)
    (fun o buf' => match o with
       | None => buf' = buf /\ (reserved < 20)%nat
       | Some (h6, p4, r') =>
         (20 <= reserved)%nat /\ r' = (reserved - 20 + po)%nat
         /\ h6 = mkSlice (reserved - 4) (reserved - 4 + po) /\ p4 = mkSlice (reserved - 4 + po) (length buf)
         /\ length buf' = length buf /\ bytes_ok buf'
         /\ slice buf' (reserved - 4) (reserved - 4 + po) = take po p
         /\ drop (reserved - 4 + po) buf' = drop (reserved - 4 + po) buf
       end) buf.
Proof.
  cbv zeta. intros Hb Hpo Hn. rewrite length_drop in Hpo. unfold makeRoomForIPv4Header, MessageTransportHeaderSize, IPv4MinimumSize.
  apply wp_bind, wp_buffer_len. destruct (((_ || _) || (reserved <? 20)%nat) || _)%bool eqn:E1.
  { apply wp_ret. rewrite !orb_true_iff, !Nat.ltb_lt in E1. split; [done|lia]. }
  rewrite !orb_false_iff, !Nat.ltb_ge in E1. cbv zeta. destruct (length buf <? reserved - 20 + 16 + po)%nat eqn:E2; [apply Nat.ltb_lt in E2; lia|].
  apply wp_bind, wp_sub; [lia|cbn [s_lo]; lia|]. apply wp_bind, wp_from; [unfold s_len; cbn [s_lo s_hi]; lia|unfold s_ok; cbn [s_lo s_hi]; lia|].
  destruct (length buf <? reserved - 20 + po + 16)%nat eqn:E3; [apply Nat.ltb_lt in E3; lia|].
  apply wp_bind, wp_sub; [lia|cbn [s_lo]; lia|]. apply wp_bind, wp_copy, wp_ret. cbn [s_lo s_hi]. rewrite ?Nat.add_0_l. unfold s_len. cbn [s_lo s_hi].
  set (src := take _ (slice buf reserved (length buf))).
  assert (Esrc : src = slice buf reserved (reserved + (16 + po))).
  { unfold src, slice. rewrite take_take. f_equal. lia. }
  assert (Hls : length src = (16 + po)%nat) by (rewrite Esrc, length_slice; lia).
  split_and!; try done; try lia; try (f_equal; lia).
  - by rewrite length_patch by lia.
  - rewrite Esrc. auto with bytes.
  - rewrite slice_patch_in by lia. replace (reserved - 4 - (reserved - 20))%nat with 16%nat by lia.
    replace (reserved - 4 + po - (reserved - 20))%nat with (16 + po)%nat by lia. rewrite Esrc, slice_slice by lia. unfold slice. f_equal. lia.
  - apply drop_patch_after; lia.
Qed.

(** The transport of the translated packet, when it is no ICMP message. *)
Definition translated_transport4 (prefix : bytes) (next fo : Z) (t : bytes) : bytes :=
  if negb (fo =? 0) then t
  else
    match checksum_field next (length t) with
    | Some off => patch t off (put16 (not16 (Combine (not16 (be16 (slice t off (off + 2))))
                                                      (Combine siit64SourceChecksumDelta (not16 (Checksum prefix 0))))))
    | None => t
    end.

Lemma transport64_wp P lo e n pa fo next (t : bytes) buf :
  n = length buf -> bytes_ok buf -> (pa + 12 <= lo)%nat -> (lo <= e)%nat -> (e <= n)%nat -> slice buf lo e = t ->
  next <> ICMPv4ProtocolNumber ->
  wp P (siit64UpdateTransportChecksum (mkSlice pa (pa + 12)) (mkSlice lo e) fo next)
    (fun _ buf' => buf' = patch buf lo (translated_transport4 (slice buf pa (pa + 12)) next fo t)) buf.
Proof.
  intros Hn Hb Hpa Hlo He Ht Hnx. assert (Hself : patch buf lo t = buf) by (rewrite <- Ht; apply patch_self; lia).
  assert (Hlt : length t = (e - lo)%nat) by (rewrite <- Ht, length_slice; lia).
  unfold siit64UpdateTransportChecksum, translated_transport4. destruct (negb (fo =? 0)); [by apply wp_ret|].
  rewrite (proj2 (Z.eqb_neq next ICMPv4ProtocolNumber)) by done. cbv zeta. unfold s_len. cbn [s_lo s_hi].
  assert (Hpart : forall m off, checksum_field next (length t) = (if (length t <? m)%nat then None else Some off) ->
    wp P (if (e - lo <? m)%nat then mret tt else siit64PartialUpdateTransportChecksum (mkSlice pa (pa + 12)) (mkSlice lo e) off)
      (fun _ buf' => buf' = patch buf lo (match checksum_field next (length t) with
         | Some off => patch t off (put16 (not16 (Combine (not16 (be16 (slice t off (off + 2))))
                           (Combine siit64SourceChecksumDelta (not16 (Checksum (slice buf pa (pa + 12)) 0)))))) | None => t end)) buf).
  { intros m off Hck. rewrite <- Hlt, Hck. destruct (length t <? m)%nat eqn:Em; [by apply wp_ret|].
    destruct (checksum_field_bound _ _ _ Hck) as (Ho6 & Ho & _). unfold siit64PartialUpdateTransportChecksum.
    apply wp_bind, wp_ask. cbn [s_lo s_hi]. apply wp_bind, wp_sub; [lia|cbn [s_lo]; lia|]. apply wp_bind, wp_ask. cbn [s_lo s_hi].
    rewrite <- (slice_slice buf lo e off (off + 2)), Ht by lia.
    apply wp_put; [unfold s_len; cbn [s_lo s_hi]; rewrite length_put16; lia|]. cbn [s_lo].
    rewrite <- Hself at 1. rewrite patch_window by (rewrite ?length_put16; lia). done. }
  unfold checksum_field in Hpart |- *.
  destruct (next =? TCPProtocolNumber); [by apply Hpart|]. destruct (next =? DCCPProtocolNumber); [by apply Hpart|].
  destruct (next =? UDPProtocolNumber); [by apply Hpart|]. by apply wp_ret.
Qed.

(** The header checksum, over a header with known bytes before it. *)
Lemma header_checksum_wp P s n x y rest buf :
  n = length buf -> bytes_ok buf -> (s <= n)%nat -> length x = 10%nat -> length y = 8%nat -> byte_at x 0 = 69 ->
  (exists c, length c = 2%nat /\ drop s buf = x ++ c ++ y ++ rest) ->
  wp P (set_header_checksum (mkSlice s n))
    (fun _ buf' => length buf' = n /\ bytes_ok buf' /\ take s buf' = take s buf
       /\ exists ck, drop s buf' = x ++ put16 ck ++ y ++ rest /\ Checksum (x ++ put16 ck ++ y) 0 = 0xffff) buf.
Proof.
  intros Hn Hb Hs Hx Hy H69 (c & Hc & Hd). unfold set_header_checksum.
  assert (Hlen : (s + 20 <= n)%nat).
  { apply (f_equal length) in Hd. rewrite length_drop, !length_app in Hd. lia. }
  assert (Hpd : forall d v b, length d = 2%nat -> length b = n -> drop s b = x ++ d ++ y ++ rest ->
    drop s (patch b (s + 10) (put16 v)) = x ++ put16 v ++ y ++ rest).
  { intros d v b Hd2 Hsb Hb'. rewrite drop_patch by lia. rewrite Hb'. replace (s + 10 - s)%nat with (length x + 0)%nat by lia.
    rewrite patch_app_r. f_equal. unfold patch. rewrite take_0, length_put16. cbn [app Nat.add]. by rewrite drop_app_length' by done. }
  apply wp_bind. eapply (wp_modify _ _ _ 10 (put16 0)); [unfold s_ok; cbn [s_lo s_hi]; lia|unfold s_len; cbn [s_lo s_hi]; rewrite length_put16; lia| |].
  { apply v4_SetChecksum_spec. cbn [s_lo s_hi]. rewrite length_slice; lia. }
  cbn [s_lo]. set (b1 := patch buf (s + 10) (put16 0)).
  assert (Hl1 : length b1 = n) by (unfold b1; rewrite length_patch; rewrite ?length_put16; lia).
  assert (Hb1 : bytes_ok b1) by (unfold b1; auto with bytes).
  assert (Hd1 : drop s b1 = x ++ put16 0 ++ y ++ rest) by (by apply (Hpd c)).
  set (h0 := x ++ put16 0 ++ y). assert (Hl0 : length h0 = 20%nat) by (unfold h0; rewrite !length_app, length_put16; lia).
  assert (E0 : forall k, (20 <= k)%nat -> (s + k <= n)%nat -> take 20 (slice b1 s (s + k)) = h0).
  { intros k Hk Hkn. unfold slice. rewrite Hd1, take_take. replace (20 `min` (s + k - s))%nat with 20%nat by lia.
    replace (x ++ put16 0 ++ y ++ rest) with (h0 ++ rest) by (unfold h0; by rewrite <- !app_assoc).
    by apply take_app_length'. }
  assert (Hok : bytes_ok h0) by (rewrite <- (E0 20%nat) by lia; auto with bytes).
  eapply (wp_modify _ _ _ 10 (put16 (not16 (Checksum h0 0)))); [unfold s_ok; cbn [s_lo s_hi]; lia|unfold s_len; cbn [s_lo s_hi]; rewrite length_put16; lia| |].
  { cbn [s_lo s_hi]. unfold v4_CalculateChecksum.
    assert (E69 : byte_at (slice b1 s n) 0 = 69).
    { rewrite byte_at_slice, Nat.add_0_r by lia. assert (byte_at (drop s b1) 0 = 69) as <-.
      - rewrite Hd1. destruct x; [done|exact H69].
      - unfold byte_at. by rewrite nth_skipn, Nat.add_0_r. }
    rewrite v4_HeaderLength_spec by (rewrite length_slice; lia). rewrite E69. change (Z.to_nat (69 mod 16 * 4)) with 20%nat.
    replace n with (s + (n - s))%nat at 2 by lia. rewrite E0 by lia. apply v4_SetChecksum_spec. rewrite length_slice; lia. }
  cbn [s_lo]. split_and!.
  - rewrite length_patch; rewrite ?length_put16; lia.
  - auto with bytes.
  - rewrite take_patch by lia. unfold b1. by rewrite take_patch by lia.
  - exists (not16 (Checksum h0 0)). split; [apply (Hpd (put16 0)); [done|lia|done]|].
    assert (Hpos : 0 < words_sum h0).
    { assert (He : words_sum h0 = words_sum x + words_sum (put16 0 ++ y)) by (unfold h0; apply words_sum_app; rewrite Hx; by exists 5%nat).
      assert (Hxo : bytes_ok x /\ bytes_ok (put16 0 ++ y)) by (by apply bytes_ok_app).
      pose proof (words_sum_nonneg _ (proj2 Hxo)). destruct x as [|a [|b x]]; [done|done|]. destruct Hxo as [Hxo _].
      rewrite !bytes_ok_cons in Hxo. unfold is_byte in Hxo. pose proof (words_sum_nonneg x ltac:(tauto)).
      cbn in H69. subst a. cbn [words_sum] in He. lia. }
    assert (Eh : x ++ put16 (not16 (Checksum h0 0)) ++ y = patch h0 10 (put16 (not16 (Checksum h0 0)))).
    { unfold h0 at 2. replace 10%nat with (length x + 0)%nat by lia. rewrite patch_app_r. reflexivity. }
    rewrite Eh. assert (Hz : be16 (slice h0 10 (10 + 2)) = 0).
    { unfold h0, slice. rewrite drop_app_length' by done. reflexivity. }
    rewrite (Checksum_spec h0), Z.add_0_l by (done || lia). unfold not16.
    pose proof (words_sum_filled h0 10 Hok ltac:(by exists 5%nat) ltac:(lia) Hpos Hz) as Hw.
    rewrite Checksum_spec; [rewrite Z.add_0_l; exact Hw| |lia]. auto with bytes.
Qed.

Lemma v4_image_parts h pl id word next :
  exists x y, length x = 10%nat /\ byte_at x 0 = 69 /\ ((40 <= length h)%nat -> length y = 8%nat)
    /\ forall ck, v4_image h pl id word next ck = x ++ ck ++ y.
Proof.
  exists ([69; u8 (be16 (slice h 0 2) / 2 ^ 4)] ++ put16 (u16 (Z.of_nat (IPv4MinimumSize + pl))) ++ put16 id ++ put16 word
          ++ [byte_at h 7; v4_protocol next]), (slice h 20 24 ++ slice h 36 40).
  split_and!; [done|done| |done]. intros Hh. rewrite length_app, !length_slice; lia.
Qed.

(** The transport stages: bytes of the transport only, and which. *)
Lemma stages64_wp P a s pl po fo next buf :
  let n := length buf in
  bytes_ok buf -> (a + po <= s)%nat -> (40 <= po)%nat -> (s + 20 + pl <= n)%nat -> (next = ICMPv6ProtocolNumber -> (8 <= pl)%nat) ->
  next <> ICMPv4ProtocolNumber ->
  wp P (when (v4_protocol next =? ICMPv4ProtocolNumber) (siit64TranslateICMPTransport (mkSlice (s + 20) (s + 20 + pl)));;
        prefix ← sub (mkSlice a (a + po)) IPv6DestinationAddressOffset (IPv6DestinationAddressOffset + SIITPrefixSize);
        siit64UpdateTransportChecksum prefix (mkSlice (s + 20) (s + 20 + pl)) fo (v4_protocol next))
    (fun _ buf' => frame (s + 20) (s + 20 + pl) buf buf'
       /\ (next <> ICMPv6ProtocolNumber ->
           slice buf' (s + 20) (s + 20 + pl)
           = translated_transport4 (slice buf (a + 24) (a + 36)) next fo (slice buf (s + 20) (s + 20 + pl)))) buf.
Proof.
  cbv zeta. intros Hb Ha Hpo Hs Hi H4. apply wp_bind.
  apply wp_mono with (Q := fun _ b => frame (s + 20) (s + 20 + pl) buf b /\ (next <> ICMPv6ProtocolNumber -> b = buf)).
  { unfold v4_protocol. destruct (Z.eqb_spec next ICMPv6ProtocolNumber) as [E|E].
    - eapply wp_mono; [apply (keeps_icmp64 P (s + 20) (s + 20 + pl) (length buf)); [lia|specialize (Hi E); lia|done|done]|]. cbv beta. by intros _ b F.
    - rewrite (proj2 (Z.eqb_neq next ICMPv4ProtocolNumber)) by done. by apply wp_ret. }
  intros _ b1 [F1 E1]. destruct (F1) as (Hl1 & Hb1 & _).
  apply wp_bind, wp_sub; [win_lia|win_lia|]. cbn [s_lo].
  assert (Ek : slice b1 (a + 24) (a + 36) = slice buf (a + 24) (a + 36)) by (eapply frame_slice; [exact F1|lia]).
  change (a + IPv6DestinationAddressOffset)%nat with (a + 24)%nat.
  change (a + (IPv6DestinationAddressOffset + SIITPrefixSize))%nat with (a + 36)%nat.
  destruct (Z.eq_dec next ICMPv6ProtocolNumber) as [E|E].
  - eapply wp_mono; [apply (keeps_checksum64 P _ (s + 20) (s + 20 + pl) (length buf)); lia || done|]. cbv beta. intros _ b2 F2.
    split; [by eapply frame_trans|done].
  - specialize (E1 E). subst b1. replace (v4_protocol next) with next by (unfold v4_protocol; by rewrite (proj2 (Z.eqb_neq _ _))).
    replace (a + 36)%nat with (a + 24 + 12)%nat by lia.
    eapply wp_mono; [apply wp_and; [apply (keeps_checksum64 P _ (s + 20) (s + 20 + pl) (length buf)); lia || done|
      apply (transport64_wp P (s + 20) (s + 20 + pl) (length buf) (a + 24) fo next (slice buf (s + 20) (s + 20 + pl))); lia || done]|].
    cbv beta. intros _ b2 [F2 ->]. split; [exact F2|]. intros _. set (t' := translated_transport4 _ _ _ _).
    assert (Lt : length t' = pl).
    { unfold t', translated_transport4. destruct (negb _); [rewrite length_slice; lia|]. destruct (checksum_field _ _) as [off|] eqn:Ec.
      - destruct (checksum_field_bound _ _ _ Ec) as (_ & Ho & _). rewrite length_patch; rewrite ?length_put16, ?length_slice in *; lia.
      - rewrite length_slice; lia. }
    apply slice_patch_same; lia.
Qed.

Lemma wp_seq P {A B C D} (m : M A) (f : M B) (g : B -> M C) (K : M D) Q buf :
  wp P (m;; (y ← f; g y)) (fun _ b => wp P K Q b) buf -> wp P (m;; (y ← f; (g y;; K))) Q buf.
Proof.
  unfold wp, mbind, M_bind. destruct (m buf) as [[a b]|]; [|done]. destruct (f b) as [[y b']|]; [|done]. by destruct (g y b') as [[c b'']|].
Qed.

(** The buffer and the counter after a translation of the packet [p]. *)
Definition translated64 (p : bytes) (r : Parsed6) (counter : Z) (r' : nat) (c' : Z) (buf' : bytes) : Prop :=
  let '(id, word, fo, counter') := frag_info (fragment_bytes p <$> p6_fragment r) counter in
  let po := p6_payloadOffset r in
  let pl := p6_payloadLength r in
  c' = counter'
  /\ exists ck t', let h := v4_image (take po p) pl id word (p6_nextHeader r) (put16 ck) in
       drop (r' + MessageTransportHeaderSize) buf' = h ++ t' ++ drop (po + pl) p
       /\ length t' = pl /\ Checksum h 0 = 0xffff
       /\ (p6_nextHeader r <> ICMPv6ProtocolNumber ->
           t' = translated_transport4 (slice p 24 36) (p6_nextHeader r) fo (slice p po (po + pl))).
Definition outcome64 (buf : bytes) (reserved : nat) (counter : Z) (x : bool * nat * Z) (buf' : bytes) : Prop :=
  let p := drop (reserved + MessageTransportHeaderSize) buf in
  let '(ok, r', c') := x in
  length buf' = length buf /\ bytes_ok buf'
  /\ match (if (reserved <? 20)%nat then None else isIPv6PacketTranslatable p) with
     | None => ok = false /\ r' = reserved /\ c' = counter /\ buf' = buf
     | Some r => ok = true /\ r' = (reserved - 20 + p6_payloadOffset r)%nat /\ translated64 p r counter r' c' buf'
     end.

Lemma SIIT64_wp reserved counter buf :
  bytes_ok buf -> wp False (SIIT64InPlaceTranslate reserved counter) (outcome64 buf reserved counter) buf.
Proof.
  intros Hb. unfold SIIT64InPlaceTranslate, outcome64, MessageTransportHeaderSize. set (p := drop _ _).
  assert (Hp : bytes_ok p) by (unfold p; auto with bytes). assert (Hlp : length p = (length buf - (reserved + 16))%nat) by apply length_drop.
  apply wp_bind, wp_buffer_len. destruct ((length buf <? reserved)%nat || _)%bool eqn:E0.
  { rewrite orb_true_iff, !Nat.ltb_lt in E0. apply wp_ret. split_and!; try done.
    assert (En : isIPv6PacketTranslatable p = None).
    { unfold isIPv6PacketTranslatable. rewrite IPVersion_spec. destruct p; [done|cbn in Hlp; lia]. }
    rewrite En. by destruct (reserved <? 20)%nat. }
  rewrite orb_false_iff, !Nat.ltb_ge in E0. apply wp_bind, wp_sub; [lia|cbn [s_lo]; lia|]. apply wp_bind, wp_ask. cbn [s_lo s_hi]. rewrite !Nat.add_0_l.
  assert (Ep : slice buf (reserved + 16) (length buf) = p) by (unfold slice, p; apply take_ge; rewrite length_drop; lia).
  rewrite Ep. destruct (isIPv6PacketTranslatable p) as [r|] eqn:Er.
  2: { apply wp_ret. split_and!; try done. by destruct (reserved <? 20)%nat. }
  destruct (parse6_ok p r Hp Er) as [_ Hpo Hpl Hroom [Hnb Hnf] Hfr Hicmp].
  set (po := p6_payloadOffset r) in *. set (pl := p6_payloadLength r) in *.
  apply wp_bind. eapply wp_mono; [apply (room64_wp False reserved po buf); [done|fold p; lia|lia]|].
  cbv zeta beta. fold p. intros [[[h6 p4] r']|] b1.
  2: { intros [-> Hlt]. apply wp_ret. split_and!; try done. by rewrite (proj2 (Nat.ltb_lt _ _)). }
  intros (H20 & -> & -> & -> & Hl1 & Hb1 & Hh1 & Hd1). rewrite (proj2 (Nat.ltb_ge reserved 20)) by done.
  set (a := (reserved - 4)%nat) in *. set (s := (a + po)%nat) in *. cbv zeta.
  assert (Hs20 : (s + 20 = reserved + 16 + po)%nat) by (unfold s, a; lia).
  assert (Hdp : drop (s + 20) buf = drop po p) by (unfold p; rewrite drop_drop, Hs20; done).
  apply wp_bind. eapply wp_mono; [apply (translateHeader64_wp False a po s (length buf)); try done; try lia|].
  { destruct (p6_fragment r) as [f|]; [|done]. cbn [fmap option_fmap option_map]. unfold IPv6FragmentHeaderSize. f_equal; lia. }
  cbv beta. set (fragment := (fun off => mkSlice _ _) <$> p6_fragment r).
  assert (Ef : frag_info ((fun _ => slice b1 (s + 12) (s + 20)) <$> fragment) counter = frag_info (fragment_bytes p <$> p6_fragment r) counter).
  { f_equal. unfold fragment. destruct (p6_fragment r) as [f|]; [|done]. cbn [fmap option_fmap option_map]. f_equal.
    destruct Hfr as [Hf1 Hf2]. unfold fragment_bytes, p, IPv6FragmentHeaderSize. rewrite slice_drop_eq.
    rewrite <- !(slice_drop_eq b1 s), Hd1, !slice_drop_eq. f_equal; lia. }
  rewrite Ef. unfold translated64. destruct (frag_info (fragment_bytes p <$> p6_fragment r) counter) as [[[id word] fo] counter'].
  intros ? b2 [-> E2]. change (a + po)%nat with s in E2. rewrite Hh1 in E2. cbv beta iota. set (ck0 := slice b1 (s + 10) (s + 12)) in *.
  assert (Lck : length ck0 = 2%nat) by (unfold ck0; rewrite length_slice; lia).
  assert (Lh : length (take po p) = po) by (rewrite length_take; lia).
  set (img := v4_image (take po p) pl id word (p6_nextHeader r)) in *.
  assert (Li : length (img ck0) = 20%nat) by (apply length_v4_image; [rewrite Lh; lia|done]).
  assert (Hl2 : length b2 = length buf) by (rewrite E2, length_patch; lia).
  assert (Hb2 : bytes_ok b2).
  { rewrite E2. apply bytes_ok_patch; [done|]. apply v4_image_ok; unfold ck0; auto with bytes. }
  assert (Hd2 : drop s b2 = img ck0 ++ drop po p).
  { rewrite E2, drop_patch by lia. rewrite Nat.sub_diag. unfold patch. rewrite take_0. cbn [app]. f_equal.
    rewrite Li, Hd1, drop_drop. exact Hdp. }
  change IPv4MinimumSize with 20%nat. apply wp_bind, wp_sub; [lia|cbn [s_lo]; lia|]. cbn [s_lo]. rewrite Nat.add_assoc.
  apply wp_seq. eapply wp_mono; [apply (stages64_wp False a s pl po fo (p6_nextHeader r) b2); try done; try lia|].
  { intros E. by rewrite E in Hnf. }
  cbv beta. intros _ b3 [F3 E3]. destruct (F3) as (Hl3 & Hb3 & Ht3 & Hd3).
  set (t' := slice b3 (s + 20) (s + 20 + pl)) in *.
  assert (Lt : length t' = pl) by (unfold t'; rewrite length_slice; lia).
  assert (Hd3' : drop s b3 = img ck0 ++ t' ++ drop (po + pl) p).
  { rewrite <- (take_slice_drop (drop s b3) 20 (20 + pl)) by (rewrite ?length_drop; lia). f_equal.
    - transitivity (take 20 (drop s b2)); [|rewrite Hd2; by apply take_app_length'].
      rewrite <- (slice_0 (drop s b3)), <- (slice_0 (drop s b2)), !slice_drop_eq, Nat.add_0_r. eapply frame_slice; [exact F3|lia].
    - f_equal; [by rewrite slice_drop_eq, Nat.add_assoc|]. rewrite drop_drop, Nat.add_assoc, Hd3, <- !(drop_drop b2), Hd2, drop_app_length' by done.
      by rewrite drop_drop. }
  destruct (v4_image_parts (take po p) pl id word (p6_nextHeader r)) as (x & y & Hx & H69 & Hy & Exy). rewrite Lh in Hy. specialize (Hy Hpo).
  apply wp_bind. eapply wp_mono; [apply (header_checksum_wp False s (length buf) x y (t' ++ drop (po + pl) p)); try done; try lia|].
  { exists ck0. split; [done|]. rewrite Hd3'. unfold img. rewrite Exy. by rewrite <- !app_assoc. }
  cbv beta. intros _ b4 (Hl4 & Hb4 & _ & ck & Hd4 & Hck). apply wp_ret. split_and!; try done. exists ck, t'.
  replace (reserved - 20 + po + MessageTransportHeaderSize)%nat with s by (unfold s, a, MessageTransportHeaderSize; lia).
  fold img. unfold img. rewrite Exy. split_and!; [|done|done|].
  - rewrite Hd4. by rewrite <- !app_assoc.
  - intros Hne. rewrite (E3 Hne). f_equal.
    + rewrite E2, slice_patch_before by lia. rewrite <- (slice_slice b1 a s 24 36), Hh1 by lia. apply slice_take_eq. lia.
    + rewrite <- (Nat.add_assoc s 20 pl), <- (slice_drop_eq b2 s), Hd2. unfold slice. rewrite drop_app_length' by done. f_equal. lia.
Qed.

Lemma outcome64_v4 buf reserved counter r' c' buf' :
  bytes_ok buf -> outcome64 buf reserved counter (true, r', c') buf' ->
  bytes_ok buf' /\ length buf' = length buf /\ (r' + MessageTransportHeaderSize + 20 <= length buf)%nat
  /\ Z.shiftr (byte_at buf' (r' + MessageTransportHeaderSize)) 4 = 4.
Proof.
  intros Hb. unfold outcome64. set (p := drop _ buf). intros (Hl & Hb' & Hm).
  destruct (if (reserved <? 20)%nat then None else _) as [r|] eqn:Er; [|by destruct Hm].
  assert (Hpar : isIPv6PacketTranslatable p = Some r) by (by destruct (reserved <? 20)%nat).
  assert (Hp : bytes_ok p) by (unfold p; auto with bytes). destruct (parse6_ok p r Hp Hpar) as [_ Hpo _ Hroom _ _ _].
  destruct Hm as (_ & _ & Ht). unfold translated64 in Ht. destruct (frag_info _ _) as [[[id word] fo] c1].
  destruct Ht as (_ & ck & t' & Hd & _). set (s := (r' + _)%nat) in *.
  destruct (v4_image_parts (take (p6_payloadOffset r) p) (p6_payloadLength r) id word (p6_nextHeader r)) as (x & y & Hx & H69 & Hy & Exy).
  rewrite length_take in Hy. specialize (Hy ltac:(lia)). rewrite Exy in Hd. split_and!; [done|done| |].
  - apply (f_equal length) in Hd. rewrite length_drop, !length_app, length_put16 in Hd. lia.
  - assert (E : byte_at (drop s buf') 0 = byte_at buf' s) by (unfold byte_at; by rewrite nth_skipn, Nat.add_0_r).
    rewrite <- E, Hd. destruct x as [|b x]; [done|]. cbn in H69 |- *. by rewrite H69.
Qed.

(** C24: The IPv6-to-IPv4 translator never panics, whatever the bytes. A packet
    its parser refuses, or without twenty bytes of headroom, is left alone, buffer
    and counter included; any other becomes an IPv4 header of twenty bytes with a
    right checksum, the transport in its place and, unless it is ICMP, unchanged
    but for the checksum field, and then whatever followed the packet. *)
Theorem SIIT64_total reserved counter buf (Hb : bytes_ok buf) :
  exists x buf', SIIT64InPlaceTranslate reserved counter buf = Some (x, buf') /\ outcome64 buf reserved counter x buf'.
Proof.
  pose proof (SIIT64_wp reserved counter buf Hb) as Hw. unfold wp in Hw.
  destruct (SIIT64InPlaceTranslate reserved counter buf) as [[x buf']|]; [|done]. by exists x, buf'.
Qed.

(** ** Checksums *)

Lemma prefix_ones : siitPrefixChecksum = 0xffff.
Proof. unfold siitPrefixChecksum. rewrite Checksum_spec by (decide_closed || lia). reflexivity. Qed.
Lemma addresses6_sum p :
  (40 <= length p)%nat ->
  words_sum (slice p 8 40) = words_sum (slice p 8 20) + words_sum (slice p 20 24) + words_sum (slice p 24 36) + words_sum (slice p 36 40).
Proof.
  intros Hp.
  assert (Hcut : forall i j k, (i <= j)%nat -> (j <= k)%nat -> (k <= 40)%nat -> Nat.Even (j - i) ->
    words_sum (slice p i k) = words_sum (slice p i j) + words_sum (slice p j k)).
  { intros i j k Hi Hj Hk He. rewrite <- words_sum_app by (rewrite length_slice by lia; exact He). f_equal.
    unfold slice. replace (drop j p) with (drop (j - i) (drop i p)) by (rewrite drop_drop; f_equal; lia).
    rewrite take_take_drop. f_equal. lia. }
  rewrite (Hcut 8%nat 20%nat 40%nat), (Hcut 20%nat 24%nat 40%nat), (Hcut 24%nat 36%nat 40%nat);
    try lia; [by exists 6%nat|by exists 2%nat|by exists 6%nat].
Qed.
Lemma transport4_sum prefix next t off :
  bytes_ok prefix -> bytes_ok t -> checksum_field next (length t) = Some off ->
  same_sum (words_sum (translated_transport4 prefix next 0 t)) (words_sum t + words_sum prefix).
Proof.
  intros Hp Ht Hck. destruct (checksum_field_bound _ _ _ Hck) as (H6 & Hoff & He). unfold translated_transport4. rewrite Hck. cbn [Z.eqb negb].
  set (c := be16 (slice t off (off + 2))). assert (Hc : 0 <= c < 2 ^ 16) by (apply be16_bound; auto with bytes).
  pose proof (words_sum_nonneg _ Hp) as Np. rewrite Checksum_spec, Z.add_0_l by (done || lia).
  destruct (folded_sum _ Np) as [Sf Bf]. set (f := folded (words_sum prefix)) in *.
  assert (B64 : siit64SourceChecksumDelta = 0) by (unfold siit64SourceChecksumDelta; by rewrite prefix_ones). rewrite B64.
  assert (Nf : 0 <= not16 f < 2 ^ 16) by (unfold not16; lia). assert (Nc : 0 <= not16 c < 2 ^ 16) by (unfold not16; lia).
  pose proof (Combine_range 0 (not16 f) ltac:(lia) Nf) as B1. pose proof (Combine_range _ _ Nc B1) as B2. set (X := Combine _ _) in B2 |- *.
  rewrite words_sum_patch by (done || (unfold not16; lia)). fold c.
  replace (words_sum t + words_sum prefix) with (words_sum t - c + (c + words_sum prefix)) by lia. apply same_sum_add; [done|].
  assert (HX : same_sum X (- (c + words_sum prefix))).
  { eapply same_sum_trans; [by apply Combine_sum|]. replace (- (c + words_sum prefix)) with (- c + (0 + - words_sum prefix)) by lia.
    apply same_sum_add; [apply same_sum_not16|]. eapply same_sum_trans; [by apply Combine_sum|]. apply same_sum_add; [done|].
    eapply same_sum_trans; [apply same_sum_not16|]. unfold same_sum in *. rewrite <- (Z.sub_0_l f), <- (Z.sub_0_l (words_sum prefix)).
    by rewrite Zminus_mod, Sf, <- Zminus_mod. }
  eapply same_sum_trans; [apply same_sum_not16|]. unfold same_sum in *. rewrite <- (Z.sub_0_l X). rewrite Zminus_mod, HX, <- Zminus_mod.
  f_equal. lia.
Qed.

Lemma covered_field proto m c n :
  covered proto m c -> proto <> 58 -> (m <= n)%nat -> checksum_field proto n = Some c.
Proof.
  intros Hc Hp Hn. unfold checksum_field, TCPMinimumSize, DCCPMinimumSize, UDPMinimumSize.
  destruct Hc; cbn [Z.eqb Pos.eqb TCPProtocolNumber DCCPProtocolNumber UDPProtocolNumber]; try done; by rewrite (proj2 (Nat.ltb_ge _ _)).
Qed.
Lemma v4_image_addresses h pl id word next ck :
  length ck = 2%nat -> (40 <= length h)%nat -> slice (v4_image h pl id word next ck) 12 20 = slice h 20 24 ++ slice h 36 40.
Proof.
  intros Hk Hh. unfold v4_image. destruct ck as [|k0 [|k1 [|]]]; try done. generalize (be16 (slice h 0 2)). intros b.
  assert (Ha : length (slice h 20 24 ++ slice h 36 40) = 8%nat) by (rewrite length_app, !length_slice by lia; lia).
  revert Ha. generalize (slice h 20 24 ++ slice h 36 40). intros a Ha. change (take 8 a = a). apply take_ge. lia.
Qed.
Lemma frag_info_first frag counter :
  match frag with Some f => be16 (slice f 2 4) / 8 = 0 | None => True end -> (frag_info frag counter).1.2 = 0.
Proof.
  intros Hf. unfold frag_info. destruct frag as [f|]; [|done]. cbv zeta. rewrite Hf. by destruct (_ || _).
Qed.
(** The update changes the checksum field only. *)
Lemma transport4_frame prefix next t off :
  checksum_field next (length t) = Some off ->
  take off (translated_transport4 prefix next 0 t) = take off t
  /\ drop (off + 2) (translated_transport4 prefix next 0 t) = drop (off + 2) t.
Proof.
  intros Hck. destruct (checksum_field_bound _ _ _ Hck) as (_ & Ho & _). unfold translated_transport4. rewrite Hck. cbn [Z.eqb negb].
  split; [rewrite take_patch by lia; done|]. apply drop_patch_after; rewrite ?length_put16; lia.
Qed.

(** What is added up differs by the prefix of the source. *)
Lemma stripped_sum p T t :
  (40 <= length p)%nat -> same_sum T (words_sum t + words_sum (slice p 24 36)) ->
  same_sum (words_sum (slice p 20 24 ++ slice p 36 40) + T + words_sum (slice p 8 20)) (words_sum (slice p 8 40) + words_sum t).
Proof.
  intros Hp HT. rewrite addresses6_sum, words_sum_app by (done || (rewrite length_slice by lia; by exists 2%nat)).
  set (u := words_sum (slice p 20 24)). set (w := words_sum (slice p 36 40)). set (s := words_sum (slice p 8 20)).
  replace (u + w + T + s) with (u + w + s + T) by lia.
  replace (s + u + words_sum (slice p 24 36) + w + words_sum t) with (u + w + s + (words_sum t + words_sum (slice p 24 36))) by lia.
  by apply same_sum_add.
Qed.
Lemma same_sum_cancel x s z : same_sum (x + s) z -> same_sum x z <-> same_sum s 0.
Proof.
  unfold same_sum. intros E. split; intros H1.
  - replace s with (x + s - x) by lia. rewrite Zminus_mod, E, H1, <- Zminus_mod. by rewrite Z.sub_diag.
  - rewrite <- E. rewrite (Z.add_mod x s), H1 by lia. rewrite Z.add_0_r. by rewrite Z.mod_mod.
Qed.

(** C25: A packet or first fragment with a whole TCP, DCCP or UDP header is
    translated so that its transport keeps every byte but the checksum field,
    and what a receiver adds up over the addresses and the transport is what it
    was before, less the prefix of the source address. So the transport checksum
    stays right exactly when that prefix adds up to zero, as the well-known
    prefix does: any other source is stripped of its prefix too, and its
    checksum goes wrong. *)
Theorem SIIT64_checksum_by_source reserved counter buf r m c (Hb : bytes_ok buf) (Hres : (20 <= reserved)%nat) :
  let p := drop (reserved + 16) buf in
  let pl := p6_payloadLength r in
  let t := slice p (p6_payloadOffset r) (p6_payloadOffset r + pl) in
  isIPv6PacketTranslatable p = Some r ->
  match p6_fragment r with Some f => be16 (slice p (f + 2) (f + 4)) / 8 = 0 | None => True end ->
  covered (p6_nextHeader r) m c -> p6_nextHeader r <> 58 -> (m <= pl)%nat ->
  exists r' c' buf', SIIT64InPlaceTranslate reserved counter buf = Some ((true, r', c'), buf')
  /\ let q := drop (r' + 16) buf' in
     let t' := slice q 20 (20 + pl) in
     byte_at q 0 = 69 /\ byte_at q 9 = p6_nextHeader r /\ take c t' = take c t /\ drop (c + 2) t' = drop (c + 2) t
     /\ same_sum (words_sum (slice q 12 20) + words_sum t' + words_sum (slice p 8 20)) (words_sum (slice p 8 40) + words_sum t)
     /\ (same_sum (words_sum (slice q 12 20) + words_sum t') (words_sum (slice p 8 40) + words_sum t)
         <-> same_sum (words_sum (slice p 8 20)) 0).
Proof.
  cbv zeta. set (p := drop _ buf). set (pl := p6_payloadLength r). set (t := slice p _ _). intros Hr Hfrag Hcov Hn58 Hm.
  assert (Hp : bytes_ok p) by (unfold p; auto with bytes). destruct (parse6_ok p r Hp Hr) as [_ Hpo _ Hroom _ _ _]. fold pl in Hroom.
  assert (Lt : length t = pl) by (unfold t; rewrite length_slice; lia).
  assert (Hck : checksum_field (p6_nextHeader r) (length t) = Some c) by (rewrite Lt; by eapply covered_field).
  pose proof (SIIT64_wp reserved counter buf Hb) as Hw. unfold wp in Hw.
  destruct (SIIT64InPlaceTranslate reserved counter buf) as [[[[ok r'] c'] buf']|]; [|done]. destruct Hw as (_ & _ & Ho).
  rewrite (proj2 (Nat.ltb_ge reserved 20) Hres) in Ho. fold p in Ho. change MessageTransportHeaderSize with 16%nat in Ho. fold p in Ho.
  rewrite Hr in Ho. destruct Ho as (-> & _ & Ht). exists r', c', buf'. split; [done|].
  unfold translated64 in Ht. assert (Hfo : (frag_info (fragment_bytes p <$> p6_fragment r) counter).1.2 = 0).
  { apply frag_info_first. destruct (p6_fragment r) as [f|]; [|done]. cbn [fmap option_fmap option_map].
    unfold fragment_bytes, IPv6FragmentHeaderSize. rewrite slice_slice by lia. exact Hfrag. }
  destruct (frag_info _ _) as [[[id word] fo] c1]. cbn [fst snd] in Hfo. subst fo.
  destruct Ht as (_ & ck & t' & Hd & Lt' & _ & Ht'). change MessageTransportHeaderSize with 16%nat in Hd. fold pl in Hd, Lt', Ht'. fold t in Ht'.
  set (q := drop (r' + 16) buf') in *. set (h := v4_image _ _ _ _ _ _) in *.
  assert (Lpo : (40 <= length (take (p6_payloadOffset r) p))%nat) by (rewrite length_take; lia).
  assert (Lh : length h = 20%nat) by (apply length_v4_image; [done|apply length_put16]).
  assert (Et : slice q 20 (20 + pl) = t') by (rewrite Hd; apply slice_app_eq; lia).
  assert (Ea : slice q 12 20 = slice p 20 24 ++ slice p 36 40).
  { rewrite Hd. unfold slice at 1. rewrite drop_app_le, take_app_le by (rewrite ?length_drop; lia).
    change (slice h 12 20 = slice p 20 24 ++ slice p 36 40). unfold h. rewrite v4_image_addresses by (done || apply length_put16).
    by rewrite !slice_take_eq by lia. }
  rewrite Et, Ea. rewrite (Ht' Hn58). destruct (transport4_frame (slice p 24 36) _ _ _ Hck) as [Hf1 Hf2].
  pose proof (stripped_sum p _ t ltac:(lia) (transport4_sum (slice p 24 36) _ t c ltac:(auto with bytes) ltac:(unfold t; auto with bytes) Hck)) as HS.
  assert (H9 : v4_protocol (p6_nextHeader r) = p6_nextHeader r) by (unfold v4_protocol; by rewrite (proj2 (Z.eqb_neq _ ICMPv6ProtocolNumber))).
  split_and!; [by rewrite Hd|rewrite Hd; exact H9|done|done|exact HS|by apply same_sum_cancel].
Qed.
End image64.

(** * Witnesses *)

(** The answer to 192.0.0.1 from 64:ff9b::808:808, and the same from fd00:7::9. *)
Definition v6_answer : bytes :=
  [96; 0; 0; 0; 0; 8; 17; 64] ++ (take 12 SIITPrefix ++ [8; 8; 8; 8]) ++ (take 12 SIITPrefix ++ [192; 0; 0; 1]) ++ [0; 53; 48; 57; 0; 8; 255; 94].
Definition v6_foreign : bytes := take 8 v6_answer ++ sample_clat ++ drop 24 v6_answer.
Lemma SIIT64_total_witness :
  exists x buf', SIIT64InPlaceTranslate 48 7 (in_buffer v6_answer) = Some (x, buf') /\ outcome64 (in_buffer v6_answer) 48 7 x buf'
    /\ drop (x.1.2 + 16) buf' = [69; 0; 0; 28; 0; 7; 0; 0; 64; 17; 170; 185; 8; 8; 8; 8; 192; 0; 0; 1; 0; 53; 48; 57; 0; 8; 255; 94].
Proof.
  assert (Hb : bytes_ok (in_buffer v6_answer)) by decide_closed.
  destruct (SIIT64_total 48 7 (in_buffer v6_answer) Hb) as (x & buf' & E & Ho). exists x, buf'. split_and!; [exact E|exact Ho|].
  assert (E' : (fun y => drop (y.1.1.2 + 16) y.2) <$> SIIT64InPlaceTranslate 48 7 (in_buffer v6_answer)
     = Some [69; 0; 0; 28; 0; 7; 0; 0; 64; 17; 170; 185; 8; 8; 8; 8; 192; 0; 0; 1; 0; 53; 48; 57; 0; 8; 255; 94]) by (vm_compute; reflexivity).
  rewrite E in E'. cbn in E'. injection E' as E'. exact E'.
Defined.
Definition v6_parsed : Parsed6 := mkParsed6 None 17 40 8.
Lemma SIIT64_checksum_by_source_witness :
  exists r' c' buf', SIIT64InPlaceTranslate 48 7 (in_buffer v6_foreign) = Some ((true, r', c'), buf')
  /\ ~ same_sum (words_sum (slice (drop (r' + 16) buf') 12 20) + words_sum (slice (drop (r' + 16) buf') 20 28))
                (words_sum (slice v6_foreign 8 40) + words_sum (slice v6_foreign 40 48)).
Proof.
  assert (Hb : bytes_ok (in_buffer v6_foreign)) by decide_closed.
  assert (Hr : isIPv6PacketTranslatable (drop 64 (in_buffer v6_foreign)) = Some v6_parsed) by (vm_compute; reflexivity).
  assert (H20 : (20 <= 48)%nat) by lia. assert (H8 : (8 <= 8)%nat) by lia. assert (Hn : 17 <> 58) by lia.
  destruct (SIIT64_checksum_by_source 48 7 (in_buffer v6_foreign) v6_parsed 8 6 Hb H20 Hr I covered_udp Hn H8)
    as (r' & c' & buf' & E & _ & _ & _ & _ & _ & HS). exists r', c', buf'. split; [exact E|].
  intros Hsum. apply HS in Hsum. vm_compute in Hsum. discriminate Hsum.
Defined.
