(* ===== verification/Icmp6.v ===== *)
(** [internal/icmp6]: the ICMPv6 Packet-Too-Big message. gvisor's header setters
    and checksums are the operations of the class [GvisorIcmp]; its laws say
    which bytes they touch. *)

From S2P Require Import Prelude Netip.

(** [header.IPv6Fields] as used here. *)
Record IPv6Fields := mkIPv6Fields {
  PayloadLength : Z;
  TransportProtocol : Z;
  HopLimit : Z;
  SrcAddr : bytes;
  DstAddr : bytes
}.

Class GvisorIcmp := {
  (** [header.IPv6.Encode] writes the fixed header. *)
  IPv6_Encode : bytes -> IPv6Fields -> bytes;
  IPv6_Encode_length p f : length (IPv6_Encode p f) = length p;
  IPv6_Encode_rest p f : drop 40 (IPv6_Encode p f) = drop 40 p;
  IPv6_Encode_src p f : (40 <= length p)%nat -> length (SrcAddr f) = 16%nat -> length (DstAddr f) = 16%nat ->
    slice (IPv6_Encode p f) 8 24 = SrcAddr f;
  IPv6_Encode_dst p f : (40 <= length p)%nat -> length (SrcAddr f) = 16%nat -> length (DstAddr f) = 16%nat ->
    slice (IPv6_Encode p f) 24 40 = DstAddr f;
  (** The ICMPv6 header setters write within its eight bytes. *)
  SetType : bytes -> Z -> bytes;
  SetCode : bytes -> Z -> bytes;
  SetMTU : bytes -> Z -> bytes;
  SetChecksum : bytes -> Z -> bytes;
  setter_length b v : length (SetType b v) = length b /\ length (SetCode b v) = length b
    /\ length (SetMTU b v) = length b /\ length (SetChecksum b v) = length b;
  setter_rest b v : drop 8 (SetType b v) = drop 8 b /\ drop 8 (SetCode b v) = drop 8 b
    /\ drop 8 (SetMTU b v) = drop 8 b /\ drop 8 (SetChecksum b v) = drop 8 b;
  (** [checksum.Checksum] and [header.ICMPv6Checksum]. *)
  Checksum : bytes -> Z -> Z;
  ICMPv6Checksum : bytes -> bytes -> bytes -> Z -> Z -> Z
}.

Definition IPv6MinimumMTU : nat := 1280.
Definition IPv6FixedHeaderSize : nat := 40.
Definition ICMPv6MinimumSize : nat := 8.
Definition ICMPv6PacketTooBig : Z := 2.
Definition ICMPv6UnusedCode : Z := 0.
Definition ICMPv6ProtocolNumber : Z := 58.
Definition QuoteCap : nat := IPv6MinimumMTU - IPv6FixedHeaderSize - ICMPv6MinimumSize.

(** [netip.Addr.IsGlobalUnicast] of an IPv6 address. *)
Definition IsGlobalUnicast (a : Addr) : bool :=
  match a with
  | AddrNone => false
  | Addr4 b => negb (bool_decide (b = [0; 0; 0; 0])) && negb (bool_decide (b = [255; 255; 255; 255]))
      && negb (IsLoopback a) && negb (IsMulticast a) && negb (IsLinkLocalUnicast a)
  | Addr6 b _ => negb (bool_decide (a = Addr6 (repeat 0 16) []))
      && negb (IsLoopback a) && negb (IsMulticast a) && negb (IsLinkLocalUnicast a)
  end.

Section icmp6.
Context `{GvisorIcmp}.

(** The message in a buffer, its outer header first. [As16] of an IPv6
    address is its bytes. *)
Definition BuildPacketTooBig (src dst : bytes) (mtu : Z) (orig : bytes) : bytes :=
  let quoteLen := Nat.min (length orig) QuoteCap in
  let icmpLen := (ICMPv6MinimumSize + quoteLen)%nat in
  let out := repeat 0 (IPv6FixedHeaderSize + icmpLen) in
  let icmp := drop IPv6FixedHeaderSize out in
  let icmp := SetMTU (SetCode (SetType icmp ICMPv6PacketTooBig) ICMPv6UnusedCode) mtu in
  let icmp := take ICMPv6MinimumSize icmp ++ take quoteLen orig in
  let out := IPv6_Encode (take IPv6FixedHeaderSize out ++ icmp)
               (mkIPv6Fields (u16 (Z.of_nat icmpLen)) ICMPv6ProtocolNumber 64 src dst) in
  let icmp := SetChecksum (drop IPv6FixedHeaderSize out) 0 in
  let icmp := SetChecksum icmp (ICMPv6Checksum (take ICMPv6MinimumSize icmp) src dst
                (Checksum (drop ICMPv6MinimumSize icmp) 0) (Z.of_nat quoteLen)) in
  take IPv6FixedHeaderSize out ++ icmp.

Definition addr_bytes (a : Addr) : bytes := default [] (As16 a).
Definition PacketTooBigFor (dstKey : Addr) (mtu : Z) (orig : bytes) : option bytes :=
  if (length orig <? IPv6FixedHeaderSize)%nat then None
  else
    match AddrFromSlice (slice orig 8 24) with
    | None => None
    | Some src =>
      if negb (Is6 src) || Is4In6 src || negb (IsGlobalUnicast src) || bool_decide (src = dstKey) then None
      else Some (BuildPacketTooBig (addr_bytes dstKey) (addr_bytes src) mtu orig)
    end.

(** * What is built *)

Lemma BuildPacketTooBig_length src dst mtu orig :
  length (BuildPacketTooBig src dst mtu orig) = (48 + Nat.min (length orig) QuoteCap)%nat.
Proof.
  unfold BuildPacketTooBig, IPv6FixedHeaderSize, ICMPv6MinimumSize.
  rewrite length_app, !(proj2 (proj2 (proj2 (setter_length _ _)))), length_take, length_drop, IPv6_Encode_length.
  rewrite !length_app, !length_take, !(proj1 (proj2 (proj2 (setter_length _ _)))),
    !(proj1 (proj2 (setter_length _ _))), !(proj1 (setter_length _ _)), length_drop, repeat_length. lia.
Qed.

Lemma BuildPacketTooBig_quote src dst mtu orig :
  drop 48 (BuildPacketTooBig src dst mtu orig) = take (Nat.min (length orig) QuoteCap) orig.
Proof.
  unfold BuildPacketTooBig, IPv6FixedHeaderSize, ICMPv6MinimumSize. cbv zeta.
  set (f := mkIPv6Fields _ _ _ _ _). set (q := Nat.min _ _).
  set (m := SetMTU _ _).
  assert (Hm : length (take 8 m) = 8%nat).
  { unfold m. rewrite length_take, (proj1 (proj2 (proj2 (setter_length _ _)))),
      (proj1 (proj2 (setter_length _ _))), (proj1 (setter_length _ _)), length_drop, repeat_length. lia. }
  set (o := IPv6_Encode _ _).
  assert (Ho : drop 40 o = take 8 m ++ take q orig).
  { unfold o. rewrite IPv6_Encode_rest. apply drop_app_length'. rewrite length_take, repeat_length. lia. }
  assert (Hlo : length (take 40 o) = 40%nat).
  { unfold o. rewrite length_take, IPv6_Encode_length, length_app, length_take, repeat_length. lia. }
  rewrite drop_app_ge by lia. rewrite Hlo. change (48 - 40)%nat with 8%nat.
  rewrite !(proj2 (proj2 (proj2 (setter_rest _ _)))), Ho. by apply drop_app_length'.
Qed.

Lemma BuildPacketTooBig_addrs src dst mtu orig :
  length src = 16%nat -> length dst = 16%nat ->
  slice (BuildPacketTooBig src dst mtu orig) 8 24 = src /\ slice (BuildPacketTooBig src dst mtu orig) 24 40 = dst.
Proof.
  intros Hs Hd. unfold BuildPacketTooBig, IPv6FixedHeaderSize, ICMPv6MinimumSize. cbv zeta.
  set (f := mkIPv6Fields _ _ _ _ _). set (q := Nat.min _ _). set (m := SetMTU _ _).
  set (x := take 40 (repeat _ _) ++ _).
  assert (Hx : (40 <= length x)%nat) by (unfold x; rewrite length_app, length_take, repeat_length; lia).
  assert (Hsl : forall i j l, (i <= j)%nat -> (j <= 40)%nat -> slice (take 40 (IPv6_Encode x f) ++ l) i j = slice (IPv6_Encode x f) i j).
  { intros i j l Hi Hj. unfold slice. pose proof (IPv6_Encode_length x f) as Hl.
    rewrite drop_app_le, take_app_le by (rewrite ?length_drop, ?length_take; lia).
    rewrite skipn_firstn_comm, take_take. f_equal. lia. }
  rewrite !Hsl by lia. split; [by apply IPv6_Encode_src|by apply IPv6_Encode_dst].
Qed.

(** C39: The Packet-Too-Big notice: one is built exactly for a packet with a full
    IPv6 header whose source is a global unicast IPv6 address other than the
    inner address it was sent to, so it never loops; it is addressed from that
    inner address to that source, quotes the first 1232 bytes of the packet and
    no more, and never exceeds the 1280 bytes every IPv6 link carries. *)
Theorem PacketTooBigFor_spec dstKey mtu orig (Hd : exists b, dstKey = Addr6 b [] /\ length b = 16%nat) :
  (is_Some (PacketTooBigFor dstKey mtu orig)
   <-> (40 <= length orig)%nat /\ slice orig 8 24 <> addr_bytes dstKey
       /\ Is4In6 (AddrFrom16 (slice orig 8 24)) = false /\ IsGlobalUnicast (AddrFrom16 (slice orig 8 24)) = true)
  /\ forall pkt, PacketTooBigFor dstKey mtu orig = Some pkt ->
     (length pkt <= 1280)%nat /\ slice pkt 8 24 = addr_bytes dstKey /\ slice pkt 24 40 = slice orig 8 24
     /\ drop 48 pkt = take 1232 orig.
Proof.
  destruct Hd as (b & -> & Hb). unfold PacketTooBigFor, IPv6FixedHeaderSize.
  destruct (length orig <? 40)%nat eqn:E; simpl_bool.
  { split; [split; [intros [? ?]; done|lia]|done]. }
  assert (Hl : length (slice orig 8 24) = 16%nat) by (apply length_slice; lia).
  unfold AddrFromSlice. rewrite Hl. cbn [Nat.eqb].
  change (Addr6 (slice orig 8 24) []) with (AddrFrom16 (slice orig 8 24)).
  change (Is6 (AddrFrom16 (slice orig 8 24))) with true. cbn [negb orb].
  assert (Heq : bool_decide (AddrFrom16 (slice orig 8 24) = Addr6 b []) = bool_decide (slice orig 8 24 = b)).
  { apply bool_decide_ext. unfold AddrFrom16. split; [by intros [= ->]|by intros ->]. }
  rewrite Heq. change (addr_bytes (Addr6 b [])) with b. split.
  - destruct (Is4In6 _), (IsGlobalUnicast _); cbn [negb orb]; try (split; [by intros [? ?]|naive_solver]).
    clear Heq. case_bool_decide as Hb'.
    + split; [by intros [? ?]|by intros (_ & ? & _)].
    + split; [intros _; by split_and!|by eexists].
  - intros pkt. case_match eqn:Ec; [done|]. intros [= <-].
    change (addr_bytes (AddrFrom16 (slice orig 8 24))) with (slice orig 8 24).
    destruct (BuildPacketTooBig_addrs b (slice orig 8 24) mtu orig Hb Hl) as [-> ->].
    rewrite BuildPacketTooBig_length, BuildPacketTooBig_quote.
    change QuoteCap with 1232%nat. split_and!; [lia|done|done|].
    destruct (decide (length orig <= 1232)%nat); [|f_equal; lia]. rewrite Nat.min_l by lia. by rewrite !take_ge by lia.
Qed.
End icmp6.

(** * Witnesses *)

(** The formats of RFC 8200 and RFC 4443 written out. *)
Definition encode_sample (p : bytes) (f : IPv6Fields) : bytes :=
  if decide ((40 <= length p)%nat /\ length (SrcAddr f) = 16%nat /\ length (DstAddr f) = 16%nat)
  then [96; 0; 0; 0] ++ put16 (PayloadLength f) ++ [TransportProtocol f; HopLimit f] ++ SrcAddr f ++ DstAddr f ++ drop 40 p
  else p.
#[local, refine] Instance gvisor_icmp_sample : GvisorIcmp := {
  IPv6_Encode := encode_sample;
  SetType b v := <[0%nat := u8 v]> b;
  SetCode b v := <[1%nat := u8 v]> b;
  SetMTU b v := <[4%nat := u8 (v / 2 ^ 24)]> (<[5%nat := u8 (v / 2 ^ 16)]> (<[6%nat := u8 (v / 2 ^ 8)]> (<[7%nat := u8 v]> b)));
  SetChecksum b v := <[2%nat := u8 (v / 2 ^ 8)]> (<[3%nat := u8 v]> b);
  Checksum b _ := fold_right Z.add 0 b mod 2 ^ 16;
  ICMPv6Checksum h s d c n := u16 (c + n)
}.
Proof.
  - intros p f. unfold encode_sample. case_decide as Hd; [|done]. destruct Hd as (? & ? & ?).
    rewrite !length_app, length_drop. cbn. lia.
  - intros p f. unfold encode_sample. case_decide as Hd; [|done]. destruct Hd as (? & ? & ?).
    rewrite !app_assoc. apply drop_app_length'. rewrite !length_app. cbn. lia.
  - intros p f Hp Hs Hd. unfold encode_sample. rewrite decide_True by done.
    rewrite !app_assoc, <- (app_assoc _ (DstAddr f)), <- (app_assoc _ (SrcAddr f)). apply slice_app_eq; cbn; lia.
  - intros p f Hp Hs Hd. unfold encode_sample. rewrite decide_True by done.
    rewrite !app_assoc, <- (app_assoc _ (DstAddr f)). apply slice_app_eq; rewrite ?length_app; cbn; lia.
  - intros b v. by rewrite !length_insert.
  - intros b v. split_and!; rewrite !drop_insert_lt by lia; done.
Defined.

(** An oversize packet from 2001:db8::1 to the inner address fd00::9. *)
Definition key_sample : Addr := Addr6 ([0xfd] ++ repeat 0 14 ++ [9]) [].
Definition orig_sample : bytes :=
  [96; 0; 0; 0; 5; 220; 17; 64] ++ [0x20; 1; 0xd; 0xb8] ++ repeat 0 11 ++ [1] ++ [0xfd] ++ repeat 0 14 ++ [9] ++ repeat 7 1400.

Lemma PacketTooBigFor_spec_witness :
  exists pkt, PacketTooBigFor key_sample 1400 orig_sample = Some pkt /\ (length pkt <= 1280)%nat
    /\ drop 48 pkt = take 1232 orig_sample.
Proof.
  assert (Hd : exists b, key_sample = Addr6 b [] /\ length b = 16%nat) by (eexists; split; reflexivity).
  destruct (PacketTooBigFor_spec key_sample 1400 orig_sample Hd) as [Hiff Hpkt].
  assert (Hs : is_Some (PacketTooBigFor key_sample 1400 orig_sample)).
  { apply Hiff. split_and!; [decide_closed|by intros ?|reflexivity|reflexivity]. }
  destruct Hs as [pkt E]. destruct (Hpkt pkt E) as (Hl & _ & _ & Hq). exists pkt. split; [exact E|]. split; [exact Hl|exact Hq].
Defined.
