(* ===== verification/Clatxlat.v ===== *)
(** [internal/clatxlat]: the per-session driver of the address translation. It
    relies on the translators of [internal/clat] only through the class [SIIT],
    whose laws are the buffer contract of the package comment; the instance at the
    end discharges them with [Siit46] and [Siit64Image]. NAT66 is [Clat]'s. A
    panic of a translator is a panic of the driver: [None]. *)

From S2P Require Import Prelude Netip Clat SiitBuf Siit46 Siit46Image Siit64 Siit64Image.

(** A translator takes the reserved headroom and the buffer; the second one also
    the identification counter. *)
Class SIIT `{GvisorHeader} := {
  siit46 : nat -> M (SIIT46Result * nat);
  siit46_contract buf r : bytes_ok buf ->
    match siit46 r buf with
    | None => trailing_icmp (drop (r + MessageTransportHeaderSize) buf)
    | Some ((SIIT46Translated, r'), buf') =>
      bytes_ok buf' /\ length buf' = length buf /\ (r' + MessageTransportHeaderSize + 40 <= length buf)%nat
      /\ Z.shiftr (byte_at buf' (r' + MessageTransportHeaderSize)) 4 = 6
    | Some _ => True
    end;
  siit64 : nat -> Z -> M (bool * nat * Z);
  siit64_contract buf r counter : bytes_ok buf ->
    exists ok r' counter' buf', siit64 r counter buf = Some ((ok, r', counter'), buf')
    /\ (ok = true -> bytes_ok buf' /\ length buf' = length buf /\ (r' + MessageTransportHeaderSize + 20 <= length buf)%nat
         /\ Z.shiftr (byte_at buf' (r' + MessageTransportHeaderSize)) 4 = 4)
}.

Definition reservedSpaceSizeDefault : nat := 48.
Definition transportGap : nat := MessageTransportHeaderSize.
Definition packetStartOffset : nat := reservedSpaceSizeDefault + transportGap.
Definition ipv6SrcOffset : nat := IPv6SourceAddressOffset.
Definition ipv6DstOffset : nat := IPv6DestinationAddressOffset.

Record Translator := mkTranslator {
  tr_placeholderV4 : bytes;
  tr_clatV6 : bytes;
  tr_clatPlaceholderV6 : bytes
}.
(** [As4] and [As16] do not panic on the families checked. *)
Definition New (placeholderV4 clatV6 : Addr) : option Translator :=
  if negb (Is4 placeholderV4) || negb (Is6 clatV6) then None
  else
    let v4 := default [] (As4 placeholderV4) in
    Some (mkTranslator v4 (default [] (As16 clatV6)) (take SIITPrefixSize SIITPrefix ++ v4)).
Definition ClatV6 (t : Translator) : Addr := AddrFrom16 (tr_clatV6 t).

(** The IP version nibble. *)
Definition ip_version (p : bytes) : Z := Z.shiftr (byte_at p 0) 4.

Section clatxlat.
Context `{GH : GvisorHeader} `{S : !SIIT}.

(** [Some None] is a refusal. *)
Definition translate46 (t : Translator) (pkt : bytes) : option (option bytes) :=
  let buf := repeat 0 packetStartOffset ++ pkt in
  match siit46 reservedSpaceSizeDefault buf with
  | None => None
  | Some ((SIIT46Translated, reserved), buf) =>
    let v6 := drop (reserved + transportGap) buf in
    Some (Some (NAT66InPlaceTranslateAddress v6 (tr_clatV6 t) ipv6SrcOffset))
  | Some _ => Some None
  end.
Definition ClientToTun (t : Translator) (pkt : bytes) : option (option bytes) :=
  if (length pkt <? 1)%nat then Some None
  else if ip_version pkt =? 6 then Some (Some pkt)
  else if ip_version pkt =? 4 then translate46 t pkt
  else Some None.
(** With the identification counter before and after. *)
Definition TunToClient (t : Translator) (counter : Z) (v6 : bytes) : option (option bytes * Z) :=
  if (length v6 <? IPv6DestinationAddressOffset + 16)%nat then Some (None, counter)
  else
    let pkt := NAT66InPlaceTranslateAddress v6 (tr_clatPlaceholderV6 t) ipv6DstOffset in
    let buf := repeat 0 packetStartOffset ++ pkt in
    match siit64 reservedSpaceSizeDefault counter buf with
    | None => None
    | Some ((true, reserved, counter), buf) => Some (Some (drop (reserved + transportGap) buf), counter)
    | Some ((false, _, counter), _) => Some (None, counter)
    end.

(** * What comes out *)

Lemma New_ok p4 c6 t :
  addr_ok p4 -> addr_ok c6 -> New p4 c6 = Some t ->
  length (tr_clatV6 t) = 16%nat /\ bytes_ok (tr_clatV6 t)
  /\ length (tr_clatPlaceholderV6 t) = 16%nat /\ bytes_ok (tr_clatPlaceholderV6 t).
Proof.
  unfold New. destruct p4 as [|a|], c6 as [| |b z]; cbn [Is4 Is6 negb orb]; try done.
  intros [Ha Hoa] [Hb Hob] [= <-]. cbn [tr_clatV6 tr_clatPlaceholderV6 As4 As16 default].
  split_and!; [done|done|cbn; lia|].
  change (bytes_ok (take SIITPrefixSize SIITPrefix ++ a)). apply bytes_ok_app. split; [decide_closed|done].
Qed.

Lemma scratch_ok pkt : bytes_ok pkt -> bytes_ok (repeat 0 packetStartOffset ++ pkt).
Proof. intros Hpk. apply bytes_ok_app. split; [decide_closed|done]. Qed.

Lemma version_drop (l : bytes) i : byte_at (drop i l) 0 = byte_at l i.
Proof. unfold byte_at. rewrite nth_skipn. by rewrite Nat.add_0_r. Qed.

(** The rewriting keeps the first byte. *)
Lemma NAT66_version p to off :
  bytes_ok p -> bytes_ok to -> length to = 16%nat -> (40 <= length p)%nat -> (8 <= off)%nat -> (off + 16 <= 40)%nat ->
  byte_at (NAT66InPlaceTranslateAddress p to off) 0 = byte_at p 0.
Proof.
  intros Hp Ht Hl H40 H8 Ho. destruct (decide (nat66_slot p = SlotShort)) as [Hs|Hs].
  { unfold NAT66InPlaceTranslateAddress. rewrite Hs. by case_match. }
  destruct (nat66_image p to off Hp Ht Hl H40 Ho Hs) as (T' & -> & _).
  unfold byte_at. rewrite app_nth1 by (rewrite length_take; lia).
  rewrite <- (take_drop off p) at 2. rewrite app_nth1 by (rewrite length_take; lia). done.
Qed.

Lemma drop_scratch pkt : drop (reservedSpaceSizeDefault + MessageTransportHeaderSize) (repeat 0 packetStartOffset ++ pkt) = pkt.
Proof. apply drop_app_length'. by rewrite repeat_length. Qed.

(** C26: The client's packets enter the TUN as IPv6 or not at all: an IPv6 packet
    passes unchanged; anything that is neither IPv6 nor IPv4 is refused; and an
    IPv4 packet, when it is let through, leaves as an IPv6 packet of at least a
    full header, from the device's CLAT address whenever its transport header is
    complete. The driver panics for nothing but an ICMP message with bytes after
    it. *)
Theorem ClientToTun_fail_closed t pkt (Hp : bytes_ok pkt) (Hc : bytes_ok (tr_clatV6 t)) (Hl : length (tr_clatV6 t) = 16%nat) :
  match ClientToTun t pkt with
  | None => ip_version pkt = 4 /\ trailing_icmp pkt
  | Some None => ip_version pkt <> 6 \/ pkt = []
  | Some (Some out) =>
    ip_version out = 6
    /\ ((ip_version pkt = 6 /\ out = pkt)
        \/ (ip_version pkt = 4 /\ (40 <= length out)%nat
            /\ exists v6, out = NAT66InPlaceTranslateAddress v6 (tr_clatV6 t) ipv6SrcOffset
               /\ (nat66_slot v6 <> SlotShort -> slice out 8 24 = tr_clatV6 t)))
  end.
Proof.
  unfold ClientToTun. destruct (length pkt <? 1)%nat eqn:E; simpl_bool.
  { right. destruct pkt; [done|cbn in E; lia]. }
  destruct (Z.eqb_spec (ip_version pkt) 6) as [H6|H6]; [by auto|].
  destruct (Z.eqb_spec (ip_version pkt) 4) as [H4|H4]; [|by left].
  unfold translate46. pose proof (siit46_contract (repeat 0 packetStartOffset ++ pkt) reservedSpaceSizeDefault (scratch_ok _ Hp)) as Hs.
  destruct (siit46 _ _) as [[[res r'] buf']|]; [|by rewrite drop_scratch in Hs].
  destruct res; [by left| |by left]. destruct Hs as (Hb' & Hl' & Hr & Hv).
  set (v6 := drop (r' + transportGap) buf').
  assert (Hv6 : (40 <= length v6)%nat) by (unfold v6, transportGap; rewrite length_drop; lia).
  assert (Hok6 : bytes_ok v6) by (unfold v6; auto with bytes).
  destruct (nat66_by_slot v6 (tr_clatV6 t) 8 Hok6 Hc Hl Hv6 (or_introl eq_refl)) as (Hlen & _ & Hm).
  change ipv6SrcOffset with 8%nat.
  assert (Hlen' : (40 <= length (NAT66InPlaceTranslateAddress v6 (tr_clatV6 t) 8))%nat) by (rewrite Hlen; exact Hv6).
  split.
  - unfold ip_version. rewrite NAT66_version by (done || lia). unfold v6. by rewrite version_drop.
  - right. split_and!; [done|exact Hlen'|]. exists v6. split; [done|]. intros Hs. destruct (nat66_slot v6) eqn:Eslot; try done.
    + rewrite Hm. apply slice_app_eq; rewrite ?length_take; lia.
    + exact (proj1 Hm).
Qed.

(** The packet sent to the client is IPv4, or none is; and no packet makes the
    driver panic. *)
Lemma TunToClient_total t counter v6 :
  bytes_ok v6 -> bytes_ok (tr_clatPlaceholderV6 t) -> length (tr_clatPlaceholderV6 t) = 16%nat ->
  exists out counter', TunToClient t counter v6 = Some (out, counter')
    /\ match out with Some out => ip_version out = 4 /\ (20 <= length out)%nat | None => True end.
Proof.
  intros Hv Hc Hl. unfold TunToClient. change (IPv6DestinationAddressOffset + 16)%nat with 40%nat. change ipv6DstOffset with 24%nat.
  destruct (length v6 <? 40)%nat eqn:E; simpl_bool; [by exists None, counter|].
  destruct (nat66_by_slot v6 (tr_clatPlaceholderV6 t) 24 Hv Hc Hl E (or_intror eq_refl)) as (_ & Hok & _).
  destruct (siit64_contract _ reservedSpaceSizeDefault counter (scratch_ok _ Hok)) as (ok & r' & c' & buf' & -> & Hx).
  destruct ok; [|by exists None, c']. destruct (Hx eq_refl) as (_ & Hlen & Hr & Hver). do 2 eexists. split; [done|].
  split; [unfold ip_version; by rewrite version_drop|]. unfold transportGap. rewrite length_drop. lia.
Qed.

(** A cut transport header keeps the rewriting from happening: the packet then
    enters the TUN from the translated placeholder address and not from the
    device's. *)
Lemma ClientToTun_short_transport t pkt buf' r' :
  ip_version pkt = 4 -> siit46 reservedSpaceSizeDefault (repeat 0 packetStartOffset ++ pkt) = Some ((SIIT46Translated, r'), buf') ->
  nat66_slot (drop (r' + transportGap) buf') = SlotShort ->
  ClientToTun t pkt = Some (Some (drop (r' + transportGap) buf')).
Proof.
  intros Hv Es Hs. unfold ClientToTun. destruct (length pkt <? 1)%nat eqn:E; simpl_bool.
  { destruct pkt; [done|cbn in E; lia]. }
  rewrite Hv. cbn [Z.eqb Pos.eqb]. unfold translate46. rewrite Es. unfold NAT66InPlaceTranslateAddress. rewrite Hs.
  by case_match.
Qed.
End clatxlat.

(** * The translators of [internal/clat] *)

#[export, refine] Instance siit `{GvisorHeader} : SIIT := {
  siit46 := SIIT46InPlaceTranslate;
  siit64 := SIIT64InPlaceTranslate
}.
Proof.
  - intros buf r Hb. pose proof (SIIT46_wp r buf Hb) as Hc. cbv zeta in Hc. unfold wp in Hc.
    destruct (SIIT46InPlaceTranslate r buf) as [[[[] r'] buf']|]; try done. destruct Hc as (Hl & Hb' & pl & [H1 H2 H3]). cbn [fst snd] in *.
    split_and!; [done|done|rewrite <- Hl; lia|done].
  - intros buf r counter Hb. pose proof (SIIT64_wp r counter buf Hb) as Hw. unfold wp in Hw.
    destruct (SIIT64InPlaceTranslate r counter buf) as [[[[ok r'] c'] buf']|]; [|done]. exists ok, r', c', buf'. split; [done|]. intros ->.
    by apply (outcome64_v4 buf r counter r' c').
Defined.

(** * Witnesses *)

Definition placeholder_sample : Addr := Addr4 [192; 0; 0; 1].
Definition clat_sample : Addr := Addr6 sample_clat [].
Definition tr_sample : Translator :=
  mkTranslator [192; 0; 0; 1] sample_clat (take 12 SIITPrefix ++ [192; 0; 0; 1]).
(** UDP from 192.0.0.1 to 8.8.8.8. *)
Definition v4_sample : bytes :=
  v4_udp.
(** The same cut after four bytes of UDP. *)
Definition v4_short_sample : bytes :=
  [69; 0; 0; 24; 0; 0; 0; 0; 64; 17; 170; 196; 192; 0; 0; 1; 8; 8; 8; 8; 48; 57; 0; 53].

Example New_sample : New placeholder_sample clat_sample = Some tr_sample.
Proof. reflexivity. Qed.
Example short_source :
  match ClientToTun tr_sample v4_short_sample with Some (Some out) => slice out 8 24 | _ => [] end = take 12 SIITPrefix ++ [192; 0; 0; 1].
Proof. vm_compute. reflexivity. Qed.

Lemma ClientToTun_fail_closed_witness :
  exists out, ClientToTun tr_sample v4_sample = Some (Some out) /\ ip_version out = 6 /\ slice out 8 24 = sample_clat.
Proof.
  assert (Hp : bytes_ok v4_sample) by decide_closed. assert (Hc : bytes_ok (tr_clatV6 tr_sample)) by decide_closed.
  pose proof (ClientToTun_fail_closed tr_sample v4_sample Hp Hc eq_refl) as H.
  assert (E : exists out, ClientToTun tr_sample v4_sample = Some (Some out) /\ slice out 8 24 = sample_clat).
  { eexists. split; [vm_compute; reflexivity|vm_compute; reflexivity]. }
  destruct E as (out & E & Hs). rewrite E in H. exists out. split; [exact E|]. split; [exact (proj1 H)|exact Hs].
Defined.

(** A port unreachable of 28 bytes in a frame of 56: the driver panics. *)
Lemma trailing_icmp_panics : ClientToTun tr_sample v4_trailing = None.
Proof. vm_compute. reflexivity. Qed.
(** A datagram with a right checksum enters the TUN with the checksum zero,
    which over IPv6 means none: the sum of one's complements has two zeros, and
    the update yields the wrong one. *)
Definition v4_two_zeros : bytes := take 20 v4_udp ++ [242; 136; 0; 53; 0; 8; 61; 15].
Lemma udp_zero_checksum :
  folded (words_sum (slice v4_two_zeros 12 20) + 8 + 17 + words_sum (drop 20 v4_two_zeros)) = 0xffff
  /\ match ClientToTun tr_sample v4_two_zeros with Some (Some out) => slice out 40 48 = [242; 136; 0; 53; 0; 8; 0; 0] | _ => False end.
Proof. split; vm_compute; reflexivity. Qed.
