(* ===== verification/Bridge.v ===== *)
(** [cmd/era-ocserv/bridge.go] and [ptb.go]: the bridge between the TUN device
    and the clients' transports. Tunnels and DTLS sessions are numbers whose
    identities are given; an [*activeClient] is a number into a heap, so the
    native and the CLAT key of the registry alias it. Each critical section and
    each operation of the [sync.Map] is a function; the handlers compose them,
    and [thread_step] runs them one at a time so that handlers can overlap. *)

From S2P Require Import Prelude Netip Clat SiitBuf Clatxlat Icmp6 CstpConfig Dtls.

Definition ptbCapNative : nat := 1400.
Definition ptbCapCLAT : nat := 1420.
(** 192.0.0.1 *)
Definition placeholderClatV4 : Addr := Addr4 [192; 0; 0; 1].

Inductive transport : Type := cstpTransport (t : nat) | dtlsTransport (s : nat).
#[export] Instance transport_eq_dec : EqDecision transport.
Proof. solve_decision. Defined.

Record activeClient := mkClient {
  ac_cstp : option nat;
  ac_dtls : option nat;
  ac_xlat : option Translator;
  ac_clatV6 : Addr
}.
Record bridge := mkBridge {
  br_clients : gmap Addr nat;
  br_heap : gmap nat activeClient;
  br_next : nat;
  br_closedTunnels : list nat;      (* tunnels [Close] was called on *)
  br_rrCounter : Z
}.
Definition newBridge : bridge := mkBridge ∅ ∅ 0 [] 0.

Definition set_clients (b : bridge) (m : gmap Addr nat) : bridge :=
  mkBridge m (br_heap b) (br_next b) (br_closedTunnels b) (br_rrCounter b).
Definition set_heap (b : bridge) (h : gmap nat activeClient) : bridge :=
  mkBridge (br_clients b) h (br_next b) (br_closedTunnels b) (br_rrCounter b).
Definition close_tunnel (b : bridge) (t : nat) : bridge :=
  mkBridge (br_clients b) (br_heap b) (br_next b) (t :: br_closedTunnels b) (br_rrCounter b).

Definition choose (a : activeClient) : option transport :=
  match ac_dtls a with
  | Some s => Some (dtlsTransport s)
  | None => cstpTransport <$> ac_cstp a
  end.
Definition chooseTransport (b : bridge) (ac : nat) : option transport := br_heap b !! ac ≫= choose.
Definition translator (b : bridge) (ac : nat) : option Translator := br_heap b !! ac ≫= ac_xlat.

(** * The registry *)

(** [Load], then [LoadOrStore] of a fresh client. *)
Definition loadOrCreateClient (b : bridge) (inner : Addr) : nat * bridge :=
  match br_clients b !! inner with
  | Some ac => (ac, b)
  | None =>
    let ac := br_next b in
    (ac, mkBridge (<[inner := ac]> (br_clients b)) (<[ac := mkClient None None None AddrNone]> (br_heap b)) (S ac)
           (br_closedTunnels b) (br_rrCounter b))
  end.

(** [installCLAT] up to the unlock. *)
Definition install_xlat (b : bridge) (ac : nat) (clatV6 : Addr) : bridge :=
  set_heap b (alter (fun a =>
    match ac_xlat a with
    | Some _ => a
    | None =>
      match New placeholderClatV4 clatV6 with
      | Some tr => mkClient (ac_cstp a) (ac_dtls a) (Some tr) clatV6
      | None => a
      end
    end) ac (br_heap b)).
(** [b.clients.LoadOrStore(clatV6, ac)] *)
Definition store_clat (b : bridge) (ac : nat) (clatV6 : Addr) : bridge :=
  match br_clients b !! clatV6 with
  | Some _ => b
  | None => set_clients b (<[clatV6 := ac]> (br_clients b))
  end.
Definition clat_wanted (native clatV6 : Addr) : bool := IsValid clatV6 && negb (bool_decide (clatV6 = native)).
Definition installCLAT (b : bridge) (ac : nat) (native clatV6 : Addr) : bridge :=
  if clat_wanted native clatV6 then store_clat (install_xlat b ac clatV6) ac clatV6 else b.

(** [b.clients.CompareAndDelete(k, ac)] *)
Definition compareAndDelete (b : bridge) (k : Addr) (ac : nat) : bridge :=
  if bool_decide (br_clients b !! k = Some ac) then set_clients b (delete k (br_clients b)) else b.
Definition clat_of (b : bridge) (ac : nat) : Addr :=
  match br_heap b !! ac with Some a => ac_clatV6 a | None => AddrNone end.
Definition deregisterKeys (b : bridge) (ac : nat) (native : Addr) : bridge :=
  let b := compareAndDelete b native ac in
  let clatV6 := clat_of b ac in
  if clat_wanted native clatV6 then compareAndDelete b clatV6 ac else b.

(** ** The critical sections on a client *)

Definition cstp_attach (b : bridge) (ac t : nat) : bridge :=
  let prev := br_heap b !! ac ≫= ac_cstp in
  let b := set_heap b (alter (fun a => mkClient (Some t) None (ac_xlat a) (ac_clatV6 a)) ac (br_heap b)) in
  match prev with Some p => close_tunnel b p | None => b end.
Definition dtls_attach (b : bridge) (ac s : nat) : bridge :=
  set_heap b (alter (fun a => mkClient (ac_cstp a) (Some s) (ac_xlat a) (ac_clatV6 a)) ac (br_heap b)).
Definition is_empty (b : bridge) (ac : nat) : bool :=
  match br_heap b !! ac with
  | Some a => bool_decide (ac_cstp a = None /\ ac_dtls a = None)
  | None => true
  end.
Definition cstp_detach (b : bridge) (ac t : nat) : bool * bridge :=
  let b := set_heap b (alter (fun a =>
    if bool_decide (ac_cstp a = Some t) then mkClient None (ac_dtls a) (ac_xlat a) (ac_clatV6 a) else a) ac (br_heap b)) in
  (is_empty b ac, b).
Definition dtls_detach (b : bridge) (ac s : nat) : bool * bridge :=
  let b := set_heap b (alter (fun a =>
    if bool_decide (ac_dtls a = Some s) then mkClient (ac_cstp a) None (ac_xlat a) (ac_clatV6 a) else a) ac (br_heap b)) in
  (is_empty b ac, b).

Section bridge.
Context (tunnels : nat -> CstpConfig.Identity) (sessions : nat -> SessionIdent).

Definition tunnel_inner (t : nat) : Addr := pf_addr (id_IPv6 (tunnels t)).
Definition tunnel_clat (t : nat) : Addr :=
  if prefix_valid (id_IPv6CLAT (tunnels t)) then pf_addr (id_IPv6CLAT (tunnels t)) else AddrNone.
Definition session_inner (s : nat) : Addr := si_inner (sessions s).
Definition session_clat (s : nat) : Addr := si_clatV6 (sessions s).

(** [pumpTunnel] before its read loop, and its deferred function. *)
Definition pumpTunnel_start (b : bridge) (t : nat) : nat * bridge :=
  let inner := tunnel_inner t in
  let '(ac, b) := loadOrCreateClient b inner in
  let b := cstp_attach b ac t in
  (ac, installCLAT b ac inner (tunnel_clat t)).
Definition pumpTunnel_exit (b : bridge) (t ac : nat) : bridge :=
  let '(empty, b) := cstp_detach b ac t in
  let b := if empty then deregisterKeys b ac (tunnel_inner t) else b in
  close_tunnel b t.
Definition OnAdmit (b : bridge) (s : nat) : bridge :=
  let inner := session_inner s in
  let '(ac, b) := loadOrCreateClient b inner in
  let b := dtls_attach b ac s in
  installCLAT b ac inner (session_clat s).
Definition OnEvict (b : bridge) (s : nat) : bridge :=
  let inner := session_inner s in
  match br_clients b !! inner with
  | None => b
  | Some ac =>
    let '(empty, b) := dtls_detach b ac s in
    if empty then deregisterKeys b ac inner else b
  end.

(** * The data path *)

(** What happens to one packet read from a TUN queue: nothing, a notice written
    back to the queue, or a packet handed to a transport. *)
Inductive Egress : Type :=
| EgNone
| EgPTB (pkt : bytes)
| EgSend (tr : transport) (out : bytes).

Section datapath.
Context `{GH : GvisorHeader} `{S : !SIIT} `{GvisorIcmp}.

Definition originatePTB (dstKey : Addr) (linkMTU : Z) (orig : bytes) : Egress :=
  match PacketTooBigFor dstKey linkMTU orig with Some pkt => EgPTB pkt | None => EgNone end.

(** One iteration of [pumpTunQueue], with the identification counter; [None]
    would be a panic. *)
Definition pumpTunQueue_packet (b : bridge) (counter : Z) (pkt : bytes) : option (Egress * Z) :=
  let n := length pkt in
  let ret e := Some (e, counter) in
  if (n <? 40)%nat || negb (Z.shiftr (byte_at pkt 0) 4 =? 6) then ret EgNone
  else
    match AddrFromSlice (slice pkt 24 40) with
    | None => ret EgNone
    | Some dst =>
      match br_clients b !! dst with
      | None => ret EgNone
      | Some ac =>
        match chooseTransport b ac with
        | None => ret EgNone
        | Some tr =>
          let isCLAT := IsValid (clat_of b ac) && bool_decide (dst = clat_of b ac) in
          if isCLAT then
            if (ptbCapCLAT <? n)%nat then ret (originatePTB dst (Z.of_nat ptbCapCLAT) pkt)
            else
              match translator b ac with
              | None => ret EgNone
              | Some xlat =>
                match TunToClient xlat counter pkt with
                | None => None
                | Some (Some out, counter) => Some (EgSend tr out, counter)
                | Some (None, counter) => Some (EgNone, counter)
                end
              end
          else if (ptbCapNative <? n)%nat then ret (originatePTB dst (Z.of_nat ptbCapNative) pkt)
          else ret (EgSend tr pkt)
        end
      end
    end.

(** [rrCounter.Add(1) % len(queues)] *)
Definition next_queue (c : Z) (nq : nat) : nat * Z :=
  let c := (c + 1) mod 2 ^ 64 in (Z.to_nat (c mod Z.of_nat nq), c).

(** The queue and packet written, if any; [None] is a panic, which nothing above
    [pumpTunnel] recovers. *)
Definition writeClientToTun (b : bridge) (nq : nat) (xlat : option Translator) (pkt : bytes) : option (option (nat * bytes) * bridge) :=
  if (nq =? 0)%nat then Some (None, b)
  else
    match (match xlat with Some x => ClientToTun x pkt | None => Some (Some pkt) end) with
    | None => None
    | Some None => Some (None, b)
    | Some (Some out) =>
      let '(q, c) := next_queue (br_rrCounter b) nq in
      Some (Some (q, out), mkBridge (br_clients b) (br_heap b) (br_next b) (br_closedTunnels b) c)
    end.

(** [tunSink]: its own counter, the outcome of the queue's write an argument. *)
Inductive SinkErr : Type := ErrClosedPipe | ErrQueue (e : Z).
Definition sink_WritePacket (c : Z) (nq : nat) (qw : bytes -> result SinkErr nat) (p : bytes)
  : option (nat * bytes) * result SinkErr nat * Z :=
  if (nq =? 0)%nat then (None, Err ErrClosedPipe, c)
  else let '(q, c) := next_queue c nq in (Some (q, p), qw p, c).
Definition WritePacketFromSession (b : bridge) (c : Z) (nq : nat) (qw : bytes -> result SinkErr nat) (s : nat) (p : bytes)
  : option (option (nat * bytes) * result SinkErr nat * Z) :=
  match br_clients b !! session_inner s ≫= translator b with
  | None => Some (sink_WritePacket c nq qw p)
  | Some xlat =>
    match ClientToTun xlat p with
    | None => None
    | Some None => Some (None, Ok (length p), c)
    | Some (Some out) =>
      let '(w, r, c) := sink_WritePacket c nq qw out in
      Some (w, match r with Ok _ => Ok (length p) | Err e => Err e end, c)
    end
  end.
End datapath.

(** * Overlapping handlers *)

(** A handler between two of its statements. *)
Inductive Thread : Type :=
| PumpStart (t : nat)
| PumpLoaded (t ac : nat)
| PumpAttached (t ac : nat)          (* before [installCLAT]'s lock *)
| PumpXlat (t ac : nat)              (* before its [LoadOrStore] *)
| PumpRunning (t ac : nat)
| PumpDetached (t ac : nat)          (* found empty, before [deregisterKeys] *)
| PumpDereg (t ac : nat) (clat : Addr)
| PumpClosing (t : nat)
| AdmitStart (s : nat)
| AdmitLoaded (s ac : nat)
| AdmitAttached (s ac : nat)
| AdmitXlat (s ac : nat)
| EvictStart (s : nat)
| EvictLoaded (s ac : nat)
| EvictDetached (s ac : nat)
| EvictDereg (s ac : nat) (clat : Addr).

Definition thread_step (b : bridge) (th : Thread) : bridge * option Thread :=
  match th with
  | PumpStart t => let '(ac, b) := loadOrCreateClient b (tunnel_inner t) in (b, Some (PumpLoaded t ac))
  | PumpLoaded t ac =>
    (cstp_attach b ac t,
     Some (if clat_wanted (tunnel_inner t) (tunnel_clat t) then PumpAttached t ac else PumpRunning t ac))
  | PumpAttached t ac => (install_xlat b ac (tunnel_clat t), Some (PumpXlat t ac))
  | PumpXlat t ac => (store_clat b ac (tunnel_clat t), Some (PumpRunning t ac))
  | PumpRunning t ac =>
    let '(empty, b) := cstp_detach b ac t in (b, Some (if empty then PumpDetached t ac else PumpClosing t))
  | PumpDetached t ac =>
    let b := compareAndDelete b (tunnel_inner t) ac in
    (b, Some (if clat_wanted (tunnel_inner t) (clat_of b ac) then PumpDereg t ac (clat_of b ac) else PumpClosing t))
  | PumpDereg t ac clat => (compareAndDelete b clat ac, Some (PumpClosing t))
  | PumpClosing t => (close_tunnel b t, None)
  | AdmitStart s => let '(ac, b) := loadOrCreateClient b (session_inner s) in (b, Some (AdmitLoaded s ac))
  | AdmitLoaded s ac =>
    (dtls_attach b ac s,
     if clat_wanted (session_inner s) (session_clat s) then Some (AdmitAttached s ac) else None)
  | AdmitAttached s ac => (install_xlat b ac (session_clat s), Some (AdmitXlat s ac))
  | AdmitXlat s ac => (store_clat b ac (session_clat s), None)
  | EvictStart s => (b, EvictLoaded s <$> br_clients b !! session_inner s)
  | EvictLoaded s ac =>
    let '(empty, b) := dtls_detach b ac s in (b, if empty then Some (EvictDetached s ac) else None)
  | EvictDetached s ac =>
    let b := compareAndDelete b (session_inner s) ac in
    (b, if clat_wanted (session_inner s) (clat_of b ac) then Some (EvictDereg s ac (clat_of b ac)) else None)
  | EvictDereg s ac clat => (compareAndDelete b clat ac, None)
  end.

(** The bridge with the handlers under way. A tunnel is accepted, a session
    admitted or evicted at any time; the pump of a tunnel leaves its loop at any
    time. *)
Inductive br_step : bridge * list Thread -> bridge * list Thread -> Prop :=
| bs_accept b ths t : br_step (b, ths) (b, PumpStart t :: ths)
| bs_admit b ths s : br_step (b, ths) (b, AdmitStart s :: ths)
| bs_evict b ths s : br_step (b, ths) (b, EvictStart s :: ths)
| bs_run b ths1 th ths2 b' th' :
    thread_step b th = (b', th') -> br_step (b, ths1 ++ th :: ths2) (b', ths1 ++ option_list th' ++ ths2).
Inductive br_steps : bridge * list Thread -> Prop :=
| brs_start : br_steps (newBridge, [])
| brs_step x y : br_steps x -> br_step x y -> br_steps y.

(** * Isolation *)

Definition inner_of (x : transport) : Addr :=
  match x with cstpTransport t => tunnel_inner t | dtlsTransport s => session_inner s end.
Definition clat_addr (x : transport) : Addr :=
  match x with cstpTransport t => tunnel_clat t | dtlsTransport s => session_clat s end.
(** The device at an inner address presented this CLAT address. *)
Definition clat_dev (inner k : Addr) : Prop := exists x, inner_of x = inner /\ clat_addr x = k /\ IsValid k = true.
(** What a handler works for, and the client it holds. *)
Definition thread_client (th : Thread) : option (transport * nat) :=
  match th with
  | PumpStart _ | PumpClosing _ | AdmitStart _ | EvictStart _ => None
  | PumpLoaded t ac | PumpAttached t ac | PumpXlat t ac | PumpRunning t ac | PumpDetached t ac | PumpDereg t ac _ =>
    Some (cstpTransport t, ac)
  | AdmitLoaded s ac | AdmitAttached s ac | AdmitXlat s ac | EvictLoaded s ac | EvictDetached s ac | EvictDereg s ac _ =>
    Some (dtlsTransport s, ac)
  end.
Definition thread_ok (N : nat -> Addr) (b : bridge) (th : Thread) : Prop :=
  match thread_client th with Some (x, ac) => (ac < br_next b)%nat /\ N ac = inner_of x | None => True end
  /\ match th with
     | PumpAttached t _ => IsValid (tunnel_clat t) = true
     | AdmitAttached s _ => IsValid (session_clat s) = true
     | PumpXlat t ac => IsValid (tunnel_clat t) = true /\ clat_of b ac = tunnel_clat t
     | AdmitXlat s ac => IsValid (session_clat s) = true /\ clat_of b ac = session_clat s
     | _ => True
     end.

Record client_ok (N : nat -> Addr) (ac : nat) (a : activeClient) : Prop := {
  ck_cstp : forall t, ac_cstp a = Some t -> tunnel_inner t = N ac;
  ck_dtls : forall s, ac_dtls a = Some s -> session_inner s = N ac;
  ck_clat : IsValid (ac_clatV6 a) = true -> clat_dev (N ac) (ac_clatV6 a);
  ck_xlat : forall xlat, ac_xlat a = Some xlat -> New placeholderClatV4 (ac_clatV6 a) = Some xlat
}.
(** Client [ac] belongs to the device at [N ac]; a CLAT key leads to a client
    that records it. *)
Record bridge_ok (N : nat -> Addr) (b : bridge) : Prop := {
  bo_clients : forall k ac, br_clients b !! k = Some ac ->
    (ac < br_next b)%nat /\ (k = N ac \/ clat_dev (N ac) k /\ clat_of b ac = k);
  bo_heap : forall ac a, br_heap b !! ac = Some a -> (ac < br_next b)%nat /\ client_ok N ac a;
  bo_full : forall ac, (ac < br_next b)%nat -> is_Some (br_heap b !! ac)
}.
(** A client's CLAT address, once recorded, stays. *)
Definition clat_kept (b b' : bridge) : Prop := forall ac, IsValid (clat_of b ac) = true -> clat_of b' ac = clat_of b ac.

(** The addresses the pool assigns: no CLAT address is a device's native
    address, no two devices have the same CLAT address, a device always presents
    the same one, and it is an IPv6 address. *)
Record assignment_ok : Prop := {
  as_disj : forall x y, IsValid (clat_addr x) = true -> clat_addr x <> inner_of y;
  as_uniq : forall x y, IsValid (clat_addr x) = true -> clat_addr x = clat_addr y -> inner_of x = inner_of y;
  as_same : forall x y, inner_of x = inner_of y -> clat_addr x = clat_addr y;
  as_v6 : forall x, IsValid (clat_addr x) = true -> Is6 (clat_addr x) = true
}.

Section isolation.
Context (Has : assignment_ok).

Lemma bridge_ok_load N b x ac :
  bridge_ok N b -> br_clients b !! inner_of x = Some ac -> (ac < br_next b)%nat /\ N ac = inner_of x.
Proof.
  intros [Hc _ _] E. apply Hc in E as [Hlt [E|[(y & Hy & Hk & Hv) _]]]; [done|].
  exfalso. rewrite <- Hk in Hv. by apply (as_disj Has y x Hv).
Qed.

Lemma client_ok_ext N N' ac a : N' ac = N ac -> client_ok N ac a -> client_ok N' ac a.
Proof. intros E [H1 H2 H3 H4]. by split; rewrite ?E. Qed.

(** A fresh client is given its device; the others keep theirs. *)
Lemma loadOrCreateClient_ok N b x ac b' :
  bridge_ok N b -> loadOrCreateClient b (inner_of x) = (ac, b') ->
  exists N', bridge_ok N' b' /\ (forall i, (i < br_next b)%nat -> N' i = N i)
    /\ (br_next b <= br_next b')%nat /\ clat_kept b b' /\ (ac < br_next b')%nat /\ N' ac = inner_of x.
Proof.
  intros Hb. pose proof Hb as [Hc Hh Hf]. unfold loadOrCreateClient.
  destruct (br_clients b !! inner_of x) as [ac0|] eqn:E; intros [= <- <-].
  { destruct (bridge_ok_load _ _ _ _ Hb E). exists N. by split_and!. }
  set (N' := fun i => if (i =? br_next b)%nat then inner_of x else N i).
  assert (Hnew : N' (br_next b) = inner_of x) by (unfold N'; by rewrite Nat.eqb_refl).
  assert (Hold : forall i, (i < br_next b)%nat -> N' i = N i).
  { intros i Hi. unfold N'. by rewrite (proj2 (Nat.eqb_neq _ _)) by lia. }
  assert (Hnone : br_heap b !! br_next b = None).
  { destruct (br_heap b !! br_next b) as [a|] eqn:Ea; [|done]. apply Hh in Ea as [? _]. lia. }
  assert (Hkept : forall i, i <> br_next b -> forall m n c r, clat_of (mkBridge m (<[br_next b := mkClient None None None AddrNone]> (br_heap b)) n c r) i = clat_of b i).
  { intros i Hi m n c r. unfold clat_of. cbn. by rewrite lookup_insert_ne. }
  exists N'. split_and!; cbn [br_next br_clients br_heap]; [|done|lia| |lia|done].
  - split; cbn [br_next br_clients br_heap].
    + intros k ac [[<- <-]|[Hne Hk]]%lookup_insert_Some; [by split; [lia|left]|].
      apply Hc in Hk as [Hlt Hk]. split; [lia|]. rewrite Hkept by lia. by rewrite Hold.
    + intros ac a [[<- <-]|[Hne Hk]]%lookup_insert_Some.
      * split; [lia|]. by split.
      * apply Hh in Hk as [Hlt Hk]. split; [lia|]. apply (client_ok_ext N); auto.
    + intros ac Hlt. rewrite lookup_insert_is_Some'. destruct (decide (br_next b = ac)) as [->|]; [by left|right; apply Hf; lia].
  - intros i Hv. apply Hkept. intros ->. unfold clat_of in Hv. by rewrite Hnone in Hv.
Qed.

(** A critical section on one client. *)
Lemma clat_of_alter b ac f i :
  clat_of (set_heap b (alter f ac (br_heap b))) i
  = if decide (ac = i) then match br_heap b !! i with Some a => ac_clatV6 (f a) | None => AddrNone end else clat_of b i.
Proof.
  unfold clat_of. cbn. destruct (decide (ac = i)) as [->|Hne]; [|by rewrite lookup_alter_ne].
  rewrite lookup_alter_eq. by destruct (br_heap b !! i).
Qed.
Definition clat_mono (f : activeClient -> activeClient) : Prop :=
  forall a, IsValid (ac_clatV6 a) = true -> ac_clatV6 (f a) = ac_clatV6 a.
Lemma alter_ok N b ac f :
  bridge_ok N b -> (forall a, client_ok N ac a -> client_ok N ac (f a)) -> clat_mono f ->
  bridge_ok N (set_heap b (alter f ac (br_heap b))) /\ clat_kept b (set_heap b (alter f ac (br_heap b))).
Proof.
  intros [Hc Hh Hf] Hok Hm.
  assert (Hkept : clat_kept b (set_heap b (alter f ac (br_heap b)))).
  { intros i. rewrite clat_of_alter. unfold clat_of. destruct (decide (ac = i)) as [->|]; [|done].
    destruct (br_heap b !! i); [apply Hm|done]. }
  split; [|done]. split; cbn.
  - intros k i Hk. apply Hc in Hk as [Hlt Hk]. split; [done|]. destruct Hk as [->|[Hd Hk]]; [by left|right]. split; [done|].
    rewrite Hkept; [done|]. rewrite Hk. by destruct Hd as (? & _ & _ & ?).
  - intros i a. rewrite lookup_alter_Some. intros [(<- & a0 & E & ->)|[Hne E]]; [|by apply Hh]. apply Hh in E as [Hlt E]. auto.
  - intros i Hi. rewrite lookup_alter_is_Some. by apply Hf.
Qed.
Lemma close_tunnel_ok N b t : bridge_ok N b -> bridge_ok N (close_tunnel b t).
Proof. intros [Hc Hh Hf]. by split. Qed.
Lemma cstp_attach_ok N b ac t :
  bridge_ok N b -> N ac = tunnel_inner t -> bridge_ok N (cstp_attach b ac t) /\ clat_kept b (cstp_attach b ac t).
Proof.
  intros Hb HN. assert (H : forall a, client_ok N ac a -> client_ok N ac (mkClient (Some t) None (ac_xlat a) (ac_clatV6 a))).
  { intros a [H1 H2 H3 H4]. split; cbn; try done. by intros ? [= <-]. }
  destruct (alter_ok N b ac _ Hb H ltac:(done)) as [Ho Hk].
  unfold cstp_attach. case_match; [|done]. split; [by apply close_tunnel_ok|exact Hk].
Qed.
Lemma dtls_attach_ok N b ac s :
  bridge_ok N b -> N ac = session_inner s -> bridge_ok N (dtls_attach b ac s) /\ clat_kept b (dtls_attach b ac s).
Proof.
  intros Hb HN. apply alter_ok; [done| |done]. intros a [H1 H2 H3 H4]; split; cbn; try done. by intros ? [= <-].
Qed.
Lemma cstp_detach_ok N b ac t : bridge_ok N b -> bridge_ok N (cstp_detach b ac t).2 /\ clat_kept b (cstp_detach b ac t).2.
Proof. intros Hb. apply alter_ok; [done| |]; intros a; [intros [H1 H2 H3 H4]|intros _]; case_bool_decide; by try split. Qed.
Lemma dtls_detach_ok N b ac s : bridge_ok N b -> bridge_ok N (dtls_detach b ac s).2 /\ clat_kept b (dtls_detach b ac s).2.
Proof. intros Hb. apply alter_ok; [done| |]; intros a; [intros [H1 H2 H3 H4]|intros _]; case_bool_decide; by try split. Qed.

(** A device presents one CLAT address, and a client records that one. *)
Lemma recorded_clat N b ac x :
  bridge_ok N b -> N ac = inner_of x -> IsValid (clat_of b ac) = true -> clat_of b ac = clat_addr x.
Proof.
  intros Hb HN Hv. unfold clat_of in *. destruct (br_heap b !! ac) as [a|] eqn:E; [|done].
  apply (bo_heap _ _ Hb) in E as [_ Hc]. destruct (ck_clat _ _ _ Hc Hv) as (y & Hy & <- & _).
  apply (as_same Has). congruence.
Qed.
Lemma New_wants_v6 a tr : New placeholderClatV4 a = Some tr -> IsValid a = true.
Proof. unfold New. by destruct a. Qed.
Lemma New_v6 a : Is6 a = true -> is_Some (New placeholderClatV4 a).
Proof. intros H. unfold New. rewrite H. by eexists. Qed.

Lemma install_xlat_ok N b ac x :
  bridge_ok N b -> N ac = inner_of x ->
  bridge_ok N (install_xlat b ac (clat_addr x)) /\ clat_kept b (install_xlat b ac (clat_addr x)).
Proof.
  intros Hb HN. unfold install_xlat. set (f := fun a => _).
  assert (Hsame : forall a, client_ok N ac a -> IsValid (ac_clatV6 a) = true -> ac_clatV6 a = clat_addr x).
  { intros a Ha Hv. destruct (ck_clat _ _ _ Ha Hv) as (y & Hy & <- & _). apply (as_same Has). congruence. }
  assert (Hf : forall a, client_ok N ac a -> client_ok N ac (f a)).
  { intros a Ha. unfold f. destruct (ac_xlat a) as [tr|]; [done|].
    destruct (New _ _) as [tr|] eqn:En; [|done]. destruct Ha as [H1 H2 H3 H4]. split; cbn; [done|done| |congruence].
    intros Hv. by exists x. }
  (* the recorded address is the one installed *)
  assert (Hk : clat_kept b (set_heap b (alter f ac (br_heap b)))).
  { intros i. rewrite clat_of_alter. unfold clat_of. destruct (decide (ac = i)) as [<-|]; [|done].
    destruct (br_heap b !! ac) as [a|] eqn:Ea; [cbn|done]. intros Hv. unfold f. destruct (ac_xlat a); [done|].
    destruct (New _ _); [|done]. cbn. symmetry. apply Hsame; [|done]. by apply (bo_heap _ _ Hb). }
  split; [|done]. pose proof Hb as [Hc Hh Hfull]. split; cbn.
  - intros k i E. apply Hc in E as [Hlt E]. split; [done|]. destruct E as [->|[Hd E]]; [by left|right]. split; [done|].
    rewrite Hk; [done|]. rewrite E. by destruct Hd as (? & _ & _ & ?).
  - intros i a. rewrite lookup_alter_Some. intros [(<- & a0 & E & ->)|[Hne E]]; [|by apply Hh]. apply Hh in E as [Hlt E]. auto.
  - intros i Hi. rewrite lookup_alter_is_Some. by apply Hfull.
Qed.
(** After the installation the client records the CLAT address. *)
Lemma install_xlat_records N b ac x :
  bridge_ok N b -> (ac < br_next b)%nat -> N ac = inner_of x -> IsValid (clat_addr x) = true ->
  clat_of (install_xlat b ac (clat_addr x)) ac = clat_addr x.
Proof.
  intros Hb Hlt HN Hv. destruct (bo_full _ _ Hb ac Hlt) as [a Ea]. unfold install_xlat. rewrite clat_of_alter.
  destruct (decide (ac = ac)); [|done]. rewrite Ea. destruct (ac_xlat a) as [tr|] eqn:Ex.
  - pose proof (bo_heap _ _ Hb _ _ Ea) as [_ Hc]. pose proof (recorded_clat N b ac x Hb HN) as Hr. unfold clat_of in Hr. rewrite Ea in Hr.
    apply Hr, (New_wants_v6 _ tr), (ck_xlat _ _ _ Hc _ Ex).
  - by destruct (New_v6 _ (as_v6 Has x Hv)) as [tr ->].
Qed.
Lemma store_clat_ok N b ac x :
  bridge_ok N b -> (ac < br_next b)%nat -> N ac = inner_of x -> IsValid (clat_addr x) = true -> clat_of b ac = clat_addr x ->
  bridge_ok N (store_clat b ac (clat_addr x)) /\ clat_kept b (store_clat b ac (clat_addr x)).
Proof.
  intros [Hc Hh Hf] Hlt HN Hv Hcl. unfold store_clat. case_match; [by split|]. split; [|done]. split; cbn; [|done|done].
  intros k i [[<- <-]|[Hne Hk]]%lookup_insert_Some; [|by apply Hc]. split; [done|]. right. split; [by exists x|done].
Qed.
Lemma compareAndDelete_ok N b k ac :
  bridge_ok N b -> bridge_ok N (compareAndDelete b k ac) /\ clat_kept b (compareAndDelete b k ac).
Proof.
  intros [Hc Hh Hf]. unfold compareAndDelete. case_bool_decide; [|by split]. split; [|done]. split; cbn; [|done|done].
  intros k' i [Hne Hk]%lookup_delete_Some. by apply Hc.
Qed.

(** ** A step of a handler *)

Lemma clat_wanted_valid a k : clat_wanted a k = true -> IsValid k = true.
Proof. unfold clat_wanted. by intros [? _]%andb_true_iff. Qed.

(** What a step may do to the registry's bookkeeping. *)
Definition extends (N : nat -> Addr) (b : bridge) (N' : nat -> Addr) (b' : bridge) : Prop :=
  bridge_ok N' b' /\ (forall i, (i < br_next b)%nat -> N' i = N i) /\ (br_next b <= br_next b')%nat /\ clat_kept b b'.
Lemma extends_same N b b' : bridge_ok N b' /\ clat_kept b b' -> br_next b' = br_next b -> extends N b N b'.
Proof. intros [Hb Hk] E. split_and!; [done|done|lia|done]. Qed.

Lemma br_next_micro b ac k t :
  br_next (cstp_attach b ac t) = br_next b /\ br_next (store_clat b ac k) = br_next b
  /\ br_next (compareAndDelete b k ac) = br_next b.
Proof. unfold cstp_attach, store_clat, compareAndDelete. split_and!; by repeat case_match. Qed.

Lemma thread_ok_keep N b N' b' th : extends N b N' b' -> thread_ok N b th -> thread_ok N' b' th.
Proof.
  intros (_ & Hold & Hle & Hk) [H1 H2]. split.
  - destruct (thread_client th) as [[x ac]|]; [|done]. destruct H1 as [Hlt HN]. split; [lia|]. by rewrite Hold.
  - destruct th; try done; destruct H2 as [Hv Hc]; (split; [done|]); rewrite Hk; congruence.
Qed.

Lemma thread_step_ok N b th b' th' :
  bridge_ok N b -> thread_ok N b th -> thread_step b th = (b', th') ->
  exists N', extends N b N' b' /\ (forall th1, th' = Some th1 -> thread_ok N' b' th1).
Proof.
  intros Hb [Hth Hv] Hs.
  assert (Hkeep : forall b1 th1, bridge_ok N b1 /\ clat_kept b b1 -> br_next b1 = br_next b -> (b1, th1) = (b', th') ->
    (forall th2, th1 = Some th2 -> br_next b1 = br_next b -> thread_ok N b1 th2) ->
    exists N', extends N b N' b' /\ (forall th2, th' = Some th2 -> thread_ok N' b' th2)).
  { intros b1 th1 Hb1 En Heq Hth1. injection Heq as <- <-. exists N. split; [by apply extends_same|]. auto. }
  assert (Hload : forall x ac b1 th1, loadOrCreateClient b (inner_of x) = (ac, b1) ->
    (forall N' b2, (ac < br_next b2)%nat -> N' ac = inner_of x -> thread_ok N' b2 th1) -> (b1, Some th1) = (b', th') ->
    exists N', extends N b N' b' /\ (forall th2, th' = Some th2 -> thread_ok N' b' th2)).
  { intros x ac b1 th1 El Hth1 Heq. injection Heq as <- <-.
    destruct (loadOrCreateClient_ok N b x ac b1 Hb El) as (N' & H1 & H2 & H3 & H4 & H5 & H6).
    exists N'. split; [done|]. intros th2 [= <-]. auto. }
  assert (Hself : bridge_ok N b /\ clat_kept b b) by done.
  assert (Hcl : forall b1 th1 x ac, br_next b1 = br_next b -> thread_client th1 = Some (x, ac) -> (ac < br_next b)%nat -> N ac = inner_of x ->
    match th1 with PumpAttached _ _ | PumpXlat _ _ | AdmitAttached _ _ | AdmitXlat _ _ => False | _ => True end -> thread_ok N b1 th1).
  { intros b1 th1 x ac En Et Hlt HN Hth1. split; [by rewrite Et, En|by destruct th1]. }
  destruct th as [t|t ac|t ac|t ac|t ac|t ac|t ac k|t|s|s ac|s ac|s ac|s|s ac|s ac|s ac k];
    cbn [thread_step thread_client] in *;
    try (match type of Hth with _ /\ _ => destruct Hth as [Hlt HN] end).
  - destruct (loadOrCreateClient b (tunnel_inner t)) as [ac b1] eqn:El.
    eapply (Hload (cstpTransport t)); [exact El| |exact Hs]. intros N' n ? ?. by split.
  - eapply Hkeep; [by apply (cstp_attach_ok N b ac t)|apply br_next_micro; exact AddrNone|exact Hs|].
    intros th2 [= <-] En. case_match eqn:Ew; split; cbn; try split; rewrite ?En; auto. by apply clat_wanted_valid in Ew.
  - eapply Hkeep; [by apply (install_xlat_ok N b ac (cstpTransport t))|done|exact Hs|]. intros th2 [= <-] En.
    split; cbn; [by split|]. split; [done|]. by apply (install_xlat_records N b ac (cstpTransport t)).
  - destruct Hv as [Hv Hc].
    eapply Hkeep; [by apply (store_clat_ok N b ac (cstpTransport t))|by apply br_next_micro|exact Hs|]. intros th2 [= <-] En. by eapply (Hcl _ _ (cstpTransport t)).
  - pose proof (cstp_detach_ok N b ac t Hb) as Hd. destruct (cstp_detach b ac t) as [e b1] eqn:Ed.
    eapply Hkeep; [exact Hd| |exact Hs|]; [by injection Ed as <- <-|]. intros th2 [= <-] En. destruct e; [by eapply (Hcl _ _ (cstpTransport t))|by split].
  - eapply Hkeep; [by apply compareAndDelete_ok|by apply br_next_micro|exact Hs|]. intros th2 [= <-] En. case_match; [by eapply (Hcl _ _ (cstpTransport t))|by split].
  - eapply Hkeep; [by apply compareAndDelete_ok|by apply br_next_micro|exact Hs|]. intros th2 [= <-] En. by split.
  - eapply Hkeep; [split; [by apply close_tunnel_ok|done]|done|exact Hs|]. by intros th2 [=].
  - destruct (loadOrCreateClient b (session_inner s)) as [ac b1] eqn:El.
    eapply (Hload (dtlsTransport s)); [exact El| |exact Hs]. intros N' n ? ?. by split.
  - eapply Hkeep; [by apply (dtls_attach_ok N b ac s)|done|exact Hs|].
    intros th2 Heq En. case_match eqn:Ew; simplify_eq. split; cbn; auto. by apply clat_wanted_valid in Ew.
  - eapply Hkeep; [by apply (install_xlat_ok N b ac (dtlsTransport s))|done|exact Hs|]. intros th2 [= <-] En.
    split; cbn; [by split|]. split; [done|]. by apply (install_xlat_records N b ac (dtlsTransport s)).
  - destruct Hv as [Hv Hc].
    eapply Hkeep; [by apply (store_clat_ok N b ac (dtlsTransport s))|by apply br_next_micro|exact Hs|]. by intros th2 [=].
  - eapply Hkeep; [exact Hself|done|exact Hs|]. intros th2 Heq En. destruct (br_clients b !! session_inner s) as [ac|] eqn:E; [|done].
    injection Heq as <-. split; cbn; [|done]. by apply (bridge_ok_load N b (dtlsTransport s)).
  - pose proof (dtls_detach_ok N b ac s Hb) as Hd. destruct (dtls_detach b ac s) as [e b1] eqn:Ed.
    eapply Hkeep; [exact Hd| |exact Hs|]; [by injection Ed as <- <-|]. intros th2 Heq En. destruct e; simplify_eq. by eapply (Hcl _ _ (dtlsTransport s)).
  - eapply Hkeep; [by apply compareAndDelete_ok|by apply br_next_micro|exact Hs|]. intros th2 Heq En. case_match; simplify_eq. by eapply (Hcl _ _ (dtlsTransport s)).
  - eapply Hkeep; [by apply compareAndDelete_ok|by apply br_next_micro|exact Hs|]. by intros th2 [=].
Qed.

Lemma br_steps_ok b ths :
  br_steps (b, ths) -> exists N, bridge_ok N b /\ Forall (thread_ok N b) ths.
Proof.
  enough (forall x, br_steps x -> exists N, bridge_ok N x.1 /\ Forall (thread_ok N x.1) x.2) as H
    by (intros Hs; apply (H _ Hs)).
  induction 1 as [|x y Hx (N & Hb & Hths) Hs].
  { exists (fun _ => AddrNone). split; [|constructor]. split; [done|done|]. intros ac Hac. cbn in Hac. lia. }
  destruct Hs as [b0 ths0 t|b0 ths0 s|b0 ths0 s|b0 ths1 th ths2 b' th' Hstep]; cbn [fst snd] in *.
  - exists N. split; [done|]. constructor; [by split|done].
  - exists N. split; [done|]. constructor; [by split|done].
  - exists N. split; [done|]. constructor; [by split|done].
  - apply Forall_app in Hths as [H1 H2]. apply Forall_cons in H2 as [Hth H2].
    destruct (thread_step_ok N b0 th b' th' Hb Hth Hstep) as (N' & Hext & Hnew).
    exists N'. split; [apply Hext|]. rewrite !Forall_app. split_and!.
    + apply (Forall_impl _ _ _ H1). intros th1. by apply thread_ok_keep.
    + destruct th' as [th1|]; [|constructor]. apply Forall_singleton. auto.
    + apply (Forall_impl _ _ _ H2). intros th1. by apply thread_ok_keep.
Qed.

Lemma choose_inner N b ac tr : bridge_ok N b -> chooseTransport b ac = Some tr -> inner_of tr = N ac.
Proof.
  intros Hb. unfold chooseTransport. destruct (br_heap b !! ac) as [a|] eqn:E; [|done]. cbn.
  apply (bo_heap _ _ Hb) in E as [_ [H1 H2 _ _]]. unfold choose.
  destruct (ac_dtls a) as [s|]; [intros [= <-]; by apply H2|].
  destruct (ac_cstp a) as [t|]; [intros [= <-]; by apply H1|done].
Qed.
Lemma translator_own N b ac xlat :
  bridge_ok N b -> translator b ac = Some xlat -> New placeholderClatV4 (clat_of b ac) = Some xlat.
Proof.
  intros Hb. unfold translator, clat_of. destruct (br_heap b !! ac) as [a|] eqn:E; [|done].
  apply (bo_heap _ _ Hb) in E as [_ Hc]. apply (ck_xlat _ _ _ Hc).
Qed.
End isolation.

Lemma New_placeholder_ok c6 t : New placeholderClatV4 c6 = Some t -> bytes_ok (tr_clatPlaceholderV6 t) /\ length (tr_clatPlaceholderV6 t) = 16%nat.
Proof.
  unfold New. destruct (negb _ || _)%bool; [done|]. intros [= <-]. cbn [tr_clatPlaceholderV6]. split; [decide_closed|done].
Qed.

(** The device whose native or CLAT address this is. *)
Definition owns (x : transport) (k : Addr) : Prop := k = inner_of x \/ k = clat_addr x /\ IsValid k = true.

(** C7: No client receives another's packets: however accepts, disconnects,
    admissions and evictions overlap, a packet from the TUN is handed only to a
    transport of the device that owns the packet's destination; a packet to its
    native address unchanged and of at most 1400 bytes, one to its CLAT address
    always translated, by the translator of that address, and of at most 1420
    before; a notice is written back only for a longer one; and no packet makes
    the loop panic. *)
Theorem egress_isolated `{GH : GvisorHeader} `{S : !SIIT} `{GvisorIcmp} (Has : assignment_ok) b ths counter pkt
    (Hrun : br_steps (b, ths)) (Hpkt : bytes_ok pkt) :
  match pumpTunQueue_packet b counter pkt with
  | None => False
  | Some (EgNone, _) => True
  | Some (EgPTB _, _) => (1400 < length pkt)%nat
  | Some (EgSend tr out, counter') =>
    exists dst, AddrFromSlice (slice pkt 24 40) = Some dst
    /\ owns tr dst /\ (forall x, owns x dst -> inner_of x = inner_of tr)
    /\ ((dst = inner_of tr /\ out = pkt /\ (length pkt <= 1400)%nat)
        \/ dst = clat_addr tr /\ exists xlat, New placeholderClatV4 dst = Some xlat
             /\ TunToClient xlat counter pkt = Some (Some out, counter') /\ (length pkt <= 1420)%nat)
  end.
Proof.
  destruct (br_steps_ok Has b ths Hrun) as (N & Hb & _). unfold pumpTunQueue_packet.
  destruct (_ || _)%bool; [done|]. destruct (AddrFromSlice _) as [dst|] eqn:Ed; [|done].
  destruct (br_clients b !! dst) as [ac|] eqn:Ec; [|done].
  destruct (chooseTransport b ac) as [tr|] eqn:Et; [|done].
  pose proof (choose_inner N b ac tr Hb Et) as HN.
  apply (bo_clients _ _ Hb) in Ec as [_ Ec]. rewrite <- HN in Ec.
  assert (Hptb : forall n, (1400 <= n)%nat -> (n <? length pkt)%nat = true ->
    match originatePTB dst (Z.of_nat n) pkt with EgPTB _ => (1400 < length pkt)%nat | EgNone => True | _ => False end).
  { intros n Hn E. simpl_bool. unfold originatePTB. destruct (PacketTooBigFor _ _ _); [lia|done]. }
  assert (Hown : owns tr dst).
  { destruct Ec as [->|[(y & Hy & <- & Hv) _]]; [by left|right]. split; [|done]. symmetry. apply (as_same Has). done. }
  assert (Hex : forall x, owns x dst -> inner_of x = inner_of tr).
  { intros x Hx. destruct Hx as [->|[Hx Hxv]], Hown as [Ho|[Ho Hov]].
    - done.
    - exfalso. rewrite Ho in Hov. by apply (as_disj Has tr x).
    - exfalso. rewrite Hx in Hxv. apply (as_disj Has x tr Hxv). congruence.
    - apply (as_uniq Has); congruence. }
  destruct (_ && _)%bool eqn:Ek.
  - apply andb_true_iff in Ek as [Evk Ek]. apply bool_decide_eq_true in Ek. destruct (ptbCapCLAT <? length pkt)%nat eqn:E.
    { pose proof (Hptb ptbCapCLAT ltac:(unfold ptbCapCLAT; lia) E). by destruct (originatePTB _ _ _). }
    simpl_bool. destruct (translator b ac) as [xlat|] eqn:Ex; [|done]. pose proof (translator_own N b ac xlat Hb Ex) as Hnew.
    destruct (New_placeholder_ok _ _ Hnew) as [Hpo Hpl].
    destruct (TunToClient_total xlat counter pkt Hpkt Hpo Hpl) as ([out|] & c' & Eo & _);
      rewrite Eo; [|done].
    exists dst. split_and!; [done|done|done|]. right. split; [rewrite Ek; eapply (recorded_clat Has N); eauto|]. exists xlat. split_and!; [|done|done].
    by rewrite Ek.
  - destruct (ptbCapNative <? length pkt)%nat eqn:E.
    { pose proof (Hptb ptbCapNative ltac:(unfold ptbCapNative; lia) E). by destruct (originatePTB _ _ _). }
    simpl_bool. exists dst. split_and!; [done|done|done|]. left. split_and!; [|done|exact E].
    destruct Ec as [->|[Hd Hcl]]; [done|]. exfalso. rewrite Hcl, bool_decide_true in Ek by done.
    destruct Hd as (_ & _ & _ & Hv). by rewrite Hv in Ek.
Qed.
End bridge.

(** * Witnesses *)

(** Two devices: even numbers are the transports of the first, odd numbers of
    the second; only the first presents a CLAT address. *)
Definition native_sample (n : nat) : Addr :=
  Addr6 ([0xfd] ++ repeat 0 14 ++ [if Nat.even n then 1 else 2]) [].
Definition tunnels_sample (n : nat) : CstpConfig.Identity :=
  mkIdentity [100] (mkPrefix (native_sample n) 128)
    (if Nat.even n then mkPrefix clat_sample 128 else mkPrefix AddrNone 0) 1400 false.
Definition sessions_sample (n : nat) : SessionIdent :=
  mkSI (mkFT AddrPortZero AddrPortZero) [100] [117] (native_sample n)
    (if Nat.even n then clat_sample else AddrNone) [] [] [] 0.
Lemma assignment_sample : assignment_ok tunnels_sample sessions_sample.
Proof.
  assert (Hi : forall x, exists n, inner_of tunnels_sample sessions_sample x = native_sample n
    /\ clat_addr tunnels_sample sessions_sample x = if Nat.even n then clat_sample else AddrNone).
  { intros [t|s]; [exists t|exists s]; (split; [done|]); cbn; unfold tunnel_clat, session_clat; cbn; by destruct (Nat.even _). }
  split; intros x; destruct (Hi x) as (n & E1 & E2); try (intros y; destruct (Hi y) as (m & E3 & E4));
    rewrite ?E1, ?E2, ?E3, ?E4; unfold native_sample; destruct (Nat.even n); try destruct (Nat.even m); done.
Qed.
(** Tunnel 0 is accepted and session 1 admitted, one statement at a time. *)
Definition bridge_sample : bridge :=
  OnAdmit sessions_sample (pumpTunnel_start tunnels_sample newBridge 0).2 1.
Definition native_packet : bytes := [96; 0; 0; 0; 0; 4; 17; 64] ++ repeat 0 16 ++ ([0xfd] ++ repeat 0 14 ++ [2]) ++ [1; 2; 3; 4].
Definition clat_packet : bytes :=
  [96; 0; 0; 0; 0; 8; 17; 64] ++ (take 12 SIITPrefix ++ [8; 8; 8; 8]) ++ sample_clat ++ [0; 53; 48; 57; 0; 8; 18; 52].

Lemma egress_isolated_witness :
  exists b, br_steps tunnels_sample sessions_sample (b, [PumpRunning 0 0])
  /\ @pumpTunQueue_packet header_sample siit gvisor_icmp_sample b 7 native_packet = Some (EgSend (dtlsTransport 1) native_packet, 7)
  /\ owns tunnels_sample sessions_sample (dtlsTransport 1) (Addr6 ([0xfd] ++ repeat 0 14 ++ [2]) [])
  /\ exists out, @pumpTunQueue_packet header_sample siit gvisor_icmp_sample b 7 clat_packet = Some (EgSend (cstpTransport 0) out, 8).
Proof.
  assert (R : br_steps tunnels_sample sessions_sample (bridge_sample, [PumpRunning 0 0])).
  { pose proof (brs_step tunnels_sample sessions_sample _ _ (brs_start _ _) (bs_accept _ _ _ _ 0)) as R.
    eapply brs_step in R; [|eapply (bs_run _ _ _ [] _ []); reflexivity].
    eapply brs_step in R; [|eapply (bs_run _ _ _ [] _ []); reflexivity].
    eapply brs_step in R; [|eapply (bs_run _ _ _ [] _ []); reflexivity].
    eapply brs_step in R; [|eapply (bs_run _ _ _ [] _ []); reflexivity].
    eapply brs_step in R; [|apply (bs_admit _ _ _ _ 1)].
    eapply brs_step in R; [|eapply (bs_run _ _ _ [] _ [_]); reflexivity].
    eapply brs_step in R; [|eapply (bs_run _ _ _ [] _ [_]); reflexivity].
    exact R. }
  exists bridge_sample. split; [exact R|].
  pose proof (@egress_isolated tunnels_sample sessions_sample header_sample siit gvisor_icmp_sample
    assignment_sample _ _ 7 native_packet R ltac:(decide_closed)) as H1.
  assert (E : @pumpTunQueue_packet header_sample siit gvisor_icmp_sample bridge_sample 7 native_packet
              = Some (EgSend (dtlsTransport 1) native_packet, 7)) by (vm_compute; reflexivity).
  rewrite E in H1. split; [exact E|]. destruct H1 as (dst & Hd & Ho & _).
  assert (Some dst = Some (Addr6 ([0xfd] ++ repeat 0 14 ++ [2]) [])) as Hdst by (rewrite <- Hd; vm_compute; reflexivity).
  injection Hdst as ->. split; [exact Ho|].
  eexists. vm_compute. reflexivity.
Defined.
