(* ===== verification/BridgeRefine.v ===== *)
(** The bridge's registry against its contract: a table of the transports of
    each inner address. Handlers that run one after another implement it, for
    the native and the CLAT key alike; one that overlaps a teardown does not. *)

From S2P Require Import Prelude Netip Clat SiitBuf Clatxlat Icmp6 CstpConfig Dtls Bridge.

(** * The contract *)

(** The CSTP tunnel and the DTLS session of each inner address that has one. *)
Abbreviation Routes := (gmap Addr (option nat * option nat)) (only parsing).
Definition route (r : Routes) (a : Addr) : option nat * option nat := default (None, None) (r !! a).
Definition put_route (r : Routes) (a : Addr) (cd : option nat * option nat) : Routes :=
  match cd with (None, None) => delete a r | _ => <[a := cd]> r end.
Definition spec_choose (cd : option nat * option nat) : option transport :=
  match cd.2 with Some s => Some (dtlsTransport s) | None => cstpTransport <$> cd.1 end.

Inductive Op : Type := OpConnect (t : nat) | OpDisconnect (t : nat) | OpAdmit (s : nat) | OpEvict (s : nat).

Section refine.
Context (tunnels : nat -> CstpConfig.Identity) (sessions : nat -> SessionIdent).
Local Abbreviation inner_of := (inner_of tunnels sessions).
Local Abbreviation clat_addr := (clat_addr tunnels sessions).
Local Abbreviation tunnel_inner := (tunnel_inner tunnels).
Local Abbreviation session_inner := (session_inner sessions).

(** A fresh CONNECT drops a DTLS session; an exit or eviction clears its own
    transport only. *)
Definition spec_op (r : Routes) (op : Op) : Routes :=
  match op with
  | OpConnect t => put_route r (tunnel_inner t) (Some t, None)
  | OpAdmit s => put_route r (session_inner s) ((route r (session_inner s)).1, Some s)
  | OpDisconnect t =>
    let '(c, d) := route r (tunnel_inner t) in
    if bool_decide (c = Some t) then put_route r (tunnel_inner t) (None, d) else r
  | OpEvict s =>
    let '(c, d) := route r (session_inner s) in
    if bool_decide (d = Some s) then put_route r (session_inner s) (c, None) else r
  end.

(** The handlers, the client each pump holds beside the bridge. A tunnel is
    accepted once and its pump exits once. *)
Inductive seq_run : bridge -> gmap nat nat -> list nat -> Routes -> Prop :=
| sq_new : seq_run newBridge ∅ [] ∅
| sq_connect b pumps used r t ac b' :
    seq_run b pumps used r -> t ∉ used -> pumpTunnel_start tunnels b t = (ac, b') ->
    seq_run b' (<[t := ac]> pumps) (t :: used) (spec_op r (OpConnect t))
| sq_disconnect b pumps used r t ac :
    seq_run b pumps used r -> pumps !! t = Some ac ->
    seq_run (pumpTunnel_exit tunnels b t ac) (delete t pumps) used (spec_op r (OpDisconnect t))
| sq_admit b pumps used r s :
    seq_run b pumps used r -> seq_run (OnAdmit sessions b s) pumps used (spec_op r (OpAdmit s))
| sq_evict b pumps used r s :
    seq_run b pumps used r -> seq_run (OnEvict sessions b s) pumps used (spec_op r (OpEvict s)).

(** * The relation *)

(** [A] is the native half of the registry. *)
Record client_rel (r : Routes) (a : Addr) (x : activeClient) : Prop := {
  cr_route : r !! a = Some (ac_cstp x, ac_dtls x);
  cr_live : ac_cstp x <> None \/ ac_dtls x <> None;
  cr_cstp : forall t, ac_cstp x = Some t -> tunnel_inner t = a;
  cr_dtls : forall s, ac_dtls x = Some s -> session_inner s = a;
  cr_clat : forall y, inner_of y = a -> IsValid (clat_addr y) = true -> ac_clatV6 x = clat_addr y /\ is_Some (ac_xlat x);
  cr_owner : exists y, inner_of y = a /\ (IsValid (ac_clatV6 x) = true -> ac_clatV6 x = clat_addr y)
}.
Record refines (b : bridge) (pumps : gmap nat nat) (used : list nat) (r : Routes) (A : gmap Addr nat) : Prop := {
  rf_keys : forall k ac, br_clients b !! k = Some ac
    <-> exists a, A !! a = Some ac /\ (k = a \/ exists y, inner_of y = a /\ k = clat_addr y /\ IsValid k = true);
  rf_inj : forall a a' ac, A !! a = Some ac -> A !! a' = Some ac -> a = a';
  rf_none : forall a, A !! a = None -> r !! a = None;
  rf_some : forall a ac, A !! a = Some ac -> exists x, br_heap b !! ac = Some x /\ client_rel r a x;
  rf_heap : forall ac x, br_heap b !! ac = Some x ->
    (ac < br_next b)%nat /\ ((exists a, A !! a = Some ac) \/ (ac_cstp x = None /\ ac_dtls x = None));
  rf_pump : forall ac x t, br_heap b !! ac = Some x -> ac_cstp x = Some t -> pumps !! t = Some ac /\ t ∈ used;
  rf_used : forall t ac, pumps !! t = Some ac -> t ∈ used
}.

Section proofs.
Context (Has : assignment_ok tunnels sessions).

(** The refinement reads three fields of the bridge. *)
Definition core (b : bridge) : gmap Addr nat * gmap nat activeClient * nat := (br_clients b, br_heap b, br_next b).
Lemma refines_core b b' pumps used r A : core b' = core b -> refines b pumps used r A -> refines b' pumps used r A.
Proof.
  unfold core. intros [= E1 E2 E3] [H1 H2 H3 H4 H5 H6 H7].
  split; rewrite ?E1, ?E2, ?E3; try done; intros; rewrite ?E1, ?E2 in *; eauto.
Qed.
Lemma installCLAT_core b b' ac n k : core b' = core b -> core (installCLAT b' ac n k) = core (installCLAT b ac n k).
Proof.
  unfold core, installCLAT, store_clat, install_xlat. intros [= E1 E2 E3].
  case_match; [|congruence]. cbn. rewrite E1. case_match; cbn; congruence.
Qed.
Lemma cstp_attach_core b ac t :
  core (cstp_attach b ac t) = core (set_heap b (alter (fun a => mkClient (Some t) None (ac_xlat a) (ac_clatV6 a)) ac (br_heap b))).
Proof. unfold cstp_attach. by case_match. Qed.

Section with_state.
Context (b : bridge) (pumps : gmap nat nat) (used : list nat) (r : Routes) (A : gmap Addr nat).
Context (Href : refines b pumps used r A).

(** The native key of a device is its own; its CLAT key leads to the same
    client. *)
Lemma native_key y : br_clients b !! inner_of y = A !! inner_of y.
Proof.
  destruct (A !! inner_of y) as [ac|] eqn:E.
  - apply (rf_keys _ _ _ _ _ Href). eauto.
  - destruct (br_clients b !! inner_of y) as [ac|] eqn:Ec; [|done].
    apply (rf_keys _ _ _ _ _ Href) in Ec as (a & Ha & [<-|(y' & Hy & Hk & Hv)]); [congruence|].
    exfalso. rewrite Hk in Hv. by apply (as_disj _ _ Has y' y).
Qed.
Lemma clat_key y : IsValid (clat_addr y) = true -> br_clients b !! clat_addr y = A !! inner_of y.
Proof.
  intros Hv. destruct (A !! inner_of y) as [ac|] eqn:E.
  - apply (rf_keys _ _ _ _ _ Href). exists (inner_of y). split; [done|]. right. by exists y.
  - destruct (br_clients b !! clat_addr y) as [ac|] eqn:Ec; [|done].
    apply (rf_keys _ _ _ _ _ Href) in Ec as (a & Ha & [Ea|(y' & Hy & Hk & Hv')]).
    + exfalso. destruct (rf_some _ _ _ _ _ Href _ _ Ha) as (x & _ & Hcr).
      destruct (cr_owner _ _ _ Hcr) as (y' & Hy' & _). apply (as_disj _ _ Has y y' Hv). congruence.
    + exfalso. assert (inner_of y = inner_of y') by (apply (as_uniq _ _ Has); congruence). congruence.
Qed.
Lemma fresh_ac : br_heap b !! br_next b = None.
Proof.
  destruct (br_heap b !! br_next b) as [x|] eqn:E; [|done]. apply (rf_heap _ _ _ _ _ Href) in E as [E _]. lia.
Qed.
Lemma orphan_no_key ac k : (forall a, A !! a <> Some ac) -> br_clients b !! k <> Some ac.
Proof. intros Ho Hk. apply (rf_keys _ _ _ _ _ Href) in Hk as (a & Ha & _). by apply (Ho a). Qed.

(** A transport is attached: the client found or created, and what the
    registry then holds. *)
Lemma attach_spec x f :
  (forall a, ac_xlat (f a) = ac_xlat a /\ ac_clatV6 (f a) = ac_clatV6 a) ->
  let '(ac, b1) := loadOrCreateClient b (inner_of x) in
  let b3 := installCLAT (set_heap b1 (alter f ac (br_heap b1))) ac (inner_of x) (clat_addr x) in
  exists x0 x3,
    br_heap b3 = <[ac := x3]> (br_heap b) /\ (br_next b <= br_next b3)%nat /\ (ac < br_next b3)%nat
    /\ ac_cstp x3 = ac_cstp (f x0) /\ ac_dtls x3 = ac_dtls (f x0)
    /\ (IsValid (clat_addr x) = true -> ac_clatV6 x3 = clat_addr x /\ is_Some (ac_xlat x3))
    /\ (IsValid (ac_clatV6 x3) = true -> ac_clatV6 x3 = clat_addr x)
    /\ ((A !! inner_of x = Some ac /\ br_heap b !! ac = Some x0 /\ br_clients b3 = br_clients b)
        \/ (A !! inner_of x = None /\ ac = br_next b /\ x0 = mkClient None None None AddrNone
            /\ forall k, br_clients b3 !! k = if decide (k = inner_of x \/ (k = clat_addr x /\ IsValid k = true)) then Some ac else br_clients b !! k)).
Proof.
  intros Hf. unfold loadOrCreateClient. rewrite native_key. destruct (A !! inner_of x) as [ac|] eqn:EA.
  - destruct (rf_some _ _ _ _ _ Href _ _ EA) as (x0 & Ex & Hcr). exists x0, (f x0). destruct (Hf x0) as [Hf1 Hf2].
    assert (Hcl : IsValid (clat_addr x) = true -> ac_clatV6 (f x0) = clat_addr x /\ is_Some (ac_xlat (f x0))).
    { intros Hv. rewrite Hf1, Hf2. by apply (cr_clat _ _ _ Hcr). }
    assert (Hh : alter f ac (br_heap b) = <[ac := f x0]> (br_heap b)).
    { apply map_eq. intros i. rewrite lookup_alter, lookup_insert. case_decide; [subst; by rewrite Ex|done]. }
    assert (Hlt : (ac < br_next b)%nat) by apply (rf_heap _ _ _ _ _ Href _ _ Ex).
    assert (Hown : IsValid (ac_clatV6 (f x0)) = true -> ac_clatV6 (f x0) = clat_addr x).
    { rewrite Hf2. destruct (cr_owner _ _ _ Hcr) as (y & Hy & Hyc). intros Hv. rewrite (Hyc Hv). by apply (as_same _ _ Has). }
    unfold installCLAT. destruct (clat_wanted (inner_of x) (clat_addr x)) eqn:Ew.
    + apply clat_wanted_valid in Ew. unfold store_clat. cbn. rewrite (clat_key x Ew), EA. cbn.
      split_and!; try done; try lia; [|by left].
      rewrite Hh, alter_insert_eq. destruct (Hcl Ew) as [_ [tr ->]]. done.
    + cbn. split_and!; try done; try lia. by left.
  - set (ac := br_next b). set (x0 := mkClient None None None AddrNone). destruct (Hf x0) as [Hf1 Hf2].
    assert (Hh : alter f ac (<[ac := x0]> (br_heap b)) = <[ac := f x0]> (br_heap b)) by apply alter_insert_eq.
    unfold installCLAT. destruct (clat_wanted (inner_of x) (clat_addr x)) eqn:Ew.
    + apply clat_wanted_valid in Ew. destruct (New_v6 (clat_addr x) (as_v6 _ _ Has x Ew)) as [tr Etr].
      exists x0, (mkClient (ac_cstp (f x0)) (ac_dtls (f x0)) (Some tr) (clat_addr x)).
      assert (Hk : <[inner_of x := ac]> (br_clients b) !! clat_addr x = None).
      { rewrite lookup_insert_ne; [by rewrite (clat_key x Ew)|]. intros E. exact (as_disj _ _ Has x x Ew (eq_sym E)). }
      unfold store_clat. cbn. rewrite Hk. cbn. split_and!; try done; try lia.
      * rewrite Hh, alter_insert_eq, Hf1. by rewrite Etr.
      * right. split_and!; try done. intros k. case_decide as D.
        -- rewrite lookup_insert. case_decide; [done|]. rewrite lookup_insert. case_decide; [done|].
           destruct D as [|[? ?]]; congruence.
        -- rewrite !lookup_insert_ne; [done| |]; intros <-; apply D; auto.
    + exists x0, (f x0).
      assert (Hnv : IsValid (clat_addr x) = true -> False).
      { intros Hv. unfold clat_wanted in Ew. rewrite Hv in Ew. cbn in Ew. apply negb_false_iff, bool_decide_eq_true in Ew.
        by apply (as_disj _ _ Has x x Hv). }
      cbn. split_and!; try done; try lia; [by rewrite Hf2|]. right. split_and!; try done.
      intros k. case_decide as D.
      * rewrite lookup_insert. case_decide; [done|]. destruct D as [|[-> ?]]; [congruence|tauto].
      * rewrite lookup_insert_ne; [done|]. intros <-. apply D. auto.
Qed.

(** A transport that the spec routes is attached by [f]. *)
Lemma attach_refines x f pumps' used' r' ac b1 :
  (forall a, ac_xlat (f a) = ac_xlat a /\ ac_clatV6 (f a) = ac_clatV6 a) ->
  loadOrCreateClient b (inner_of x) = (ac, b1) ->
  (forall x0, route r (inner_of x) = (ac_cstp x0, ac_dtls x0) ->
     r' = <[inner_of x := (ac_cstp (f x0), ac_dtls (f x0))]> r
     /\ (ac_cstp (f x0) <> None \/ ac_dtls (f x0) <> None)
     /\ (forall t, ac_cstp (f x0) = Some t -> ac_cstp x0 = Some t \/ (tunnel_inner t = inner_of x /\ pumps' !! t = Some ac /\ t ∈ used'))
     /\ (forall s, ac_dtls (f x0) = Some s -> ac_dtls x0 = Some s \/ session_inner s = inner_of x)) ->
  (forall t i, pumps !! t = Some i -> pumps' !! t = Some i) -> (forall t, t ∈ used -> t ∈ used') ->
  (forall t i, pumps' !! t = Some i -> t ∈ used') ->
  refines (installCLAT (set_heap b1 (alter f ac (br_heap b1))) ac (inner_of x) (clat_addr x)) pumps' used' r'
    (<[inner_of x := ac]> A).
Proof.
  intros Hf El Hr' Hp Hu Hpu. pose proof (attach_spec x f Hf) as Hsp. rewrite El in Hsp.
  set (b3 := installCLAT _ _ _ _) in *. cbv zeta in Hsp.
  destruct Hsp as (x0 & x3 & Eh & Hnx & Hlt & Ec & Ed & Hcl & Hcl' & Hcase).
  assert (Hroute : route r (inner_of x) = (ac_cstp x0, ac_dtls x0)).
  { unfold route. destruct Hcase as [(EA & Ex & _)|(EA & _ & -> & _)].
    - destruct (rf_some _ _ _ _ _ Href _ _ EA) as (x0' & Ex' & Hcr). rewrite Ex in Ex'. injection Ex' as <-.
      by rewrite (cr_route _ _ _ Hcr).
    - by rewrite (rf_none _ _ _ _ _ Href _ EA). }
  assert (Hown0 : (forall t, ac_cstp x0 = Some t -> tunnel_inner t = inner_of x /\ pumps !! t = Some ac /\ t ∈ used)
    /\ (forall s, ac_dtls x0 = Some s -> session_inner s = inner_of x)).
  { destruct Hcase as [(EA & Ex & _)|(EA & _ & -> & _)]; [|by split].
    destruct (rf_some _ _ _ _ _ Href _ _ EA) as (x0' & Ex' & Hcr). rewrite Ex in Ex'. injection Ex' as <-.
    split; [|apply (cr_dtls _ _ _ Hcr)]. intros t Ht.
    destruct (rf_pump _ _ _ _ _ Href _ _ _ Ex Ht). split; [by apply (cr_cstp _ _ _ Hcr)|done]. }
  destruct (Hr' x0 Hroute) as (-> & Hlive & Hct & Hdt). destruct Hown0 as [Hoc Hod].
  assert (Hac : forall a i, inner_of x <> a -> A !! a = Some i -> i <> ac).
  { intros a i Hne Ha ->. destruct Hcase as [(EA & _ & _)|(_ & Eac & _ & _)].
    - apply Hne. by apply (rf_inj _ _ _ _ _ Href _ a ac).
    - destruct (rf_some _ _ _ _ _ Href _ _ Ha) as (y & Ey & _). rewrite Eac, fresh_ac in Ey. done. }
  split.
  - intros k i. destruct Hcase as [(EA & _ & ->)|(EA & Eac & _ & Hk)].
    + rewrite insert_id by done. apply (rf_keys _ _ _ _ _ Href).
    + rewrite Hk. case_decide as D.
      * split.
        -- intros [= <-]. exists (inner_of x). rewrite lookup_insert_eq. split; [done|].
           destruct D as [->|[-> Hv]]; [by left|right; by exists x].
        -- intros (a & [[<- <-]|[Hne Ha]]%lookup_insert_Some & Hka); [done|]. exfalso.
           assert (Hki : br_clients b !! k = Some i) by (apply (rf_keys _ _ _ _ _ Href); eauto).
           destruct D as [->|[-> Hv]]; [rewrite native_key in Hki; congruence|].
           rewrite (clat_key x Hv) in Hki. congruence.
      * rewrite (rf_keys _ _ _ _ _ Href). split.
        -- intros (a & Ha & Hka). exists a. rewrite lookup_insert_ne; [done|]. intros <-. congruence.
        -- intros (a & [[<- <-]|[Hne Ha]]%lookup_insert_Some & Hka); [|by exists a]. exfalso. apply D.
           destruct Hka as [->|(y & Hy & -> & Hv)]; [by left|right]. split; [by apply (as_same _ _ Has)|done].
  - intros a a' i [[<- <-]|[Hne Ha]]%lookup_insert_Some [[<- ?]|[Hne' Ha']]%lookup_insert_Some; subst; try done.
    + exfalso. by apply (Hac _ _ Hne' Ha').
    + exfalso. by apply (Hac _ _ Hne Ha).
    + by apply (rf_inj _ _ _ _ _ Href a a' i).
  - intros a [Ha Hne]%lookup_insert_None. rewrite lookup_insert_ne by done. by apply (rf_none _ _ _ _ _ Href).
  - intros a i [[<- <-]|[Hne Ha]]%lookup_insert_Some.
    + exists x3. rewrite Eh, lookup_insert_eq. split; [done|]. split.
      * by rewrite lookup_insert_eq, Ec, Ed.
      * by rewrite Ec, Ed.
      * intros t. rewrite Ec. intros Ht. destruct (Hct t Ht) as [Ht'|(? & _)]; [by apply Hoc|done].
      * intros s. rewrite Ed. intros Hs. destruct (Hdt s Hs); [by apply Hod|done].
      * intros y Hy Hv. rewrite <- (as_same _ _ Has x y) in * by done. auto.
      * by exists x.
    + destruct (rf_some _ _ _ _ _ Href _ _ Ha) as (y & Ey & [H1 H2 H3 H4 H5 H6]). exists y.
      rewrite Eh, lookup_insert_ne by (intros <-; by apply (Hac _ _ Hne Ha)). split; [done|].
      split; try done. by rewrite lookup_insert_ne.
  - intros i y. rewrite Eh. intros [[<- <-]|[Hne Hy]]%lookup_insert_Some.
    + split; [done|]. left. exists (inner_of x). by rewrite lookup_insert_eq.
    + apply (rf_heap _ _ _ _ _ Href) in Hy as [Hi Hy]. split; [lia|]. destruct Hy as [[a Ha]|]; [left|by right].
      exists a. rewrite lookup_insert_ne; [done|]. intros <-.
      destruct Hcase as [(EA & _)|(EA & _)]; congruence.
  - intros i y t. rewrite Eh. intros [[<- <-]|[Hne Hy]]%lookup_insert_Some Ht.
    + rewrite Ec in Ht. destruct (Hct t Ht) as [Ht'|(_ & ? & ?)]; [|done]. destruct (Hoc t Ht') as (_ & ? & ?). auto.
    + destruct (rf_pump _ _ _ _ _ Href _ _ _ Hy Ht). auto.
  - done.
Qed.

Lemma compareAndDelete_lookup b0 k0 ac k i :
  br_clients (compareAndDelete b0 k0 ac) !! k = Some i <-> br_clients b0 !! k = Some i /\ ~ (k = k0 /\ i = ac).
Proof.
  unfold compareAndDelete. case_bool_decide as E; cbn.
  - rewrite lookup_delete_Some. split.
    + intros [Hne Hk]. split; [done|]. by intros [-> _].
    + intros [Hk D]. split; [|done]. intros ->. apply D. split; congruence.
  - split; [|tauto]. intros Hk. split; [done|]. intros [-> ->]. done.
Qed.
Lemma compareAndDelete_same b0 k0 ac :
  br_heap (compareAndDelete b0 k0 ac) = br_heap b0 /\ br_next (compareAndDelete b0 k0 ac) = br_next b0.
Proof. unfold compareAndDelete. by case_match. Qed.
Lemma deregisterKeys_same b0 ac a :
  br_heap (deregisterKeys b0 ac a) = br_heap b0 /\ br_next (deregisterKeys b0 ac a) = br_next b0.
Proof.
  unfold deregisterKeys. destruct (compareAndDelete_same b0 a ac) as [E1 E2]. case_match; [|done].
  match goal with |- context [compareAndDelete (compareAndDelete ?b0 ?a ?ac) ?k ?ac] =>
    destruct (compareAndDelete_same (compareAndDelete b0 a ac) k ac) as [E3 E4] end. by rewrite E3, E4.
Qed.

(** Every key of an empty client goes. *)
Lemma deregisterKeys_lookup b0 x ac x0 :
  br_clients b0 = br_clients b -> A !! inner_of x = Some ac -> client_rel r (inner_of x) x0 ->
  clat_of b0 ac = ac_clatV6 x0 ->
  forall k i, br_clients (deregisterKeys b0 ac (inner_of x)) !! k = Some i <-> br_clients b !! k = Some i /\ i <> ac.
Proof.
  intros Eb EA Hcr Ecl k i. unfold deregisterKeys.
  assert (Ecl' : clat_of (compareAndDelete b0 (inner_of x) ac) ac = ac_clatV6 x0).
  { unfold clat_of. by rewrite (proj1 (compareAndDelete_same b0 (inner_of x) ac)). }
  rewrite Ecl'. assert (Hkey : br_clients b !! k = Some ac -> k = inner_of x \/ k = ac_clatV6 x0 /\ clat_wanted (inner_of x) (ac_clatV6 x0) = true).
  { intros Hk. apply (rf_keys _ _ _ _ _ Href) in Hk as (a & Ha & Hk).
    assert (a = inner_of x) as -> by by apply (rf_inj _ _ _ _ _ Href _ _ ac).
    destruct Hk as [->|(y & Hy & -> & Hv)]; [by left|right].
    destruct (cr_clat _ _ _ Hcr y Hy Hv) as [-> _]. split; [done|]. unfold clat_wanted. rewrite Hv. cbn.
    apply negb_true_iff, bool_decide_eq_false. by apply (as_disj _ _ Has). }
  destruct (clat_wanted (inner_of x) (ac_clatV6 x0)); rewrite !compareAndDelete_lookup, Eb; split.
  - intros [[Hk Hn1] Hn2]. split; [done|]. intros ->. destruct (Hkey Hk) as [->|[-> _]]; tauto.
  - intros [Hk Hne]. split_and!; tauto.
  - intros [Hk Hn1]. split; [done|]. intros ->. destruct (Hkey Hk) as [->|[_ ?]]; [tauto|done].
  - intros [Hk Hne]. split_and!; tauto.
Qed.

(** A transport is cleared by [f], and the client's keys with its last one. *)
Lemma detach_refines x ac x0 f pumps' :
  (forall a, ac_xlat (f a) = ac_xlat a /\ ac_clatV6 (f a) = ac_clatV6 a) ->
  A !! inner_of x = Some ac -> br_heap b !! ac = Some x0 ->
  (forall t, ac_cstp (f x0) = Some t -> ac_cstp x0 = Some t) -> (forall s, ac_dtls (f x0) = Some s -> ac_dtls x0 = Some s) ->
  (forall i y t, (i = ac -> y = f x0) -> (i <> ac -> br_heap b !! i = Some y) -> ac_cstp y = Some t -> pumps !! t = Some i -> pumps' !! t = Some i) ->
  (forall t i, pumps' !! t = Some i -> pumps !! t = Some i) ->
  let b1 := set_heap b (alter f ac (br_heap b)) in
  exists A', refines (if is_empty b1 ac then deregisterKeys b1 ac (inner_of x) else b1) pumps' used
    (put_route r (inner_of x) (ac_cstp (f x0), ac_dtls (f x0))) A'.
Proof.
  intros Hf EA Ex Hct Hdt Hp Hsub b1.
  destruct (rf_some _ _ _ _ _ Href _ _ EA) as (x0' & Ex' & Hcr). rewrite Ex in Ex'. injection Ex' as <-.
  destruct (Hf x0) as [Hf1 Hf2].
  assert (Hh : alter f ac (br_heap b) = <[ac := f x0]> (br_heap b)).
  { apply map_eq. intros i. rewrite lookup_alter, lookup_insert. case_decide; [subst; by rewrite Ex|done]. }
  assert (Hemp : is_empty b1 ac = bool_decide (ac_cstp (f x0) = None /\ ac_dtls (f x0) = None)).
  { unfold is_empty, b1. cbn. by rewrite Hh, lookup_insert_eq. }
  assert (Hac : forall a i, inner_of x <> a -> A !! a = Some i -> i <> ac).
  { intros a i Hne Ha ->. apply Hne. by apply (rf_inj _ _ _ _ _ Href _ a ac). }
  assert (Hpump : forall i y t, <[ac := f x0]> (br_heap b) !! i = Some y -> ac_cstp y = Some t -> pumps' !! t = Some i /\ t ∈ used).
  { intros i y t Hy Ht.
    assert (Hold : pumps !! t = Some i /\ t ∈ used).
    { apply lookup_insert_Some in Hy as [[<- <-]|[Hne Hy]]; [apply (rf_pump _ _ _ _ _ Href _ x0); auto|by apply (rf_pump _ _ _ _ _ Href _ y)]. }
    split; [|apply Hold]. apply (Hp i y t); [|  |done|apply Hold].
    - intros ->. rewrite lookup_insert_eq in Hy. congruence.
    - intros Hne. by rewrite lookup_insert_ne in Hy. }
  assert (Hused : forall t i, pumps' !! t = Some i -> t ∈ used) by (intros t i Hi; by apply (rf_used _ _ _ _ _ Href t i), Hsub).
  rewrite Hemp. case_bool_decide as D.
  - destruct D as [Dc Dd]. exists (delete (inner_of x) A). rewrite Dc, Dd. cbn [put_route].
    assert (Hlk := deregisterKeys_lookup b1 x ac x0 eq_refl EA Hcr). destruct (deregisterKeys_same b1 ac (inner_of x)) as [Eh En].
    assert (Hb1 : br_heap b1 = <[ac := f x0]> (br_heap b)) by done. rewrite Hb1 in Eh. change (br_next b1) with (br_next b) in En.
    assert (Ecl : clat_of b1 ac = ac_clatV6 x0) by (unfold clat_of, b1; cbn; by rewrite Hh, lookup_insert_eq).
    split; try done.
    + intros k i. rewrite (Hlk Ecl), (rf_keys _ _ _ _ _ Href). split.
      * intros [(a & Ha & Hk) Hne]. exists a. rewrite lookup_delete_ne; [done|]. intros <-. congruence.
      * intros (a & [Hne Ha]%lookup_delete_Some & Hk). split; [eauto|]. by apply (Hac a).
    + intros a a' i [Hne Ha]%lookup_delete_Some [Hne' Ha']%lookup_delete_Some. by apply (rf_inj _ _ _ _ _ Href a a' i).
    + intros a Ha. destruct (decide (inner_of x = a)) as [<-|Hne]; [apply lookup_delete_eq|].
      rewrite lookup_delete_ne in Ha by done. rewrite lookup_delete_ne by done. by apply (rf_none _ _ _ _ _ Href).
    + intros a i [Hne Ha]%lookup_delete_Some. destruct (rf_some _ _ _ _ _ Href _ _ Ha) as (y & Ey & [H1 H2 H3 H4 H5 H6]).
      exists y. rewrite Eh, lookup_insert_ne by (intros <-; by apply (Hac _ _ Hne Ha)). split; [done|].
      split; try done. by rewrite lookup_delete_ne.
    + intros i y. rewrite Eh, En. intros [[<- <-]|[Hne Hy]]%lookup_insert_Some.
      * split; [apply (rf_heap _ _ _ _ _ Href _ _ Ex)|]. by right.
      * apply (rf_heap _ _ _ _ _ Href) in Hy as [Hi Hy]. split; [done|]. destruct Hy as [[a Ha]|]; [left|by right].
        exists a. rewrite lookup_delete_ne; [done|]. intros <-. congruence.
    + intros i y t. rewrite Eh. apply Hpump.
  - exists A. assert (Hput : put_route r (inner_of x) (ac_cstp (f x0), ac_dtls (f x0)) = <[inner_of x := (ac_cstp (f x0), ac_dtls (f x0))]> r).
    { unfold put_route. destruct (ac_cstp (f x0)), (ac_dtls (f x0)); try done. by destruct D. }
    rewrite Hput. split; try done; unfold b1; cbn [set_heap br_clients br_heap br_next]; rewrite ?Hh.
    + apply (rf_keys _ _ _ _ _ Href).
    + apply (rf_inj _ _ _ _ _ Href).
    + intros a Ha. rewrite lookup_insert_ne by (intros <-; congruence). by apply (rf_none _ _ _ _ _ Href).
    + intros a i Ha. destruct (decide (inner_of x = a)) as [<-|Hne].
      * assert (i = ac) as -> by congruence. exists (f x0). rewrite lookup_insert_eq. split; [done|]. destruct Hcr as [H1 H2 H3 H4 H5 H6]. split.
        -- by rewrite lookup_insert_eq.
        -- destruct (ac_cstp (f x0)); [by left|]. destruct (ac_dtls (f x0)); [by right|]. by destruct D.
        -- auto.
        -- auto.
        -- by rewrite Hf1, Hf2.
        -- by rewrite Hf2.
      * destruct (rf_some _ _ _ _ _ Href _ _ Ha) as (y & Ey & [H1 H2 H3 H4 H5 H6]).
        exists y. rewrite lookup_insert_ne by (intros <-; by apply (Hac _ _ Hne Ha)). split; [done|].
        split; try done. by rewrite lookup_insert_ne.
    + intros i y [[<- <-]|[Hne Hy]]%lookup_insert_Some.
      * split; [apply (rf_heap _ _ _ _ _ Href _ _ Ex)|]. left. eauto.
      * by apply (rf_heap _ _ _ _ _ Href) in Hy.
    + apply Hpump.
Qed.

(** Clearing a transport the client does not have changes nothing. *)
Lemma detach_noop a ac f :
  (forall x0, br_heap b !! ac = Some x0 -> f x0 = x0) ->
  let b1 := set_heap b (alter f ac (br_heap b)) in
  core (if is_empty b1 ac then deregisterKeys b1 ac a else b1) = core b.
Proof.
  intros Hf b1.
  assert (Hh : alter f ac (br_heap b) = br_heap b).
  { apply map_eq. intros i. rewrite lookup_alter. case_decide as D; [destruct D|done].
    destruct (br_heap b !! ac) as [x0|] eqn:E; [|done]. cbn. by rewrite (Hf x0). }
  assert (H1 : core b1 = core b) by (unfold core, b1; cbn; by rewrite Hh).
  destruct (is_empty b1 ac) eqn:Ee; [|done].
  assert (Ho : forall i, A !! i <> Some ac).
  { intros i Hi. destruct (rf_some _ _ _ _ _ Href _ _ Hi) as (x & Ex & Hcr).
    unfold is_empty, b1 in Ee. cbn in Ee. rewrite Hh, Ex in Ee. apply bool_decide_eq_true in Ee as [E1 E2].
    destruct (cr_live _ _ _ Hcr); done. }
  assert (Hcad : forall b2 k, core b2 = core b -> core (compareAndDelete b2 k ac) = core b).
  { intros b2 k E. unfold compareAndDelete. case_bool_decide as D; [|done]. exfalso. injection E as E _ _. rewrite E in D.
    by apply (orphan_no_key ac k). }
  unfold deregisterKeys. case_match; auto.
Qed.
End with_state.

Lemma put_route_live r a c d : c <> None \/ d <> None -> put_route r a (c, d) = <[a := (c, d)]> r.
Proof. destruct c, d; try done. by intros []. Qed.

Lemma pump_fresh b pumps used r A t : refines b pumps used r A -> t ∉ used -> pumps !! t = None.
Proof.
  intros Href Ht. destruct (pumps !! t) as [i|] eqn:E; [|done]. by apply (rf_used _ _ _ _ _ Href) in E.
Qed.

Lemma connect_refines b pumps used r A t ac b' :
  refines b pumps used r A -> t ∉ used -> pumpTunnel_start tunnels b t = (ac, b') ->
  exists A', refines b' (<[t := ac]> pumps) (t :: used) (spec_op r (OpConnect t)) A'.
Proof.
  intros Href Ht. unfold pumpTunnel_start. destruct (loadOrCreateClient b (tunnel_inner t)) as [ac0 b1] eqn:El.
  intros [= <- <-]. pose proof (pump_fresh _ _ _ _ _ _ Href Ht) as Hfr.
  set (f := fun a => mkClient (Some t) None (ac_xlat a) (ac_clatV6 a)).
  exists (<[tunnel_inner t := ac0]> A).
  apply (refines_core (installCLAT (set_heap b1 (alter f ac0 (br_heap b1))) ac0 (tunnel_inner t) (tunnel_clat tunnels t))).
  { apply installCLAT_core, cstp_attach_core. }
  apply (attach_refines b pumps used r A Href (cstpTransport t) f _ _ _ ac0 b1); [done|exact El| | | |].
  - intros x0 _. cbn [spec_op ac_cstp ac_dtls f]. rewrite put_route_live by (by left). split_and!; [done|by left| |done].
    intros t' [= <-]. right. rewrite lookup_insert_eq. split_and!; [done|done|by left].
  - intros t' i Hi. rewrite lookup_insert_ne; [done|]. intros <-. congruence.
  - intros t' H. by right.
  - intros t' i [[<- <-]|[Hne Hi]]%lookup_insert_Some; [by left|right]. by apply (rf_used _ _ _ _ _ Href t' i).
Qed.

Lemma admit_refines b pumps used r A s :
  refines b pumps used r A -> exists A', refines (OnAdmit sessions b s) pumps used (spec_op r (OpAdmit s)) A'.
Proof.
  intros Href. unfold OnAdmit. destruct (loadOrCreateClient b (session_inner s)) as [ac b1] eqn:El.
  set (f := fun a => mkClient (ac_cstp a) (Some s) (ac_xlat a) (ac_clatV6 a)).
  exists (<[session_inner s := ac]> A).
  apply (attach_refines b pumps used r A Href (dtlsTransport s) f _ _ _ ac b1); [done|exact El| |done|done|].
  - intros x0 Hr. cbn [spec_op]. change (session_inner s) with (inner_of (dtlsTransport s)). rewrite Hr. cbn [fst ac_cstp ac_dtls f].
    rewrite put_route_live by (by right). split_and!; [done|by right|by left|]. intros s' [= <-]. by right.
  - apply (rf_used _ _ _ _ _ Href).
Qed.

(** A pump that its address's routes do not name. *)
Lemma spec_other b pumps used r A t ac :
  refines b pumps used r A -> pumps !! t = Some ac -> (br_heap b !! ac ≫= ac_cstp) <> Some t -> spec_op r (OpDisconnect t) = r.
Proof.
  intros Href Hp Hne. cbn [spec_op]. destruct (route r (tunnel_inner t)) as [c d] eqn:E.
  case_bool_decide as D; [|done]. subst c. exfalso. apply Hne. unfold route in E.
  destruct (A !! tunnel_inner t) as [i|] eqn:EA; [|by rewrite (rf_none _ _ _ _ _ Href _ EA) in E].
  destruct (rf_some _ _ _ _ _ Href _ _ EA) as (x & Ex & Hcr). rewrite (cr_route _ _ _ Hcr) in E. injection E as Ec _.
  destruct (rf_pump _ _ _ _ _ Href _ _ _ Ex Ec) as [Hi _]. assert (i = ac) as -> by congruence. by rewrite Ex.
Qed.
Lemma pumps_deleted b pumps used r A t ac :
  pumps !! t = Some ac -> (br_heap b !! ac ≫= ac_cstp) <> Some t -> refines b pumps used r A ->
  refines b (delete t pumps) used r A.
Proof.
  intros Hp Hne [H1 H2 H3 H4 H5 H6 H7]. split; try done.
  - intros i x t' Hx Ht. destruct (H6 i x t' Hx Ht) as [Hi Hu]. split; [|done]. rewrite lookup_delete_ne; [done|].
    intros <-. apply Hne. assert (i = ac) as -> by congruence. by rewrite Hx.
  - intros t' i [_ Hi]%lookup_delete_Some. by apply (H7 t' i).
Qed.

Lemma disconnect_refines b pumps used r A t ac :
  refines b pumps used r A -> pumps !! t = Some ac ->
  exists A', refines (pumpTunnel_exit tunnels b t ac) (delete t pumps) used (spec_op r (OpDisconnect t)) A'.
Proof.
  intros Href Hp. unfold pumpTunnel_exit, cstp_detach.
  set (f := fun a => if bool_decide (ac_cstp a = Some t) then mkClient None (ac_dtls a) (ac_xlat a) (ac_clatV6 a) else a).
  set (b1 := set_heap b (alter f ac (br_heap b))).
  assert (Hcore : forall b0, core (close_tunnel b0 t) = core b0) by done.
  destruct (br_heap b !! ac) as [x0|] eqn:Ex; [destruct (decide (ac_cstp x0 = Some t)) as [Ht|Ht]|].
  - destruct (rf_heap _ _ _ _ _ Href _ _ Ex) as [_ [[a EA]|[E _]]]; [|congruence].
    destruct (rf_some _ _ _ _ _ Href _ _ EA) as (x0' & Ex' & Hcr). rewrite Ex in Ex'. injection Ex' as <-.
    pose proof (cr_cstp _ _ _ Hcr t Ht) as <-.
    assert (Hfx : f x0 = mkClient None (ac_dtls x0) (ac_xlat x0) (ac_clatV6 x0)) by (unfold f; by rewrite bool_decide_eq_true_2).
    destruct (detach_refines b pumps used r A Href (cstpTransport t) ac x0 f (delete t pumps)) as [A' HA'].
    + intros y. unfold f. by case_bool_decide.
    + exact EA.
    + exact Ex.
    + by rewrite Hfx.
    + by rewrite Hfx.
    + intros i y t' Hy Hy' Hct Hi. rewrite lookup_delete_ne; [done|]. intros <-.
      assert (i = ac) as -> by congruence. by rewrite (Hy eq_refl), Hfx in Hct.
    + intros t' i [_ Hi]%lookup_delete_Some. done.
    + exists A'. eapply refines_core; [apply Hcore|]. cbn [spec_op]. unfold route. rewrite (cr_route _ _ _ Hcr). cbn [from_option id].
      rewrite bool_decide_eq_true_2 by done. rewrite Hfx in HA'. exact HA'.
  - assert (Hne : (br_heap b !! ac ≫= ac_cstp) <> Some t) by by rewrite Ex.
    exists A. rewrite (spec_other _ _ _ _ _ _ _ Href Hp Hne).
    apply (refines_core b); [|by apply (pumps_deleted _ _ _ _ _ _ ac)]. rewrite Hcore. apply (detach_noop b pumps used r A Href).
    intros y Hy. rewrite Ex in Hy. injection Hy as <-. unfold f. by rewrite bool_decide_eq_false_2.
  - assert (Hne : (br_heap b !! ac ≫= ac_cstp) <> Some t) by by rewrite Ex.
    exists A. rewrite (spec_other _ _ _ _ _ _ _ Href Hp Hne).
    apply (refines_core b); [|by apply (pumps_deleted _ _ _ _ _ _ ac)]. rewrite Hcore. apply (detach_noop b pumps used r A Href). by rewrite Ex.
Qed.

Lemma evict_refines b pumps used r A s :
  refines b pumps used r A -> exists A', refines (OnEvict sessions b s) pumps used (spec_op r (OpEvict s)) A'.
Proof.
  intros Href. unfold OnEvict. pose proof (native_key b pumps used r A Href (dtlsTransport s)) as Hk.
  change (inner_of (dtlsTransport s)) with (session_inner s) in Hk. rewrite Hk.
  destruct (A !! session_inner s) as [ac|] eqn:EA.
  2: { exists A. cbn [spec_op]. unfold route. by rewrite (rf_none _ _ _ _ _ Href _ EA). }
  destruct (rf_some _ _ _ _ _ Href _ _ EA) as (x0 & Ex & Hcr). unfold dtls_detach.
  set (f := fun a => if bool_decide (ac_dtls a = Some s) then mkClient (ac_cstp a) None (ac_xlat a) (ac_clatV6 a) else a).
  cbn [spec_op]. unfold route. rewrite (cr_route _ _ _ Hcr). cbn [from_option id]. destruct (decide (ac_dtls x0 = Some s)) as [Hs|Hs].
  - rewrite bool_decide_eq_true_2 by done.
    assert (Hfx : f x0 = mkClient (ac_cstp x0) None (ac_xlat x0) (ac_clatV6 x0)) by (unfold f; by rewrite bool_decide_eq_true_2).
    destruct (detach_refines b pumps used r A Href (dtlsTransport s) ac x0 f pumps) as [A' HA'];
      [intros y; unfold f; by case_bool_decide|exact EA|exact Ex|by rewrite Hfx|by rewrite Hfx|done|done|].
    rewrite Hfx in HA'. by exists A'.
  - rewrite bool_decide_eq_false_2 by done. exists A. eapply refines_core; [|exact Href]. apply (detach_noop b pumps used r A Href).
    intros y Hy. rewrite Ex in Hy. injection Hy as <-. unfold f. by rewrite bool_decide_eq_false_2.
Qed.

Lemma seq_run_refines b pumps used r : seq_run b pumps used r -> exists A, refines b pumps used r A.
Proof.
  induction 1 as [|b pumps used r t ac b' _ [A IH] Ht Hs|b pumps used r t ac _ [A IH] Hp|b pumps used r s _ [A IH]|b pumps used r s _ [A IH]].
  - exists ∅. split; try done. intros k ac. cbn [newBridge br_clients]. split; [done|]. by intros (a & Ha & _).
  - by eapply connect_refines.
  - by eapply disconnect_refines.
  - by eapply admit_refines.
  - by eapply evict_refines.
Qed.

(** C8: The registry implements the table of routes: after any sequence of
    connects, disconnects, admissions and evictions, a device's native and CLAT
    key lead to the transport the table prefers - the DTLS session, else the
    CSTP tunnel, else none -, the CLAT key to a client with a translator; and no
    key leads to a client without a transport. *)
Theorem routing_refines b pumps used r (Hrun : seq_run b pumps used r) :
  (forall x, (br_clients b !! inner_of x ≫= chooseTransport b) = spec_choose (route r (inner_of x)))
  /\ (forall x, IsValid (clat_addr x) = true ->
        (br_clients b !! clat_addr x ≫= chooseTransport b) = spec_choose (route r (inner_of x))
        /\ (forall ac, br_clients b !! clat_addr x = Some ac -> is_Some (translator b ac)))
  /\ (forall k ac, br_clients b !! k = Some ac -> is_Some (chooseTransport b ac)).
Proof.
  destruct (seq_run_refines _ _ _ _ Hrun) as [A Href].
  assert (Hch : forall a, (A !! a ≫= chooseTransport b) = spec_choose (route r a)).
  { intros a. destruct (A !! a) as [ac|] eqn:EA; cbn; unfold route.
    - destruct (rf_some _ _ _ _ _ Href _ _ EA) as (y & Ey & Hcr). unfold chooseTransport. rewrite Ey, (cr_route _ _ _ Hcr). done.
    - by rewrite (rf_none _ _ _ _ _ Href _ EA). }
  split_and!.
  - intros x. rewrite (native_key _ _ _ _ _ Href). apply Hch.
  - intros x Hv. rewrite (clat_key _ _ _ _ _ Href) by done. split; [apply Hch|]. intros ac EA.
    destruct (rf_some _ _ _ _ _ Href _ _ EA) as (y & Ey & Hcr). unfold translator. rewrite Ey. by apply (cr_clat _ _ _ Hcr x).
  - intros k ac Hk. apply (rf_keys _ _ _ _ _ Href) in Hk as (a & Ha & _).
    destruct (rf_some _ _ _ _ _ Href _ _ Ha) as (y & Ey & Hcr). unfold chooseTransport. rewrite Ey. cbn. unfold choose.
    pose proof (cr_live _ _ _ Hcr) as Hl. destruct (ac_dtls y); [done|]. destruct (ac_cstp y); [done|]. by destruct Hl.
Qed.
End proofs.
End refine.

(** * A teardown that another handler overtakes *)

Section race.
Context (tunnels : nat -> CstpConfig.Identity) (sessions : nat -> SessionIdent).

Lemma run_at b ths1 th ths2 b' th' :
  br_steps tunnels sessions (b, ths1 ++ th :: ths2) -> thread_step tunnels sessions b th = (b', th') ->
  br_steps tunnels sessions (b', ths1 ++ option_list th' ++ ths2).
Proof. intros Hs He. eapply brs_step; [exact Hs|]. by apply bs_run. Qed.

(** The bridge with one client. *)
Definition one_client (keys : gmap Addr nat) (a : activeClient) (closed : list nat) : bridge :=
  mkBridge keys (<[0%nat := a]> ∅) 1 closed 0.
Ltac one_step :=
  unfold thread_step, loadOrCreateClient, cstp_attach, dtls_attach, cstp_detach, install_xlat, store_clat, compareAndDelete,
    is_empty, clat_of, set_heap, set_clients, close_tunnel, one_client; cbn [br_clients br_heap br_next br_closedTunnels br_rrCounter newBridge];
  repeat (progress (rewrite ?alter_insert_eq, ?lookup_insert_eq; cbn)).

(** C38: A teardown can take a live transport's keys: when a device's DTLS
    session is admitted after its tunnel's exit found the client empty and
    before the exit deletes the keys, every handler ends with the session
    attached to a client that no key leads to. Every packet from the TUN is then
    dropped, and the session's own packets enter the TUN untranslated. *)
Theorem teardown_race `{GH : GvisorHeader} `{S : !SIIT} `{GvisorIcmp} t s
    (Hdev : tunnel_inner tunnels t = session_inner sessions s /\ tunnel_clat tunnels t = session_clat sessions s)
    (Hclat : clat_wanted (tunnel_inner tunnels t) (tunnel_clat tunnels t) = true /\ Is6 (tunnel_clat tunnels t) = true) :
  exists b ac a, br_steps tunnels sessions (b, []) /\ br_heap b !! ac = Some a /\ ac_dtls a = Some s /\ is_Some (ac_xlat a)
    /\ (forall counter pkt, pumpTunQueue_packet b counter pkt = Some (EgNone, counter))
    /\ (forall c nq qw p, (0 < nq)%nat ->
          WritePacketFromSession sessions b c nq qw s p = Some (Some ((next_queue c nq).1, p), qw p, (next_queue c nq).2)).
Proof.
  destruct Hdev as [Hi Hk], Hclat as [Hw H6]. destruct (New_v6 _ H6) as [tr Htr].
  set (a := tunnel_inner tunnels t) in *. set (k := tunnel_clat tunnels t) in *.
  assert (Hak : k <> a).
  { unfold clat_wanted in Hw. apply andb_true_iff in Hw as [_ Hw]. by apply negb_true_iff, bool_decide_eq_false in Hw. }
  set (B := one_client). set (M1 := <[a := 0%nat]> (∅ : gmap Addr nat)). set (M2 := <[k := 0%nat]> M1).
  set (c1 := mkClient (Some t) None None AddrNone). set (c2 := mkClient (Some t) None (Some tr) k).
  set (c3 := mkClient None None (Some tr) k). set (c4 := mkClient None (Some s) (Some tr) k).
  assert (HM1k : M1 !! k = None) by (unfold M1; by rewrite lookup_insert_ne).
  assert (HM2a : M2 !! a = Some 0%nat) by (unfold M2, M1; rewrite lookup_insert_ne by done; apply lookup_insert_eq).
  assert (HM2k : M2 !! k = Some 0%nat) by (unfold M2; apply lookup_insert_eq).
  pose proof (brs_step tunnels sessions _ _ (brs_start _ _) (bs_accept _ _ _ _ t)) as R.
  eapply (run_at _ [] _ [] (B M1 (mkClient None None None AddrNone) []) (Some (PumpLoaded t 0))) in R; [|by one_step].
  eapply (run_at _ [] _ [] (B M1 c1 []) (Some (PumpAttached t 0))) in R; [|one_step; fold a k; by rewrite Hw].
  eapply (run_at _ [] _ [] (B M1 c2 []) (Some (PumpXlat t 0))) in R; [|one_step; fold k; by rewrite Htr].
  eapply (run_at _ [] _ [] (B M2 c2 []) (Some (PumpRunning t 0))) in R; [|one_step; fold k; by rewrite HM1k].
  eapply (run_at _ [] _ [] (B M2 c3 []) (Some (PumpDetached t 0))) in R; [|one_step; by rewrite bool_decide_eq_true_2].
  pose proof (brs_step tunnels sessions _ _ R (bs_admit _ _ _ _ s)) as R1.
  eapply (run_at _ [] _ [PumpDetached t 0] (B M2 c3 []) (Some (AdmitLoaded s 0))) in R1; [|one_step; by rewrite <- Hi, HM2a].
  eapply (run_at _ [] _ [PumpDetached t 0] (B M2 c4 []) (Some (AdmitAttached s 0))) in R1; [|one_step; by rewrite <- Hi, <- Hk, Hw].
  eapply (run_at _ [] _ [PumpDetached t 0] (B M2 c4 []) (Some (AdmitXlat s 0))) in R1; [|by one_step].
  eapply (run_at _ [] _ [PumpDetached t 0] (B M2 c4 []) None) in R1; [|one_step; by rewrite <- Hk, HM2k].
  eapply (run_at _ [] _ [] (B (delete a M2) c4 []) (Some (PumpDereg t 0 k))) in R1.
  2: { one_step. fold a. rewrite bool_decide_eq_true_2 by done. cbn. rewrite lookup_insert_eq. cbn. by rewrite Hw. }
  assert (Hdel : delete k (delete a M2) = ∅).
  { unfold M2, M1. apply map_empty. intros i. destruct (decide (i = k)) as [->|]; [apply lookup_delete_eq|].
    rewrite lookup_delete_ne by done. destruct (decide (i = a)) as [->|]; [apply lookup_delete_eq|].
    rewrite lookup_delete_ne by done. by rewrite !lookup_insert_ne. }
  eapply (run_at _ [] _ [] (B ∅ c4 []) (Some (PumpClosing t))) in R1.
  2: { one_step. rewrite bool_decide_eq_true_2; [by rewrite Hdel|]. by rewrite lookup_delete_ne. }
  eapply (run_at _ [] _ [] (B ∅ c4 [t]) None) in R1; [|by one_step].
  exists (B ∅ c4 [t]), 0%nat, c4. split_and!; [exact R1|apply lookup_insert_eq|done|done| |].
  - intros counter pkt. unfold pumpTunQueue_packet. destruct (_ || _)%bool; [done|].
    destruct (AddrFromSlice _) as [d|]; [|done]. change (br_clients (B ∅ c4 [t])) with (∅ : gmap Addr nat). by rewrite lookup_empty.
  - intros c nq qw p Hn. unfold WritePacketFromSession.
    change (br_clients (B ∅ c4 [t])) with (∅ : gmap Addr nat). rewrite lookup_empty. cbn [mbind option_bind]. unfold sink_WritePacket.
    destruct (nq =? 0)%nat eqn:E; [simpl_bool; lia|]. by destruct (next_queue c nq).
Qed.
End race.

(** * Witnesses *)

(** Device 1 connects, gains a DTLS session and loses its tunnel. *)
Lemma routing_refines_witness :
  exists b pumps used r, seq_run tunnels_sample sessions_sample b pumps used r
  /\ r = {[native_sample 0 := (None, Some 0%nat)]}
  /\ (br_clients b !! clat_sample ≫= chooseTransport b) = Some (dtlsTransport 0).
Proof.
  pose proof (sq_connect tunnels_sample sessions_sample newBridge ∅ [] ∅ 0 _ _ (sq_new _ _) (not_elem_of_nil _) eq_refl) as R.
  apply (sq_admit _ _ _ _ _ _ 0) in R.
  eapply (sq_disconnect _ _ _ _ _ _ 0 0) in R; [|reflexivity].
  do 4 eexists. split; [exact R|].
  pose proof (routing_refines tunnels_sample sessions_sample assignment_sample _ _ _ _ R) as (_ & H & _).
  destruct (H (cstpTransport 0) eq_refl) as [H' _].
  split; [reflexivity|]. change clat_sample with (clat_addr tunnels_sample sessions_sample (cstpTransport 0)).
  rewrite H'. reflexivity.
Defined.

Lemma teardown_race_witness :
  exists b ac a, br_steps tunnels_sample sessions_sample (b, []) /\ br_heap b !! ac = Some a /\ ac_dtls a = Some 0%nat
  /\ (forall counter pkt, @pumpTunQueue_packet header_sample siit gvisor_icmp_sample b counter pkt = Some (EgNone, counter))
  /\ @WritePacketFromSession sessions_sample header_sample siit b 0 1 (fun p => Ok (length p)) 0 v4_sample
     = Some (Some (0%nat, v4_sample), Ok 28%nat, 1).
Proof.
  destruct (@teardown_race tunnels_sample sessions_sample header_sample siit gvisor_icmp_sample 0 0) as (b & ac & a & H1 & H2 & H3 & _ & H5 & H6).
  - split; reflexivity.
  - split; reflexivity.
  - exists b, ac, a. split_and!; [exact H1|exact H2|exact H3|exact H5|]. rewrite H6; [reflexivity|lia].
Defined.
