(* ===== verification/Netlink.v ===== *)
(** The rtnetlink client of [internal/tun/netlink_linux.go]: the messages it
    builds, the walk over the kernel's answers and the request/answer exchange.
    The kernel is a function of the calls made so far, so the theorems hold for
    any behaviour of it; the byte order is the machine's, either one. *)

From S2P Require Import Prelude Netip.

(** * Machine byte order *)

(** [binary.NativeEndian], which is also the order of the fields of a C struct. *)
Class ByteOrder := big_endian : bool.
Definition native `{ByteOrder} (l : bytes) : bytes := if big_endian then reverse l else l.
Definition native_put `{ByteOrder} (m v : Z) : bytes := native (Z_to_little_endian m 8 v).
Definition native_get `{ByteOrder} (l : bytes) : Z := little_endian_to_Z 8 (native l).

(** [int32(v)] of a [uint32], and [uintptr(v)] of an [int32]. *)
Definition i32 (v : Z) : Z := (v + 2 ^ 31) mod 2 ^ 32 - 2 ^ 31.
Definition u64 (v : Z) : Z := v mod 2 ^ 64.

(** * Structs and constants of [golang.org/x/sys/unix] *)

Definition SizeofNlMsghdr : nat := 16.
Definition SizeofIfInfomsg : nat := 16.
Definition SizeofIfAddrmsg : nat := 8.
Definition SizeofRtAttr : nat := 4.
Definition NLMSG_ERROR : Z := 2.
Definition NLMSG_DONE : Z := 3.
Definition RTM_NEWLINK : Z := 16.
Definition RTM_GETLINK : Z := 18.
Definition RTM_NEWADDR : Z := 20.
Definition NLM_F_REQUEST : Z := 1.
Definition NLM_F_ACK : Z := 4.
Definition NLM_F_EXCL : Z := 0x200.
Definition NLM_F_CREATE : Z := 0x400.
Definition IFLA_IFNAME : Z := 3.
Definition IFLA_MTU : Z := 4.
Definition IFA_ADDRESS : Z := 1.
Definition IFA_LOCAL : Z := 2.
Definition AF_UNSPEC : Z := 0.
Definition AF_INET : Z := 2.
Definition AF_INET6 : Z := 10.
Definition IFF_UP : Z := 1.
Definition RT_SCOPE_UNIVERSE : Z := 0.
Definition EINTR : Z := 4.
Definition EBADF : Z := 9.
Definition EEXIST : Z := 17.

Record NlMsghdr := mkHdr { h_Len : Z; h_Type : Z; h_Flags : Z; h_Seq : Z; h_Pid : Z }.
Record IfInfomsg := mkIfInfo { i_Family : Z; i_Type : Z; i_Index : Z; i_Flags : Z; i_Change : Z }.
Record IfAddrmsg := mkIfAddr { a_Family : Z; a_Prefixlen : Z; a_Flags : Z; a_Scope : Z; a_Index : Z }.
Record netlinkMsg := mkMsg { m_Header : NlMsghdr; m_Data : bytes }.

(** The errors of the client. [OsErr] is an [os.PathError] over an errno,
    [KernelErr] the errno the kernel answered. *)
Inductive NlErr : Type :=
| OsErr (op : string) (e : Z)
| KernelErr (e : Z)
| MalformedMessage (len remaining : Z)
| ShortError (n : Z)
| ShortNewLink (n : Z)
| NoNewLink (name : bytes).

(** [errors.As(err, &errno)] *)
Definition asSyscallErrno (err : NlErr) : option Z :=
  match err with OsErr _ e => Some e | KernelErr e => Some e | _ => None end.

(** * Calls that panic, or wait for the kernel *)

Inductive outcome (A : Type) : Type := Ret (a : A) | Panicked | Unfinished.
Arguments Ret {A} a.
Arguments Panicked {A}.
Arguments Unfinished {A}.

(** * Messages *)

Section wire.
Context `{ByteOrder}.

(** [asBytes(&info, SizeofIfInfomsg)] and its kind: the fields in order, the
    padding byte of [IfInfomsg] zero. *)
Definition hdr_bytes (h : NlMsghdr) : bytes :=
  native_put 4 (h_Len h) ++ native_put 2 (h_Type h) ++ native_put 2 (h_Flags h) ++ native_put 4 (h_Seq h) ++ native_put 4 (h_Pid h).
Definition ifinfo_bytes (i : IfInfomsg) : bytes :=
  native_put 1 (i_Family i) ++ [0] ++ native_put 2 (i_Type i) ++ native_put 4 (i_Index i) ++ native_put 4 (i_Flags i) ++ native_put 4 (i_Change i).
Definition ifaddr_bytes (a : IfAddrmsg) : bytes :=
  native_put 1 (a_Family a) ++ native_put 1 (a_Prefixlen a) ++ native_put 1 (a_Flags a) ++ native_put 1 (a_Scope a) ++ native_put 4 (a_Index a).

(** The [unix.NlMsghdr] that lies at [&buf[0]]. *)
Definition read_hdr (buf : bytes) : NlMsghdr :=
  mkHdr (native_get (slice buf 0 4)) (native_get (slice buf 4 6)) (native_get (slice buf 6 8)) (native_get (slice buf 8 12)) (native_get (slice buf 12 16)).
(** [Index] of the [unix.IfInfomsg] that lies at [&r.Data[0]]. *)
Definition read_index (data : bytes) : Z := i32 (native_get (slice data 4 8)).

Definition nlmAlign (n : nat) : nat := Z.to_nat (Z.ldiff (Z.of_nat n + 3) 3).

(** [for len(body)%4 != 0 { body = append(body, 0) }]: at most three rounds. *)
Fixpoint pad4 (fuel : nat) (body : bytes) : bytes :=
  match fuel with
  | O => body
  | S f => if (length body mod 4 =? 0)%nat then body else pad4 f (body ++ [0])
  end.

Definition appendAttr (body : bytes) (typ : Z) (value : bytes) : bytes :=
  let attrLen := Z.of_nat (SizeofRtAttr + length value) in
  pad4 3 (body ++ native_put 2 (u16 attrLen) ++ native_put 2 typ ++ value).

(** [Len] is cut to 32 bits; the callers' bodies are below 100 bytes. *)
Definition encodeNetlinkMsg (hdr : NlMsghdr) (body : bytes) : bytes :=
  let len := u32 (Z.of_nat (SizeofNlMsghdr + length body)) in
  let total := nlmAlign (Z.to_nat len) in
  hdr_bytes (mkHdr len (h_Type hdr) (h_Flags hdr) (h_Seq hdr) (h_Pid hdr))
    ++ take (total - SizeofNlMsghdr) (body ++ repeat 0 (total - SizeofNlMsghdr - length body)).

(** ** The walk over a receive buffer *)

(** What a message of the expected sequence does to the walk. *)
Inductive verdict : Type := Finish (r : result NlErr bool) | Collect.
Definition judge (hdr : NlMsghdr) (body : bytes) : verdict :=
  if h_Type hdr =? NLMSG_DONE then Finish (Ok true)
  else if h_Type hdr =? NLMSG_ERROR then
    if (length body <? 4)%nat then Finish (Err (ShortError (Z.of_nat (length body))))
    else
      let ec := i32 (native_get (slice body 0 4)) in
      if ec =? 0 then Finish (Ok true) else Finish (Err (KernelErr (u64 (i32 (- ec)))))
  else Collect.

(** [buf = buf[low:]], which panics beyond the end. *)
Definition advance (buf : bytes) (low : nat) : outcome bytes :=
  if (low <=? length buf)%nat then Ret (drop low buf) else Panicked.

Fixpoint parse_loop (fuel : nat) (buf : bytes) (expectSeq : Z) (out : list netlinkMsg)
    : outcome (result NlErr (bool * list netlinkMsg)) :=
  match fuel with
  | O => Unfinished
  | S f =>
    if (length buf <? SizeofNlMsghdr)%nat then Ret (Ok (false, out))
    else
      let hdr := read_hdr buf in
      let len := Z.to_nat (h_Len hdr) in
      if ((len <? SizeofNlMsghdr) || (length buf <? len))%nat
      then Ret (Err (MalformedMessage (h_Len hdr) (Z.of_nat (length buf))))
      else
        let body := slice buf SizeofNlMsghdr len in
        let continue out :=
          match advance buf (nlmAlign len) with
          | Ret rest => parse_loop f rest expectSeq out
          | Panicked => Panicked | Unfinished => Unfinished
          end in
        if negb (h_Seq hdr =? expectSeq) then continue out
        else match judge hdr body with
             | Finish (Ok d) => Ret (Ok (d, out))
             | Finish (Err e) => Ret (Err e)
             | Collect => continue (out ++ [mkMsg hdr body])
             end
  end.

(** Each message takes at least sixteen bytes. *)
Definition parseNetlinkMsgs (buf : bytes) (expectSeq : Z) : outcome (result NlErr (bool * list netlinkMsg)) :=
  parse_loop (S (length buf)) buf expectSeq [].

(** ** Lemmas *)

Lemma length_native l : length (native l) = length l.
Proof. unfold native. destruct big_endian; [apply length_reverse|done]. Qed.
Lemma native_involutive l : native (native l) = l.
Proof. unfold native. destruct big_endian; [apply reverse_involutive|done]. Qed.
Lemma length_native_put m v : 0 <= m -> length (native_put m v) = Z.to_nat m.
Proof. intros. unfold native_put. rewrite length_native. pose proof (length_Z_to_little_endian m 8 v). lia. Qed.
Lemma native_get_put m v : 0 <= m -> native_get (native_put m v) = v mod 2 ^ (m * 8).
Proof. intros. unfold native_get, native_put. rewrite native_involutive. apply little_endian_to_Z_to_little_endian; lia. Qed.
Lemma native_get_small m v : 0 <= m -> 0 <= v < 2 ^ (m * 8) -> native_get (native_put m v) = v.
Proof. intros. rewrite native_get_put by done. by apply Z.mod_small. Qed.

Lemma length_hdr_bytes h : length (hdr_bytes h) = SizeofNlMsghdr.
Proof. unfold hdr_bytes. by rewrite !length_app, !length_native_put by lia. Qed.
Lemma length_ifinfo_bytes i : length (ifinfo_bytes i) = SizeofIfInfomsg.
Proof. unfold ifinfo_bytes. by rewrite !length_app, !length_native_put by lia. Qed.
Lemma length_ifaddr_bytes a : length (ifaddr_bytes a) = SizeofIfAddrmsg.
Proof. unfold ifaddr_bytes. by rewrite !length_app, !length_native_put by lia. Qed.

Record hdr_ok (h : NlMsghdr) : Prop := {
  ho_Len : 0 <= h_Len h < 2 ^ 32;
  ho_Type : 0 <= h_Type h < 2 ^ 16;
  ho_Flags : 0 <= h_Flags h < 2 ^ 16;
  ho_Seq : 0 <= h_Seq h < 2 ^ 32;
  ho_Pid : 0 <= h_Pid h < 2 ^ 32 }.

Lemma read_hdr_bytes h rest : hdr_ok h -> read_hdr (hdr_bytes h ++ rest) = h.
Proof.
  intros [? ? ? ? ?]. unfold read_hdr, hdr_bytes. rewrite <- !app_assoc.
  pose proof (length_native_put 4 (h_Len h) ltac:(lia)) as L1. pose proof (length_native_put 2 (h_Type h) ltac:(lia)) as L2.
  pose proof (length_native_put 2 (h_Flags h) ltac:(lia)) as L3. pose proof (length_native_put 4 (h_Seq h) ltac:(lia)) as L4.
  pose proof (length_native_put 4 (h_Pid h) ltac:(lia)) as L5. change (Z.to_nat 4) with 4%nat in *. change (Z.to_nat 2) with 2%nat in *.
  unfold slice. rewrite drop_0. repeat (rewrite drop_app_ge by lia; rewrite ?L1, ?L2, ?L3, ?L4, ?L5; cbn [Nat.sub]; rewrite ?drop_0).
  rewrite !take_app_length' by lia. rewrite !native_get_small by lia. by destruct h.
Qed.

Lemma nlmAlign_spec n : (n <= nlmAlign n < n + 4 /\ nlmAlign n mod 4 = 0)%nat.
Proof.
  assert (E : nlmAlign n = (Z.to_nat ((Z.of_nat n + 3) / 4) * 4)%nat).
  { unfold nlmAlign. change (Z.ldiff (Z.of_nat n + 3) 3) with (Z.ldiff (Z.of_nat n + 3) (Z.ones 2)).
    rewrite Z.ldiff_ones_r, Z.shiftr_div_pow2, Z.shiftl_mul_pow2 by lia. change (2 ^ 2) with 4.
    pose proof (Z.div_pos (Z.of_nat n + 3) 4). lia. }
  rewrite E. pose proof (Z.div_pos (Z.of_nat n + 3) 4).
  split; [Z.to_euclidean_division_equations; lia|apply Nat.Div0.mod_mul].
Qed.
Lemma nlmAlign_aligned n : (n mod 4 = 0)%nat -> nlmAlign n = n.
Proof.
  intros Hn. destruct (nlmAlign_spec n) as [Hl Hm]. apply Nat.Div0.mod_divides in Hn as [a ->], Hm as [b Hb]. lia.
Qed.

(** The padding fills the last word with zeros. *)
Lemma pad4_spec body : pad4 3 body = body ++ repeat 0 (nlmAlign (length body) - length body).
Proof.
  destruct (nlmAlign_spec (length body)) as [Hl Hm].
  assert (G : forall k f, (k <= f)%nat -> forall b : bytes, ((length b + k) mod 4 = 0)%nat -> (k < 4)%nat -> pad4 f b = b ++ repeat 0 k).
  { induction k as [|k IH]; intros f Hf b Hb Hk; destruct f as [|f]; cbn [pad4 repeat]; rewrite ?app_nil_r; try lia; try done.
    - rewrite Nat.add_0_r in Hb. by rewrite Hb.
    - destruct (length b mod 4 =? 0)%nat eqn:E; simpl_bool.
      + exfalso. apply Nat.Div0.mod_divides in Hb as [c Hc], E as [d Hd]. lia.
      + rewrite IH by (rewrite ?length_app; cbn [length]; lia || (rewrite <- Hb; f_equal; lia)). by rewrite <- app_assoc. }
  apply G; [lia| |lia]. by replace (length body + _)%nat with (nlmAlign (length body)) by lia.
Qed.

(** An attribute as [RTA_LENGTH], its type, the value and zeros up to the next
    word. *)
Definition attr (typ : Z) (value : bytes) : bytes :=
  native_put 2 (Z.of_nat (SizeofRtAttr + length value)) ++ native_put 2 typ ++ value
    ++ repeat 0 (nlmAlign (length value) - length value).
Lemma appendAttr_spec body typ value :
  (length body mod 4 = 0)%nat -> Z.of_nat (SizeofRtAttr + length value) < 2 ^ 16 ->
  appendAttr body typ value = body ++ attr typ value.
Proof.
  intros Hb Hv. unfold appendAttr, attr. rewrite pad4_spec. unfold u16. rewrite Z.mod_small by lia. rewrite <- !app_assoc.
  do 5 f_equal. rewrite !length_app, !length_native_put by lia. change (Z.to_nat 2) with 2%nat.
  destruct (nlmAlign_spec (length value)) as [Hl Hm]. destruct (nlmAlign_spec (length body + (2 + (2 + length value)))) as [Hl' Hm'].
  apply Nat.Div0.mod_divides in Hb as [a Ha], Hm as [b Hm], Hm' as [c Hc]. lia.
Qed.
Lemma length_attr typ value : length (attr typ value) = (4 + nlmAlign (length value))%nat.
Proof. unfold attr. rewrite !length_app, !length_native_put, repeat_length by lia. pose proof (nlmAlign_spec (length value)). lia. Qed.

(** ** The format of [netlink(7)] and [rtnetlink(7)], byte by byte *)

Definition w16 (v : Z) : bytes :=
  let l := [v mod 256; v / 2 ^ 8 mod 256] in if big_endian then [v / 2 ^ 8 mod 256; v mod 256] else l.
Definition w32 (v : Z) : bytes :=
  if big_endian then [v / 2 ^ 24 mod 256; v / 2 ^ 16 mod 256; v / 2 ^ 8 mod 256; v mod 256]
  else [v mod 256; v / 2 ^ 8 mod 256; v / 2 ^ 16 mod 256; v / 2 ^ 24 mod 256].
Definition zeros (n : nat) : bytes := repeat 0 ((4 - n mod 4) mod 4).
(** A message: its length, type, flags, sequence and port, its body and zeros
    up to the next word. *)
Definition wire (h : NlMsghdr) (body : bytes) : bytes :=
  w32 (16 + Z.of_nat (length body)) ++ w16 (h_Type h) ++ w16 (h_Flags h) ++ w32 (h_Seq h) ++ w32 (h_Pid h)
    ++ body ++ zeros (length body).
(** An attribute: its length, type, the value and zeros. *)
Definition rtattr (typ : Z) (value : bytes) : bytes :=
  w16 (4 + Z.of_nat (length value)) ++ w16 typ ++ value ++ zeros (length value).

Lemma native_put_w32 v : native_put 4 v = w32 v.
Proof.
  unfold native_put, native, w32. change (Z_to_little_endian 4 8 v) with
    [Z.land v (Z.ones 8); Z.land (v ≫ 8) (Z.ones 8); Z.land ((v ≫ 8) ≫ 8) (Z.ones 8); Z.land (((v ≫ 8) ≫ 8) ≫ 8) (Z.ones 8)].
  rewrite !Z.shiftr_shiftr, !Z.land_ones, !Z.shiftr_div_pow2 by lia. by destruct big_endian.
Qed.
Lemma native_put_w16 v : native_put 2 v = w16 v.
Proof.
  unfold native_put, native, w16. change (Z_to_little_endian 2 8 v) with [Z.land v (Z.ones 8); Z.land (v ≫ 8) (Z.ones 8)].
  rewrite !Z.land_ones, !Z.shiftr_div_pow2 by lia. by destruct big_endian.
Qed.
Lemma zeros_align n : repeat 0 (nlmAlign n - n) = zeros n.
Proof.
  unfold zeros. f_equal. destruct (nlmAlign_spec n) as [Hl Hm]. apply Nat.Div0.mod_divides in Hm as [c Hc].
  pose proof (Nat.div_mod_eq n 4). pose proof (Nat.mod_upper_bound n 4 ltac:(lia)).
  destruct (decide (n mod 4 = 0)%nat) as [E|E]; [rewrite E, Nat.sub_0_r; change (4 mod 4)%nat with 0%nat; lia|].
  rewrite (Nat.mod_small (4 - n mod 4)) by lia. lia.
Qed.
Lemma attr_rtattr typ value : attr typ value = rtattr typ value.
Proof.
  unfold attr, rtattr. rewrite !native_put_w16, zeros_align. do 2 f_equal. unfold SizeofRtAttr. lia.
Qed.
Lemma w16_mod v : w16 (v mod 2 ^ 16) = w16 v.
Proof.
  assert (G : forall k, 0 <= k <= 8 -> (v mod 2 ^ 16) / 2 ^ k mod 256 = v / 2 ^ k mod 256).
  { intros k Hk. change 256 with (2 ^ 8). rewrite <- !Z.shiftr_div_pow2, <- !Z.land_ones by lia.
    apply Z.bits_inj'. intros i Hi. rewrite !Z.land_spec, !Z.shiftr_spec, Z.land_spec, !Z.testbit_ones_nonneg by lia.
    destruct (Z.ltb_spec i 8); [|by rewrite !andb_false_r]. by rewrite (proj2 (Z.ltb_lt (i + k) 16)) by lia; rewrite !andb_true_r. }
  unfold w16. rewrite (G 8) by lia. pose proof (G 0 ltac:(lia)) as G0. rewrite !Z.div_1_r in G0. by rewrite G0.
Qed.
Lemma length_w32 v : length (w32 v) = 4%nat.
Proof. unfold w32. by destruct big_endian. Qed.
Lemma w32_mod v : w32 (v mod 2 ^ 32) = w32 v.
Proof.
  assert (G : forall k, 0 <= k <= 24 -> (v mod 2 ^ 32) / 2 ^ k mod 256 = v / 2 ^ k mod 256).
  { intros k Hk. change 256 with (2 ^ 8). rewrite <- !Z.shiftr_div_pow2, <- !Z.land_ones by lia.
    apply Z.bits_inj'. intros i Hi. rewrite !Z.land_spec, !Z.shiftr_spec, Z.land_spec, !Z.testbit_ones_nonneg by lia.
    destruct (Z.ltb_spec i 8); [|by rewrite !andb_false_r]. by rewrite (proj2 (Z.ltb_lt (i + k) 32)) by lia; rewrite !andb_true_r. }
  unfold w32. rewrite !G by lia. pose proof (G 0 ltac:(lia)) as G0. rewrite !Z.div_1_r in G0. by rewrite G0.
Qed.

(** The numbers at the start of a buffer. *)
Definition r16 (l : bytes) (o : nat) : Z :=
  let b i := nth (o + i) l 0 in
  if big_endian then Z.lor (b 1%nat) (Z.shiftl (b 0%nat) 8) else Z.lor (b 0%nat) (Z.shiftl (b 1%nat) 8).
Definition r32 (l : bytes) (o : nat) : Z :=
  let word b0 b1 b2 b3 := Z.lor b0 (Z.shiftl (Z.lor b1 (Z.shiftl (Z.lor b2 (Z.shiftl b3 8)) 8)) 8) in
  let b i := nth (o + i) l 0 in
  if big_endian then word (b 3%nat) (b 2%nat) (b 1%nat) (b 0%nat) else word (b 0%nat) (b 1%nat) (b 2%nat) (b 3%nat).

Lemma native_get_r16 l o : (o + 2 <= length l)%nat -> native_get (slice l o (o + 2)) = r16 l o.
Proof.
  intros Hl. unfold r16, slice, native_get, native. rewrite <- !(nth_skipn o). replace (o + 2 - o)%nat with 2%nat by lia.
  assert (Hd : (2 <= length (drop o l))%nat) by (rewrite length_drop; lia).
  destruct (drop o l) as [|a [|b r]]; cbn in Hd; try lia. cbn -[Z.lor Z.shiftl].
  rewrite take_0. destruct big_endian; cbn -[Z.lor Z.shiftl]; by rewrite Z.shiftl_0_l, Z.lor_0_r.
Qed.
Lemma native_get_r32 l o : (o + 4 <= length l)%nat -> native_get (slice l o (o + 4)) = r32 l o.
Proof.
  intros Hl. unfold r32, slice, native_get, native. rewrite <- !(nth_skipn o). replace (o + 4 - o)%nat with 4%nat by lia.
  assert (Hd : (4 <= length (drop o l))%nat) by (rewrite length_drop; lia).
  destruct (drop o l) as [|a [|b [|c [|d r]]]]; cbn in Hd; try lia. cbn -[Z.lor Z.shiftl].
  rewrite take_0. destruct big_endian; cbn -[Z.lor Z.shiftl]; by rewrite Z.shiftl_0_l, Z.lor_0_r.
Qed.

(** ** Parsing what a sender wrote *)

Definition with_len (h : NlMsghdr) (body : bytes) : NlMsghdr :=
  mkHdr (Z.of_nat (SizeofNlMsghdr + length body)) (h_Type h) (h_Flags h) (h_Seq h) (h_Pid h).
Definition small (body : bytes) : Prop := Z.of_nat (SizeofNlMsghdr + length body) < 2 ^ 32.

Lemma encode_image h body :
  small body ->
  encodeNetlinkMsg h body = hdr_bytes (with_len h body) ++ body ++ repeat 0 (nlmAlign (SizeofNlMsghdr + length body) - (SizeofNlMsghdr + length body)).
Proof.
  unfold small. intros Hs. unfold encodeNetlinkMsg, u32. rewrite Z.mod_small by lia. rewrite Nat2Z.id. unfold with_len. f_equal.
  pose proof (nlmAlign_spec (SizeofNlMsghdr + length body)). unfold SizeofNlMsghdr in *.
  rewrite take_ge by (rewrite length_app, repeat_length; lia). f_equal. f_equal. lia.
Qed.
Lemma length_encode h body : small body -> length (encodeNetlinkMsg h body) = nlmAlign (SizeofNlMsghdr + length body).
Proof.
  intros Hs. rewrite encode_image by done. rewrite !length_app, length_hdr_bytes, repeat_length.
  pose proof (nlmAlign_spec (SizeofNlMsghdr + length body)). lia.
Qed.

Lemma encode_wire h body : small body -> encodeNetlinkMsg h body = wire h body.
Proof.
  intros Hs. rewrite encode_image by done. unfold wire, hdr_bytes, with_len. cbn [h_Len h_Type h_Flags h_Seq h_Pid].
  rewrite !native_put_w32, !native_put_w16, <- !app_assoc, Nat2Z.inj_add. do 6 f_equal. rewrite <- zeros_align. f_equal.
  unfold SizeofNlMsghdr. destruct (nlmAlign_spec (length body)) as [H1 H2], (nlmAlign_spec (16 + length body)) as [H3 H4].
  apply Nat.Div0.mod_divides in H2 as [a Ha], H4 as [b Hb]. lia.
Qed.

(** What the walk over a datagram of whole messages comes to. *)
Fixpoint walk_messages (ms : list (NlMsghdr * bytes)) (seq : Z) (out : list netlinkMsg) : result NlErr (bool * list netlinkMsg) :=
  match ms with
  | [] => Ok (false, out)
  | (h, b) :: ms' =>
    if negb (h_Seq h =? seq) then walk_messages ms' seq out
    else match judge (with_len h b) b with
         | Finish (Ok d) => Ok (d, out)
         | Finish (Err e) => Err e
         | Collect => walk_messages ms' seq (out ++ [mkMsg (with_len h b) b])
         end
  end.
Definition message_ok (m : NlMsghdr * bytes) : Prop := small m.2 /\ hdr_ok (with_len m.1 m.2).
Definition datagram (ms : list (NlMsghdr * bytes)) : bytes := concat ((fun m => wire m.1 m.2) <$> ms).

(** Each round drops at least the sixteen bytes of a header. *)
Lemma parse_loop_fuel f g buf seq out :
  (length buf < f)%nat -> (length buf < g)%nat -> parse_loop f buf seq out = parse_loop g buf seq out /\ parse_loop f buf seq out <> Unfinished.
Proof.
  revert g buf out. induction f as [|f IH]; intros g buf out Hf Hg; [lia|]. destruct g as [|g]; [lia|]. cbn [parse_loop].
  destruct (length buf <? SizeofNlMsghdr)%nat; [done|]. destruct (_ || _)%nat eqn:E; [done|]. simpl_bool.
  set (n := Z.to_nat _) in *. unfold advance. destruct (nlmAlign_spec n) as [Hn _]. unfold SizeofNlMsghdr in *.
  destruct (negb _); [|destruct (judge _ _) as [[]|]; try done]; (destruct (nlmAlign n <=? length buf)%nat; [|done]);
    apply IH; rewrite length_drop; lia.
Qed.
Lemma parse_finishes buf seq : parseNetlinkMsgs buf seq <> Unfinished.
Proof. apply (parse_loop_fuel _ (S (length buf))); lia. Qed.

Lemma parse_message f h b rest seq out :
  message_ok (h, b) ->
  parse_loop (S f) (encodeNetlinkMsg h b ++ rest) seq out
  = if negb (h_Seq h =? seq) then parse_loop f rest seq out
    else match judge (with_len h b) b with
         | Finish (Ok d) => Ret (Ok (d, out))
         | Finish (Err e) => Ret (Err e)
         | Collect => parse_loop f rest seq (out ++ [mkMsg (with_len h b) b])
         end.
Proof.
  intros [Hs Hh]. cbn [fst snd] in *. pose proof (length_encode h b Hs) as HL. destruct (nlmAlign_spec (SizeofNlMsghdr + length b)) as [Hn _].
  cbn [parse_loop]. assert (HR : read_hdr (encodeNetlinkMsg h b ++ rest) = with_len h b).
  { rewrite encode_image, <- !app_assoc by done. by apply read_hdr_bytes. }
  rewrite HR. change (h_Len (with_len h b)) with (Z.of_nat (SizeofNlMsghdr + length b)). rewrite Nat2Z.id.
  change (h_Seq (with_len h b)) with (h_Seq h).
  rewrite (proj2 (Nat.ltb_ge _ SizeofNlMsghdr)) by (rewrite length_app; lia).
  rewrite (proj2 (Nat.ltb_ge _ SizeofNlMsghdr)) by lia. rewrite (proj2 (Nat.ltb_ge _ _)) by (rewrite length_app; lia). cbn [orb].
  assert (HB : slice (encodeNetlinkMsg h b ++ rest) SizeofNlMsghdr (SizeofNlMsghdr + length b) = b).
  { rewrite encode_image, <- !app_assoc by done. apply slice_app_eq; by rewrite length_hdr_bytes. }
  rewrite HB. unfold advance. rewrite (proj2 (Nat.leb_le _ _)) by (rewrite length_app; lia).
  by rewrite drop_app_length' by done.
Qed.
Lemma parse_datagram_loop f ms tail seq out :
  Forall message_ok ms -> (length tail < SizeofNlMsghdr)%nat -> (length (datagram ms ++ tail) < f)%nat ->
  parse_loop f (datagram ms ++ tail) seq out = Ret (walk_messages ms seq out).
Proof.
  intros Hms Ht. revert f out. induction Hms as [|[h b] ms Hm Hms IH]; intros f out Hf; (destruct f as [|f]; [lia|]).
  - cbn [parse_loop]. change (datagram [] ++ tail) with tail. by rewrite (proj2 (Nat.ltb_lt _ _)).
  - change (datagram ((h, b) :: ms)) with (wire h b ++ datagram ms) in *. rewrite <- encode_wire in * by apply Hm.
    rewrite <- app_assoc in *.
    rewrite parse_message by done. cbn [walk_messages].
    assert (HL : (length (datagram ms ++ tail) < f)%nat).
    { rewrite length_app, length_encode in Hf by apply Hm. pose proof (nlmAlign_spec (SizeofNlMsghdr + length b)). lia. }
    destruct (negb _); [by apply IH|]. destruct (judge _ _) as [[]|]; try done. by apply IH.
Qed.

(** The walk's own errors carry no errno but the kernel's. *)
Lemma parse_error buf seq e :
  parseNetlinkMsgs buf seq = Ret (Err e) -> asSyscallErrno e = None \/ exists n, e = KernelErr n.
Proof.
  unfold parseNetlinkMsgs. generalize (S (length buf)) (@nil netlinkMsg). intros f. revert buf. induction f as [|f IH]; intros buf out; [done|].
  cbn [parse_loop]. destruct (length buf <? _)%nat; [done|]. destruct (_ || _)%nat; [intros [= <-]; by left|]. unfold advance.
  destruct (negb _); [destruct (_ <=? _)%nat; [apply IH|done]|]. unfold judge.
  destruct (_ =? NLMSG_DONE); [done|]. destruct (_ =? NLMSG_ERROR).
  - destruct (_ <? 4)%nat; [intros [= <-]; by left|]. destruct (_ =? 0); [done|]. intros [= <-]. eauto.
  - destruct (_ <=? _)%nat; [apply IH|done].
Qed.

(** The message of a sequence number that lies at an offset of a buffer. *)
Definition message_at (buf : bytes) (off : nat) (seq : Z) (m : netlinkMsg) : Prop :=
  let hdr := read_hdr (drop off buf) in
  let len := Z.to_nat (h_Len hdr) in
  m = mkMsg hdr (slice (drop off buf) SizeofNlMsghdr len) /\ h_Seq hdr = seq
  /\ (SizeofNlMsghdr <= len <= length (drop off buf))%nat.
Lemma parse_members f buf seq out d out' :
  parse_loop f buf seq out = Ret (Ok (d, out')) -> Forall (fun m => m ∈ out \/ exists off, message_at buf off seq m) out'.
Proof.
  revert buf out. induction f as [|f IH]; intros buf out; [done|]. cbn [parse_loop].
  assert (Hnow : Forall (fun m => m ∈ out \/ exists off, message_at buf off seq m) out) by (apply Forall_forall; auto).
  destruct (length buf <? SizeofNlMsghdr)%nat; [by intros [= _ <-]|]. destruct (_ || _)%nat eqn:E; [done|]. simpl_bool.
  set (hdr := read_hdr buf) in *. set (n := Z.to_nat (h_Len hdr)) in *. unfold advance.
  assert (Hnext : forall out1, Forall (fun m => m ∈ out \/ exists off, message_at buf off seq m) out1 ->
    match (if (nlmAlign n <=? length buf)%nat then Ret (drop (nlmAlign n) buf) else Panicked) with
    | Ret rest => parse_loop f rest seq out1 | Panicked => Panicked | Unfinished => Unfinished end = Ret (Ok (d, out')) ->
    Forall (fun m => m ∈ out \/ exists off, message_at buf off seq m) out').
  { intros out1 Hin. destruct (_ <=? _)%nat; [|done]. intros Hp%IH. eapply Forall_impl; [exact Hp|].
    intros m [Hm|[off Hm]]; [rewrite Forall_forall in Hin; by apply Hin|]. right. exists (nlmAlign n + off)%nat.
    unfold message_at in *. by rewrite drop_drop in Hm. }
  destruct (Z.eqb_spec (h_Seq hdr) seq) as [Es|]; cbn [negb]; [|by apply Hnext].
  destruct (judge _ _) as [[d0|e]|]; [by intros [= _ <-]|done|]. apply Hnext. apply Forall_app. split; [done|].
  constructor; [|done]. right. exists 0%nat. unfold message_at. rewrite drop_0. fold hdr. fold n. split_and!; done || lia.
Qed.

(** A datagram announces the index of a link to a sequence number: at some
    offset lies a message of type 16 (RTM_NEWLINK) that is long enough, and the
    index is the third word of its body. *)
Definition announces (data : bytes) (seq idx : Z) : Prop :=
  exists off, let m := drop off data in
  32 <= r32 m 0 <= Z.of_nat (length m) /\ r16 m 4 = 16 /\ r32 m 8 = seq /\ idx = i32 (r32 m 20).
Lemma message_announces buf off seq m :
  message_at buf off seq m -> h_Type (m_Header m) = RTM_NEWLINK -> (SizeofIfInfomsg <= length (m_Data m))%nat ->
  announces buf seq (read_index (m_Data m)).
Proof.
  unfold message_at. set (l := drop off buf). intros (-> & Hseq & Hlen) Ht Hd. cbn [m_Header m_Data] in *. exists off. fold l.
  set (n := Z.to_nat (h_Len (read_hdr l))) in *. unfold SizeofNlMsghdr, SizeofIfInfomsg in *.
  unfold slice in Hd. rewrite length_take, length_drop in Hd.
  assert (E0 : h_Len (read_hdr l) = r32 l 0) by (apply (native_get_r32 l 0); lia).
  assert (E1 : h_Type (read_hdr l) = r16 l 4) by (apply (native_get_r16 l 4); lia).
  assert (E2 : h_Seq (read_hdr l) = r32 l 8) by (apply (native_get_r32 l 8); lia).
  rewrite <- E0, <- E1, <- E2. split_and!; [lia|lia|done|done|].
  unfold read_index. rewrite <- (native_get_r32 l 20) by lia. by rewrite slice_slice by lia.
Qed.

(** A datagram of whole words never makes the walk slice past its end. *)
Lemma parse_aligned_loop f buf seq out :
  (length buf mod 4 = 0)%nat -> parse_loop f buf seq out <> Panicked.
Proof.
  revert buf out. induction f as [|f IH]; intros buf out Hb; [done|]. cbn [parse_loop].
  destruct (length buf <? SizeofNlMsghdr)%nat; [done|]. destruct (_ || _)%nat eqn:E; [done|]. simpl_bool.
  set (n := Z.to_nat _) in *. unfold advance. destruct (nlmAlign_spec n) as [Hn Hm].
  apply Nat.Div0.mod_divides in Hb as [a Ha], Hm as [c Hc].
  assert (Hle : (nlmAlign n <= length buf)%nat) by lia.
  assert (Hd : (length (drop (nlmAlign n) buf) mod 4 = 0)%nat).
  { rewrite length_drop, Ha, Hc. replace (4 * a - 4 * c)%nat with ((a - c) * 4)%nat by lia. apply Nat.Div0.mod_mul. }
  rewrite (proj2 (Nat.leb_le _ _) Hle).
  destruct (negb _); [by apply IH|]. destruct (judge _ _) as [[]|]; try done. by apply IH.
Qed.
End wire.

(** * System calls *)

Inductive Call : Type :=
| CSocket
| CBind (fd : Z)
| CSendto (fd : Z) (pkt : bytes)
| CRecvfrom (fd : Z)
| COpen
| CSetIff (fd : Z) (name : bytes)
| CRead (fd : Z) (n : nat)
| CWrite (fd : Z) (p : bytes)
| CClose (fd : Z).

(** An errno, or the returned number (a descriptor, a count) and data. *)
Abbreviation Answer := (result Z (Z * bytes)) (only parsing).
Abbreviation Trace := (list (Call * Answer)) (only parsing).

(** The answer to a call after the calls of the trace, newest first. *)
Class Kernel := kernel : Trace -> Call -> Answer.

(** The descriptors the calls of a trace left open. Linux releases the
    descriptor of a [close] whatever it answers. *)
Fixpoint open_fds (tr : Trace) : gset Z :=
  match tr with
  | [] => ∅
  | (CSocket, Ok (fd, _)) :: t => {[fd]} ∪ open_fds t
  | (COpen, Ok (fd, _)) :: t => {[fd]} ∪ open_fds t
  | (CClose fd, _) :: t => open_fds t ∖ {[fd]}
  | _ :: t => open_fds t
  end.

(** What the manual pages promise: [open(2)] and [socket(2)] return a descriptor
    that is not open, [EEXIST] is not an error of [sendto(2)] or [recvfrom(2)],
    and messages are padded to whole words ([netlink(7)]). *)
Class KernelLaws `{Kernel} : Prop := {
  fresh_fd tr c fd data : c = CSocket \/ c = COpen -> kernel tr c = Ok (fd, data) -> fd ∉ open_fds tr;
  transfer_errno tr fd pkt : kernel tr (CSendto fd pkt) <> Err EEXIST /\ kernel tr (CRecvfrom fd) <> Err EEXIST;
  recv_words tr fd n data : kernel tr (CRecvfrom fd) = Ok (n, data) -> (length data mod 4 = 0)%nat }.

Definition M (A : Type) : Type := Trace -> outcome A * Trace.
#[export] Instance M_ret : MRet M := fun A a tr => (Ret a, tr).
#[export] Instance M_bind : MBind M := fun A B k m tr =>
  match m tr with
  | (Ret a, tr') => k a tr'
  | (Panicked, tr') => (Panicked, tr')
  | (Unfinished, tr') => (Unfinished, tr')
  end.
Definition lift {A} (o : outcome A) : M A := fun tr => (o, tr).
(** [x, err := m; if err != nil { return err }] *)
Notation "'let!' p ':=' m 'in' k" :=
  (mbind (M:=M) (fun r__ => match r__ with Ok p => k | Err e__ => mret (Err e__) end) m)
  (at level 10, p pattern, m at level 200, k at level 200) : go_scope.
(** [defer f()]: it runs on a panic too. *)
Definition defer {A B} (f : M B) (m : M A) : M A := fun tr =>
  match m tr with
  | (Unfinished, tr') => (Unfinished, tr')
  | (o, tr') => (o, (f tr').2)
  end.

(** * The client *)

Section client.
Context `{ByteOrder} `{Kernel}.
(** How many receives a request waits for. *)
Context (patience : nat).

Definition syscall (c : Call) : M Answer := fun tr => (Ret (kernel tr c), (c, kernel tr c) :: tr).
(** A call whose failure is an [os.PathError]. *)
Definition os (op : string) (c : Call) : M (result NlErr (Z * bytes)) :=
  r ← syscall c; mret (match r with Ok x => Ok x | Err e => Err (OsErr op e) end).

Record netlinkConn := mkConn { nl_fd : Z; nl_seq : Z }.

Definition newNetlinkConn : M (result NlErr netlinkConn) :=
  let! (fd, _) := os "socket(AF_NETLINK)" CSocket in
  r ← os "bind(AF_NETLINK)" (CBind fd);
  match r with
  | Err e => _ ← syscall (CClose fd); mret (Err e)
  | Ok _ => mret (Ok (mkConn fd 0))
  end.

Definition conn_close (c : netlinkConn) : M Answer := syscall (CClose (nl_fd c)).

(** The fresh number and the connection that has used it. *)
Definition nextSeq (c : netlinkConn) : Z * netlinkConn :=
  let seq := u32 (nl_seq c + 1) in (seq, mkConn (nl_fd c) seq).

Definition recvbuf : nat := 16 * 1024.

Fixpoint receive (fuel : nat) (fd seq : Z) (out : list netlinkMsg) : M (result NlErr (list netlinkMsg)) :=
  match fuel with
  | O => lift Unfinished
  | S f =>
    r ← syscall (CRecvfrom fd);
    match r with
    | Err e => if e =? EINTR then receive f fd seq out else mret (Err (OsErr "recvfrom(netlink)" e))
    | Ok (_, data) =>
      p ← lift (parseNetlinkMsgs (take recvbuf data) seq);
      match p with
      | Err e => mret (Err e)
      | Ok (done, msgs) => if (done : bool) then mret (Ok (out ++ msgs)) else receive f fd seq (out ++ msgs)
      end
    end
  end.

Definition exchange (c : netlinkConn) (hdr : NlMsghdr) (body : bytes) : M (result NlErr (list netlinkMsg)) :=
  let! _ := os "sendto(netlink)" (CSendto (nl_fd c) (encodeNetlinkMsg hdr body)) in
  receive patience (nl_fd c) (h_Seq hdr) [].

(** The request headers: [Len] is set when the message is encoded. *)
Definition request (typ flags seq : Z) : NlMsghdr := mkHdr 0 typ flags seq 0.

Definition ifindex_body (name : bytes) : bytes := appendAttr (repeat 0 SizeofIfInfomsg) IFLA_IFNAME (name ++ [0]).

Fixpoint first_newlink (name : bytes) (resps : list netlinkMsg) : result NlErr Z :=
  match resps with
  | [] => Err (NoNewLink name)
  | r :: rest =>
    if negb (h_Type (m_Header r) =? RTM_NEWLINK) then first_newlink name rest
    else if (length (m_Data r) <? SizeofIfInfomsg)%nat then Err (ShortNewLink (Z.of_nat (length (m_Data r))))
    else Ok (read_index (m_Data r))
  end.

Definition ifindex (c : netlinkConn) (name : bytes) : netlinkConn * M (result NlErr Z) :=
  let '(seq, c) := nextSeq c in
  (c, let! resps := exchange c (request RTM_GETLINK (Z.lor NLM_F_REQUEST NLM_F_ACK) seq) (ifindex_body name) in
      mret (first_newlink name resps)).

Definition setLink_body (idx mtu : Z) : bytes :=
  appendAttr (ifinfo_bytes (mkIfInfo AF_UNSPEC 0 idx IFF_UP IFF_UP)) IFLA_MTU (native_put 4 (u32 mtu)).

Definition setLink (c : netlinkConn) (idx mtu : Z) : netlinkConn * M (result NlErr unit) :=
  let '(seq, c) := nextSeq c in
  (c, let! _ := exchange c (request RTM_NEWLINK (Z.lor NLM_F_REQUEST NLM_F_ACK) seq) (setLink_body idx mtu) in mret (Ok tt)).

(** The family and bytes of the prefix's address. *)
Definition addr_family (a : Addr) : outcome (Z * bytes) :=
  if Is4 a
  then match As4 a with Some a4 => Ret (AF_INET, a4) | None => Panicked end
  else match As16 a with Some a16 => Ret (AF_INET6, a16) | None => Panicked end.

Definition addAddr_body (idx : Z) (prefix : Prefix) (family : Z) (rawAddr : bytes) : bytes :=
  appendAttr (appendAttr (ifaddr_bytes (mkIfAddr family (u8 (pf_bits prefix)) 0 RT_SCOPE_UNIVERSE (u32 idx)))
    IFA_LOCAL rawAddr) IFA_ADDRESS rawAddr.

Definition addr_flags : Z := Z.lor (Z.lor NLM_F_REQUEST NLM_F_ACK) (Z.lor NLM_F_CREATE NLM_F_EXCL).

Definition addAddr (c : netlinkConn) (idx : Z) (prefix : Prefix) : netlinkConn * M (result NlErr unit) :=
  let '(seq, c) := nextSeq c in
  (c, fr ← lift (addr_family (pf_addr prefix));
      r ← exchange c (request RTM_NEWADDR addr_flags seq) (addAddr_body idx prefix fr.1 fr.2);
      match r with
      | Err e => if bool_decide (asSyscallErrno e = Some EEXIST) then mret (Ok tt) else mret (Err e)
      | Ok _ => mret (Ok tt)
      end).

(** ** What an exchange returns *)

(** The kernel's answers to the receives that follow a trace. *)
Inductive received (fd : Z) : Trace -> list Answer -> Trace -> Prop :=
| received_nil tr : received fd tr [] tr
| received_cons tr a rs tr' :
    kernel tr (CRecvfrom fd) = a -> received fd ((CRecvfrom fd, a) :: tr) rs tr' -> received fd tr (a :: rs) tr'.

(** An interrupted receive, or a datagram of messages. *)
Abbreviation Receipt := (option (list (NlMsghdr * bytes))) (only parsing).
Definition receipt_answer (r : Receipt) : Answer :=
  match r with None => Err EINTR | Some ms => Ok (Z.of_nat (length (datagram ms)), datagram ms) end.
Definition receipt_messages (r : Receipt) : list (NlMsghdr * bytes) := default [] r.
Definition receipt_ok (r : Receipt) : Prop :=
  Forall message_ok (receipt_messages r) /\ (length (datagram (receipt_messages r)) <= recvbuf)%nat.

(** How a request ends: a message of type 3, or one of type 2 whose first word
    is zero or the negated errno. *)
Inductive closes : Z -> bytes -> option Z -> Prop :=
| closes_done body : closes 3 body None
| closes_ack rest : closes 2 (w32 0 ++ rest) None
| closes_errno e rest : 0 < e < 2 ^ 31 -> closes 2 (w32 (- e) ++ rest) (Some e).

Definition is_terminator (seq : Z) (m : NlMsghdr * bytes) : bool :=
  (h_Seq m.1 =? seq) && match judge (with_len m.1 m.2) m.2 with Finish _ => true | Collect => false end.
Lemma errno_code e : 0 < e < 2 ^ 31 -> i32 ((- e) mod 2 ^ 32) = - e /\ u64 (i32 (- - e)) = e.
Proof.
  intros He. unfold i32, u64. change (2 ^ 32) with 4294967296. change (2 ^ 31) with 2147483648 in *.
  split; [Z.to_euclidean_division_equations; lia|]. rewrite (Z.mod_small (- - e + _)) by lia.
  rewrite Z.mod_small by lia. lia.
Qed.
Lemma closes_judge h b err :
  closes (h_Type h) b err -> judge (with_len h b) b = Finish (match err with Some e => Err (KernelErr e) | None => Ok true end).
Proof.
  intros Hc. unfold judge. cbn [with_len h_Type].
  assert (G : forall v rest, slice (w32 v ++ rest) 0 4 = w32 v /\ (length (w32 v ++ rest) <? 4)%nat = false).
  { intros v rest. pose proof (length_w32 v) as L. split; [rewrite slice_0; by rewrite <- L, take_app_length|].
    apply Nat.ltb_ge. rewrite length_app. lia. }
  destruct Hc as [body|rest|e rest He]; [done| |].
  - destruct (G 0 rest) as [-> ->]. rewrite <- native_put_w32. by rewrite native_get_put by lia.
  - destruct (G (- e) rest) as [-> ->]. rewrite <- native_put_w32, native_get_put by lia.
    change (4 * 8) with 32. destruct (errno_code e He) as [-> ->]. cbn. destruct (Z.eqb_spec (- e) 0); [lia|done].
Qed.
Lemma not_terminator seq m : (h_Seq m.1 = seq -> h_Type m.1 <> 2 /\ h_Type m.1 <> 3) -> is_terminator seq m = false.
Proof.
  intros Hm. unfold is_terminator. destruct (Z.eqb_spec (h_Seq m.1) seq) as [E|]; [|done]. destruct (Hm E) as [H2 H3].
  unfold judge. cbn [with_len h_Type]. unfold NLMSG_DONE, NLMSG_ERROR. by rewrite (proj2 (Z.eqb_neq _ _) H2), (proj2 (Z.eqb_neq _ _) H3).
Qed.

(** The replies to a sequence number. *)
Definition replies (seq : Z) (ms : list (NlMsghdr * bytes)) : list netlinkMsg :=
  (fun m => mkMsg (with_len m.1 m.2) m.2) <$> filter (fun m => h_Seq m.1 = seq) ms.

Lemma replies_app seq ms ms' : replies seq (ms ++ ms') = replies seq ms ++ replies seq ms'.
Proof. unfold replies. by rewrite filter_app, fmap_app. Qed.

Lemma walk_before seq ms rest out :
  Forall (fun m => is_terminator seq m = false) ms ->
  walk_messages (ms ++ rest) seq out = walk_messages rest seq (out ++ replies seq ms).
Proof.
  intros Hms. revert out. induction Hms as [|[h b] ms Hm Hms IH]; intros out; [unfold replies; cbn; by rewrite app_nil_r|].
  cbn [app walk_messages]. unfold is_terminator in Hm. cbn [fst snd] in Hm. unfold replies. rewrite filter_cons. cbn [fst].
  destruct (Z.eqb_spec (h_Seq h) seq) as [E|E]; cbn [negb andb] in *.
  - rewrite decide_True by done. destruct (judge _ _); [done|]. rewrite IH. cbn [fmap list_fmap fst snd]. by rewrite <- app_assoc.
  - rewrite decide_False by done. apply IH.
Qed.

Lemma parse_receipt ms seq :
  receipt_ok (Some ms) -> parseNetlinkMsgs (take recvbuf (datagram ms)) seq = Ret (walk_messages ms seq []).
Proof.
  intros [Hm Hl]. cbn [receipt_messages default] in *. rewrite take_ge by done. unfold parseNetlinkMsgs. rewrite <- (app_nil_r (datagram ms)) at 2.
  apply parse_datagram_loop; [done|unfold SizeofNlMsghdr; cbn; lia|rewrite app_nil_r; lia].
Qed.

(** What an unterminated run of receives adds, whatever came before. *)
Lemma walk_out ms seq out :
  walk_messages ms seq out = match walk_messages ms seq [] with Ok (d, ms') => Ok (d, out ++ ms') | Err e => Err e end.
Proof.
  revert out. induction ms as [|[h b] ms IH]; intros out; cbn [walk_messages]; [by rewrite app_nil_r|].
  destruct (negb _); [apply IH|]. destruct (judge _ _) as [[]|]; rewrite ?app_nil_r; try done.
  rewrite IH, (IH ([] ++ _)). destruct (walk_messages ms seq []) as [[]|]; [|done]. by rewrite <- app_assoc.
Qed.

Lemma bind_syscall {A} c (k : Answer -> M A) tr : (syscall c ≫= k) tr = k (kernel tr c) ((c, kernel tr c) :: tr).
Proof. done. Qed.
Lemma bind_lift {A B} (a : A) (k : A -> M B) tr : (lift (Ret a) ≫= k) tr = k a tr.
Proof. done. Qed.

Lemma receive_answer fuel fd seq dgs ms0 h b after out tr tr' :
  received fd tr (receipt_answer <$> (dgs ++ [Some (ms0 ++ (h, b) :: after)])) tr' ->
  Forall receipt_ok (dgs ++ [Some (ms0 ++ (h, b) :: after)]) -> (length dgs < fuel)%nat ->
  Forall (fun m => is_terminator seq m = false) (concat (receipt_messages <$> dgs) ++ ms0) -> is_terminator seq (h, b) = true ->
  receive fuel fd seq out tr
  = (Ret (match judge (with_len h b) b with
          | Finish (Err e) => Err e
          | _ => Ok (out ++ replies seq (concat (receipt_messages <$> dgs) ++ ms0)) end), tr').
Proof.
  revert fuel out tr. induction dgs as [|r dgs IH]; intros fuel out tr Hr Hok Hf Hb Ht; (destruct fuel as [|fuel]; [cbn in Hf; lia|]).
  - cbn in Hr, Hb. inversion Hr as [|? ? ? ? Hk Hr']; subst. inversion Hr'; subst. cbn [receive].
    rewrite bind_syscall, Hk. cbn [receipt_answer]. apply Forall_cons in Hok as [Hok _]. rewrite parse_receipt, bind_lift by done.
    rewrite walk_before by done. cbn [walk_messages app]. unfold is_terminator in Ht. cbn [fst snd] in Ht. apply andb_true_iff in Ht as [Hs Hj].
    rewrite Hs. cbn [negb]. unfold judge in *. go_cases.
  - cbn in Hr. inversion Hr as [|? ? ? ? Hk Hr']; subst. cbn [receive].
    rewrite bind_syscall, Hk. apply Forall_cons in Hok as [Hok1 Hok]. cbn [fmap list_fmap concat] in Hb |- *. rewrite <- app_assoc in Hb |- *.
    apply Forall_app in Hb as [Hb1 Hb]. rewrite replies_app. destruct r as [ms|]; cbn [receipt_answer receipt_messages default] in *.
    + change (id ms) with ms in *. pose proof (walk_before seq ms [] [] Hb1) as W. rewrite app_nil_r in W.
      rewrite parse_receipt, bind_lift, W by done. cbn [walk_messages app].
      rewrite IH by (done || cbn in Hf; lia). destruct (judge _ _) as [[]|]; by rewrite ?app_assoc.
    + rewrite Z.eqb_refl. rewrite IH by (done || cbn in Hf; lia). done.
Qed.

(** ** Descriptors and packets *)

Definition keeps_fds {A} (m : M A) : Prop := forall tr, open_fds (m tr).2 = open_fds tr.
Lemma fds_ret {A} (a : A) : keeps_fds (mret a).
Proof. done. Qed.
Lemma keeps_lift {A} (o : outcome A) : keeps_fds (lift o).
Proof. done. Qed.
Lemma keeps_fds_bind {A B} (m : M A) (k : A -> M B) : keeps_fds m -> (forall a, keeps_fds (k a)) -> keeps_fds (m ≫= k).
Proof.
  intros Hm Hk tr. pose proof (Hm tr) as E. unfold mbind, M_bind. destruct (m tr) as [[a| |] tr'] eqn:Em; cbn [snd] in *; try done.
  by rewrite Hk.
Qed.
Definition neutral (c : Call) : bool := match c with CSocket | COpen | CClose _ => false | _ => true end.
Lemma keeps_syscall c : neutral c = true -> keeps_fds (syscall c).
Proof. intros Hc tr. by destruct c. Qed.
Lemma keeps_receive fuel fd seq out : keeps_fds (receive fuel fd seq out).
Proof.
  revert out. induction fuel as [|fuel IH]; intros out; [apply keeps_lift|]. cbn [receive].
  apply keeps_fds_bind; [by apply keeps_syscall|]. intros [[n data]|e]; [|case_match; [apply IH|apply fds_ret]].
  apply keeps_fds_bind; [apply keeps_lift|]. intros [[[] msgs]|e]; [apply fds_ret|apply IH|apply fds_ret].
Qed.
Lemma keeps_exchange c hdr body : keeps_fds (exchange c hdr body).
Proof.
  apply keeps_fds_bind; [apply keeps_fds_bind; [by apply keeps_syscall|intros []; apply fds_ret]|].
  intros [[]|e]; [apply keeps_receive|apply fds_ret].
Qed.
Lemma keeps_ifindex c name : keeps_fds (ifindex c name).2.
Proof. apply keeps_fds_bind; [apply keeps_exchange|intros []; apply fds_ret]. Qed.
Lemma keeps_setLink c idx mtu : keeps_fds (setLink c idx mtu).2.
Proof. apply keeps_fds_bind; [apply keeps_exchange|intros []; apply fds_ret]. Qed.
Lemma keeps_addAddr c idx prefix : keeps_fds (addAddr c idx prefix).2.
Proof.
  apply keeps_fds_bind; [apply keeps_lift|]. intros fr. apply keeps_fds_bind; [apply keeps_exchange|].
  intros [|e]; [apply fds_ret|]. case_match; apply fds_ret.
Qed.

(** With a kernel that sends whole words, no request panics. *)
Definition never_panics {A} (m : M A) : Prop := forall tr, (m tr).1 <> Panicked.
Lemma never_panics_bind {A B} (m : M A) (k : A -> M B) : never_panics m -> (forall a, never_panics (k a)) -> never_panics (m ≫= k).
Proof.
  intros Hm Hk tr. pose proof (Hm tr) as E. unfold mbind, M_bind. destruct (m tr) as [[a| |] tr'] eqn:Em; cbn in *; try done.
  by apply Hk.
Qed.
Lemma never_panics_receive `{L : !KernelLaws} fuel fd seq out : never_panics (receive fuel fd seq out).
Proof.
  revert out. induction fuel as [|fuel IH]; intros out tr; [done|]. cbn [receive]. rewrite bind_syscall.
  destruct (kernel tr (CRecvfrom fd)) as [[n data]|e] eqn:E; [|destruct (e =? EINTR); [by apply IH|done]].
  apply recv_words in E. assert (Ht : (length (take recvbuf data) mod 4 = 0)%nat).
  { rewrite length_take. destruct (Nat.min_spec recvbuf (length data)) as [[_ ->]|[_ ->]]; [|done]. reflexivity. }
  pose proof (parse_aligned_loop (S (length (take recvbuf data))) _ seq [] Ht) as HP. unfold parseNetlinkMsgs.
  destruct (parse_loop _ _ _ _) as [[[[] msgs]|e]| |]; rewrite ?bind_lift; try done. by apply IH.
Qed.
Lemma never_panics_exchange `{L : !KernelLaws} c hdr body : never_panics (exchange c hdr body).
Proof.
  apply never_panics_bind; [by intros tr; unfold os; rewrite bind_syscall; destruct (kernel _ _) as [[]|]|].
  intros [[]|e]; [apply never_panics_receive|done].
Qed.
Lemma never_panics_addAddr `{L : !KernelLaws} c idx prefix : IsValid (pf_addr prefix) = true -> never_panics (addAddr c idx prefix).2.
Proof.
  intros Hv. apply never_panics_bind; [by unfold addr_family; destruct (pf_addr prefix)|]. intros fr.
  apply never_panics_bind; [apply never_panics_exchange|]. intros [|e] tr; [done|]. by destruct (bool_decide _).
Qed.

(** The packets the kernel took, newest first. *)
Fixpoint sent (tr : Trace) : list bytes :=
  match tr with
  | [] => []
  | (CSendto _ pkt, Ok _) :: t => pkt :: sent t
  | _ :: t => sent t
  end.
Lemma receive_sent fuel fd seq out tr : sent (receive fuel fd seq out tr).2 = sent tr.
Proof.
  revert out tr. induction fuel as [|fuel IH]; intros out tr; [done|]. cbn [receive]. rewrite bind_syscall.
  destruct (kernel tr (CRecvfrom fd)) as [[n data]|e]; [|destruct (e =? EINTR); [by rewrite IH|done]].
  destruct (parseNetlinkMsgs _ _) as [[[[] msgs]|e]| |]; rewrite ?bind_lift; try done. by rewrite IH.
Qed.
(** An exchange that returns replies had its request taken. *)
Lemma exchange_sent c hdr body tr resps tr' :
  exchange c hdr body tr = (Ret (Ok resps), tr') -> sent tr' = encodeNetlinkMsg hdr body :: sent tr.
Proof.
  unfold exchange, os, mbind, M_bind, syscall. set (c0 := CSendto _ _). destruct (kernel tr c0) as [x|e] eqn:E; cbn; [|done].
  destruct x. intros Hr. pose proof (receive_sent patience (nl_fd c) (h_Seq hdr) [] ((c0, Ok (z, l)) :: tr)) as HS.
  by rewrite Hr in HS.
Qed.
(** An answer from the kernel came after the request was taken. *)
Lemma exchange_answered `{L : !KernelLaws} c hdr body tr e tr' :
  exchange c hdr body tr = (Ret (Err e), tr') -> asSyscallErrno e = Some EEXIST ->
  e = KernelErr EEXIST /\ sent tr' = encodeNetlinkMsg hdr body :: sent tr.
Proof.
  unfold exchange, os, mbind at 1, M_bind at 1. unfold mbind at 1, M_bind at 1, syscall. set (c0 := CSendto _ _).
  destruct (kernel tr c0) as [x|e0] eqn:E; cbn.
  - destruct x. intros Hr He. pose proof (receive_sent patience (nl_fd c) (h_Seq hdr) [] ((c0, Ok (z, l)) :: tr)) as HS.
    rewrite Hr in HS. split; [|exact HS]. clear HS E. revert Hr. generalize ((c0, Ok (z, l)) :: tr). clear - He L.
    generalize (@nil netlinkMsg). induction patience as [|fuel IH]; intros out tr; [done|]. cbn [receive]. rewrite bind_syscall.
    destruct (kernel tr (CRecvfrom (nl_fd c))) as [[n data]|e1] eqn:E1.
    + destruct (parseNetlinkMsgs _ _) as [[[[] msgs]|e2]| |] eqn:E2; rewrite ?bind_lift; try done; [apply IH|].
      intros [= <- <-]. destruct (parse_error _ _ _ E2) as [Hn|[e3 ->]]; [by rewrite Hn in He|]. by injection He as ->.
    + destruct (e1 =? EINTR); [apply IH|]. intros [= <- <-]. injection He as ->. by destruct (transfer_errno tr (nl_fd c) []) as [_ []].
  - intros [= <- <-] He. injection He as ->. by destruct (transfer_errno tr (nl_fd c) (encodeNetlinkMsg hdr body)) as [[] _].
Qed.

Lemma ifindex_sent c name tr idx tr' :
  (ifindex c name).2 tr = (Ret (Ok idx), tr') ->
  sent tr' = encodeNetlinkMsg (request RTM_GETLINK (Z.lor NLM_F_REQUEST NLM_F_ACK) (nextSeq c).1) (ifindex_body name) :: sent tr.
Proof.
  unfold ifindex. cbn [nextSeq snd fst]. unfold mbind, M_bind. destruct (exchange _ _ _ tr) as [[[r|e]| |] t] eqn:E; try done.
  intros [= _ <-]. by apply exchange_sent in E.
Qed.
Lemma setLink_sent c idx mtu tr u tr' :
  (setLink c idx mtu).2 tr = (Ret (Ok u), tr') ->
  sent tr' = encodeNetlinkMsg (request RTM_NEWLINK (Z.lor NLM_F_REQUEST NLM_F_ACK) (nextSeq c).1) (setLink_body idx mtu) :: sent tr.
Proof.
  unfold setLink. cbn [nextSeq snd fst]. unfold mbind, M_bind. destruct (exchange _ _ _ tr) as [[[r|e]| |] t] eqn:E; try done.
  intros [= _ <-]. by apply exchange_sent in E.
Qed.
Lemma addAddr_sent `{!KernelLaws} c idx prefix family raw tr u tr' :
  addr_family (pf_addr prefix) = Ret (family, raw) -> (addAddr c idx prefix).2 tr = (Ret (Ok u), tr') ->
  sent tr' = encodeNetlinkMsg (request RTM_NEWADDR addr_flags (nextSeq c).1) (addAddr_body idx prefix family raw) :: sent tr.
Proof.
  unfold addAddr. cbn [nextSeq snd fst]. intros ->. rewrite bind_lift. cbn [fst snd]. unfold mbind, M_bind.
  destruct (exchange _ _ _ tr) as [[[r|e]| |] t] eqn:E; try done.
  - intros [= _ <-]. by apply exchange_sent in E.
  - destruct (bool_decide_reflect (asSyscallErrno e = Some EEXIST)) as [He|]; [|done].
    intros [= _ <-]. by apply exchange_answered in E as [_ E].
Qed.
(** ** Where an index comes from *)

(** The calls of a run come on top of those before it. *)
Definition grows {A} (m : M A) : Prop := forall tr, exists later, (m tr).2 = later ++ tr.
Lemma grows_ret {A} (a : A) : grows (mret a).
Proof. intros tr. by exists []. Qed.
Lemma grows_lift {A} (o : outcome A) : grows (lift o).
Proof. intros tr. by exists []. Qed.
Lemma grows_syscall c : grows (syscall c).
Proof. intros tr. by exists [(c, kernel tr c)]. Qed.
Lemma grows_bind {A B} (m : M A) (k : A -> M B) : grows m -> (forall a, grows (k a)) -> grows (m ≫= k).
Proof.
  intros Hm Hk tr. destruct (Hm tr) as [l1 E1]. unfold mbind, M_bind. destruct (m tr) as [[a| |] t1]; cbn in E1; subst t1; [|by exists l1..].
  destruct (Hk a (l1 ++ tr)) as [l2 E2]. exists (l2 ++ l1). by rewrite E2, app_assoc.
Qed.
Lemma grows_os op c : grows (os op c).
Proof. apply grows_bind; [apply grows_syscall|]. intros r. apply grows_ret. Qed.
Lemma grows_receive fuel fd seq out : grows (receive fuel fd seq out).
Proof.
  revert out. induction fuel as [|fuel IH]; intros out; [apply grows_lift|]. cbn [receive].
  apply grows_bind; [apply grows_syscall|]. intros [[n data]|e]; [|case_match; [apply IH|apply grows_ret]].
  apply grows_bind; [apply grows_lift|]. intros [[[] msgs]|e]; [apply grows_ret|apply IH|apply grows_ret].
Qed.
Lemma grows_exchange c hdr body : grows (exchange c hdr body).
Proof. apply grows_bind; [apply grows_os|]. intros [[]|e]; [apply grows_receive|apply grows_ret]. Qed.
Lemma grows_setLink c idx mtu : grows (setLink c idx mtu).2.
Proof. apply grows_bind; [apply grows_exchange|]. intros []; apply grows_ret. Qed.
Lemma grows_addAddr c idx p : grows (addAddr c idx p).2.
Proof.
  apply grows_bind; [apply grows_lift|]. intros fr. apply grows_bind; [apply grows_exchange|].
  intros []; [apply grows_ret|]. case_match; apply grows_ret.
Qed.

(** A datagram among some calls, cut to the buffer of the client. *)
Definition heard (calls : Trace) (fd : Z) (data : bytes) : Prop :=
  exists n dg, (CRecvfrom fd, Ok (n, dg)) ∈ calls /\ data = take recvbuf dg.
Lemma heard_cons x calls fd data : heard calls fd data -> heard (calls ++ [x]) fd data.
Proof. intros (n & dg & Hin & E). exists n, dg. split; [apply elem_of_app; by left|done]. Qed.

(** Every reply was a message of a datagram received meanwhile. *)
Lemma receive_members fuel fd seq out tr resps tr' :
  receive fuel fd seq out tr = (Ret (Ok resps), tr') ->
  exists later, tr' = later ++ tr
  /\ Forall (fun m => m ∈ out \/ exists data off, heard later fd data /\ message_at data off seq m) resps.
Proof.
  revert out tr. induction fuel as [|fuel IH]; intros out tr; [done|]. cbn [receive]. rewrite bind_syscall.
  assert (Hnext : forall a (out1 : list netlinkMsg), (forall m, m ∈ out1 -> m ∈ out
      \/ exists data off, (exists n dg, a = Ok (n, dg) /\ data = take recvbuf dg) /\ message_at data off seq m) ->
    (exists later, tr' = later ++ (CRecvfrom fd, a) :: tr
     /\ Forall (fun m => m ∈ out1 \/ exists data off, heard later fd data /\ message_at data off seq m) resps) ->
    exists later, tr' = later ++ tr
    /\ Forall (fun m => m ∈ out \/ exists data off, heard later fd data /\ message_at data off seq m) resps).
  { intros a out1 Hout (later & -> & HF). exists (later ++ [(CRecvfrom fd, a)]). rewrite <- app_assoc. split; [done|].
    eapply Forall_impl; [exact HF|]. intros m [Hm|(data & off & Hh & Hm)].
    - destruct (Hout m Hm) as [?|(data & off & (n & dg & -> & E) & Hat)]; [by left|]. right. exists data, off. split; [|done].
      exists n, dg. split; [|done]. apply elem_of_app. right. by left.
    - right. exists data, off. split; [by apply heard_cons|done]. }
  destruct (kernel tr (CRecvfrom fd)) as [[n dg]|e] eqn:Ek.
  - destruct (parseNetlinkMsgs (take recvbuf dg) seq) as [[[d msgs]|e]| |] eqn:Ep; rewrite ?bind_lift; try done.
    assert (Hout : forall m, m ∈ out ++ msgs -> m ∈ out \/ exists data off,
      (exists n' dg', @Ok Z (Z * bytes) (n, dg) = Ok (n', dg') /\ data = take recvbuf dg') /\ message_at data off seq m).
    { intros m [Hm|Hm]%elem_of_app; [by left|right]. apply parse_members in Ep. rewrite Forall_forall in Ep.
      destruct (Ep m Hm) as [?%elem_of_nil|[off Hat]]; [done|]. exists (take recvbuf dg), off. split; [by exists n, dg|done]. }
    destruct d.
    + intros [= <- <-]. apply (Hnext (Ok (n, dg)) (out ++ msgs)); [exact Hout|]. exists []. split; [done|].
      apply Forall_forall. auto.
    + intros Hr%IH. by apply (Hnext (Ok (n, dg)) (out ++ msgs)).
  - destruct (e =? EINTR); [|done]. intros Hr%IH. apply (Hnext (Err e) out); [auto|exact Hr].
Qed.

Lemma first_newlink_in name resps idx :
  first_newlink name resps = Ok idx ->
  exists m, m ∈ resps /\ h_Type (m_Header m) = RTM_NEWLINK /\ (SizeofIfInfomsg <= length (m_Data m))%nat /\ idx = read_index (m_Data m).
Proof.
  induction resps as [|r rest IH]; [done|]. cbn [first_newlink]. destruct (Z.eqb_spec (h_Type (m_Header r)) RTM_NEWLINK) as [E|]; cbn [negb].
  - destruct (_ <? _)%nat eqn:El; [done|]. intros [= <-]. simpl_bool. exists r. split_and!; [by left|done|lia|done].
  - intros (m & Hm & ?)%IH. exists m. split; [by right|done].
Qed.

(** The index a lookup returns was announced after the request for it. *)
Lemma ifindex_learned c name tr idx tr' :
  (ifindex c name).2 tr = (Ret (Ok idx), tr') ->
  exists later x data,
    tr' = later ++ (CSendto (nl_fd c) (encodeNetlinkMsg (request RTM_GETLINK (Z.lor NLM_F_REQUEST NLM_F_ACK) (nextSeq c).1) (ifindex_body name)), Ok x) :: tr
    /\ heard later (nl_fd c) data /\ announces data (nextSeq c).1 idx.
Proof.
  unfold ifindex. cbn [nextSeq snd fst]. set (hdr := request _ _ _). set (conn := mkConn _ _).
  unfold exchange, os. unfold mbind at 1, M_bind at 1. unfold mbind at 1, M_bind at 1. unfold mbind at 1, M_bind at 1.
  unfold syscall. change (nl_fd conn) with (nl_fd c). set (call := CSendto _ _). destruct (kernel tr call) as [x|e] eqn:Ek; cbn [mret M_ret]; [|done].
  destruct x as [n dg]. change (h_Seq hdr) with (u32 (nl_seq c + 1)).
  destruct (receive patience (nl_fd c) _ [] _) as [[[resps|e]| |] t] eqn:Er; try done. intros [= Hf <-].
  apply receive_members in Er as (later & -> & HF). apply first_newlink_in in Hf as (m & Hm & Ht & Hl & ->).
  rewrite Forall_forall in HF. destruct (HF m Hm) as [?%elem_of_nil|(data & off & Hh & Hat)]; [done|].
  exists later, (n, dg), data. split_and!; [done|done|]. by eapply message_announces.
Qed.

(** ** Properties *)

(** A receive buffer of whole messages, followed by less than a header, is
    walked to exactly the messages of the expected sequence number up to the
    first acknowledgement, end or error; and no buffer of whole words makes
    the walk slice out of range. *)
Theorem parseNetlinkMsgs_datagram :
  (forall ms tail seq, Forall message_ok ms -> (length tail < SizeofNlMsghdr)%nat ->
     parseNetlinkMsgs (datagram ms ++ tail) seq = Ret (walk_messages ms seq []))
  /\ (forall buf seq, (length buf mod 4 = 0)%nat -> exists r, parseNetlinkMsgs buf seq = Ret r).
Proof.
  split; [intros; apply parse_datagram_loop; done || lia|]. intros buf seq Hb.
  pose proof (parse_finishes buf seq). pose proof (parse_aligned_loop (S (length buf)) buf seq [] Hb).
  unfold parseNetlinkMsgs in *. destruct (parse_loop _ _ _ _); [eauto|done|done].
Qed.

(** C28: A request the kernel takes, and answers within [patience] receives, is
    finished by the first message of its sequence of type 3 or 2, whatever
    interruptions, datagrams and messages of other sequences come before it:
    the result is every reply before the terminator, in order, or the errno a
    message of type 2 carries. *)
Theorem exchange_answer c hdr body tr n dgs ms0 h b after tr' err
    (Hbody : small body)
    (Hsend : kernel tr (CSendto (nl_fd c) (wire hdr body)) = Ok n)
    (Hrecv : received (nl_fd c) ((CSendto (nl_fd c) (wire hdr body), Ok n) :: tr)
               (receipt_answer <$> (dgs ++ [Some (ms0 ++ (h, b) :: after)])) tr')
    (Hok : Forall receipt_ok (dgs ++ [Some (ms0 ++ (h, b) :: after)]))
    (Hpatience : (length dgs < patience)%nat)
    (Hbefore : Forall (fun m => h_Seq m.1 = h_Seq hdr -> h_Type m.1 <> 2 /\ h_Type m.1 <> 3)
                 (concat (receipt_messages <$> dgs) ++ ms0))
    (Hseq : h_Seq h = h_Seq hdr) (Hend : closes (h_Type h) b err) :
  exchange c hdr body tr
  = (Ret (match err with
          | Some e => Err (KernelErr e)
          | None => Ok (replies (h_Seq hdr) (concat (receipt_messages <$> dgs) ++ ms0)) end), tr').
Proof.
  unfold exchange, os. unfold mbind at 1, M_bind at 1. rewrite bind_syscall, encode_wire, Hsend by done. destruct n.
  cbn [mret M_ret]. apply closes_judge in Hend.
  rewrite (receive_answer patience (nl_fd c) (h_Seq hdr) dgs ms0 h b after [] _ tr'); [|done..| |].
  - rewrite Hend. by destruct err.
  - eapply Forall_impl; [exact Hbefore|]. intros m. apply not_terminator.
  - unfold is_terminator. cbn [fst snd]. by rewrite Hseq, Z.eqb_refl, Hend.
Qed.
End client.

(** * A sample kernel *)

Definition little : ByteOrder := false.

(** One more than every descriptor the trace has opened, two at least. *)
Fixpoint max_fd (tr : Trace) : Z :=
  match tr with
  | [] => 2
  | (CSocket, Ok (fd, _)) :: t => Z.max fd (max_fd t)
  | (COpen, Ok (fd, _)) :: t => Z.max fd (max_fd t)
  | _ :: t => max_fd t
  end.
Fixpoint last_request (tr : Trace) : NlMsghdr :=
  match tr with
  | [] => request 0 0 0
  | (CSendto _ pkt, _) :: _ => @read_hdr little pkt
  | _ :: t => last_request t
  end.
Definition ack (seq : Z) : NlMsghdr * bytes := (request NLMSG_ERROR 0 seq, repeat 0 20).
Definition link_reply (seq : Z) : NlMsghdr * bytes :=
  (request RTM_NEWLINK 0 seq, @ifinfo_bytes little (mkIfInfo AF_UNSPEC 0 7 IFF_UP 0)).
(** It interrupts the first receive of a request. *)
Definition sample_kernel : Kernel := fun tr c =>
  match c with
  | CSocket | COpen => Ok (max_fd tr + 1, [])
  | CSetIff _ name => Ok (0, if is_nil name then bs "tun0" else name)
  | CRecvfrom _ =>
    match tr with
    | (CSendto _ _, _) :: _ => Err EINTR
    | _ => let r := last_request tr in
           let dg := @datagram little (if h_Type r =? RTM_GETLINK then [link_reply (h_Seq r); ack (h_Seq r)] else [ack (h_Seq r)]) in
           Ok (Z.of_nat (length dg), dg)
    end
  | CRead fd _ | CWrite fd _ => if bool_decide (fd ∈ open_fds tr) then Ok (1, [69]) else Err EBADF
  | _ => Ok (0, [])
  end.

Lemma open_fds_max tr fd : fd ∈ open_fds tr -> fd <= max_fd tr.
Proof.
  induction tr as [|[c a] tr IH]; cbn [open_fds max_fd]; [by rewrite elem_of_empty|].
  destruct c; try done; destruct a as [[n d]|e]; rewrite ?elem_of_union, ?elem_of_difference, ?elem_of_singleton;
    first [intros [->|Hf]; [lia|specialize (IH Hf); lia] | intros [Hf _]; by apply IH | by apply IH].
Qed.
Lemma sample_laws : @KernelLaws sample_kernel.
Proof.
  split.
  - intros tr c fd data [-> | ->] [= <- <-] Hf; apply open_fds_max in Hf; lia.
  - intros tr fd pkt. split; [done|]. cbn. destruct tr as [|[[] ?] ?]; done.
  - intros tr fd n data. unfold kernel, sample_kernel.
    assert (G : forall r : NlMsghdr, (length (@datagram little (if (h_Type r =? RTM_GETLINK)%Z then [link_reply (h_Seq r); ack (h_Seq r)] else [ack (h_Seq r)])) mod 4 = 0)%nat).
    { intros r. unfold datagram. destruct (_ =? _)%Z; cbn [fmap list_fmap concat]; rewrite app_nil_r, ?length_app, <- !(@encode_wire little), !(@length_encode little) by done; done. }
    generalize (last_request tr). intros r. destruct tr as [|[[] ?] ?]; try done; intros [= <- <-]; apply G.
Qed.

Lemma parseNetlinkMsgs_datagram_witness :
  @parseNetlinkMsgs little (@datagram little [link_reply 2; link_reply 1; ack 1; link_reply 1] ++ [1; 2; 3]) 1
  = Ret (Ok (true, [mkMsg (with_len (link_reply 1).1 (link_reply 1).2) (link_reply 1).2]))
  /\ exists r, @parseNetlinkMsgs little (repeat 0 32) 1 = Ret r.
Proof.
  split; [|by apply (proj2 (@parseNetlinkMsgs_datagram little))].
  rewrite (proj1 (@parseNetlinkMsgs_datagram little)); [vm_compute; reflexivity| |unfold SizeofNlMsghdr; cbn; lia].
  repeat constructor; done.
Defined.

(** A last message of seventeen bytes is cut after twenty. *)
Example parse_unaligned_panics :
  @parseNetlinkMsgs little (@native_put little 4 17 ++ repeat 0 12 ++ [5]) 1 = Panicked.
Proof. reflexivity. Qed.

Lemma exchange_answer_witness :
  (@exchange little sample_kernel 2 (mkConn 3 0) (request RTM_GETLINK 5 1) (@ifindex_body little (bs "era0")) []).1
  = Ret (Ok [mkMsg (with_len (link_reply 1).1 (link_reply 1).2) (link_reply 1).2]).
Proof.
  erewrite (@exchange_answer little sample_kernel 2 (mkConn 3 0) (request RTM_GETLINK 5 1) (@ifindex_body little (bs "era0")) []
    _ [None] [link_reply 1] (ack 1).1 (ack 1).2 [] _ None).
  - vm_compute. reflexivity.
  - reflexivity.
  - reflexivity.
  - eapply received_cons; [reflexivity|]. eapply received_cons; [vm_compute; reflexivity|apply received_nil].
  - apply Forall_cons. split; [|apply Forall_cons; split; [|done]];
      (split; [repeat constructor; done|apply Nat.leb_le; vm_compute; reflexivity]).
  - cbn. lia.
  - repeat constructor; discriminate.
  - reflexivity.
  - exact (@closes_ack little (repeat 0 16)).
Defined.
