(* ===== verification/Tun.v ===== *)
(** The multi-queue TUN device of [internal/tun/tun_linux.go] and [options.go]:
    opening the queues, configuring the interface through [Netlink], reading,
    writing and closing. What a failed [Open] leaves behind and what a
    successful one has asked of the kernel. *)

From S2P Require Import Prelude Netip Netlink.

Definition defaultMTU : Z := 1500.
Definition maxDefaultQueues : Z := 4.
Definition IFNAMSIZ : nat := 16.

Record Options := mkOptions {
  o_Name : bytes; o_MTU : Z; o_Queues : Z; o_IPv4 : Prefix; o_IPv6 : Prefix }.

Inductive TunErr : Type :=
| NameTooLong (name : bytes)
| OpenDevice (e : Z)
| IfreqErr (e : Z)
| SetIffErr (e : Z)
| OpenQueueErr (i : nat) (err : TunErr)
| NetlinkErr (step : string) (err : NlErr)
| WrongFamily (step : string) (p : Prefix)
| ConfigureErr (name : bytes) (err : TunErr).

(** [closeOnce] and [closeErr]: [None] until the first [Close], whose error it
    keeps then. *)
Record Queue := mkQueue { q_fd : Z; q_closed : option (option Z) }.
Record Device := mkDevice { d_name : bytes; d_queues : list Queue; d_closed : option (option Z) }.

(** The results of a read or write that did not succeed. *)
Inductive QueueErr : Type := ErrClosed | PathErr (e : Z).

Section tun.
Context `{ByteOrder} `{Kernel}.
Context (patience : nat).
(** [unix.NewIfreq]: the errno, when it refuses the name. *)
Context (NewIfreq : bytes -> option Z).
(** [runtime.NumCPU()] *)
Context (NumCPU : Z).

(** * Queues *)

Definition Queue_Close (q : Queue) : M (option Z * Queue) :=
  match q_closed q with
  | Some e => mret (e, q)
  | None =>
    r ← syscall (CClose (q_fd q));
    let e := match r with Ok _ => None | Err e => Some e end in
    mret (e, mkQueue (q_fd q) (Some e))
  end.

Fixpoint transfer (fuel : nat) (c : Call) : M (result QueueErr (Z * bytes)) :=
  match fuel with
  | O => lift Unfinished
  | S f =>
    r ← syscall c;
    match r with
    | Ok x => mret (Ok x)
    | Err e => if e =? EINTR then transfer f c
               else if e =? EBADF then mret (Err ErrClosed)
               else mret (Err (PathErr e))
    end
  end.
(** The count and what the kernel put into [p]; [n] is [len(p)]. *)
Definition Queue_Read (q : Queue) (n : nat) : M (result QueueErr (Z * bytes)) := transfer patience (CRead (q_fd q) n).
Definition Queue_Write (q : Queue) (p : bytes) : M (result QueueErr (Z * bytes)) := transfer patience (CWrite (q_fd q) p).

Definition openQueue (name : bytes) : M (result TunErr (Queue * bytes)) :=
  r ← syscall COpen;
  match r with
  | Err e => mret (Err (OpenDevice e))
  | Ok (fd, _) =>
    match NewIfreq name with
    | Some e => _ ← syscall (CClose fd); mret (Err (IfreqErr e))
    | None =>
      r ← syscall (CSetIff fd name);
      match r with
      | Err e => _ ← syscall (CClose fd); mret (Err (SetIffErr e))
      | Ok (_, resolved) => mret (Ok (mkQueue fd None, take IFNAMSIZ resolved))
      end
    end
  end.

(** * The interface *)

(** [fmt.Errorf("...: %w", err)] around a call of the netlink client. *)
Definition nl_step {A} (step : string) (m : M (result NlErr A)) : M (result TunErr A) :=
  r ← m; mret (match r with Ok a => Ok a | Err e => Err (NetlinkErr step e) end).

Definition add_v4 (c : netlinkConn) (idx : Z) (p : Prefix) : netlinkConn * M (result TunErr unit) :=
  if prefix_valid p then
    if negb (Is4 (pf_addr p)) then (c, mret (Err (WrongFamily "IPv4" p)))
    else let '(c, m) := addAddr patience c idx p in (c, nl_step "add IPv4" m)
  else (c, mret (Ok tt)).
Definition add_v6 (c : netlinkConn) (idx : Z) (p : Prefix) : netlinkConn * M (result TunErr unit) :=
  if prefix_valid p then
    if negb (Is6 (pf_addr p)) || Is4In6 (pf_addr p) then (c, mret (Err (WrongFamily "IPv6" p)))
    else let '(c, m) := addAddr patience c idx p in (c, nl_step "add IPv6" m)
  else (c, mret (Ok tt)).

(** The part of [configureInterface] after [defer nl.close()]. *)
Definition configure (c : netlinkConn) (name : bytes) (mtu : Z) (v4 v6 : Prefix) : M (result TunErr unit) :=
  let '(c, m) := ifindex patience c name in
  let! idx := nl_step "resolve ifindex" m in
  let '(c, m) := setLink patience c idx mtu in
  let! _ := nl_step "set link up / mtu" m in
  let '(c, m) := add_v4 c idx v4 in
  let! _ := m in
  let '(c, m) := add_v6 c idx v6 in
  let! _ := m in
  mret (Ok tt).

Definition configureInterface (name : bytes) (mtu : Z) (v4 v6 : Prefix) : M (result TunErr unit) :=
  let! nl := nl_step "netlink open" newNetlinkConn in
  defer (conn_close nl) (configure nl name mtu v4 v6).

(** * The device *)

Definition queue_count (opts : Options) : Z :=
  if o_Queues opts <=? 0
  then let n := if maxDefaultQueues <? NumCPU then maxDefaultQueues else NumCPU in
       if n <? 1 then 1 else n
  else o_Queues opts.
Definition link_mtu (opts : Options) : Z := if o_MTU opts <=? 0 then defaultMTU else o_MTU opts.

Fixpoint cleanup (queues : list Queue) : M unit :=
  match queues with
  | [] => mret tt
  | q :: qs => _ ← Queue_Close q; cleanup qs
  end.

(** The loop at [i] with [k] queues to go. *)
Fixpoint open_queues (k i : nat) (resolvedName : bytes) (queues : list Queue) : M (result TunErr (bytes * list Queue)) :=
  match k with
  | O => mret (Ok (resolvedName, queues))
  | S k' =>
    r ← openQueue resolvedName;
    match r with
    | Err e => _ ← cleanup queues; mret (Err (OpenQueueErr i e))
    | Ok (q, name) => open_queues k' (S i) (if is_nil resolvedName then name else resolvedName) (queues ++ [q])
    end
  end.

(** [make([]*Queue, 0, n)] panics for a count beyond the address space; such
    counts are left out. *)
Definition Open (opts : Options) : M (result TunErr Device) :=
  if (IFNAMSIZ <=? length (o_Name opts))%nat then mret (Err (NameTooLong (o_Name opts)))
  else
    let! (resolvedName, queues) := open_queues (Z.to_nat (queue_count opts)) 0 (o_Name opts) [] in
    r ← configureInterface resolvedName (link_mtu opts) (o_IPv4 opts) (o_IPv6 opts);
    match r with
    | Err e => _ ← cleanup queues; mret (Err (ConfigureErr resolvedName e))
    | Ok _ => mret (Ok (mkDevice resolvedName queues None))
    end.

Definition Name (d : Device) : bytes := d_name d.
Definition Queues (d : Device) : list Queue := d_queues d.

(** The queues closed, with the first error in order. *)
Fixpoint close_queues (queues : list Queue) : M (option Z * list Queue) :=
  match queues with
  | [] => mret (None, [])
  | q :: qs =>
    '(e, q') ← Queue_Close q;
    '(e', qs') ← close_queues qs;
    mret (match e with Some _ => e | None => e' end, q' :: qs')
  end.

Definition Device_Close (d : Device) : M (option Z * Device) :=
  match d_closed d with
  | Some e => mret (e, d)
  | None => '(e, qs) ← close_queues (d_queues d); mret (e, mkDevice (d_name d) qs (Some e))
  end.

(** * Descriptors *)

(** [m] run after [tr] ends in [Q]; a panic does not. *)
Definition run {A} (m : M A) (tr : Trace) (Q : A -> Trace -> Prop) : Prop :=
  match m tr with (Ret a, tr') => Q a tr' | (Panicked, _) => False | (Unfinished, _) => True end.
Lemma run_bind {A B} (m : M A) (k : A -> M B) tr Q : run m tr (fun a tr' => run (k a) tr' Q) -> run (m ≫= k) tr Q.
Proof. unfold run, mbind, M_bind. destruct (m tr) as [[a| |] tr']; done. Qed.
Lemma run_syscall {B} c (k : Answer -> M B) tr Q : run (k (kernel tr c)) ((c, kernel tr c) :: tr) Q -> run (syscall c ≫= k) tr Q.
Proof. apply (run_bind (syscall c)). Qed.
Lemma run_mono {A} (m : M A) tr (Q Q' : A -> Trace -> Prop) : (forall a tr', Q a tr' -> Q' a tr') -> run m tr Q -> run m tr Q'.
Proof. unfold run. intros HQ. destruct (m tr) as [[a| |] tr']; eauto. Qed.
Lemma run_keeps {A} (m : M A) tr (Q : A -> Trace -> Prop) :
  never_panics m -> keeps_fds m -> (forall a tr', m tr = (Ret a, tr') -> open_fds tr' = open_fds tr -> Q a tr') -> run m tr Q.
Proof.
  intros Hp Hk HQ. unfold run. pose proof (Hp tr) as E. pose proof (Hk tr) as F.
  destruct (m tr) as [[a| |] tr']; cbn in *; [by apply HQ|done|done].
Qed.

Definition fds (qs : list Queue) : gset Z := list_to_set (q_fd <$> qs).
Definition live (qs : list Queue) : Prop := Forall (fun q => q_closed q = None) qs /\ NoDup (q_fd <$> qs).

Lemma fds_app qs q : fds (qs ++ [q]) = {[q_fd q]} ∪ fds qs.
Proof. unfold fds. rewrite fmap_app, list_to_set_app_L. cbn. set_solver. Qed.

Context `{L : !KernelLaws}.

Lemma openQueue_run name tr :
  run (openQueue name) tr (fun r tr' =>
    match r with
    | Ok (q, _) => q_fd q ∉ open_fds tr /\ q_closed q = None /\ open_fds tr' = {[q_fd q]} ∪ open_fds tr
    | Err _ => open_fds tr' = open_fds tr end /\ sent tr' = sent tr).
Proof.
  unfold openQueue. apply run_syscall. destruct (kernel tr COpen) as [[fd data]|e] eqn:E; [|done].
  assert (Hf : fd ∉ open_fds tr) by (apply (fresh_fd tr COpen fd data); [by right|done]).
  destruct (NewIfreq name).
  - apply run_syscall. split; [|done]. cbn. set_solver.
  - apply run_syscall. destruct (kernel _ (CSetIff fd name)) as [[n res]|e]; [done|].
    apply run_syscall. split; [|done]. cbn. set_solver.
Qed.

Lemma Queue_Close_run q tr :
  q_closed q = None ->
  run (Queue_Close q) tr (fun r tr' => r.2 = mkQueue (q_fd q) (Some r.1) /\ open_fds tr' = open_fds tr ∖ {[q_fd q]} /\ sent tr' = sent tr).
Proof. intros Hq. unfold Queue_Close. rewrite Hq. by apply run_syscall. Qed.

Lemma cleanup_run qs tr :
  Forall (fun q => q_closed q = None) qs -> run (cleanup qs) tr (fun _ tr' => open_fds tr' = open_fds tr ∖ fds qs /\ sent tr' = sent tr).
Proof.
  intros Hq. revert tr. induction Hq as [|q qs Hq Hqs IH]; intros tr; cbn [cleanup]; [split; [unfold fds; cbn; set_solver|done]|].
  apply run_bind. eapply run_mono, Queue_Close_run; [|done]. intros [e q'] tr' (_ & Ho & Hs). eapply run_mono, IH.
  intros _ tr'' [Ho' Hs']. rewrite Ho', Ho, Hs', Hs. split; [|done]. unfold fds. cbn. set_solver.
Qed.

(** Every queue of the loop so far is open, beyond the descriptors [X]. *)
Record opened (X : gset Z) (qs : list Queue) (tr : Trace) : Prop := {
  op_live : live qs;
  op_fresh : fds qs ## X;
  op_open : open_fds tr = fds qs ∪ X }.

Lemma opened_cleanup X qs tr : opened X qs tr -> run (cleanup qs) tr (fun _ tr' => open_fds tr' = X /\ sent tr' = sent tr).
Proof.
  intros [[Hc _] Hf Ho]. eapply run_mono, cleanup_run, Hc. intros _ tr' [-> ->]. split; [|done]. rewrite Ho. set_solver.
Qed.
Lemma opened_snoc X qs q tr tr' :
  opened X qs tr -> q_fd q ∉ open_fds tr -> q_closed q = None -> open_fds tr' = {[q_fd q]} ∪ open_fds tr -> opened X (qs ++ [q]) tr'.
Proof.
  intros [[Hc Hn] Hf Ho] Hq Hqc Ho'. rewrite Ho in *. apply not_elem_of_union in Hq as [Hq HX]. split.
  - split; [by apply Forall_app; split; [|constructor]|]. rewrite fmap_app. apply NoDup_app. split; [done|]. split; [|by apply NoDup_singleton].
    intros x Hx Hx'. apply list_elem_of_singleton in Hx' as ->. apply Hq. unfold fds. by apply elem_of_list_to_set.
  - rewrite fds_app. set_solver.
  - rewrite fds_app, Ho'. set_solver.
Qed.

Lemma open_queues_run X k i name qs tr :
  opened X qs tr ->
  run (open_queues k i name qs) tr (fun r tr' =>
    match r with Ok (_, qs') => opened X qs' tr' /\ length qs' = (k + length qs)%nat | Err _ => open_fds tr' = X end /\ sent tr' = sent tr).
Proof.
  revert i name qs tr. induction k as [|k IH]; intros i name qs tr Ho; cbn [open_queues]; [done|].
  apply run_bind. eapply run_mono, openQueue_run. intros [[q res]|e] tr' [Hr Hs].
  - destruct Hr as (Hq & Hc & Ho'). eapply run_mono, IH, opened_snoc; [|done..]. intros [[n qs']|e] tr'' [Hr Hs'].
    + rewrite length_app in Hr. cbn in Hr. split; [|congruence]. by replace (S k + length qs)%nat with (k + (length qs + 1))%nat by lia.
    + split; [done|congruence].
  - apply run_bind. destruct Ho as [Hl Hf Ho]. eapply run_mono, (opened_cleanup X); [|by split; rewrite ?Hr].
    intros _ tr'' [HX Hs']. split; [done|congruence].
Qed.

(** * The interface *)

(** [m] neither panics nor opens or closes a descriptor. *)
Definition plain {A} (m : M A) : Prop := never_panics m /\ keeps_fds m.
Lemma plain_ret {A} (a : A) : plain (mret a).
Proof. done. Qed.
Lemma plain_bind {A B} (m : M A) (k : A -> M B) : plain m -> (forall a, plain (k a)) -> plain (m ≫= k).
Proof. intros [Hp Hk] H2. split; [apply never_panics_bind|apply keeps_fds_bind]; try done; intros; apply H2. Qed.
Lemma plain_step {A} step (m : M (result NlErr A)) : plain m -> plain (nl_step step m).
Proof. intros. apply plain_bind; [done|]. intros []; apply plain_ret. Qed.
Lemma plain_exchange c hdr body : plain (exchange patience c hdr body).
Proof. split; [by apply never_panics_exchange|apply keeps_exchange]. Qed.
Lemma plain_ifindex c name : plain (ifindex patience c name).2.
Proof. apply plain_bind; [apply plain_exchange|]. intros []; apply plain_ret. Qed.
Lemma plain_setLink c idx mtu : plain (setLink patience c idx mtu).2.
Proof. apply plain_bind; [apply plain_exchange|]. intros []; apply plain_ret. Qed.
Lemma plain_addAddr c idx p : IsValid (pf_addr p) = true -> plain (addAddr patience c idx p).2.
Proof. intros. split; [by apply never_panics_addAddr|apply keeps_addAddr]. Qed.
Lemma valid_addr p : prefix_valid p = true -> IsValid (pf_addr p) = true.
Proof. unfold prefix_valid. intros. by simpl_bool. Qed.
Lemma plain_add_v4 c idx p : plain (add_v4 c idx p).2.
Proof.
  unfold add_v4. destruct (prefix_valid p) eqn:E; [|apply plain_ret]. destruct (negb _); [apply plain_ret|].
  apply (plain_step "add IPv4"), plain_addAddr, valid_addr, E.
Qed.
Lemma plain_add_v6 c idx p : plain (add_v6 c idx p).2.
Proof.
  unfold add_v6. destruct (prefix_valid p) eqn:E; [|apply plain_ret]. destruct (negb _ || _); [apply plain_ret|].
  apply (plain_step "add IPv6"), plain_addAddr, valid_addr, E.
Qed.

Lemma configure_plain c name mtu v4 v6 : plain (configure c name mtu v4 v6).
Proof.
  unfold configure. pose proof (plain_ifindex c name) as P1. destruct (ifindex _ c name) as [c1 m1].
  apply plain_bind; [by apply plain_step|]. intros [idx|e]; [|apply plain_ret].
  pose proof (plain_setLink c1 idx mtu) as P2. destruct (setLink _ c1 idx mtu) as [c2 m2].
  apply plain_bind; [by apply plain_step|]. intros [[]|e]; [|apply plain_ret].
  pose proof (plain_add_v4 c2 idx v4) as P4. destruct (add_v4 c2 idx v4) as [c4 m4].
  apply plain_bind; [exact P4|]. intros [[]|e]; [|apply plain_ret].
  pose proof (plain_add_v6 c4 idx v6) as P6. destruct (add_v6 c4 idx v6) as [c6 m6]. apply plain_bind; [exact P6|].
  intros [[]|e]; apply plain_ret.
Qed.

(** The packets of a run of [configure] that succeeds, newest first, in the
    format of [rtnetlink(7)]: each is the request of the next sequence number,
    and asks for an acknowledgement (flags 5). RTM_GETLINK (18) with an
    [ifinfomsg] of zeros and IFLA_IFNAME (3). *)
Definition link_request (name : bytes) : bytes :=
  wire (mkHdr 0 18 5 1 0) (repeat 0 16 ++ rtattr 3 (name ++ [0])).
(** RTM_NEWLINK (16) with the index, IFF_UP (1) set and under change, and
    IFLA_MTU (4). *)
Definition up_request (idx mtu : Z) : bytes :=
  wire (mkHdr 0 16 5 2 0) ([0; 0] ++ w16 0 ++ w32 idx ++ w32 1 ++ w32 1 ++ rtattr 4 (w32 mtu)).
(** AF_INET (2) or AF_INET6 (10) and the address. *)
Definition family_of (a : Addr) : Z * bytes :=
  match a with Addr4 b => (2, b) | Addr6 b _ => (10, b) | AddrNone => (0, []) end.
(** RTM_NEWADDR (20), to create and not to replace (0x600), with the family,
    the prefix length, scope 0, the index, and IFA_LOCAL (2) and IFA_ADDRESS (1). *)
Definition addr_request (seq idx : Z) (p : Prefix) : bytes :=
  let '(family, raw) := family_of (pf_addr p) in
  wire (mkHdr 0 20 0x605 seq 0) ([family; pf_bits p mod 256; 0; 0] ++ w32 idx ++ rtattr 2 raw ++ rtattr 1 raw).
Definition addr_requests (idx : Z) (v4 v6 : Prefix) : list bytes :=
  (if prefix_valid v4 then [addr_request 3 idx v4] else [])
    ++ (if prefix_valid v6 then [addr_request (if prefix_valid v4 then 4 else 3) idx v6] else []).
Definition configure_requests (name : bytes) (idx mtu : Z) (v4 v6 : Prefix) : list bytes :=
  [link_request name; up_request idx mtu] ++ addr_requests idx v4 v6.

(** The client writes this format. *)
Lemma native_put_byte v : native_put 1 v = [v mod 256].
Proof. unfold native_put, native. change (Z_to_little_endian 1 8 v) with [Z.land v (Z.ones 8)]. rewrite Z.land_ones by lia. by destruct big_endian. Qed.
Lemma link_request_wire name :
  (length name <= IFNAMSIZ)%nat -> encodeNetlinkMsg (request RTM_GETLINK (Z.lor NLM_F_REQUEST NLM_F_ACK) 1) (ifindex_body name) = link_request name.
Proof.
  unfold IFNAMSIZ. intros Hn.
  assert (E : ifindex_body name = repeat 0 16 ++ rtattr 3 (name ++ [0])).
  { unfold ifindex_body. rewrite appendAttr_spec, attr_rtattr; [done..|]. unfold SizeofRtAttr. rewrite length_app. cbn [length]. lia. }
  rewrite encode_wire, E; [done|]. unfold small. rewrite E, <- attr_rtattr, length_app, length_attr, repeat_length, length_app. cbn [length].
  destruct (nlmAlign_spec (length name + 1)). unfold SizeofNlMsghdr. lia.
Qed.
Lemma up_request_wire idx mtu :
  encodeNetlinkMsg (request RTM_NEWLINK (Z.lor NLM_F_REQUEST NLM_F_ACK) 2) (setLink_body idx mtu) = up_request idx mtu.
Proof.
  assert (E : setLink_body idx mtu = [0; 0] ++ w16 0 ++ w32 idx ++ w32 1 ++ w32 1 ++ rtattr 4 (w32 mtu)).
  { unfold setLink_body. rewrite appendAttr_spec, attr_rtattr; [|by rewrite length_ifinfo_bytes|by rewrite length_native_put by lia].
    unfold ifinfo_bytes. cbn [i_Family i_Type i_Index i_Flags i_Change]. rewrite !native_put_w32, native_put_w16, native_put_byte, <- !app_assoc.
    change (u32 mtu) with (mtu mod 2 ^ 32). by rewrite w32_mod. }
  rewrite encode_wire, E; [done|]. unfold small. rewrite E, <- attr_rtattr, !length_app, length_attr, !length_w32.
  unfold w16. destruct big_endian; reflexivity.
Qed.
Lemma addr_request_wire seq idx p family raw :
  addr_ok (pf_addr p) -> IsValid (pf_addr p) = true -> addr_family (pf_addr p) = Ret (family, raw) ->
  encodeNetlinkMsg (request RTM_NEWADDR addr_flags seq) (addAddr_body idx p family raw) = addr_request seq idx p.
Proof.
  intros Hok Hv Hf. assert (Hr : family_of (pf_addr p) = (family, raw) /\ (length raw <= 16)%nat /\ 0 <= family < 256).
  { unfold addr_family in Hf. destruct (pf_addr p); [done| |]; injection Hf as <- <-; destruct Hok as [HL _]; cbn [family_of]; split_and!; done || lia. }
  destruct Hr as (Hfam & HL & Hb). unfold addr_request. rewrite Hfam. destruct (nlmAlign_spec (length raw)) as [Ha Hm].
  assert (E : addAddr_body idx p family raw = [family; pf_bits p mod 256; 0; 0] ++ w32 idx ++ rtattr 2 raw ++ rtattr 1 raw).
  { unfold addAddr_body. rewrite (appendAttr_spec (ifaddr_bytes _)) by (rewrite ?length_ifaddr_bytes; unfold SizeofRtAttr; done || lia).
    rewrite appendAttr_spec; [|rewrite length_app, length_ifaddr_bytes, length_attr|unfold SizeofRtAttr; lia].
    - unfold ifaddr_bytes. cbn [a_Family a_Prefixlen a_Flags a_Scope a_Index]. rewrite !attr_rtattr, native_put_w32, !native_put_byte, <- !app_assoc.
      change (u32 idx) with (idx mod 2 ^ 32). rewrite w32_mod. unfold u8. by rewrite Z.mod_mod, (Z.mod_small family) by lia.
    - apply Nat.Div0.mod_divides in Hm as [k Hk]. rewrite Hk. unfold SizeofIfAddrmsg. replace (8 + (4 + 4 * k))%nat with ((3 + k) * 4)%nat by lia. apply Nat.Div0.mod_mul. }
  rewrite encode_wire, E; [done|]. unfold small. rewrite E, <- !attr_rtattr, !length_app, !length_attr, length_w32. cbn [length].
  unfold SizeofNlMsghdr. lia.
Qed.

Lemma step_ok {A} step (m : M (result NlErr A)) tr a tr' : nl_step step m tr = (Ret (Ok a), tr') -> m tr = (Ret (Ok a), tr').
Proof. unfold nl_step, mbind, M_bind. destruct (m tr) as [[[x|e]| |] t]; [|done..]. by intros [= -> ->]. Qed.
Lemma bind_ok {A B E E'} (m : M (result E A)) (k : A -> M (result E' B)) (h : E -> E') tr b tr' :
  (m ≫= fun r => match r with Ok a => k a | Err e => mret (Err (h e)) end) tr = (Ret (Ok b), tr') ->
  exists a t, m tr = (Ret (Ok a), t) /\ k a t = (Ret (Ok b), tr').
Proof. unfold mbind, M_bind. destruct (m tr) as [[[x|e]| |] t]; [|done..]. eauto. Qed.

Lemma addr_sent step c idx p tr u tr' :
  addr_ok (pf_addr p) -> prefix_valid p = true -> nl_step step (addAddr patience c idx p).2 tr = (Ret (Ok u), tr') ->
  sent tr' = addr_request (nextSeq c).1 idx p :: sent tr.
Proof.
  intros Hok Hv Hr. apply step_ok in Hr. apply valid_addr in Hv. destruct (addr_family (pf_addr p)) as [[f raw]| |] eqn:E.
  - rewrite (addAddr_sent patience c idx p f raw tr u tr' E Hr). by rewrite (addr_request_wire _ idx p f raw).
  - by destruct (pf_addr p).
  - by destruct (pf_addr p).
Qed.
Lemma add_v4_ok c idx p tr u tr' :
  (add_v4 c idx p).2 tr = (Ret (Ok u), tr') ->
  (addr_ok (pf_addr p) -> sent tr' = (if prefix_valid p then [addr_request (nextSeq c).1 idx p] else []) ++ sent tr)
  /\ (prefix_valid p = true -> Is4 (pf_addr p) = true) /\ (add_v4 c idx p).1 = (if prefix_valid p then (nextSeq c).2 else c).
Proof.
  unfold add_v4. destruct (prefix_valid p) eqn:E; [|by intros [= _ <-]]. destruct (negb _) eqn:E4; [done|].
  intros Hr. split; [|split; [by apply negb_false_iff in E4|done]]. intros Hok. by apply (addr_sent "add IPv4" c idx p) in Hr.
Qed.
Lemma add_v6_ok c idx p tr u tr' :
  (add_v6 c idx p).2 tr = (Ret (Ok u), tr') ->
  (addr_ok (pf_addr p) -> sent tr' = (if prefix_valid p then [addr_request (nextSeq c).1 idx p] else []) ++ sent tr)
  /\ (prefix_valid p = true -> Is6 (pf_addr p) = true /\ Is4In6 (pf_addr p) = false).
Proof.
  unfold add_v6. destruct (prefix_valid p) eqn:E; [|by intros [= _ <-]]. destruct (negb _ || _) eqn:E6; [done|].
  intros Hr. split; [|by simpl_bool]. intros Hok. by apply (addr_sent "add IPv6" c idx p) in Hr.
Qed.

(** ** Growing traces *)

Lemma grows_step {A} step (m : M (result NlErr A)) : grows m -> grows (nl_step step m).
Proof. intros. apply grows_bind; [done|]. intros r. apply grows_ret. Qed.
Lemma grows_add_v4 c idx p : grows (add_v4 c idx p).2.
Proof.
  unfold add_v4. destruct (prefix_valid p); [|apply grows_ret]. destruct (negb _); [apply grows_ret|].
  apply (grows_step "add IPv4"), grows_addAddr.
Qed.
Lemma grows_add_v6 c idx p : grows (add_v6 c idx p).2.
Proof.
  unfold add_v6. destruct (prefix_valid p); [|apply grows_ret]. destruct (negb _ || _); [apply grows_ret|].
  apply (grows_step "add IPv6"), grows_addAddr.
Qed.
Lemma grows_newNetlinkConn : grows (nl_step "netlink open" newNetlinkConn).
Proof.
  apply grows_step. apply grows_bind; [apply grows_os|]. intros [[fd d]|e]; [|apply grows_ret].
  apply grows_bind; [apply grows_os|]. intros [x|e]; [apply grows_ret|].
  apply grows_bind; [apply grows_syscall|]. intros r. apply grows_ret.
Qed.
Lemma grows_openQueue name : grows (openQueue name).
Proof.
  apply grows_bind; [apply grows_syscall|]. intros [[fd d]|e]; [|apply grows_ret]. case_match.
  - apply grows_bind; [apply grows_syscall|]. intros r. apply grows_ret.
  - apply grows_bind; [apply grows_syscall|]. intros [[n res]|e]; [apply grows_ret|].
    apply grows_bind; [apply grows_syscall|]. intros r. apply grows_ret.
Qed.
Lemma grows_cleanup qs : grows (cleanup qs).
Proof.
  induction qs as [|q qs IH]; [apply grows_ret|]. cbn [cleanup]. apply grows_bind; [|intros x; apply IH].
  unfold Queue_Close. case_match; [apply grows_ret|]. apply grows_bind; [apply grows_syscall|]. intros r. apply grows_ret.
Qed.
Lemma grows_open_queues k i name qs : grows (open_queues k i name qs).
Proof.
  revert i name qs. induction k as [|k IH]; intros i name qs; [apply grows_ret|]. cbn [open_queues].
  apply grows_bind; [apply grows_openQueue|]. intros [[q res]|e]; [apply IH|].
  apply grows_bind; [apply grows_cleanup|]. intros r. apply grows_ret.
Qed.
Lemma run_grows {A} (m : M A) tr Q : grows m -> run m tr Q -> run m tr (fun a tr' => Q a tr' /\ exists later, tr' = later ++ tr).
Proof. intros Hg. unfold run. destruct (Hg tr) as [later E]. destruct (m tr) as [[a| |] t]; cbn in *; eauto. Qed.

(** [idx] was announced on the socket, after the lookup of [name] between [tr]
    and [tr']. *)
Definition learned (name : bytes) (idx : Z) (tr tr' : Trace) : Prop :=
  exists fd x data before later, tr' = later ++ (CSendto fd (link_request name), Ok x) :: before ++ tr
  /\ heard later fd data /\ announces data 1 idx.
Lemma heard_later l calls fd data : heard calls fd data -> heard (l ++ calls) fd data.
Proof. intros (n & dg & Hin & E). exists n, dg. split; [apply elem_of_app; by right|done]. Qed.
Lemma learned_mono name idx l1 l2 tr t :
  learned name idx (l1 ++ tr) t -> learned name idx tr (l2 ++ t).
Proof.
  intros (fd & x & data & before & later & -> & Hh & Ha). exists fd, x, data, (before ++ l1), (l2 ++ later).
  rewrite <- !app_assoc. split_and!; [done|by apply heard_later|done].
Qed.

(** The families of the prefixes that are assigned. *)
Definition families_ok (v4 v6 : Prefix) : Prop :=
  (prefix_valid v4 = true -> Is4 (pf_addr v4) = true)
  /\ (prefix_valid v6 = true -> Is6 (pf_addr v6) = true /\ Is4In6 (pf_addr v6) = false).

(** What a successful configuration has done between two traces. *)
Definition configured (name : bytes) (mtu : Z) (v4 v6 : Prefix) (tr tr' : Trace) : Prop :=
  families_ok v4 v6
  /\ ((length name <= IFNAMSIZ)%nat -> addr_ok (pf_addr v4) -> addr_ok (pf_addr v6) -> exists idx,
        sent tr' = reverse (configure_requests name idx mtu v4 v6) ++ sent tr /\ learned name idx tr tr').

Lemma configure_sent fd name mtu v4 v6 tr u tr' :
  configure (mkConn fd 0) name mtu v4 v6 tr = (Ret (Ok u), tr') -> configured name mtu v4 v6 tr tr'.
Proof.
  unfold configure. destruct (ifindex _ _ name) as [c1 m1] eqn:E1. intros Hr.
  apply (bind_ok _ _ id) in Hr as (idx & t1 & H1 & Hr). apply step_ok in H1.
  pose proof (ifindex_sent patience (mkConn fd 0) name tr idx t1) as S1. rewrite E1 in S1. specialize (S1 H1).
  pose proof (ifindex_learned patience (mkConn fd 0) name tr idx t1) as I1. rewrite E1 in I1.
  destruct (I1 H1) as (later & x & data & Et1 & Hh & Han).
  destruct (setLink _ c1 idx mtu) as [c2 m2] eqn:E2. pose proof (grows_setLink patience c1 idx mtu t1) as [l2 G2]. rewrite E2 in G2.
  apply (bind_ok _ _ id) in Hr as ([] & t2 & H2 & Hr). apply step_ok in H2.
  pose proof (setLink_sent patience c1 idx mtu t1 tt t2) as S2. rewrite E2 in S2. specialize (S2 H2).
  cbn [snd] in G2. rewrite H2 in G2. cbn [snd] in G2.
  destruct (add_v4 c2 idx v4) as [c3 m3] eqn:E3. pose proof (grows_add_v4 c2 idx v4 t2) as [l3 G3]. rewrite E3 in G3.
  apply (bind_ok _ _ id) in Hr as ([] & t3 & H3 & Hr). cbn [snd] in G3. rewrite H3 in G3. cbn [snd] in G3.
  pose proof (add_v4_ok c2 idx v4 t2 tt t3) as S3. rewrite E3 in S3. destruct (S3 H3) as (S3' & F4 & Ec3). cbn in Ec3.
  destruct (add_v6 c3 idx v6) as [c4 m4] eqn:E4. pose proof (grows_add_v6 c3 idx v6 t3) as [l4 G4]. rewrite E4 in G4.
  apply (bind_ok _ _ id) in Hr as ([] & t4 & H4 & Hr). cbn [snd] in G4. rewrite H4 in G4. cbn [snd] in G4.
  pose proof (add_v6_ok c3 idx v6 t3 tt t4) as S4. rewrite E4 in S4. destruct (S4 H4) as (S4' & F6).
  injection Hr as _ <-. split; [done|]. intros Hn Ho4 Ho6. exists idx.
  assert (Ec1 : c1 = mkConn fd 1) by (unfold ifindex, nextSeq in E1; injection E1 as <- _; done).
  assert (Ec2 : c2 = mkConn fd 2) by (subst c1; unfold setLink, nextSeq in E2; injection E2 as <- _; done). subst c1 c2 c3.
  cbn [nextSeq fst nl_seq nl_fd] in S1, S2, Et1, Han, Hh. change (u32 (0 + 1)) with 1 in S1, Et1, Han. change (u32 (1 + 1)) with 2 in S2.
  rewrite link_request_wire in S1, Et1 by done. rewrite up_request_wire in S2. split.
  - rewrite S4', S3', S2, S1 by done. unfold configure_requests, addr_requests. by destruct (prefix_valid v4), (prefix_valid v6).
  - subst t2 t3 t4. rewrite !app_assoc. apply (learned_mono _ _ []). exists fd, x, data, [], later. done.
Qed.

Lemma newNetlinkConn_run tr :
  run (nl_step "netlink open" newNetlinkConn) tr (fun r tr' =>
    match r with
    | Ok c => nl_seq c = 0 /\ nl_fd c ∉ open_fds tr /\ open_fds tr' = {[nl_fd c]} ∪ open_fds tr
    | Err _ => open_fds tr' = open_fds tr end /\ sent tr' = sent tr).
Proof.
  apply run_bind. unfold newNetlinkConn. apply run_bind. unfold os at 1. apply run_syscall.
  destruct (kernel tr CSocket) as [[fd data]|e] eqn:E; [|done].
  assert (Hf : fd ∉ open_fds tr) by (apply (fresh_fd tr CSocket fd data); [by left|done]).
  apply run_bind. unfold os. apply run_syscall. destruct (kernel _ (CBind fd)) as [[]|e]; [done|].
  apply run_syscall. split; [|done]. cbn. set_solver.
Qed.

(** The netlink socket is closed again, and what succeeded sent every request. *)
Lemma configureInterface_run name mtu v4 v6 tr :
  run (configureInterface name mtu v4 v6) tr (fun r tr' =>
    open_fds tr' = open_fds tr
    /\ (is_ok r = true -> configured name mtu v4 v6 tr tr')).
Proof.
  apply run_bind. eapply run_mono, run_grows, newNetlinkConn_run; [|apply grows_newNetlinkConn]. intros [c|e] t1 [[Ho Hs] [before Hg]]; [|done].
  destruct Ho as (Hseq & Hf & Ho). destruct (configure_plain c name mtu v4 v6) as [Hp Hk]. specialize (Hp t1). specialize (Hk t1).
  unfold run, defer. destruct (configure c name mtu v4 v6 t1) as [[r| |] t2] eqn:E; cbn in *; [|done|done]. split.
  - rewrite Hk, Ho. set_solver.
  - intros Hr. destruct r as [u|]; [|done]. destruct c as [fd seq]; cbn in Hseq; subst seq. apply configure_sent in E as [HF HE].
    split; [done|]. intros Hn H4 H6. destruct (HE Hn H4 H6) as (idx & HS & HL). exists idx. cbn [snd sent]. rewrite HS, Hs.
    split; [done|]. subst t1. exact (learned_mono _ _ before [_] tr t2 HL).
Qed.

(** * Properties *)

Lemma close_queues_run qs tr :
  Forall (fun q => q_closed q = None) qs ->
  run (close_queues qs) tr (fun _ tr' => open_fds tr' = open_fds tr ∖ fds qs).
Proof.
  intros Hq. revert tr. induction Hq as [|q qs Hq Hqs IH]; intros tr; cbn [close_queues]; [unfold run, fds; cbn; set_solver|].
  apply run_bind. eapply run_mono, Queue_Close_run; [|done]. intros [e q'] t1 (_ & Ho & _). apply run_bind. eapply run_mono, IH.
  intros [e' qs'] t2 Ho'. unfold run; cbn. rewrite Ho', Ho. unfold fds. cbn. set_solver.
Qed.
Lemma close_queues_returns qs tr : exists x tr', close_queues qs tr = (Ret x, tr').
Proof.
  revert tr. induction qs as [|q qs IH]; intros tr; cbn [close_queues]; [eauto|].
  unfold Queue_Close, mbind, M_bind, syscall. destruct (q_closed q); cbn.
  - destruct (IH tr) as ([e' qs'] & t & ->). cbn. eauto.
  - match goal with |- context [close_queues qs ?t] => destruct (IH t) as ([e' qs'] & t' & ->) end. cbn. eauto.
Qed.

(** What a device owes when it was opened over [X]: its queues are the only
    descriptors it added, closing it gives them back, and closing it again
    returns the same error without a call. *)
Definition device_ok (X : gset Z) (count : Z) (d : Device) (tr : Trace) : Prop :=
  Z.of_nat (length (d_queues d)) = count /\ opened X (d_queues d) tr
  /\ exists e d' tr', Device_Close d tr = (Ret (e, d'), tr') /\ open_fds tr' = X /\ forall t, Device_Close d' t = (Ret (e, d'), t).

Lemma opened_device name X qs tr : opened X qs tr -> device_ok X (Z.of_nat (length qs)) (mkDevice name qs None) tr.
Proof.
  intros Ho. split; [done|]. split; [done|]. unfold Device_Close. cbn [d_closed d_queues d_name].
  destruct (close_queues_returns qs tr) as ([e qs'] & t & E). destruct Ho as [[Hc _] Hf Ho].
  pose proof (close_queues_run qs tr Hc) as HR. unfold run in HR. rewrite E in HR.
  unfold mbind, M_bind. rewrite E. cbn. do 3 eexists. split; [done|]. split; [|done]. rewrite HR, Ho. set_solver.
Qed.

Lemma queue_count_pos opts : 1 <= queue_count opts.
Proof. unfold queue_count, maxDefaultQueues. repeat case_match; simpl_bool; lia. Qed.

Lemma open_queues_name k i name qs tr :
  (length name <= IFNAMSIZ)%nat ->
  match (open_queues k i name qs tr).1 with Ret (Ok (n, _)) => (length n <= IFNAMSIZ)%nat | _ => True end.
Proof.
  revert i name qs tr. induction k as [|k IH]; intros i name qs tr Hn; [done|]. cbn [open_queues]. unfold mbind, M_bind.
  assert (HR : match (openQueue name tr).1 with Ret (Ok (_, n)) => (length n <= IFNAMSIZ)%nat | _ => True end).
  { unfold openQueue. rewrite bind_syscall. destruct (kernel tr COpen) as [[fd d]|e]; [|done].
    destruct (NewIfreq name); [done|]. rewrite bind_syscall. destruct (kernel _ _) as [[m res]|e]; [|done]. cbn.
    rewrite length_take. unfold IFNAMSIZ. lia. }
  destruct (openQueue name tr) as [[[[q res]|e]| |] t]; cbn [fst] in *; try done.
  - apply IH. by destruct (is_nil name).
  - by destruct (cleanup qs t) as [[[]| |] t'].
Qed.

Lemma Open_run opts tr :
  run (Open opts) tr (fun r tr' =>
    match r with
    | Err _ => open_fds tr' = open_fds tr
    | Ok d => device_ok (open_fds tr) (queue_count opts) d tr' /\ (length (o_Name opts) < IFNAMSIZ)%nat
        /\ (length (d_name d) <= IFNAMSIZ)%nat /\ configured (d_name d) (link_mtu opts) (o_IPv4 opts) (o_IPv6 opts) tr tr'
    end).
Proof.
  unfold Open. destruct (IFNAMSIZ <=? _)%nat eqn:EN; [done|]. simpl_bool. apply run_bind.
  pose proof (open_queues_name (Z.to_nat (queue_count opts)) 0 (o_Name opts) [] tr ltac:(lia)) as HN.
  assert (HQ : run (open_queues (Z.to_nat (queue_count opts)) 0 (o_Name opts) []) tr (fun r tr' =>
    (match r with Ok (_, qs') => opened (open_fds tr) qs' tr' /\ length qs' = (Z.to_nat (queue_count opts) + 0)%nat
      | Err _ => open_fds tr' = open_fds tr end /\ sent tr' = sent tr) /\ exists later, tr' = later ++ tr)).
  { apply run_grows; [apply grows_open_queues|]. apply (open_queues_run (open_fds tr)). split; [by split; constructor| |]; unfold fds; cbn; set_solver. }
  unfold run in *. destruct (open_queues _ _ _ _ tr) as [[r0| |] t1]; [|done..]. cbn [fst] in HN. destruct HQ as [[Ho Hs] [before Hg]].
  destruct r0 as [[name qs]|e]; [|done]. destruct Ho as [Ho HL].
  change (run (configureInterface name (link_mtu opts) (o_IPv4 opts) (o_IPv6 opts) ≫= fun r =>
    match r with
    | Err e => _ ← cleanup qs; mret (Err (ConfigureErr name e))
    | Ok _ => mret (Ok (mkDevice name qs None))
    end) t1 (fun r tr' => match r with
    | Err _ => open_fds tr' = open_fds tr
    | Ok d => device_ok (open_fds tr) (queue_count opts) d tr' /\ (length (o_Name opts) < IFNAMSIZ)%nat
        /\ (length (d_name d) <= IFNAMSIZ)%nat /\ configured (d_name d) (link_mtu opts) (o_IPv4 opts) (o_IPv6 opts) tr tr'
    end)).
  apply run_bind. eapply run_mono, configureInterface_run.
  intros r t2 [Ho2 Hr]. assert (Ho' : opened (open_fds tr) qs t2) by (destruct Ho as [? ? Ho]; split; [done..|congruence]).
  destruct r as [u|e].
  - destruct (Hr eq_refl) as [HF HS]. pose proof (queue_count_pos opts). split_and!; [|done|done|].
    + replace (queue_count opts) with (Z.of_nat (length qs)) by (cbn in HL; lia). by apply opened_device.
    + split; [done|]. intros Hn H4 H6. destruct (HS Hn H4 H6) as (idx & HE & Hl). exists idx. cbn [d_name]. rewrite HE, Hs. split; [done|].
      subst t1. exact (learned_mono _ _ before [] tr t2 Hl).
  - apply run_bind. eapply run_mono, (opened_cleanup _ _ _ Ho'). by intros _ t3 [HX _].
Qed.

(** C27: [Open] with a queue count [make] accepts never panics; when it fails
    every descriptor it opened, queues and netlink socket, is closed again; when
    it succeeds the device holds as many open queues as asked for, new
    descriptors and nothing else, closing it releases them all, and a second
    close is without effect and returns the first one's error. *)
Theorem Open_fds opts tr :
  match Open opts tr with
  | (Ret (Ok d), tr') => device_ok (open_fds tr) (queue_count opts) d tr'
  | (Ret (Err _), tr') => open_fds tr' = open_fds tr
  | (Panicked, _) => False
  | (Unfinished, _) => True
  end.
Proof.
  pose proof (Open_run opts tr) as HR. unfold run in HR. destruct (Open opts tr) as [[[d|e]| |] tr']; try done. by destruct HR.
Qed.

(** C29: When [Open] succeeds the kernel has taken exactly these requests, in
    this order and in the format of rtnetlink(7): look the interface up by the
    device's name, set its MTU and bring it up, add the IPv4 and then the IPv6
    prefix that are given. The index in the later ones is the one that a link
    message received on the same socket, after the lookup, announced for it;
    the name fits the kernel's limit and each prefix is of its family. *)
Theorem Open_configures opts tr d tr'
    (H4 : addr_ok (pf_addr (o_IPv4 opts))) (H6 : addr_ok (pf_addr (o_IPv6 opts)))
    (Hopen : Open opts tr = (Ret (Ok d), tr')) :
  (length (o_Name opts) < IFNAMSIZ)%nat /\ families_ok (o_IPv4 opts) (o_IPv6 opts)
  /\ exists idx, sent tr' = reverse (configure_requests (d_name d) idx (link_mtu opts) (o_IPv4 opts) (o_IPv6 opts)) ++ sent tr
     /\ learned (d_name d) idx tr tr'.
Proof.
  pose proof (Open_run opts tr) as HR. unfold run in HR. rewrite Hopen in HR. destruct HR as (_ & Hn & Hd & HF & HC).
  split; [done|]. split; [done|]. by apply HC.
Qed.

(** [k] interrupted tries of a call, then the answer [a]. *)
Inductive interrupted (c : Call) : nat -> Trace -> Answer -> Prop :=
| int_now tr a : kernel tr c = a -> a <> Err EINTR -> interrupted c 0 tr a
| int_retry k tr a : kernel tr c = Err EINTR -> interrupted c k ((c, Err EINTR) :: tr) a -> interrupted c (S k) tr a.

Lemma transfer_answer fuel c k tr a :
  interrupted c k tr a -> (k < fuel)%nat ->
  (transfer fuel c tr).1
  = Ret (match a with Ok x => Ok x | Err e => if e =? EBADF then Err ErrClosed else Err (PathErr e) end).
Proof.
  intros Hi. revert fuel. induction Hi as [tr a Hk Ha|k tr a Hk Hi IH]; intros fuel Hf; (destruct fuel as [|fuel]; [lia|]);
    cbn [transfer]; rewrite bind_syscall, Hk.
  - destruct a as [x|e]; [done|]. destruct (Z.eqb_spec e EINTR) as [->|]; [done|]. by destruct (e =? EBADF).
  - cbn. apply IH. lia.
Qed.
Lemma Queue_Read_retries q n k tr a :
  interrupted (CRead (q_fd q) n) k tr a -> (k < patience)%nat ->
  (Queue_Read q n tr).1 = Ret (match a with Ok x => Ok x | Err e => if e =? EBADF then Err ErrClosed else Err (PathErr e) end).
Proof. apply transfer_answer. Qed.
Lemma Queue_Write_retries q p k tr a :
  interrupted (CWrite (q_fd q) p) k tr a -> (k < patience)%nat ->
  (Queue_Write q p tr).1 = Ret (match a with Ok x => Ok x | Err e => if e =? EBADF then Err ErrClosed else Err (PathErr e) end).
Proof. apply transfer_answer. Qed.

End tun.

(** * Samples *)

Definition sample_options : Options :=
  mkOptions (bs "era0") 0 2 PrefixZero (mkPrefix (Addr6 ([0xfd] ++ repeat 0 14 ++ [1]) []) 64).
Definition sample_Open : outcome (result TunErr Device) * Trace := @Open little sample_kernel 4 (fun _ => None) 8 sample_options [].
Definition is_device (o : outcome (result TunErr Device)) : bool := match o with Ret (Ok _) => true | _ => false end.

Lemma Open_fds_witness : exists d tr', sample_Open = (Ret (Ok d), tr') /\ @device_ok sample_kernel (open_fds []) 2 d tr'.
Proof.
  pose proof (@Open_fds little sample_kernel 4 (fun _ => None) 8 sample_laws sample_options []) as HT.
  assert (Hb : is_device sample_Open.1 = true) by (vm_compute; reflexivity).
  unfold sample_Open in *. destruct (@Open _ _ _ _ _ _ _) as [[[d|e]| |] tr']; [|discriminate Hb..]. exists d, tr'. split; [reflexivity|exact HT].
Defined.

Lemma Open_configures_witness :
  exists d tr' idx, sample_Open = (Ret (Ok d), tr')
  /\ sent tr' = reverse (@configure_requests little (d_name d) idx 1500 PrefixZero (o_IPv6 sample_options))
  /\ @learned little (d_name d) idx [] tr'.
Proof.
  assert (Hb : is_device sample_Open.1 = true) by (vm_compute; reflexivity).
  unfold sample_Open in *. destruct (@Open _ _ _ _ _ _ _) as [[[d|e]| |] tr'] eqn:E; [|discriminate Hb..].
  assert (Hv6 : addr_ok (pf_addr (o_IPv6 sample_options))) by (split; [reflexivity|decide_closed]).
  destruct (@Open_configures little sample_kernel 4 (fun _ => None) 8 sample_laws sample_options [] d tr' I Hv6 E) as (_ & _ & idx & HS & HL).
  exists d, tr', idx. split; [reflexivity|]. split; [rewrite HS, app_nil_r; reflexivity|exact HL].
Defined.

(** An interface that cannot be configured leaves no descriptor open. *)
Example bad_prefix_closes :
  let r := @Open little sample_kernel 4 (fun _ => None) 8 (mkOptions [] 1400 0 (o_IPv6 sample_options) PrefixZero) [] in
  r.1 = Ret (Err (ConfigureErr (bs "tun0") (WrongFamily "IPv4" (o_IPv6 sample_options)))) /\ open_fds r.2 = ∅.
Proof. vm_compute. split; reflexivity. Qed.
