(* ===== verification/RequestCtx.v ===== *)
(** What travels with a request beside it: the certificate's device id
    ([internal/certctx]) and the redaction of group tokens in logged paths
    ([internal/logredact]). *)

From S2P Require Import Prelude HttpLib.

(** * Device id *)

(** [deviceIDKey]'s value in a context: absent, or any string. *)
Abbreviation DeviceCtx := (option (list Z)) (only parsing).
Definition WithDeviceID (ctx : DeviceCtx) (deviceID : gostring) : DeviceCtx := Some deviceID.
(** The id and its presence; an empty one counts as absent. *)
Definition FromContext (ctx : DeviceCtx) : option gostring :=
  match ctx with Some v => if is_nil v then None else Some v | None => None end.

Lemma FromContext_WithDeviceID ctx d : FromContext (WithDeviceID ctx d) = if is_nil d then None else Some d.
Proof. done. Qed.

(** * Redaction *)

Definition seg_drive : gostring := bs "drive".
Definition seg_access : gostring := bs "access".
Definition redacted : gostring := bs "[redacted]".

(** [parts[i+2]] is a token in [parts] as they are now. *)
Definition token_at (parts : list gostring) (i : nat) : bool :=
  bool_decide (parts !! i = Some seg_drive) && bool_decide (parts !! S i = Some seg_access)
  && negb (is_nil (default [] (parts !! S (S i)))).
(** The loop from [i] for [k] rounds. *)
Fixpoint redact_loop (k i : nat) (parts : list gostring) : list gostring :=
  match k with
  | O => parts
  | S k' => redact_loop k' (S i) (if token_at parts i then <[S (S i) := redacted]> parts else parts)
  end.
(** [i+2 < len(parts)] holds for [len(parts) - 2] rounds. *)
Definition redact (parts : list gostring) : list gostring := redact_loop (length parts - 2) 0 parts.
Definition GroupURLTokens (path : gostring) : gostring := join_byte slash (redact (split_byte slash path)).

(** ** Lemmas *)

Lemma split_byte_nonempty sep s : split_byte sep s <> [].
Proof. induction s as [|c s IH]; cbn; [done|]. destruct (c =? sep); [done|]. by destruct (split_byte sep s). Qed.
Lemma split_byte_parts sep s : Forall (fun p => sep ∉ p) (split_byte sep s).
Proof.
  induction s as [|c s IH]; cbn; [by repeat constructor; apply not_elem_of_nil|]. destruct (Z.eqb_spec c sep) as [->|Hc].
  - constructor; [apply not_elem_of_nil|done].
  - destruct (split_byte sep s) as [|p ps]; [by repeat constructor; rewrite list_elem_of_singleton|].
    inversion_clear IH. constructor; [|done]. by rewrite not_elem_of_cons.
Qed.
Lemma split_byte_single sep p : sep ∉ p -> split_byte sep p = [p].
Proof.
  induction p as [|c p IH]; cbn; [done|]. rewrite not_elem_of_cons. intros [Hc Hp]. rewrite (proj2 (Z.eqb_neq _ _)) by done.
  by rewrite IH.
Qed.
Lemma split_byte_app sep p s : sep ∉ p -> split_byte sep (p ++ sep :: s) = p :: split_byte sep s.
Proof.
  induction p as [|c p IH]; cbn; [by rewrite Z.eqb_refl|]. rewrite not_elem_of_cons. intros [Hc Hp].
  rewrite (proj2 (Z.eqb_neq _ _)) by done. by rewrite IH.
Qed.
(** Splitting undoes joining. *)
Lemma split_join sep ps : ps <> [] -> Forall (fun p => sep ∉ p) ps -> split_byte sep (join_byte sep ps) = ps.
Proof.
  induction ps as [|p ps IH]; [done|]. intros _ Hps. inversion_clear Hps as [|? ? Hp Hr]. destruct ps as [|q ps].
  - by apply split_byte_single.
  - cbn [join_byte] in *. rewrite split_byte_app by done. by rewrite IH.
Qed.
Lemma join_split sep s : join_byte sep (split_byte sep s) = s.
Proof.
  induction s as [|c s IH]; cbn; [done|]. pose proof (split_byte_nonempty sep s) as Hn. destruct (Z.eqb_spec c sep) as [->|Hc].
  - destruct (split_byte sep s) as [|p ps]; [done|]. cbn in *. by rewrite IH.
  - destruct (split_byte sep s) as [|p ps]; [done|]. destruct ps as [|q ps]; cbn in *; by rewrite IH.
Qed.

(** What a finished position looks like, for every position below [i]. *)
Definition clean_below (i : nat) (parts : list gostring) : Prop :=
  forall j seg, (j < i)%nat -> parts !! j = Some seg_drive -> parts !! S j = Some seg_access ->
    parts !! S (S j) = Some seg -> seg = [] \/ seg = redacted.
(** Each segment is the path's, or the redaction of one after both words. *)
Definition redacts (parts out : list gostring) : Prop :=
  length out = length parts
  /\ forall j seg, out !! j = Some seg -> parts !! j = Some seg
     \/ (seg = redacted /\ exists i, j = S (S i) /\ parts !! i = Some seg_drive /\ parts !! S i = Some seg_access).

Lemma redacts_refl parts : redacts parts parts.
Proof. split; [done|]. by left. Qed.
Lemma redacts_step parts out i :
  redacts parts out -> token_at out i = true -> redacts parts (<[S (S i) := redacted]> out).
Proof.
  intros [Hl Hr] Ht. unfold token_at in Ht. simpl_bool. split; [by rewrite length_insert|]. intros j seg Hj.
  destruct (decide (j = S (S i))) as [->|Hne].
  - destruct (decide (S (S i) < length out)%nat) as [Hlt|Hge].
    + rewrite list_lookup_insert_eq in Hj by done. injection Hj as <-. right. split; [done|]. exists i. split; [done|].
      repeat match goal with H : out !! _ = Some ?s |- _ => apply Hr in H as [H|[H _]]; [|by vm_compute in H] end. done.
    + rewrite list_insert_ge in Hj by lia. by apply lookup_lt_Some in Hj.
  - rewrite list_lookup_insert_ne in Hj by congruence. by apply Hr.
Qed.
Lemma clean_step parts i :
  clean_below i parts -> clean_below (S i) (if token_at parts i then <[S (S i) := redacted]> parts else parts).
Proof.
  intros Hc j seg Hj H1 H2 H3. destruct (token_at parts i) eqn:Ht; cbn [token_at] in Ht.
  - destruct (decide (S j = S (S i))); [lia|]. destruct (decide (j = S (S i))); [lia|].
    rewrite list_lookup_insert_ne in H1, H2 by congruence. destruct (decide (j = i)) as [->|].
    + right. unfold token_at in Ht. simpl_bool. destruct (parts !! S (S i)) as [p|] eqn:Ep; [|done].
      rewrite list_lookup_insert_eq in H3; [by injection H3 as <-|]. by apply lookup_lt_Some in Ep.
    + rewrite list_lookup_insert_ne in H3 by lia. by apply (Hc j); [lia|..].
  - destruct (decide (j = i)) as [->|]; [|by apply (Hc j); [lia|..]]. left.
    unfold token_at in Ht. rewrite H1, H2, H3, !bool_decide_eq_true_2 in Ht by done. cbn in Ht. simpl_bool. by apply is_nil_true.
Qed.
Lemma redact_loop_spec parts k i out :
  redacts parts out -> clean_below i out -> redacts parts (redact_loop k i out) /\ clean_below (i + k) (redact_loop k i out).
Proof.
  revert i out. induction k as [|k IH]; intros i out Hr Hc; cbn [redact_loop]; [by rewrite Nat.add_0_r|].
  rewrite <- Nat.add_succ_comm. apply IH; [|by apply clean_step].
  destruct (token_at out i) eqn:Ht; [by apply redacts_step|done].
Qed.
Lemma redact_spec parts : redacts parts (redact parts) /\ clean_below (length parts) (redact parts).
Proof.
  destruct (redact_loop_spec parts (length parts - 2) 0 parts (redacts_refl parts)) as [Hr Hc]; [intros ? ? ?; lia|].
  split; [done|]. intros j seg _ H1 H2 H3. apply (Hc j); [|done..]. apply lookup_lt_Some in H3. fold (redact parts) in *.
  destruct Hr as [Hl _]. lia.
Qed.
Lemma redact_parts parts : Forall (fun p => slash ∉ p) parts -> Forall (fun p => slash ∉ p) (redact parts).
Proof.
  intros Hp. rewrite Forall_lookup in Hp |- *. intros j seg Hj. destruct (redact_spec parts) as [[_ Hr] _].
  apply Hr in Hj as [Hj|[-> _]]; [by eapply Hp|]. unfold redacted, slash. cbn. set_solver.
Qed.

Lemma redact_clean parts k i : (forall j, clean_below j parts) -> redact_loop k i parts = parts.
Proof.
  intros Hc. revert i. induction k as [|k IH]; intros i; cbn [redact_loop]; [done|].
  destruct (token_at parts i) eqn:Ht; [|apply IH]. unfold token_at in Ht. simpl_bool.
  destruct (parts !! S (S i)) as [seg|] eqn:E; [|done].
  destruct (Hc (S i) i seg) as [->| ->]; [lia|done..|]. rewrite list_insert_id by done. apply IH.
Qed.

(** C30: Redaction is exact on segments: none is added or lost, each is the
    path's own unless it follows "drive" and "access" in the path, and in the
    result nothing but an empty segment or the mark follows the two words. So
    a path shows no token the routes read, and redacting again changes
    nothing. *)
Theorem GroupURLTokens_redacts path :
  redacts (split_byte slash path) (split_byte slash (GroupURLTokens path))
  /\ (forall j seg, let out := split_byte slash (GroupURLTokens path) in
        out !! j = Some seg_drive -> out !! S j = Some seg_access -> out !! S (S j) = Some seg -> seg = [] \/ seg = redacted)
  /\ GroupURLTokens (GroupURLTokens path) = GroupURLTokens path.
Proof.
  set (parts := split_byte slash path).
  assert (E : split_byte slash (GroupURLTokens path) = redact parts).
  { apply split_join; [|apply redact_parts, split_byte_parts]. destruct (redact_spec parts) as [[Hl _] _]. intros E0. rewrite E0 in Hl.
    unfold parts in Hl. pose proof (split_byte_nonempty slash path). by destruct (split_byte slash path). }
  destruct (redact_spec parts) as [Hr Hc]. rewrite E. split; [done|].
  assert (Hclean : forall j, clean_below j (redact parts)).
  { intros j j' seg _ H1 H2 H3. apply (Hc j'); [|done..]. apply lookup_lt_Some in H3. destruct Hr as [Hl _]. lia. }
  split; [intros j seg out H1 H2 H3; by apply (Hclean (S j) j); [lia|..]|].
  unfold GroupURLTokens at 1. rewrite E. unfold redact at 1. by rewrite redact_clean.
Qed.

(** The words are looked for in the path as redacted so far, so a second group
    that starts inside the first one's token keeps its own. *)
Example nested_token_kept : GroupURLTokens (bs "/drive/access/drive/access/token") = bs "/drive/access/[redacted]/access/token".
Proof. vm_compute. reflexivity. Qed.
