(* ===== verification/Udsserve.v ===== *)
(** The CSTP bridge of [internal/udsserve]: the handoff's records as the
    request's metadata ([info.go], [serve.go]), the middleware in front of the
    CSTP server ([middleware.go]), and the queue between the stream listener
    and [http.Server] with the wrapped connections that pass through it
    ([conn.go]), as interleaved steps of the goroutines that share them. *)

From S2P Require Import Prelude Netip Utf8 Tlv Reader Handoff Datagram Stream Auth HttpLib RequestCtx CstpSessions CstpConfig CstpHttp.

(** * Metadata *)

Record HandoffInfo := mkInfo {
  hi_DeviceID : gostring;
  hi_SubjectDN : gostring;
  hi_UserID : gostring;
  hi_Token : bytes;
  hi_SourceHintV6 : Addr;
  hi_TraceID : gostring;
  hi_OrigSNI : gostring;
  hi_ALPNDetail : gostring;
  hi_ClientSrc : AddrPort;
  hi_OriginalDst : AddrPort
}.

(** The value of a record when it is there and not empty. *)
Definition record_string (h : HeaderV2) (t : Z) : gostring := default [] (Lookup h t).

Definition buildHandoffInfo (acc : AcceptedStream) : result gostring HandoffInfo :=
  let h := asHeader acc in
  let dn := record_string h EraTLVMTLSSubjectDN in
  if is_nil dn then Err (bs "missing ERA_TLV_MTLS_SUBJECT_DN (0xED)")
  else
    let token := record_string h EraTLVToken in
    let hint := record_string h EraTLVSourceHintV6 in
    Ok (mkInfo (record_string h EraTLVDeviceID) dn (lfUserID (asFields acc))
          (if (length token =? 12)%nat then token else [])
          (if (length hint =? 16)%nat then AddrFrom16 hint else AddrNone)
          (lfTraceID (asFields acc)) (record_string h EraTLVOrigSNI) (record_string h EraTLVALPNDetail)
          (hSrc h) (hDst h)).

(** The request context: the handoff's metadata and the device id. [None] is a
    missing or a nil value. *)
Record Ctx := mkCtx { ctx_info : option HandoffInfo; ctx_device : DeviceCtx }.
Definition Background : Ctx := mkCtx None None.
Definition contextWithInfo (ctx : Ctx) (info : option HandoffInfo) : Ctx := mkCtx info (ctx_device ctx).
Definition info_FromContext (ctx : Ctx) : option HandoffInfo := ctx_info ctx.
Definition with_device (ctx : Ctx) (d : gostring) : Ctx := mkCtx (ctx_info ctx) (WithDeviceID (ctx_device ctx) d).

(** * The middleware *)

(** A handler's answer to a request in a context. *)
Definition Handler : Type := Ctx -> Request -> Outcome.

Definition auth_err_text (e : AuthErr) : gostring :=
  match e with ErrInvalidSubjectDN => bs "invalid subject DN" | _ => bs "device id not present in subject DN" end.

(** The answer and the log, an error as its class. *)
Definition wrapHandler (next : Handler) (ctx : Ctx) (r : Request) : Outcome * list LogEntry :=
  match info_FromContext ctx with
  | None => (http_Error ∅ (bs "missing UDS handoff info") 500, [])
  | Some info =>
    match DeviceIDFromSubjectDN (hi_SubjectDN info) with
    | Err e =>
      (match e with
       | ErrInvalidSubjectDN => http_Error ∅ (bs "invalid subject DN") 400
       | _ => http_Error ∅ (bs "device id not present in subject DN") 401
       end,
       [mkLog LevelWarn (bs "uds handoff subject DN invalid")
          [(bs "trace_id", AString (hi_TraceID info)); (bs "subject_dn", AString (hi_SubjectDN info)); (bs "err", AString (auth_err_text e))]])
    | Ok deviceID =>
      (next (with_device ctx deviceID) r,
       [mkLog LevelDebug (bs "uds handoff serving request")
          [(bs "trace_id", AString (hi_TraceID info)); (bs "device_id", AString deviceID); (bs "user_id", AString (hi_UserID info));
           (bs "method", AString (rq_Method r)); (bs "path", AString (GroupURLTokens (rq_Path r)))]])
    end
  end.

(** [ConnContext]: the context of the requests of a connection, a wrapped one
    or any other. *)
Definition ConnContext (ctx : Ctx) (wrapped : option HandoffInfo) : Ctx :=
  match wrapped with Some info => contextWithInfo ctx (Some info) | None => ctx end.

(** * Wrapped connections *)

(** The steps of [Close]: the flag is taken, the connection closed, [done]
    closed. *)
Inductive CloseStage : Type := WOpen | WClosing | WConnClosed | WDone.
(** The stream still to read, what was written, the counters. *)
Record handoffConn := mkHC {
  hc_br : Reader; hc_out : bytes; hc_info : HandoffInfo; hc_rx : Z; hc_tx : Z; hc_stage : CloseStage }.

Definition newHandoffConn (acc : AcceptedStream) (info : HandoffInfo) : handoffConn :=
  mkHC (asReader acc) (asWritten acc) info 0 0 WOpen.
(** [Read] when the buffered reader returns [n] bytes, [Write] when the
    connection takes the first [n] bytes. *)
Definition hc_Read (c : handoffConn) (n : nat) : bytes * handoffConn :=
  let p := take n (rd_data (hc_br c)) in
  (p, mkHC (mkReader (drop n (rd_data (hc_br c))) (rd_err (hc_br c))) (hc_out c) (hc_info c)
        (if (0 <? length p)%nat then i64 (hc_rx c + Z.of_nat (length p)) else hc_rx c) (hc_tx c) (hc_stage c)).
Definition hc_Write (c : handoffConn) (p : bytes) (n : nat) : nat * handoffConn :=
  let q := take n p in
  (length q, mkHC (hc_br c) (hc_out c ++ q) (hc_info c) (hc_rx c)
        (if (0 <? length q)%nat then i64 (hc_tx c + Z.of_nat (length q)) else hc_tx c) (hc_stage c)).
Definition set_stage (s : CloseStage) (c : handoffConn) : handoffConn :=
  mkHC (hc_br c) (hc_out c) (hc_info c) (hc_rx c) (hc_tx c) s.

(** * The bridge *)

(** Where a stream's handler is: before [push] tests the flag, before it
    sends, told to drop the connection, waiting for [done], returned. *)
Inductive Phase : Type := HPush | HSend | HDrop | HWait | HReturned (err : option gostring) | HPanicked.
(** [connQueue.closed] and the channel: [Close] sets the flag first. *)
Inductive QueueState : Type := QOpen | QFlagged | QClosed.
#[export] Instance QueueState_eq_dec : EqDecision QueueState.
Proof. solve_decision. Defined.
(** [Server.Close]: not called, after the queue, after [Shutdown], in the
    [Close] of the stream listener, waiting for [Serve], returned. *)
Inductive CloseState : Type := CNone | CQueue | CShutdown | CUds | CServe | CDone.
(** [StreamListener.Close]: the flag [closing] is free, taken (by [Server.Close]
    or by the goroutine that watches the context) with handlers to wait for,
    every goroutine of the listener has ended. *)
Inductive UdsState : Type := UOpen | UClosing (by_server : bool) | UWaited (by_server : bool).
(** [httpSrv.Serve]: its goroutine has not come to it, it accepts, it found the
    server shut down before it began, it returned at the end of the queue. *)
Inductive ServeState : Type := VStarting | VServing | VRefused | VReturned.
#[export] Instance CloseState_eq_dec : EqDecision CloseState.
Proof. solve_decision. Defined.
#[export] Instance UdsState_eq_dec : EqDecision UdsState.
Proof. solve_decision. Defined.
#[export] Instance ServeState_eq_dec : EqDecision ServeState.
Proof. solve_decision. Defined.

Record state := mkState {
  st_queue : QueueState;
  st_chan : list nat;                  (* the channel's buffer *)
  st_serve : ServeState;
  st_conns : gmap nat handoffConn;
  st_phases : gmap nat Phase;
  st_next : nat;
  st_close : CloseState;
  st_uds : UdsState;
  st_pushed : list nat;                (* every connection sent, every one accepted: history *)
  st_accepted : list nat
}.
Definition new_server : state := mkState QOpen [] VStarting ∅ ∅ 0 CNone UOpen [] [].

Definition DefaultSocketPath : gostring := bs "/var/run/era-facade/handoffs/anyconnect-cstp.sock".
Record Options := mkOptions { op_SocketPath : gostring; op_Logger : bool; op_Handler : bool; op_ReadHeaderTimeout : Z; op_Prebound : bool }.
Inductive ListenErr : Type := HandlerRequired | LoggerRequired | NotRegistered | ListenStreamErr (err : Datagram.ListenErr).
(** The path and the header timeout in force, and the server as it starts;
    [bind] is the answer of the socket. *)
Definition Listen (opts : Options) (bind : option gostring) : result ListenErr (gostring * Z * state) :=
  if negb (op_Handler opts) then Err HandlerRequired
  else if negb (op_Logger opts) then Err LoggerRequired
  else
    let path := if is_nil (op_SocketPath opts) then DefaultSocketPath else op_SocketPath opts in
    let timeout := if op_ReadHeaderTimeout opts <=? 0 then 10 * 1000000000 else op_ReadHeaderTimeout opts in
    match LookupProtocol ProtoAnyConnectCSTP with
    | None => Err NotRegistered
    | Some spec =>
      match ListenStream (Some spec) (op_Logger opts) true 0 (op_Prebound opts) bind with
      | Err e => Err (ListenStreamErr e)
      | Ok _ => Ok (path, timeout, new_server)
      end
    end.

Definition set_queue (q : QueueState) (s : state) : state :=
  mkState q (st_chan s) (st_serve s) (st_conns s) (st_phases s) (st_next s) (st_close s) (st_uds s) (st_pushed s) (st_accepted s).
Definition set_close (c : CloseState) (s : state) : state :=
  mkState (st_queue s) (st_chan s) (st_serve s) (st_conns s) (st_phases s) (st_next s) c (st_uds s) (st_pushed s) (st_accepted s).
Definition set_uds (u : UdsState) (s : state) : state :=
  mkState (st_queue s) (st_chan s) (st_serve s) (st_conns s) (st_phases s) (st_next s) (st_close s) u (st_pushed s) (st_accepted s).
Definition set_serve (v : ServeState) (s : state) : state :=
  mkState (st_queue s) (st_chan s) v (st_conns s) (st_phases s) (st_next s) (st_close s) (st_uds s) (st_pushed s) (st_accepted s).
Definition set_phase (i : nat) (p : Phase) (s : state) : state :=
  mkState (st_queue s) (st_chan s) (st_serve s) (st_conns s) (<[i := p]> (st_phases s)) (st_next s) (st_close s) (st_uds s) (st_pushed s) (st_accepted s).
Definition set_conn (i : nat) (c : handoffConn) (s : state) : state :=
  mkState (st_queue s) (st_chan s) (st_serve s) (<[i := c]> (st_conns s)) (st_phases s) (st_next s) (st_close s) (st_uds s) (st_pushed s) (st_accepted s).

Definition queue_cap : nat := 64.
Definition msg_full : gostring := bs "udsserve: http.Server accept queue closed or full".

(** [handle] up to [push]: the stream's number, and its wrapper when there is
    one. *)
Definition start_stream (acc : AcceptedStream) (s : state) : state :=
  let i := st_next s in
  let s := mkState (st_queue s) (st_chan s) (st_serve s) (st_conns s) (st_phases s) (S i) (st_close s) (st_uds s) (st_pushed s) (st_accepted s) in
  match buildHandoffInfo acc with
  | Err e => set_phase i (HReturned (Some e)) s
  | Ok info => set_conn i (newHandoffConn acc info) (set_phase i HPush s)
  end.
(** [q.closed.Load()] *)
Definition push_load (i : nat) (s : state) : state :=
  set_phase i (match st_queue s with QOpen => HSend | _ => HDrop end) s.
(** The [select]: a send on a closed channel panics. *)
Definition push_send (i : nat) (s : state) : state :=
  match st_queue s with
  | QClosed => set_phase i HPanicked s
  | _ =>
    if (length (st_chan s) <? queue_cap)%nat
    then set_phase i HWait
           (mkState (st_queue s) (st_chan s ++ [i]) (st_serve s) (st_conns s) (st_phases s) (st_next s) (st_close s) (st_uds s)
              (st_pushed s ++ [i]) (st_accepted s))
    else set_phase i HDrop s
  end.
(** [hc.Close()] of a connection nobody else has seen, and the error. *)
Definition drop_conn (i : nat) (c : handoffConn) (s : state) : state :=
  set_phase i (HReturned (Some msg_full)) (set_conn i (set_stage WDone c) s).
(** [Accept] with a connection waiting. *)
Definition accept_conn (i : nat) (rest : list nat) (s : state) : state :=
  mkState (st_queue s) rest (st_serve s) (st_conns s) (st_phases s) (st_next s) (st_close s) (st_uds s) (st_pushed s) (st_accepted s ++ [i]).
Definition finished (p : Phase) : bool := match p with HReturned _ | HPanicked => true | _ => false end.
Definition all_finished (s : state) : Prop := map_Forall (fun _ p => finished p = true) (st_phases s).
Definition uds_waited (s : state) : bool := match st_uds s with UWaited _ => true | _ => false end.
(** [s.uds.Close()] of [Server.Close]: when the flag is taken, it returns. *)
Definition uds_close (s : state) : state :=
  match st_uds s with
  | UOpen => set_close CUds (set_uds (UClosing true) s)
  | _ => set_close CServe s
  end.
Definition next_stage (c : CloseStage) : CloseStage :=
  match c with WOpen => WClosing | WClosing => WConnClosed | _ => WDone end.

(** What the connection's owner, [http.Server] or the tunnel, does with it. *)
Inductive ConnUse : handoffConn -> handoffConn -> Prop :=
| use_read c n p c' : hc_Read c n = (p, c') -> ConnUse c c'
| use_write c q n k c' : hc_stage c = WOpen \/ hc_stage c = WClosing -> hc_Write c q n = (k, c') -> ConnUse c c'
| use_close c : ConnUse c (set_stage (next_stage (hc_stage c)) c).

(** A stream the listener accepted before it closed may still reach its
    handler, and is waited for. [Serve] returns at the end of the closed queue,
    or at once when [Shutdown] came before it. *)
Inductive step (s : state) : state -> Prop :=
| step_stream acc : uds_waited s = false -> step s (start_stream acc s)
| step_load i : st_phases s !! i = Some HPush -> step s (push_load i s)
| step_send i : st_phases s !! i = Some HSend -> step s (push_send i s)
| step_drop i c : st_phases s !! i = Some HDrop -> st_conns s !! i = Some c -> step s (drop_conn i c s)
| step_serve : st_serve s = VStarting -> st_close s ∈ [CNone; CQueue] -> step s (set_serve VServing s)
| step_refuse : st_serve s = VStarting -> st_close s <> CNone -> step s (set_serve VRefused s)
| step_accept i rest : st_serve s = VServing -> st_chan s = i :: rest -> step s (accept_conn i rest s)
| step_serve_end : st_serve s = VServing -> st_chan s = [] -> st_queue s = QClosed -> step s (set_serve VReturned s)
| step_use i c c' : i ∈ st_accepted s -> st_conns s !! i = Some c -> ConnUse c c' -> step s (set_conn i c' s)
| step_release i c : st_phases s !! i = Some HWait -> st_conns s !! i = Some c -> hc_stage c = WDone -> step s (set_phase i (HReturned None) s)
| step_close_flag : st_close s = CNone -> st_queue s = QOpen -> step s (set_queue QFlagged s)
| step_close_chan : st_close s = CNone -> st_queue s = QFlagged -> step s (set_close CQueue (set_queue QClosed s))
| step_shutdown : st_close s = CQueue -> step s (set_close CShutdown s)
| step_ctx_close : st_uds s = UOpen -> step s (set_uds (UClosing false) s)
| step_uds_close : st_close s = CShutdown -> step s (uds_close s)
| step_uds_waited b : st_uds s = UClosing b -> all_finished s -> step s (set_uds (UWaited b) s)
| step_uds_closed : st_close s = CUds -> st_uds s = UWaited true -> step s (set_close CServe s)
| step_close_done : st_close s = CServe -> st_serve s ∈ [VRefused; VReturned] -> step s (set_close CDone s).

Inductive reach : state -> Prop :=
| reach_listen : reach new_server
| reach_step s s' : reach s -> step s s' -> reach s'.

(** * The invariant *)

Definition stage_of (s : state) (i : nat) : option CloseStage := hc_stage <$> st_conns s !! i.
(** What a handler's place says of its stream. *)
Definition stream_ok (s : state) (i : nat) (p : Phase) : Prop :=
  match p with
  | HPush | HSend | HDrop => i ∉ st_pushed s /\ stage_of s i = Some WOpen
  | HWait => i ∈ st_pushed s /\ is_Some (stage_of s i)
  | HReturned None => i ∈ st_pushed s /\ stage_of s i = Some WDone
  | HReturned (Some _) => i ∉ st_pushed s
  | HPanicked => i ∉ st_pushed s /\ stage_of s i = Some WOpen /\ st_queue s = QClosed
  end.
Definition serve_ok (s : state) : Prop :=
  match st_serve s with
  | VStarting | VRefused => st_accepted s = []
  | VServing => True
  | VReturned => st_chan s = [] /\ st_queue s = QClosed
  end.
(** Who took the listener's flag by the time [Server.Close] is at a point. *)
Definition close_ok (s : state) : Prop :=
  match st_close s with
  | CUds => st_uds s ∈ [UClosing true; UWaited true]
  | CServe => st_uds s ∈ [UWaited true; UClosing false; UWaited false]
  | CDone => st_uds s ∈ [UWaited true; UClosing false; UWaited false] /\ st_serve s ∈ [VRefused; VReturned]
  | _ => st_uds s ∈ [UOpen; UClosing false; UWaited false]
  end.
Record inv (s : state) : Prop := {
  v_split : st_pushed s = st_accepted s ++ st_chan s;
  v_nodup : NoDup (st_pushed s);
  v_cap : (length (st_chan s) <= queue_cap)%nat;
  v_stream : map_Forall (stream_ok s) (st_phases s);
  v_chan : Forall (fun i => st_phases s !! i = Some HWait /\ stage_of s i = Some WOpen) (st_chan s);
  v_pushed : Forall (fun i => is_Some (st_phases s !! i)) (st_pushed s);
  v_fresh : forall i, is_Some (st_phases s !! i) -> (i < st_next s)%nat;
  v_serve : serve_ok s;
  v_close : st_close s <> CNone -> st_queue s = QClosed;
  v_waited : uds_waited s = true -> all_finished s;
  v_uds : close_ok s
}.

Lemma stage_set_conn s i c j : stage_of (set_conn i c s) j = if decide (i = j) then Some (hc_stage c) else stage_of s j.
Proof. unfold stage_of, set_conn; cbn. case_decide as E; [subst; by rewrite lookup_insert_eq|by rewrite lookup_insert_ne]. Qed.
Lemma stream_frame s s' i p :
  stream_ok s i p -> (i ∈ st_pushed s' <-> i ∈ st_pushed s) -> stage_of s' i = stage_of s i ->
  (st_queue s = QClosed -> st_queue s' = QClosed) -> stream_ok s' i p.
Proof. intros Hok Hp Hst Hq. destruct p as [| | | |[]|]; cbn in *; rewrite ?Hst; tauto. Qed.

(** A handler that moves on leaves what the others rely on. *)
Lemma inv_phase s i p q :
  inv s -> st_phases s !! i = Some p -> stream_ok s i q -> i ∉ st_chan s -> (uds_waited s = true -> finished q = true) ->
  inv (set_phase i q s).
Proof.
  intros [V1 V2 V3 V4 V5 V6 V7 V8 V9 V10 V11] Hp Hq Hc Hd. split; cbn [set_phase st_pushed st_accepted st_chan st_phases st_next st_serve st_queue st_close st_uds]; try done.
  - apply map_Forall_insert_2; done.
  - rewrite Forall_forall in V5 |- *. intros j Hj. destruct (V5 j Hj). rewrite lookup_insert_ne by (intros ->; done). done.
  - rewrite Forall_forall in V6 |- *. intros j Hj. destruct (decide (i = j)) as [->|]; [rewrite lookup_insert_eq; eauto|rewrite lookup_insert_ne by done; by apply V6].
  - intros j. destruct (decide (i = j)) as [->|]; [intros _; apply V7; eauto|rewrite lookup_insert_ne by done; apply V7].
  - intros H. apply map_Forall_insert_2; [by apply Hd|by apply V10].
Qed.

Lemma inv_not_chan s i p : inv s -> st_phases s !! i = Some p -> p <> HWait -> i ∉ st_chan s.
Proof.
  intros V Hp Hne Hi. pose proof (v_chan _ V) as HC. rewrite Forall_forall in HC. destruct (HC i Hi). congruence.
Qed.
Lemma inv_not_done s i p : inv s -> st_phases s !! i = Some p -> finished p = false -> uds_waited s <> true.
Proof. intros V Hp Hf Hd. specialize (v_waited _ V Hd i p Hp). congruence. Qed.

Lemma inv_start_stream acc s : inv s -> uds_waited s = false -> inv (start_stream acc s).
Proof.
  intros [V1 V2 V3 V4 V5 V6 V7 V8 V9 V10 V11] Hd. unfold start_stream. set (i := st_next s).
  assert (Hn : st_phases s !! i = None).
  { destruct (st_phases s !! i) eqn:E; [|done]. specialize (V7 i). rewrite E in V7. specialize (V7 ltac:(eauto)). lia. }
  assert (Hp : i ∉ st_pushed s).
  { intros Hi. rewrite Forall_forall in V6. apply V6 in Hi as [? Hi]. congruence. }
  assert (Hne : forall j p, st_phases s !! j = Some p -> i <> j) by congruence.
  destruct (buildHandoffInfo acc) as [info|e]; split;
    cbn [set_conn set_phase st_pushed st_accepted st_chan st_phases st_next st_serve st_queue st_close st_uds]; try done;
    try (intros Hw; change (uds_waited s = true) in Hw; congruence);
    try (rewrite Forall_forall in V6 |- *; intros j Hj; destruct (V6 j Hj) as [p Ep]; rewrite lookup_insert_ne by eauto; eauto);
    try (intros j; destruct (decide (i = j)) as [->|]; [lia|rewrite lookup_insert_ne by done; intros Hj; specialize (V7 j Hj); lia]).
  - apply map_Forall_insert_2; [split; [done|]; unfold stage_of; cbn; by rewrite lookup_insert_eq|].
    intros j p Hj. eapply stream_frame; [by apply V4|done| |done]. unfold stage_of; cbn. rewrite lookup_insert_ne by eauto. done.
  - rewrite Forall_forall in V5 |- *. intros j Hj. destruct (V5 j Hj) as [H1 H2]. rewrite lookup_insert_ne by eauto. split; [done|].
    unfold stage_of in *; cbn. by rewrite lookup_insert_ne by eauto.
  - apply map_Forall_insert_2; [done|]. intros j p Hj. eapply stream_frame; [by apply V4|done..].
  - rewrite Forall_forall in V5 |- *. intros j Hj. destruct (V5 j Hj) as [H1 H2]. by rewrite lookup_insert_ne by eauto.
Qed.

Lemma inv_push_load i s : inv s -> st_phases s !! i = Some HPush -> inv (push_load i s).
Proof.
  intros V Hi. pose proof (v_stream _ V i _ Hi) as Hok. pose proof (inv_not_done _ _ _ V Hi eq_refl).
  unfold push_load. eapply inv_phase; [done|done| |by eapply inv_not_chan|done]. by destruct (st_queue s).
Qed.

(** A stream sent into the channel. *)
Lemma inv_send i s :
  inv s -> st_phases s !! i = Some HSend -> st_queue s <> QClosed -> (length (st_chan s) < queue_cap)%nat -> inv (push_send i s).
Proof.
  intros V Hi Hq Hl. pose proof (v_stream _ V i _ Hi) as [Hnp Hst]. pose proof (inv_not_done _ _ _ V Hi eq_refl) as Hd.
  assert (HE : push_send i s = set_phase i HWait (mkState (st_queue s) (st_chan s ++ [i]) (st_serve s) (st_conns s) (st_phases s)
    (st_next s) (st_close s) (st_uds s) (st_pushed s ++ [i]) (st_accepted s))).
  { unfold push_send. rewrite (proj2 (Nat.ltb_lt _ _) Hl). by destruct (st_queue s). }
  rewrite HE. destruct V as [V1 V2 V3 V4 V5 V6 V7 V8 V9 V10 V11].
  split; cbn [set_phase st_pushed st_accepted st_chan st_phases st_next st_serve st_queue st_close st_uds]; try done.
  - by rewrite V1, app_assoc.
  - apply NoDup_app. split; [done|]. split; [|by apply NoDup_singleton]. intros j Hj Hj'. apply list_elem_of_singleton in Hj' as ->. done.
  - rewrite length_app. cbn. lia.
  - intros j p Hj. destruct (decide (i = j)) as [->|Hne].
    + rewrite lookup_insert_eq in Hj. injection Hj as <-. split; [cbn; apply elem_of_app; right; by left|]. unfold stage_of in *; cbn. by rewrite Hst.
    + rewrite lookup_insert_ne in Hj by done. eapply stream_frame; [by apply V4| |done..]. cbn. rewrite elem_of_app, list_elem_of_singleton. naive_solver.
  - apply Forall_app. split; [|constructor; [|done]; by rewrite lookup_insert_eq].
    rewrite Forall_forall in V5 |- *. intros j Hj. destruct (V5 j Hj) as [H1 H2]. rewrite lookup_insert_ne by congruence. done.
  - apply Forall_app. split; [|constructor; [|done]; rewrite lookup_insert_eq; eauto].
    rewrite Forall_forall in V6 |- *. intros j Hj. rewrite lookup_insert_ne by (intros ->; done). by apply V6.
  - intros j. destruct (decide (i = j)) as [->|]; [intros _; apply V7; eauto|rewrite lookup_insert_ne by done; apply V7].
  - unfold serve_ok in *. cbn. destruct (st_serve s); try done. by destruct V8.
Qed.
Lemma inv_push_send i s : inv s -> st_phases s !! i = Some HSend -> inv (push_send i s).
Proof.
  intros V Hi. pose proof (v_stream _ V i _ Hi) as Hok. pose proof (inv_not_done _ _ _ V Hi eq_refl) as Hd.
  assert (Hn : i ∉ st_chan s) by (by eapply inv_not_chan).
  destruct (decide (st_queue s = QClosed)) as [Eq|Eq].
  - unfold push_send. rewrite Eq. eapply inv_phase; [done|done| |done|done]. destruct Hok. done.
  - destruct (decide (length (st_chan s) < queue_cap)%nat) as [Hl|Hl]; [by apply inv_send|].
    assert (HE : push_send i s = set_phase i HDrop s).
    { unfold push_send. rewrite (proj2 (Nat.ltb_ge _ _)) by lia. by destruct (st_queue s). }
    rewrite HE. by eapply inv_phase.
Qed.

Lemma inv_drop i c s : inv s -> st_phases s !! i = Some HDrop -> st_conns s !! i = Some c -> inv (drop_conn i c s).
Proof.
  intros V Hi Hc. pose proof (v_stream _ V i _ Hi) as [Hnp Hst]. pose proof (inv_not_done _ _ _ V Hi eq_refl) as Hd.
  assert (Hn : i ∉ st_chan s) by (by eapply inv_not_chan).
  assert (V' : inv (set_phase i (HReturned (Some msg_full)) s)) by (by eapply inv_phase).
  unfold drop_conn. destruct V' as [V1 V2 V3 V4 V5 V6 V7 V8 V9 V10 V11].
  split; cbn [set_phase set_conn st_pushed st_accepted st_chan st_phases st_next st_serve st_queue st_close st_uds] in *; try done.
  - intros j p Hj. destruct (decide (i = j)) as [->|Hne]; [rewrite lookup_insert_eq in Hj; by injection Hj as <-|].
    eapply stream_frame; [by apply V4|done| |done]. unfold stage_of; cbn. by rewrite lookup_insert_ne.
  - rewrite Forall_forall in V5 |- *. intros j Hj. destruct (V5 j Hj) as [H1 H2]. split; [done|].
    unfold stage_of in *; cbn in *. by rewrite lookup_insert_ne by congruence.
Qed.

(** A connection's owner has accepted it, so it is no longer in the channel. *)
Lemma accepted_not_chan s i : inv s -> i ∈ st_accepted s -> i ∉ st_chan s.
Proof.
  intros V Hi Hc. pose proof (v_nodup _ V) as Hn. rewrite (v_split _ V) in Hn. apply NoDup_app in Hn as (_ & Hn & _). by apply (Hn i).
Qed.

Lemma inv_use i c c' s :
  inv s -> i ∈ st_accepted s -> st_conns s !! i = Some c -> hc_stage c' = hc_stage c \/ hc_stage c <> WDone -> inv (set_conn i c' s).
Proof.
  intros V Hi Hc Hs. pose proof (accepted_not_chan s i V Hi) as Hn.
  assert (Hp : i ∈ st_pushed s) by (rewrite (v_split _ V); apply elem_of_app; by left).
  destruct V as [V1 V2 V3 V4 V5 V6 V7 V8 V9 V10 V11].
  split; cbn [set_conn st_pushed st_accepted st_chan st_phases st_next st_serve st_queue st_close st_uds]; try done.
  - intros j p Hj. destruct (decide (i = j)) as [<-|Hne].
    + specialize (V4 i p Hj). destruct p as [| | | |[]|]; try (by destruct V4).
      * destruct V4. split; [done|]. rewrite stage_set_conn, decide_True by done. eauto.
      * destruct V4 as [_ V4]. split; [done|]. rewrite stage_set_conn, decide_True by done. unfold stage_of in V4. rewrite Hc in V4.
        cbn in V4. destruct Hs as [->|Hs]; [done|congruence].
    + eapply stream_frame; [by apply V4|done| |done]. by rewrite stage_set_conn, decide_False.
  - rewrite Forall_forall in V5 |- *. intros j Hj. destruct (V5 j Hj) as [H1 H2]. split; [done|].
    by rewrite stage_set_conn, decide_False by (intros ->; done).
Qed.

Lemma inv_accept i rest s : inv s -> st_serve s = VServing -> st_chan s = i :: rest -> inv (accept_conn i rest s).
Proof.
  intros [V1 V2 V3 V4 V5 V6 V7 V8 V9 V10 V11] HS Hc. rewrite Hc in *. inversion_clear V5 as [|? ? V5a V5b].
  split; cbn [accept_conn st_pushed st_accepted st_chan st_phases st_next st_serve st_queue st_close st_uds]; try done.
  - by rewrite V1, <- app_assoc.
  - cbn in V3. lia.
  - unfold serve_ok. cbn. by rewrite HS.
Qed.

(** A step that touches neither a handler nor a connection. *)
Lemma inv_frame s s' :
  inv s -> (st_chan s', st_conns s', st_phases s', st_next s', st_pushed s', st_accepted s')
    = (st_chan s, st_conns s, st_phases s, st_next s, st_pushed s, st_accepted s) ->
  (st_queue s = QClosed -> st_queue s' = QClosed) -> (st_close s' <> CNone -> st_queue s' = QClosed) ->
  serve_ok s' -> (uds_waited s' = true -> all_finished s) -> close_ok s' -> inv s'.
Proof.
  intros [V1 V2 V3 V4 V5 V6 V7 V8 V9 V10 V11] [= E1 E2 E3 E4 E5 E6] Hq Hc Hv Hw Hu.
  split; rewrite ?E1, ?E3, ?E4, ?E5, ?E6; try done.
  - intros j p Hj. eapply stream_frame; [by apply V4|by rewrite E5| |done]. unfold stage_of. by rewrite E2.
  - unfold stage_of. by rewrite E2.
  - unfold all_finished. by rewrite E3.
Qed.

Lemma use_stage c c' : ConnUse c c' -> hc_stage c' = hc_stage c \/ hc_stage c <> WDone.
Proof.
  destruct 1 as [c n p c' E|c q n k c' _ E|c]; [left; by injection E as <- <-|left; by injection E as <- <-|]. cbn.
  destruct (hc_stage c); auto.
Qed.

(** A step of [Serve], [Server.Close] or [StreamListener.Close]. *)
Ltac close_step V :=
  apply (inv_frame _ _ V); [done|..];
  pose proof (v_serve _ V); pose proof (v_close _ V); pose proof (v_waited _ V); pose proof (v_uds _ V);
  unfold close_ok, serve_ok, uds_waited in *; cbn in *.

Lemma queue_step_inv s s' : inv s -> step s s' -> inv s'.
Proof.
  intros V. destruct 1 as [acc Hd|i Hi|i Hi|i c Hi Hc|HS Hc|HS Hc|i rest HS Hc|HS Hc Hq|i c c' Hi Hc Hu|i c Hi Hc Hs
    |Hc Hq|Hc Hq|Hc|Hu|Hc|b Hu Hf|Hc Hu|Hc Hu].
  - by apply inv_start_stream.
  - by apply inv_push_load.
  - by apply inv_push_send.
  - by apply inv_drop.
  - close_step V; try done. destruct (st_close s); set_solver.
  - close_step V; try done; [by rewrite HS in *|]. destruct (st_close s); set_solver.
  - by apply inv_accept.
  - close_step V; try done. destruct (st_close s); set_solver.
  - eapply inv_use; [done..|]. by apply use_stage.
  - pose proof (v_stream _ V i _ Hi) as [Hp _]. eapply inv_phase; [done|done| | |done].
    + split; [done|]. unfold stage_of. rewrite Hc. cbn. by rewrite Hs.
    + intros Hch. pose proof (v_chan _ V) as HC. rewrite Forall_forall in HC. destruct (HC i Hch) as [_ HW].
      unfold stage_of in HW. rewrite Hc in HW. cbn in HW. congruence.
  - close_step V; try done; [congruence|]. destruct (st_serve s); try done. destruct H; congruence.
  - close_step V; try done; [|by rewrite Hc in *]. destruct (st_serve s); try done. by destruct H.
  - close_step V; try done; [|by rewrite Hc in *]. intros _. apply H0. congruence.
  - close_step V; try done. rewrite Hu in *. destruct (st_close s); set_solver.
  - unfold uds_close. destruct (st_uds s) eqn:Eu; close_step V; try done; try (intros _; apply H0; congruence);
      rewrite ?Hc, ?Eu in *; set_solver.
  - close_step V; try done. rewrite Hu in *. destruct (st_close s), b; set_solver.
  - close_step V; try done; [intros _; apply H0; congruence|]. rewrite Hu. set_solver.
  - close_step V; try done; [intros _; apply H0; congruence|]. rewrite Hc in *. done.
Qed.
Lemma reach_inv s : reach s -> inv s.
Proof.
  induction 1 as [|s s' _ IH Hs]; [|by eapply queue_step_inv]. split; cbn; try done; try constructor.
  - unfold queue_cap. lia.
  - intros i [? Hi]. by rewrite lookup_empty in Hi.
Qed.

(** * Properties *)

(** [Listen] needs its handler, its logger and its socket, nothing else. *)
Lemma Listen_ok opts bind :
  is_ok (Listen opts bind) = op_Handler opts && op_Logger opts && (op_Prebound opts || match bind with None => true | Some _ => false end).
Proof.
  unfold Listen. rewrite lookup_cstp. unfold ListenStream. change (bool_decide (spL4 cstp_spec = bs "tcp")) with true. cbn [negb].
  by destruct (op_Handler opts), (op_Logger opts), (op_Prebound opts), bind.
Qed.

(** ** What the framework guarantees of a stream *)

(** The last record of each type, which is the only one. *)
Lemma FromTLVs_ids f ts :
  NoDup (map tlv_type ts) ->
  lfUserID (FromTLVs f ts) = default (lfUserID f) (lookup_tlv ts EraTLVUserID)
  /\ lfTraceID (FromTLVs f ts) = default (lfTraceID f) (lookup_tlv ts EraTLVTraceID).
Proof.
  revert f. induction ts as [|[ty v] ts IH]; intros f Hn; [done|]. cbn [map tlv_type] in Hn. apply NoDup_cons in Hn as [Hni Hn].
  assert (Hnone : lookup_tlv ts ty = None).
  { destruct (lookup_tlv ts ty) eqn:E; [|done]. exfalso. apply Hni. clear -E. induction ts as [|[ty' v'] ts IH]; [done|]. cbn in *.
    destruct (Z.eqb_spec ty' ty) as [->|]; [by left|right; by apply IH]. }
  unfold FromTLVs in *. cbn [foldl lookup_tlv tlv_type tlv_value].
  destruct (IH (if ty =? EraTLVTraceID then set_ids f v (lfDeviceID f) (lfUserID f)
     else if ty =? EraTLVDeviceID then set_ids f (lfTraceID f) v (lfUserID f)
     else if ty =? EraTLVUserID then set_ids f (lfTraceID f) (lfDeviceID f) v else f) Hn) as [-> ->].
  destruct (Z.eqb_spec ty EraTLVTraceID) as [->|]; [cbn; by rewrite Hnone|].
  destruct (Z.eqb_spec ty EraTLVDeviceID) as [->|]; [done|].
  destruct (Z.eqb_spec ty EraTLVUserID) as [->|]; [cbn; by rewrite Hnone|done].
Qed.

(** The stream a listener hands over, in terms of its connection. *)
Lemma accepted_stream o m conn m' logs acc :
  Stream.handle o m conn = (m', logs, Some acc) ->
  admissible (soSpec o) conn (asHeader acc) (asReader acc)
  /\ (NoDup (map tlv_type (hTLVs (asHeader acc))) ->
      lfUserID (asFields acc) = record_string (asHeader acc) EraTLVUserID
      /\ lfTraceID (asFields acc) = record_string (asHeader acc) EraTLVTraceID).
Proof.
  unfold Stream.handle, ReadHeaderV2WithTLVsBuffered, admissible. destruct (ReadHeaderV2WithTLVs conn) as [[hdr br]|e]; [|done].
  destruct (vrOK _) eqn:Ev; cbn [negb]; [|done]. destruct (note_unknown _ _ _ _ _) as [m1 logs1]. cbv zeta.
  set (a := mkAS _ _ _ _ _ _ _). intros Hr. assert (acc = a) as ->.
  { destruct (handlerStreamSafe _ _) as [[[|] ?] ?]; by simplify_eq. }
  cbn. split; [done|]. intros Hn. unfold record_string, Lookup. by apply FromTLVs_ids.
Qed.
(** A mandatory record of a handed-over stream. *)
Lemma stream_record o m conn m' logs acc t :
  LookupProtocol ProtoAnyConnectCSTP = Some (soSpec o) -> Stream.handle o m conn = (m', logs, Some acc) ->
  t ∈ universalMandatory ++ spMandatory cstp_spec -> ValidateTLV (mkTLV t (record_string (asHeader acc) t)) = Ok tt.
Proof.
  rewrite lookup_cstp. intros [= Hs] Hh Ht. rewrite Hs in Ht. apply accepted_stream in Hh as [[_ Hv] _].
  unfold record_string, Lookup. by destruct (validated_record _ _ _ Hv Ht) as (v & -> & Hok).
Qed.
Lemma sized_ok n (v : bytes) : (if negb (length v =? n)%nat then @Err ValErr unit VLength else Ok tt) = Ok tt -> length v = n.
Proof. destruct (length v =? n)%nat eqn:E; [intros _; by apply Nat.eqb_eq|done]. Qed.
Lemma token_sized v : ValidateTLV (mkTLV EraTLVToken v) = Ok tt -> length v = 12%nat.
Proof. apply sized_ok. Qed.
Lemma hint_sized v : ValidateTLV (mkTLV EraTLVSourceHintV6 v) = Ok tt -> length v = 16%nat.
Proof.
  destruct (length v =? 16)%nat eqn:E; [intros _; by apply Nat.eqb_eq|].
  unfold ValidateTLV. cbn [tlv_type tlv_value]. rewrite E. done.
Qed.
Lemma trace_sized v : ValidateTLV (mkTLV EraTLVTraceID v) = Ok tt -> length v = 26%nat.
Proof.
  destruct (length v =? 26)%nat eqn:E; [intros _; by apply Nat.eqb_eq|].
  unfold ValidateTLV. cbn [tlv_type tlv_value]. rewrite E. done.
Qed.
Lemma nonempty_ok t v : t ∈ [EraTLVDeviceID; EraTLVUserID; EraTLVMTLSSubjectDN] -> ValidateTLV (mkTLV t v) = Ok tt -> v <> [].
Proof. intros Ht Hv ->. repeat (apply elem_of_cons in Ht as [->|Ht]; [done|]). by apply not_elem_of_nil in Ht. Qed.

(** The handler finds everything it needs in the streams it is given: for
    every connection the listener accepts under the CSTP row, the metadata is
    built without an error, with the subject, the device, the user and a
    twelve-byte token, a source hint, a trace id of twenty-six characters and
    the client's address of the header. *)
Lemma stream_info o m data e m' logs acc
    (Hrow : LookupProtocol ProtoAnyConnectCSTP = Some (soSpec o)) (Hbytes : bytes_ok data)
    (Hacc : Stream.handle o m (mkReader data e) = (m', logs, Some acc)) :
  exists info, buildHandoffInfo acc = Ok info
    /\ hi_SubjectDN info = record_string (asHeader acc) EraTLVMTLSSubjectDN /\ hi_SubjectDN info <> []
    /\ hi_UserID info = record_string (asHeader acc) EraTLVUserID /\ hi_UserID info <> []
    /\ hi_DeviceID info = record_string (asHeader acc) EraTLVDeviceID /\ hi_DeviceID info <> []
    /\ hi_Token info = record_string (asHeader acc) EraTLVToken /\ length (hi_Token info) = 12%nat
    /\ hi_SourceHintV6 info = AddrFrom16 (record_string (asHeader acc) EraTLVSourceHintV6)
    /\ length (hi_TraceID info) = 26%nat
    /\ hi_ClientSrc info = hSrc (asHeader acc) /\ IsValid (ap_addr (hi_ClientSrc info)) = true.
Proof.
  assert (HR : forall t, t ∈ universalMandatory ++ spMandatory cstp_spec -> ValidateTLV (mkTLV t (record_string (asHeader acc) t)) = Ok tt)
    by (intros t Ht; by eapply stream_record).
  destruct (accepted_stream _ _ _ _ _ _ Hacc) as [[Hread _] Hids].
  apply (ReadHeader_sound data e) in Hread as [(_ & Hsrc & _ & _ & _ & [Hn _] & _) _]; [|done].
  destruct (Hids Hn) as [HU HT].
  pose proof (token_sized _ (HR EraTLVToken ltac:(decide_closed))) as L1.
  pose proof (hint_sized _ (HR EraTLVSourceHintV6 ltac:(decide_closed))) as L2.
  pose proof (trace_sized _ (HR EraTLVTraceID ltac:(decide_closed))) as L3.
  assert (HD : forall t, t ∈ [EraTLVDeviceID; EraTLVUserID; EraTLVMTLSSubjectDN] -> record_string (asHeader acc) t <> []).
  { intros t Ht. apply (nonempty_ok t); [done|]. apply HR. revert t Ht. apply Forall_forall. decide_closed. }
  unfold buildHandoffInfo. pose proof (HD EraTLVMTLSSubjectDN ltac:(decide_closed)) as HS.
  destruct (is_nil (record_string (asHeader acc) EraTLVMTLSSubjectDN)) eqn:En; [apply is_nil_true in En; done|].
  eexists. split; [reflexivity|]. cbn [hi_SubjectDN hi_UserID hi_DeviceID hi_Token hi_SourceHintV6 hi_TraceID hi_ClientSrc].
  rewrite L1, L2, HU, HT. cbn [Nat.eqb].
  split_and!; try done; try (apply HD; decide_closed).
  unfold fam_addr_ok in Hsrc. by destruct (ap_addr (hSrc (asHeader acc))).
Qed.


(** C33: The middleware is the only way to the CSTP server, and it runs the
    server exactly for the requests of a stream whose announced subject
    carries a device id, in a context that holds this id and the stream's
    metadata; any other request is answered 500, 400 or 401. The logged path
    is the redacted one. *)
Theorem wrapHandler_gate next ctx r :
  match info_FromContext ctx, DeviceIDFromSubjectDN (default [] (hi_SubjectDN <$> info_FromContext ctx)) with
  | Some info, Ok d =>
    exists log, wrapHandler next ctx r = (next (mkCtx (Some info) (Some d)) r, [log])
      /\ FromContext (Some d) = Some d /\ validDeviceID d = true
      /\ (bs "path", AString (GroupURLTokens (rq_Path r))) ∈ leAttrs log
  | info, Err e =>
    exists msg logs, wrapHandler next ctx r
      = (http_Error ∅ msg (match info with None => 500 | Some _ => if bool_decide (e = ErrInvalidSubjectDN) then 400 else 401 end), logs)
  | None, Ok _ => False
  end.
Proof.
  unfold wrapHandler. destruct (info_FromContext ctx) as [info|] eqn:Ei.
  - change (default [] (hi_SubjectDN <$> Some info)) with (hi_SubjectDN info). destruct (DeviceIDFromSubjectDN (hi_SubjectDN info)) as [d|e] eqn:Ed.
    + destruct ctx as [ci cd]. unfold info_FromContext in Ei. cbn in Ei. subst ci. eexists. split; [reflexivity|].
      pose proof (subject_id_valid _ _ Ed). split_and!; [|done|].
      * unfold FromContext. destruct d; [done|done].
      * cbn. repeat (first [by left|right]).
    + destruct e; eexists _, _; reflexivity.
  - exists (bs "missing UDS handoff info"), []. reflexivity.
Qed.

(** C9: However the stream handlers, the accept loop, the connections' owners,
    [Server.Close] and the goroutine that closes the listener when the context
    ends interleave: connections are accepted in the order they were queued,
    each once, and at most sixty-four wait; a handler returns without error,
    which lets the listener close the socket, only after its connection was
    accepted and its owner finished closing it; nothing closes a queued
    connection before it is accepted. Once the [Close] that took the listener's
    flag has waited, every handler has ended and every queued connection was
    accepted and closed. That is the state [Server.Close] returns in when it
    took the flag itself. When the context's goroutine came first it returns
    without waiting for the handlers: then the queue is drained and every
    queued connection was accepted, unless [Serve] never began. *)
Theorem handoff_queue s (Hreach : reach s) :
  st_pushed s = st_accepted s ++ st_chan s /\ NoDup (st_pushed s) /\ (length (st_chan s) <= queue_cap)%nat
  /\ (forall i, st_phases s !! i = Some (HReturned None) -> i ∈ st_pushed s /\ i ∉ st_chan s /\ stage_of s i = Some WDone)
  /\ (forall i, i ∈ st_chan s -> stage_of s i = Some WOpen)
  /\ (forall i, st_phases s !! i = Some HPanicked -> st_queue s = QClosed)
  /\ (forall b, st_uds s = UWaited b ->
        st_chan s = [] /\ (forall i p, st_phases s !! i = Some p -> finished p = true)
        /\ forall i, i ∈ st_pushed s -> i ∈ st_accepted s /\ stage_of s i = Some WDone)
  /\ (st_close s = CDone ->
        (st_uds s = UWaited true \/ st_uds s = UClosing false \/ st_uds s = UWaited false)
        /\ (st_serve s = VReturned /\ st_chan s = [] /\ st_pushed s = st_accepted s
            \/ st_serve s = VRefused /\ st_accepted s = [])).
Proof.
  pose proof (reach_inv s Hreach) as V. pose proof (v_chan _ V) as HC. rewrite Forall_forall in HC.
  split; [apply V|]. split; [apply V|]. split; [apply V|]. split; [|split; [|split; [|split]]].
  - intros i Hi. destruct (v_stream _ V i _ Hi) as [H1 H2]. split; [done|]. split; [|done]. by eapply inv_not_chan.
  - intros i Hi. by destruct (HC i Hi).
  - intros i Hi. by destruct (v_stream _ V i _ Hi) as (_ & _ & ?).
  - intros b Hb. assert (HF : all_finished s) by (apply (v_waited _ V); unfold uds_waited; by rewrite Hb).
    assert (Hc : st_chan s = []).
    { destruct (st_chan s) as [|i rest]; [done|]. destruct (HC i) as [Hi _]; [by left|]. by specialize (HF i _ Hi). }
    split; [done|]. split; [done|].
    intros i Hi. pose proof (v_pushed _ V) as HP. rewrite Forall_forall in HP. destruct (HP i Hi) as [p Hp].
    pose proof (HF i p Hp) as Hfin. pose proof (v_stream _ V i p Hp) as Hok. split.
    { pose proof (v_split _ V) as E. rewrite Hc, app_nil_r in E. by rewrite <- E. }
    destruct p as [| | | |[]|]; try done; by destruct Hok.
  - intros Hd. pose proof (v_uds _ V) as HU. unfold close_ok in HU. rewrite Hd in HU. destruct HU as [HU HS]. split.
    { rewrite !elem_of_cons, elem_of_nil in HU. tauto. }
    pose proof (v_serve _ V) as Hs. unfold serve_ok in Hs.
    rewrite !elem_of_cons, elem_of_nil in HS. destruct HS as [E|[E|[]]]; rewrite E in Hs; [by right|left].
    destruct Hs as [Hc _]. split_and!; [done..|]. by rewrite (v_split _ V), Hc, app_nil_r.
Qed.

(** * Samples *)

Definition cstp_bytes : bytes := rd_data cstp_conn.
Definition no_stream : AcceptedStream := mkAS (mkReader [] EOF) [] cstp_header cstp_spec (mkLF [] [] AddrPortZero AddrPortZero [] [] EventNone 0 0 0 []) 0 0.
Definition sample_acc : AcceptedStream := default no_stream (Stream.handle cstp_opts None cstp_conn).2.

Lemma sample_handle : exists m' logs, Stream.handle cstp_opts None cstp_conn = (m', logs, Some sample_acc).
Proof.
  destruct (Stream.handle cstp_opts None cstp_conn) as [[m' logs] oacc] eqn:E. exists m', logs. f_equal.
  assert (Hs : match oacc with Some _ => true | None => false end = true).
  { transitivity (match (Stream.handle cstp_opts None cstp_conn).2 with Some _ => true | None => false end); [by rewrite E|vm_compute; reflexivity]. }
  unfold sample_acc. rewrite E. by destruct oacc.
Qed.

(** One stream, closed by its owner after the queue was. *)
Definition s1 : state := start_stream sample_acc (set_serve VServing new_server).
Definition s2 : state := push_load 0 s1.
Definition s3 : state := push_send 0 s2.
Definition s4 : state := set_close CQueue (set_queue QClosed (set_queue QFlagged s3)).
Definition s5 : state := accept_conn 0 [] s4.
Definition closing (k : nat) (s : state) : state :=
  match st_conns s !! 0%nat with Some c => set_conn 0 (Nat.iter k (fun c => set_stage (next_stage (hc_stage c)) c) c) s | None => s end.
Definition s6 : state := closing 3 s5.
Definition s7 : state := set_phase 0 (HReturned None) s6.
Definition s8 : state :=
  set_close CDone (set_close CServe (set_uds (UWaited true) (uds_close (set_close CShutdown (set_serve VReturned s7))))).

Lemma reach_s3 : reach s3.
Proof.
  eapply reach_step; [|apply step_send; vm_compute; reflexivity]. eapply reach_step; [|apply step_load; vm_compute; reflexivity].
  eapply reach_step; [|apply step_stream; reflexivity].
  eapply reach_step; [apply reach_listen|apply step_serve; [reflexivity|by left]].
Qed.
Lemma closing_steps k s : reach s -> 0%nat ∈ st_accepted s -> reach (closing k s).
Proof.
  intros Hr Ha. unfold closing. destruct (st_conns s !! 0%nat) as [c|] eqn:Ec; [|done].
  assert (G : forall k c s, reach s -> 0%nat ∈ st_accepted s -> st_conns s !! 0%nat = Some c ->
    reach (set_conn 0 (Nat.iter k (fun c => set_stage (next_stage (hc_stage c)) c) c) s)); [|by apply G].
  clear. intros k. induction k as [|k IH]; intros c s Hr Ha Hc.
  - cbn. destruct s. unfold set_conn; cbn in *. by rewrite insert_id.
  - cbn [Nat.iter nat_rect]. specialize (IH c s Hr Ha Hc). set (c' := Nat.iter k _ c) in *.
    assert (HE : set_conn 0 (set_stage (next_stage (hc_stage c')) c') (set_conn 0 c' s) = set_conn 0 (set_stage (next_stage (hc_stage c')) c') s)
      by (unfold set_conn; cbn; by rewrite insert_insert_eq).
    eapply reach_step; [exact IH|]. change (step (set_conn 0 c' s) (set_conn 0 (set_stage (next_stage (hc_stage c')) c') s)). rewrite <- HE.
    eapply step_use; [done|unfold set_conn; cbn; by rewrite lookup_insert_eq|apply use_close].
Qed.
Lemma reach_s5 : reach s5.
Proof.
  eapply reach_step; [|apply step_accept; vm_compute; reflexivity]. eapply reach_step; [|apply step_close_chan; vm_compute; reflexivity].
  eapply reach_step; [apply reach_s3|apply step_close_flag; vm_compute; reflexivity].
Qed.
Definition stage_done (s : state) : bool := match stage_of s 0 with Some WDone => true | _ => false end.
Lemma stage_done_conn s : stage_done s = true -> exists c, st_conns s !! 0%nat = Some c /\ hc_stage c = WDone.
Proof.
  unfold stage_done, stage_of. destruct (st_conns s !! 0%nat) as [c|]; cbn; [|done]. exists c. split; [done|]. by destruct (hc_stage c).
Qed.
Lemma reach_s7 : reach s7.
Proof.
  assert (Hs : stage_done s6 = true) by (vm_compute; reflexivity).
  assert (H6 : reach s6) by (apply closing_steps; [apply reach_s5|vm_compute; constructor]).
  destruct (stage_done_conn s6 Hs) as (c & Ec & Hd).
  eapply reach_step; [exact H6|]. eapply step_release; [vm_compute; reflexivity|exact Ec|exact Hd].
Qed.
Lemma reach_s8 : reach s8.
Proof.
  eapply reach_step; [|apply step_close_done; [reflexivity|vm_compute; right; left]].
  eapply reach_step; [|apply step_uds_closed; reflexivity].
  eapply reach_step; [|apply step_uds_waited; [reflexivity|decide_closed]].
  eapply reach_step; [|apply step_uds_close; reflexivity].
  eapply reach_step; [|apply step_shutdown; vm_compute; reflexivity].
  eapply reach_step; [apply reach_s7|apply step_serve_end; vm_compute; reflexivity].
Qed.
Lemma handoff_queue_witness : reach s8 /\ st_accepted s8 = [0%nat] /\ stage_of s8 0 = Some WDone.
Proof.
  split; [exact reach_s8|]. destruct (handoff_queue s8 reach_s8) as (_ & _ & _ & _ & _ & _ & HW & _).
  destruct (HW true eq_refl) as (_ & _ & HC). split; [vm_compute; reflexivity|]. apply HC. vm_compute. constructor.
Defined.

(** A push between the test of the flag and the send, with [Close] in
    between: the handler panics (the listener turns this into an error), and
    its wrapper is never closed. *)
Lemma push_close_race : exists s, reach s /\ st_phases s !! 0%nat = Some HPanicked /\ stage_of s 0 = Some WOpen.
Proof.
  exists (push_send 0 (set_close CQueue (set_queue QClosed (set_queue QFlagged s2)))). split; [|split; vm_compute; reflexivity].
  eapply reach_step; [|apply step_send; vm_compute; reflexivity]. eapply reach_step; [|apply step_close_chan; vm_compute; reflexivity].
  eapply reach_step; [|apply step_close_flag; vm_compute; reflexivity]. eapply reach_step; [|apply step_load; vm_compute; reflexivity].
  eapply reach_step; [|apply step_stream; reflexivity].
  eapply reach_step; [apply reach_listen|apply step_serve; [reflexivity|by left]].
Qed.

(** The context ends while a connection is open: its goroutine takes the
    listener's flag and waits for the handler, and [Server.Close] returns with
    the handler waiting and the connection open. *)
Definition early : state :=
  set_close CDone (uds_close (set_uds (UClosing false) (set_close CShutdown (set_serve VReturned s5)))).
Lemma close_returns_early :
  reach early /\ st_close early = CDone /\ stage_of early 0 = Some WOpen
  /\ match st_phases early !! 0%nat with Some HWait => True | _ => False end.
Proof.
  split; [|by vm_compute].
  eapply reach_step; [|apply step_close_done; [reflexivity|vm_compute; right; left]].
  eapply reach_step; [|apply step_uds_close; reflexivity].
  eapply reach_step; [|apply step_ctx_close; reflexivity].
  eapply reach_step; [|apply step_shutdown; vm_compute; reflexivity].
  eapply reach_step; [apply reach_s5|apply step_serve_end; vm_compute; reflexivity].
Qed.
