(* ===== verification/Main.v ===== *)
(** The program entry, [cmd/era-ocserv/main.go]: flags and modes, the two ways
    a request gets its device, what the portal's answer is checked against,
    the binding published for the DTLS path, and the order in which [run]
    acquires and releases what it needs. *)

From S2P Require Import Prelude Netip Utf8 HttpLib Tlv Reader Handoff Datagram Stream Auth Iam RequestCtx CstpSessions CstpConfig CstpHttp Udsserve.
From S2P Require Netlink Tun.

(** * Flags and modes *)

Record config := mkFlags {
  f_mode : gostring;
  f_udsSocketPath : gostring;
  f_listenAddr : gostring;
  f_tlsCertPath : gostring;
  f_tlsKeyPath : gostring;
  f_clientCAPath : gostring;
  f_portalURL : gostring;
  f_portalToken : gostring;
  f_tpmURL : gostring;
  f_tpmToken : gostring;
  f_tunName : gostring;
  f_tunMTU : Z;
  f_tunQueues : Z;
  f_tunIPv6 : gostring;
  f_serverName : gostring;
  f_serverCertSHA1 : gostring;
  f_dnsServers : gostring;
  f_defaultDomain : gostring;
  f_logLevel : gostring;
  f_facadeAdminURL : gostring;
  f_facadeAdminToken : gostring;
  f_dtlsUDSSocket : gostring;
  f_disableDTLS : bool
}.

Definition SocketRoot : gostring := bs "/var/run/era-facade/handoffs".
Definition dtls_DefaultSocketPath : gostring := SocketRoot ++ bs "/anyconnect-dtls.sock".
Definition uds_DefaultSocketPath : gostring := SocketRoot ++ bs "/anyconnect-cstp.sock".
(** The flags as [parseFlags] declares them, before the command line. *)
Definition default_flags : config := mkFlags (bs "auto") uds_DefaultSocketPath (bs "127.0.0.1:8444") [] [] [] [] [] [] []
  (bs "era-ocserv-tun") 1500 0 [] (bs "eracloud.app") [] (bs "2606:4700:4700::1111,2606:4700:4700::1001") [] (bs "info") [] [] [] false.
(** The word [default] after [flag.Parse]. *)
Definition dtls_socket_flag (v : gostring) : gostring := if bool_decide (v = bs "default") then dtls_DefaultSocketPath else v.

Inductive listenerMode : Type := modeLegacy | modeUDS.
Definition mode_String (m : listenerMode) : gostring := match m with modeUDS => bs "uds" | modeLegacy => bs "legacy" end.

Inductive MainErr : Type :=
| UnknownMode (mode : gostring)
| UnknownLevel (level : gostring)
| MissingFlags (mode : listenerMode) (flags : list gostring)
| LoadTLS
| BadTunPrefix
| OpenTunErr (e : option Tun.TunErr)
| BadURL (flag : gostring)
| BadDNS (addr : gostring)
| BindingConfig
| StartDTLS
| ServeErr.

(** [is_dir] is what [os.Stat] says of a path. *)
Definition resolveMode (is_dir : gostring -> bool) (cfg : config) : result MainErr listenerMode :=
  let m := lower_search (TrimSpace (f_mode cfg)) in
  if bool_decide (m = bs "uds") then Ok modeUDS
  else if bool_decide (m = bs "legacy") then Ok modeLegacy
  else if is_nil m || bool_decide (m = bs "auto") then
    Ok (if is_dir (Dir (f_udsSocketPath cfg)) then modeUDS else modeLegacy)
  else Err (UnknownMode (f_mode cfg)).

Definition setupLogger (level : gostring) : result MainErr Z :=
  let l := lower_search level in
  if bool_decide (l = bs "debug") then Ok (-4)
  else if bool_decide (l = bs "info") then Ok 0
  else if bool_decide (l = bs "warn") then Ok 4
  else if bool_decide (l = bs "error") then Ok 8
  else Err (UnknownLevel level).

Definition missing_if (c : bool) (flag : gostring) : list gostring := if c then [flag] else [].
Definition requireFlags (cfg : config) (mode : listenerMode) : result MainErr unit :=
  let legacy := match mode with modeLegacy => true | modeUDS => false end in
  let missing :=
    missing_if (legacy && is_nil (f_tlsCertPath cfg)) (bs "-tls-cert")
    ++ missing_if (legacy && is_nil (f_tlsKeyPath cfg)) (bs "-tls-key")
    ++ missing_if (legacy && is_nil (f_clientCAPath cfg)) (bs "-client-ca")
    ++ missing_if (is_nil (f_portalURL cfg)) (bs "-era-portal-url")
    ++ missing_if (is_nil (f_portalToken cfg)) (bs "-era-portal-token")
    ++ missing_if (is_nil (f_tpmURL cfg)) (bs "-tpm-url")
    ++ missing_if (is_nil (f_tpmToken cfg)) (bs "-tpm-token")
    ++ missing_if (negb legacy && is_nil (f_udsSocketPath cfg)) (bs "-uds-socket") in
  if is_nil missing then Ok tt else Err (MissingFlags mode missing).

Fixpoint parse_addrs (parts : list gostring) : result MainErr (list Addr) :=
  match parts with
  | [] => Ok []
  | p :: ps =>
    let p := TrimSpace p in
    if is_nil p then parse_addrs ps
    else match ParseAddr p with
         | None => Err (BadDNS p)
         | Some a => match parse_addrs ps with Ok l => Ok (a :: l) | Err e => Err e end
         end
  end.
Definition parseDNS (s : gostring) : result MainErr (list Addr) := if is_nil s then Ok [] else parse_addrs (split_byte 44 s).

(** The options [openTun] passes to [tun.Open]. *)
Definition tun_options (cfg : config) : result MainErr Tun.Options :=
  match (if is_nil (f_tunIPv6 cfg) then Some PrefixZero else ParsePrefix (f_tunIPv6 cfg)) with
  | None => Err BadTunPrefix
  | Some p => Ok (Tun.mkOptions (f_tunName cfg) (f_tunMTU cfg) (f_tunQueues cfg) PrefixZero p)
  end.

(** * Authentication *)

(** The middleware of the legacy listener: [tls] is the peer's certificates,
    [None] on a plaintext connection. *)
Definition certMiddleware (cv : CertValidator) (now : Z) (next : Udsserve.Handler) (tls : option (list Certificate)) (ctx : Ctx) (r : Request) : Outcome :=
  match tls with
  | None => http_Error ∅ (bs "TLS required") 400
  | Some peers =>
    match cert_Validate cv peers now with
    | Err _ => http_Error ∅ (bs "client cert required") 401
    | Ok deviceID => next (with_device ctx deviceID) r
    end
  end.

(** [auth.PasswordVerifier], with the error a request without a certificate's
    id gets. *)
Inductive VerifyErr : Type := PortalErr (e : AuthErr) | NoCertificateID.
Definition PasswordVerifier : Type := Ctx -> gostring -> gostring -> result VerifyErr gostring.

Definition certBound_Verify (inner : PasswordVerifier) : PasswordVerifier := fun ctx username password =>
  match FromContext (ctx_device ctx) with
  | None => Err NoCertificateID
  | Some certID =>
    match inner ctx username password with
    | Err e => Err e
    | Ok portalID => if bool_decide (portalID = certID) then Ok certID else Err (PortalErr ErrBadCredentials)
    end
  end.
Definition verifierForMode (mode : listenerMode) (verifier : PasswordVerifier) : PasswordVerifier :=
  match mode with modeLegacy => certBound_Verify verifier | modeUDS => verifier end.

(** [resolverAdapter] *)
Definition adapt (id : Iam.Identity) : CstpConfig.Identity :=
  CstpConfig.mkIdentity (Iam.id_DeviceID id) (Iam.id_IPv6 id) (Iam.id_IPv6CLAT id) (Iam.id_MTU id) (Iam.id_DTLSDisabled id).
Definition adapter_Resolve {R} `{Resolver R} (r : R) (now : Z) (d : gostring) : result ResolveErr CstpConfig.Identity * R :=
  match Iam.Resolve r now d with (Ok id, r') => (Ok (adapt id), r') | (Err e, r') => (Err e, r') end.

(** * The published binding *)

Definition sharedEdgeDTLSBindingSource (ctx : Ctx) (id : CstpConfig.Identity) : option DTLSBinding :=
  match info_FromContext ctx with
  | None => None
  | Some info =>
    if negb (IsValid (ap_addr (hi_ClientSrc info))) || is_nil (hi_SubjectDN info) || is_nil (hi_UserID info)
       || negb (IsValid (hi_SourceHintV6 info)) || negb (length (hi_Token info) =? 12)%nat
    then None
    else
      let subjectDN := if is_nil (CstpConfig.id_DeviceID id) then hi_SubjectDN info else bs "CN=" ++ CstpConfig.id_DeviceID id in
      Some (mkBinding (Unmap (ap_addr (hi_ClientSrc info))) (repeat 0 32) (CstpConfig.id_DeviceID id) (hi_UserID info) subjectDN
              (hi_SourceHintV6 info) (hi_Token info) (repeat 0 48) (repeat 0 32) [])
  end.

(** * The run *)

(** What [run] acquires, starts and releases, in order. *)
Inductive Effect : Type :=
| EOpenTun | ECloseTun | EStartBridge | EBindDTLS | ECloseDTLS | EServe (mode : listenerMode) | ECancel.

(** What the environment answers: the directory test, the TLS material, the
    TUN device, URL parsing, the DTLS socket, the listener's outcome until the
    signal. *)
Record Env := mkEnv {
  e_is_dir : gostring -> bool;
  e_load_tls : config -> bool;
  e_tun_open : Tun.Options -> option Tun.TunErr;
  e_url : gostring -> bool;
  e_dtls : gostring -> bool;
  e_serve : listenerMode -> bool
}.

(** The binding installer: none, one, or a half-configured one. *)
Definition binding_installer (env : Env) (cfg : config) : result MainErr bool :=
  let url := is_nil (TrimSpace (f_facadeAdminURL cfg)) in
  let token := is_nil (TrimSpace (f_facadeAdminToken cfg)) in
  if negb url || negb token then
    if url || token then Err BindingConfig
    else if e_url env (f_facadeAdminURL cfg) then Ok true else Err (BadURL (bs "facade-admin-url"))
  else Ok false.

(** The DTLS listener: there is one, none is asked for, or it cannot be bound. *)
Definition startDTLSListener (env : Env) (cfg : config) : result MainErr bool :=
  if is_nil (f_dtlsUDSSocket cfg) then Ok false
  else if e_dtls env (f_dtlsUDSSocket cfg) then Ok true
  else Err StartDTLS.

(** From the defer of [dev.Close] to the listener's defer. *)
Definition run_services (env : Env) (cfg : config) (mode : listenerMode) : list Effect * result MainErr unit :=
  if negb (e_url env (f_portalURL cfg)) then ([], Err (BadURL (bs "era-portal-url")))
  else if negb (e_url env (f_tpmURL cfg)) then ([], Err (BadURL (bs "tpm-url")))
  else
    match parseDNS (f_dnsServers cfg) with
    | Err e => ([], Err e)
    | Ok _ =>
      match binding_installer env cfg with
      | Err e => ([], Err e)
      | Ok _ =>
        let serve := if e_serve env mode then Ok tt else Err ServeErr in
        match startDTLSListener env cfg with
        | Ok false => ([EStartBridge; EServe mode; ECancel], serve)
        | Ok true => ([EStartBridge; EBindDTLS; EServe mode; ECloseDTLS; ECancel], serve)
        | Err e => ([EStartBridge; ECancel], Err e)
        end
      end
    end.

Definition run_main (env : Env) (cfg : config) : list Effect * result MainErr unit :=
  match setupLogger (f_logLevel cfg) with
  | Err e => ([], Err e)
  | Ok _ =>
    match resolveMode (e_is_dir env) cfg with
    | Err e => ([], Err e)
    | Ok mode =>
      match requireFlags cfg mode with
      | Err e => ([], Err e)
      | Ok _ =>
        if (match mode with modeLegacy => negb (e_load_tls env cfg) | modeUDS => false end) then ([], Err LoadTLS)
        else
          match tun_options cfg with
          | Err e => ([], Err e)
          | Ok opts =>
            match e_tun_open env opts with
            | Some e => ([], Err (OpenTunErr (Some e)))
            | None => let '(es, r) := run_services env cfg mode in (EOpenTun :: es ++ [ECloseTun], r)
            end
          end
      end
    end
  end.

(** * Lemmas *)

Lemma missing_nil c flag : missing_if c flag = [] <-> c = false.
Proof. by destruct c. Qed.
Lemma requireFlags_ok cfg mode :
  requireFlags cfg mode = Ok tt <->
  (f_portalURL cfg <> [] /\ f_portalToken cfg <> [] /\ f_tpmURL cfg <> [] /\ f_tpmToken cfg <> [])
  /\ match mode with
     | modeLegacy => f_tlsCertPath cfg <> [] /\ f_tlsKeyPath cfg <> [] /\ f_clientCAPath cfg <> []
     | modeUDS => f_udsSocketPath cfg <> [] end.
Proof.
  assert (HN : forall l : bytes, is_nil l = false <-> l <> []) by (by intros []).
  unfold requireFlags. set (l := _ ++ _). transitivity (l = []); [by destruct l|]. unfold l. clear l.
  rewrite !app_nil, !missing_nil. destruct mode; cbn [andb negb]; rewrite !HN; tauto.
Qed.

(** The addresses are the parts that are not blank, in order. *)
Lemma parse_addrs_ok parts l :
  parse_addrs parts = Ok l <-> mapM ParseAddr (filter (fun p => p <> []) (TrimSpace <$> parts)) = Some l.
Proof.
  revert l. induction parts as [|p ps IH]; intros l; cbn [parse_addrs fmap list_fmap]; [cbn; split; by intros [= <-]|].
  destruct (TrimSpace p) as [|c q]; [rewrite filter_cons_False by tauto; apply IH|].
  rewrite filter_cons_True by done. cbn [is_nil mapM]. destruct (ParseAddr (c :: q)) as [a|]; cbn; [|done].
  destruct (parse_addrs ps) as [l'|e] eqn:E.
  - rewrite (proj1 (IH l') eq_refl). cbn. split; by intros [= <-].
  - destruct (mapM _ _) as [l'|] eqn:E'; [|cbn; split; discriminate]. by pose proof (proj2 (IH l') eq_refl).
Qed.

(** The subject the binding carries for a resolved device. *)
Lemma subject_of_id id : validDeviceID id = true -> DeviceIDFromSubjectDN (bs "CN=" ++ id) = Ok id.
Proof.
  intros Hid. change (bs "CN=" ++ id) with (render_dn [mkAVA (bs "CN") id]).
  assert (Hok : ava_ok (mkAVA (bs "CN") id)) by (split; [split; [done|reflexivity]|by apply escaped_id]).
  unfold DeviceIDFromSubjectDN, extractCN. change (render_dn [mkAVA (bs "CN") id]) with (67 :: 78 :: 61 :: id) at 1. cbv iota beta.
  rewrite splitRDNs_render by (done || by constructor). cbn [map scan_rdns]. rewrite splitAVAs_escaped by (by apply render_ava_escaped).
  rewrite scan_avas_render by done. cbn [ava_attr ava_val]. change (is_CN (bs "CN")) with true. cbv iota.
  apply validDeviceID_chars in Hid as Hc. destruct Hc as [Hc Hn].
  rewrite TrimSpace_id by (eapply Forall_impl; [exact Hc|]; by intros ? [? _]).
  rewrite unescape_plain by (eapply Forall_impl; [exact Hc|]; by intros ? [_ ?]).
  destruct id; [done|]. by rewrite Hid.
Qed.

(** ** Releases in reverse order *)

(** The acquisitions still to be released, latest first; [None] when a release
    is not of the latest. The bridge ends with the context. *)
Definition release (e : Effect) (held : list Effect) : option (list Effect) :=
  match e, held with
  | EOpenTun, _ => Some (EOpenTun :: held)
  | EStartBridge, _ => Some (EStartBridge :: held)
  | EBindDTLS, _ => Some (EBindDTLS :: held)
  | EServe _, _ => Some held
  | ECloseDTLS, EBindDTLS :: h => Some h
  | ECancel, EStartBridge :: h => Some h
  | ECloseTun, EOpenTun :: h => Some h
  | _, _ => None
  end.
Fixpoint holding (es : list Effect) (held : list Effect) : option (list Effect) :=
  match es with [] => Some held | e :: es' => match release e held with Some h => holding es' h | None => None end end.
(** What the serving program holds. *)
Definition serving_with (es : list Effect) (mode : listenerMode) (held : list Effect) : Prop :=
  exists before after, es = before ++ EServe mode :: after /\ holding before [] = Some held.

(** What has to hold before anything is opened. *)
Definition start_ok (env : Env) (cfg : config) (mode : listenerMode) : Prop :=
  is_ok (setupLogger (f_logLevel cfg)) = true /\ resolveMode (e_is_dir env) cfg = Ok mode /\ requireFlags cfg mode = Ok tt
  /\ (mode = modeLegacy -> e_load_tls env cfg = true).

(** What a run with these effects and this result owes. *)
Record run_ok (env : Env) (cfg : config) (es : list Effect) (r : result MainErr unit) : Prop := {
  ro_released : holding es [] = Some [];
  ro_checked : es <> [] -> exists mode, start_ok env cfg mode;
  ro_serving : forall mode, EServe mode ∈ es -> start_ok env cfg mode
    /\ serving_with es mode ((if is_nil (f_dtlsUDSSocket cfg) then [] else [EBindDTLS]) ++ [EStartBridge; EOpenTun]);
  ro_result : r = Ok tt <-> exists mode, EServe mode ∈ es /\ e_serve env mode = true
}.
Definition serves (e : Effect) : bool := match e with EServe _ => true | _ => false end.
Lemma not_served es mode : forallb (fun e => negb (serves e)) es = true -> EServe mode ∉ es.
Proof. intros Hf Hi. rewrite forallb_forall in Hf. apply list_elem_of_In, Hf in Hi. done. Qed.

(** A run that stops before it serves. *)
Lemma run_ok_stopped env cfg es r :
  holding es [] = Some [] -> (es <> [] -> exists mode, start_ok env cfg mode) -> forallb (fun e => negb (serves e)) es = true ->
  r <> Ok tt -> run_ok env cfg es r.
Proof.
  intros Hh Hc Hs Hr. split; [done|done| |].
  - intros mode Hm. by apply not_served in Hm.
  - split; [done|]. intros (mode & Hm & _). by apply not_served in Hm.
Qed.
(** A run that serves, without and with DTLS. *)
Definition served (dtls : bool) (mode : listenerMode) : list Effect :=
  EOpenTun :: (if dtls then [EStartBridge; EBindDTLS; EServe mode; ECloseDTLS; ECancel] else [EStartBridge; EServe mode; ECancel]) ++ [ECloseTun].
Lemma run_ok_served env cfg mode :
  start_ok env cfg mode ->
  run_ok env cfg (served (negb (is_nil (f_dtlsUDSSocket cfg))) mode) (if e_serve env mode then Ok tt else Err ServeErr).
Proof.
  intros HS. assert (HM : forall m d, EServe m ∈ served d mode <-> m = mode).
  { intros m d. unfold served. destruct d; cbn [app]; rewrite !elem_of_cons, elem_of_nil; naive_solver. }
  split; [by destruct (is_nil _)|eauto| |].
  - intros m ->%HM. split; [done|]. unfold serving_with. destruct (is_nil (f_dtlsUDSSocket cfg)).
    + by exists [EOpenTun; EStartBridge], [ECancel; ECloseTun].
    + by exists [EOpenTun; EStartBridge; EBindDTLS], [ECloseDTLS; ECancel; ECloseTun].
  - split.
    + intros Hr. exists mode. split; [by apply HM|]. by destruct (e_serve env mode).
    + intros (m & ->%HM & ->). done.
Qed.
Lemma run_services_ok env cfg mode es r :
  start_ok env cfg mode -> run_services env cfg mode = (es, r) -> run_ok env cfg (EOpenTun :: es ++ [ECloseTun]) r.
Proof.
  intros HS. unfold run_services. pose proof (run_ok_served env cfg mode HS) as HD. unfold served in HD.
  assert (HF : forall es e, es = [EOpenTun; ECloseTun] \/ es = [EOpenTun; EStartBridge; ECancel; ECloseTun] -> run_ok env cfg es (Err e)).
  { intros es' e [-> | ->]; apply run_ok_stopped; eauto; done. }
  destruct (negb (e_url env (f_portalURL cfg))); [intros [= <- <-]; apply HF; by left|].
  destruct (negb (e_url env (f_tpmURL cfg))); [intros [= <- <-]; apply HF; by left|].
  destruct (parseDNS _); [|intros [= <- <-]; apply HF; by left].
  destruct (binding_installer _ _); [|intros [= <- <-]; apply HF; by left].
  unfold startDTLSListener. destruct (is_nil (f_dtlsUDSSocket cfg)); [intros [= <- <-]; exact HD|].
  destruct (e_dtls _ _); [intros [= <- <-]; exact HD|intros [= <- <-]; apply HF; by right].
Qed.

(** * Properties *)

(** Whatever the environment answers, [run] releases everything it
    acquired, each thing before what was acquired earlier; it opens the TUN
    device only after the flags passed the mode's checks, and serves only in
    the resolved mode, with the device open, the bridge running and the DTLS
    socket bound when one is asked for; and it succeeds exactly when it served
    to the end. *)
Theorem run_releases env cfg : run_ok env cfg (run_main env cfg).1 (run_main env cfg).2.
Proof.
  assert (N : forall e, run_ok env cfg [] (Err e)) by (intros e; by apply run_ok_stopped).
  unfold run_main. destruct (setupLogger _) as [lv|] eqn:EL; [|apply N]. destruct (resolveMode _ _) as [mode|] eqn:EM; [|apply N].
  destruct (requireFlags cfg mode) as [[]|] eqn:EF; [|apply N].
  destruct (match mode with modeLegacy => negb (e_load_tls env cfg) | modeUDS => false end) eqn:ET; [apply N|].
  destruct (tun_options cfg) as [opts|]; [|apply N]. destruct (e_tun_open env opts); [apply N|].
  destruct (run_services env cfg mode) as [es r] eqn:ER. apply (run_services_ok env cfg mode); [|done].
  split; [by rewrite EL|]. split; [done|]. split; [done|]. intros ->. by apply negb_false_iff in ET.
Qed.

(** C10: In legacy mode a password is accepted exactly when the portal returns
    the device the request's certificate carries, and this device is the
    result; a request without a certificate's device is refused before the
    portal is asked. In UDS mode the portal's answer is the result, whatever
    device the handoff announced. *)
Theorem verifier_modes inner ctx username password d :
  (verifierForMode modeLegacy inner ctx username password = Ok d <->
     ctx_device ctx = Some d /\ d <> [] /\ inner ctx username password = Ok d)
  /\ (FromContext (ctx_device ctx) = None -> verifierForMode modeLegacy inner ctx username password = Err NoCertificateID)
  /\ verifierForMode modeUDS inner ctx username password = inner ctx username password.
Proof.
  split; [|split; [|done]]; cbn [verifierForMode]; unfold certBound_Verify.
  - unfold FromContext. destruct (ctx_device ctx) as [[|c v]|]; cbn [is_nil]; [naive_solver|split|naive_solver].
    + destruct (inner ctx username password) as [p|e]; [|done]. destruct (bool_decide_reflect (p = c :: v)) as [->|]; [|done].
      by intros [= <-].
    + intros ([= <-] & _ & ->). by rewrite bool_decide_eq_true_2.
  - by intros ->.
Qed.

(** C11: For every stream the listener hands over and every identity with a
    valid device id, a binding is published, and the DTLS path reads the same
    device back from it: its subject is one that the subject parser maps to
    exactly that id; it names the client's address, unmapped, and carries the
    user, the egress address and the token of the handoff. *)
Theorem binding_resolves o m data e m' logs acc id
    (Hrow : LookupProtocol ProtoAnyConnectCSTP = Some (soSpec o)) (Hbytes : bytes_ok data)
    (Hacc : Stream.handle o m (mkReader data e) = (m', logs, Some acc))
    (Hid : validDeviceID (CstpConfig.id_DeviceID id) = true) :
  exists info b, buildHandoffInfo acc = Ok info
    /\ sharedEdgeDTLSBindingSource (ConnContext Background (Some info)) id = Some b
    /\ DeviceIDFromSubjectDN (bd_MTLSSubjectDN b) = Ok (CstpConfig.id_DeviceID id) /\ bd_DeviceID b = CstpConfig.id_DeviceID id
    /\ bd_SourceIP b = Unmap (ap_addr (hSrc (asHeader acc)))
    /\ bd_UserID b = record_string (asHeader acc) EraTLVUserID /\ bd_Token b = record_string (asHeader acc) EraTLVToken
    /\ bd_SourceV6 b = AddrFrom16 (record_string (asHeader acc) EraTLVSourceHintV6).
Proof.
  destruct (stream_info o m data e m' logs acc Hrow Hbytes Hacc)
    as (info & HB & HS & HS' & HU & HU' & _ & _ & HT & HT' & HH & _ & HC & HC').
  exists info. unfold sharedEdgeDTLSBindingSource. cbn [ConnContext contextWithInfo info_FromContext ctx_info].
  assert (HN : forall l : bytes, l <> [] -> is_nil l = false) by (by intros []).
  rewrite HC', (HN _ HS'), (HN _ HU'), HH, HT'. cbn [negb orb IsValid AddrFrom16 Nat.eqb].
  pose proof (subject_of_id _ Hid) as HD. apply validDeviceID_chars in Hid as [_ Hid].
  rewrite (HN _ Hid). eexists. split; [done|]. split; [reflexivity|].
  cbn [bd_MTLSSubjectDN bd_DeviceID bd_SourceIP bd_UserID bd_Token bd_SourceV6]. by rewrite HD, HU, HT, HC.
Qed.

(** * Samples *)

Definition sample_identity : CstpConfig.Identity :=
  CstpConfig.mkIdentity dev_id (mkPrefix (Addr6 ([0xfd] ++ repeat 0 14 ++ [1]) []) 128) PrefixZero 1400 false.
Lemma binding_resolves_witness :
  exists info b, buildHandoffInfo sample_acc = Ok info
    /\ sharedEdgeDTLSBindingSource (ConnContext Background (Some info)) sample_identity = Some b
    /\ DeviceIDFromSubjectDN (bd_MTLSSubjectDN b) = Ok dev_id.
Proof.
  destruct sample_handle as (m' & logs & E).
  destruct (binding_resolves cstp_opts None cstp_bytes EOF m' logs sample_acc sample_identity lookup_cstp ltac:(decide_closed) E
    ltac:(vm_compute; reflexivity)) as (info & b & H1 & H2 & H3 & _).
  exists info, b. split; [exact H1|]. split; [exact H2|exact H3].
Defined.

Definition portal_of (d : gostring) : PasswordVerifier := fun _ _ pw => if bool_decide (pw = bs "secret") then Ok d else Err (PortalErr ErrBadCredentials).
Lemma verifier_modes_witness :
  verifierForMode modeLegacy (portal_of dev_id) (with_device Background dev_id) (bs "u") (bs "secret") = Ok dev_id
  /\ verifierForMode modeLegacy (portal_of dev_id) Background (bs "u") (bs "secret") = Err NoCertificateID
  /\ verifierForMode modeUDS (portal_of dev_id) (with_device Background (bs "dev_other")) (bs "u") (bs "secret") = Ok dev_id.
Proof.
  destruct (verifier_modes (portal_of dev_id) (with_device Background dev_id) (bs "u") (bs "secret") dev_id) as [[_ H1] _].
  destruct (verifier_modes (portal_of dev_id) Background (bs "u") (bs "secret") dev_id) as [_ [H2 _]].
  destruct (verifier_modes (portal_of dev_id) (with_device Background (bs "dev_other")) (bs "u") (bs "secret") dev_id) as [_ [_ H3]].
  split; [apply H1; split; [reflexivity|]; split; [discriminate|vm_compute; reflexivity]|].
  split; [apply H2; reflexivity|]. rewrite H3. vm_compute. reflexivity.
Defined.

Definition sample_env : Env := mkEnv (fun d => bool_decide (d = SocketRoot)) (fun _ => true) (fun _ => None) (fun _ => true) (fun _ => true) (fun _ => true).
Definition sample_flags : config :=
  mkFlags (bs " Auto ") uds_DefaultSocketPath [] [] [] [] (bs "https://p") (bs "t") (bs "https://q") (bs "t") (bs "era0") 0 0
    (bs "fd00::1/128") [] [] (bs "10.0.0.1, ::1,,") [] (bs "INFO") [] [] (dtls_socket_flag (bs "default")) false.
Example sample_run :
  run_main sample_env sample_flags = ([EOpenTun; EStartBridge; EBindDTLS; EServe modeUDS; ECloseDTLS; ECancel; ECloseTun], Ok tt)
  /\ parseDNS (f_dnsServers sample_flags) = Ok [Addr4 [10; 0; 0; 1]; Addr6 (repeat 0 15 ++ [1]) []]
  /\ run_main sample_env default_flags
     = ([], Err (MissingFlags modeUDS [bs "-era-portal-url"; bs "-era-portal-token"; bs "-tpm-url"; bs "-tpm-token"]))
  /\ Dir (bs "/a/./b//../c/sock") = bs "/a/c" /\ Dir (bs "sock") = bs "." /\ Dir (bs "../../x/s") = bs "../../x".
Proof. vm_compute. repeat split; reflexivity. Qed.
