(* ===== verification/Shutdown.v ===== *)
(** The end of the program: [runUDS] and [runLegacy] of
    [cmd/era-ocserv/main.go], the goroutine each starts to wait for the signal,
    and the deferred calls of [run], as interleaved steps. A call that may block
    is two events, its beginning and its return; what the calls do is
    [Udsserve]'s [Close], [CstpConfig]'s and [DtlsListen]'s. *)

From S2P Require Import Prelude HttpLib Main.

(** * The goroutines *)

Inductive Call : Type := HttpShutdown | SrvClose | UdsClose.
Inductive Event : Type :=
| Begin (c : Call)
| Return (c : Call)
| Deferred (e : Effect).
#[export] Instance Call_eq_dec : EqDecision Call. Proof. solve_decision. Defined.
#[export] Instance listenerMode_eq_dec : EqDecision listenerMode. Proof. solve_decision. Defined.
#[export] Instance Effect_eq_dec : EqDecision Effect. Proof. solve_decision. Defined.
#[export] Instance Event_eq_dec : EqDecision Event. Proof. solve_decision. Defined.

(** What the waiting goroutine does once the context is done. *)
Definition waiter_uds : list Event := [Begin SrvClose; Return SrvClose; Begin UdsClose; Return UdsClose].
Definition waiter_legacy : list Event := [Begin HttpShutdown; Return HttpShutdown; Begin SrvClose; Return SrvClose].
Definition waiter (mode : listenerMode) : list Event := match mode with modeUDS => waiter_uds | modeLegacy => waiter_legacy end.

(** The deferred calls of [run] that are pending while it serves, latest first. *)
Definition defers (dtls : bool) : list Effect := (if dtls then [ECloseDTLS] else []) ++ [ECancel; ECloseTun].

(** The main goroutine: about to listen, serving, unwinding with a result,
    gone, and the process with it. *)
Inductive MainPc : Type :=
| Starting
| Serving
| Unwinding (r : result MainErr unit) (rest : list Effect)
| Exited (r : result MainErr unit).

Record process := mkProcess {
  ctx_done : bool;
  main_pc : MainPc;
  waiting : list Event;
  waiter_trace : list Event;
  main_trace : list Effect
}.

Definition start : process := mkProcess false Starting [] [] [].
Definition signalled (p : process) : process := mkProcess true (main_pc p) (waiting p) (waiter_trace p) (main_trace p).
(** The listener is there and the waiting goroutine started. *)
Definition listening (mode : listenerMode) (p : process) : process :=
  mkProcess (ctx_done p) Serving (waiter mode) (waiter_trace p) (main_trace p).
Definition returns (r : result MainErr unit) (rest : list Effect) (p : process) : process :=
  mkProcess (ctx_done p) (Unwinding r rest) (waiting p) (waiter_trace p) (main_trace p).
Definition run_deferred (r : result MainErr unit) (e : Effect) (rest : list Effect) (p : process) : process :=
  mkProcess (ctx_done p || bool_decide (e = ECancel)) (Unwinding r rest) (waiting p) (waiter_trace p) (main_trace p ++ [e]).
Definition exits (r : result MainErr unit) (p : process) : process :=
  mkProcess (ctx_done p) (Exited r) (waiting p) (waiter_trace p) (main_trace p).
Definition waiter_event (e : Event) (rest : list Event) (p : process) : process :=
  mkProcess (ctx_done p) (main_pc p) rest (waiter_trace p ++ [e]) (main_trace p).

Definition exited (p : process) : bool := match main_pc p with Exited _ => true | _ => false end.

(** [http.Server.Serve] returns [ErrServerClosed] once [Shutdown] has begun, and
    only then; before, it may fail. [runUDS] waits for the context itself. *)
Inductive step (mode : listenerMode) (dtls : bool) : process -> process -> Prop :=
| s_signal p : exited p = false -> step mode dtls p (signalled p)
| s_listen p : main_pc p = Starting -> step mode dtls p (listening mode p)
| s_listen_fails p : main_pc p = Starting -> step mode dtls p (returns (Err ServeErr) (defers dtls) p)
| s_ctx_done p : mode = modeUDS -> main_pc p = Serving -> ctx_done p = true -> step mode dtls p (returns (Ok tt) (defers dtls) p)
| s_server_closed p : mode = modeLegacy -> main_pc p = Serving -> Begin HttpShutdown ∈ waiter_trace p ->
    step mode dtls p (returns (Ok tt) (defers dtls) p)
| s_serve_fails p : mode = modeLegacy -> main_pc p = Serving -> Begin HttpShutdown ∉ waiter_trace p ->
    step mode dtls p (returns (Err ServeErr) (defers dtls) p)
| s_deferred p r e rest : main_pc p = Unwinding r (e :: rest) -> step mode dtls p (run_deferred r e rest p)
| s_exit p r : main_pc p = Unwinding r [] -> step mode dtls p (exits r p)
| s_waiter p e rest : exited p = false -> ctx_done p = true -> waiting p = e :: rest -> step mode dtls p (waiter_event e rest p).

Definition reach (mode : listenerMode) (dtls : bool) : process -> Prop := rtc (step mode dtls) start.

(** How a process can end: its result, the deferred calls it made, and what its
    waiting goroutine did before it was cut off. *)
Definition can_exit (mode : listenerMode) (dtls : bool) (r : result MainErr unit) (deferred : list Effect) (done_ : list Event) : Prop :=
  exists p, reach mode dtls p /\ main_pc p = Exited r /\ main_trace p = deferred /\ waiter_trace p = done_.

(** * Invariants *)

Definition pc_ok (mode : listenerMode) (dtls : bool) (p : process) : Prop :=
  match main_pc p with
  | Starting => waiting p = [] /\ waiter_trace p = [] /\ main_trace p = []
  | Serving => waiter_trace p ++ waiting p = waiter mode /\ main_trace p = []
  | Unwinding r rest =>
    main_trace p ++ rest = defers dtls
    /\ match r with
       | Ok _ => waiter_trace p ++ waiting p = waiter mode /\ (mode = modeLegacy -> waiter_trace p <> [])
       | Err e => e = ServeErr /\ ((waiting p = [] /\ waiter_trace p = []) \/ (mode = modeLegacy /\ waiter_trace p ++ waiting p = waiter mode))
       end
  | Exited r =>
    main_trace p = defers dtls
    /\ match r with
       | Ok _ => waiter_trace p ++ waiting p = waiter mode /\ (mode = modeLegacy -> waiter_trace p <> [])
       | Err e => e = ServeErr /\ ((waiting p = [] /\ waiter_trace p = []) \/ (mode = modeLegacy /\ waiter_trace p ++ waiting p = waiter mode))
       end
  end.

Lemma step_pc_ok mode dtls p p' : pc_ok mode dtls p -> step mode dtls p p' -> pc_ok mode dtls p'.
Proof.
  unfold pc_ok. intros H Hs. destruct Hs as [p|p Hp|p Hp|p Hm Hp _|p Hm Hp Hb|p Hm Hp _|p r e rest Hp|p r Hp|p e rest Hx _ Hw];
    try rewrite Hp in H; cbn [signalled listening returns run_deferred exits main_pc waiting waiter_trace main_trace] in *.
  - done.
  - destruct H as (_ & -> & ->). done.
  - destruct H as (-> & -> & ->). split; [done|]. split; [done|by left].
  - destruct H as [-> ->]. split; [done|]. split; [done|congruence].
  - destruct H as [-> ->]. split; [done|]. split; [done|]. intros _ E. rewrite E in Hb. by apply not_elem_of_nil in Hb.
  - destruct H as [-> ->]. split; [done|]. split; [done|by right].
  - rewrite <- app_assoc. done.
  - rewrite app_nil_r in H. done.
  - assert (E : (waiter_trace p ++ [e]) ++ rest = waiter_trace p ++ waiting p) by (rewrite <- app_assoc, Hw; done).
    unfold exited in Hx. rewrite Hw in H. cbn [waiter_event main_pc waiting waiter_trace main_trace]. rewrite E, Hw.
    destruct (main_pc p) as [| |[|]|]; [naive_solver|done| | |done].
    + destruct H as (? & ? & _). split; [done|]. split; [done|]. by destruct (waiter_trace p).
    + destruct H as (? & ? & [[? _]|?]); [done|]. split; [done|]. split; [done|by right].
Qed.
Lemma reach_pc_ok mode dtls p : reach mode dtls p -> pc_ok mode dtls p.
Proof.
  intros H. refine (rtc_ind_r (fun p => pc_ok mode dtls p) start _ _ p H); [done|]. intros ? ? _ ? ?. by eapply step_pc_ok.
Qed.

(** * Runs *)

Lemma reach_step mode dtls p q : reach mode dtls p -> step mode dtls p q -> reach mode dtls q.
Proof. intros H Hs. eapply rtc_r; [exact H|exact Hs]. Qed.

(** Whatever else happens, the deferred calls run to the end and the process
    exits. *)
Lemma unwinds mode dtls p r :
  reach mode dtls p -> main_pc p = Unwinding r (defers dtls) -> main_trace p = [] -> can_exit mode dtls r (defers dtls) (waiter_trace p).
Proof.
  intros H Hp Ht. assert (HE : main_trace p ++ defers dtls = defers dtls) by (rewrite Ht; done).
  revert Hp HE. generalize (defers dtls) at 1 2. intros es Hp HE. clear Ht. remember (waiter_trace p) as w eqn:Ew. revert p H Hp HE Ew.
  induction es as [|e es IH]; intros p H Hp HE ->.
  - exists (exits r p). rewrite app_nil_r in HE. split; [eapply reach_step; [done|by constructor]|]. done.
  - apply (IH (run_deferred r e es p)); [|done| |done].
    + eapply reach_step; [done|by constructor].
    + cbn. by rewrite <- app_assoc.
Qed.

(** The waiting goroutine gets as far as it likes while the main one serves or
    unwinds. *)
Lemma waiter_runs mode dtls p done_ rest :
  reach mode dtls p -> exited p = false -> ctx_done p = true -> waiting p = done_ ++ rest ->
  exists q, reach mode dtls q /\ main_pc q = main_pc p /\ ctx_done q = true /\ waiting q = rest
    /\ waiter_trace q = waiter_trace p ++ done_ /\ main_trace q = main_trace p.
Proof.
  revert p. induction done_ as [|e done_ IH]; intros p H Hx Hc Hw.
  - exists p. by rewrite app_nil_r.
  - destruct (IH (waiter_event e (done_ ++ rest) p)) as (q & H1 & H2 & H3 & H4 & H5 & H6); try done.
    + eapply reach_step; [done|by constructor].
    + exists q. cbn in H5. rewrite <- app_assoc in H5. done.
Qed.

Lemma serving_reach mode dtls done_ rest :
  waiter mode = done_ ++ rest ->
  exists p, reach mode dtls p /\ main_pc p = Serving /\ ctx_done p = true /\ waiting p = rest /\ waiter_trace p = done_ /\ main_trace p = [].
Proof.
  intros Hw. destruct (waiter_runs mode dtls (signalled (listening mode start)) done_ rest) as (q & H); try done.
  - eapply reach_step; [eapply reach_step; [apply rtc_refl|by apply s_listen]|by apply s_signal].
  - by exists q.
Qed.

(** The deferred calls are the ones the run of [Main] ends with: what happens
    after its listener's step is what the process here does. *)
Lemma run_ends_deferred env cfg mode :
  EServe mode ∈ (run_main env cfg).1 ->
  exists before, (run_main env cfg).1 = before ++ EServe mode :: defers (negb (is_nil (f_dtlsUDSSocket cfg))).
Proof.
  unfold run_main. destruct (setupLogger _); [|by intros ?%elem_of_nil]. destruct (resolveMode _ _) as [m|]; [|by intros ?%elem_of_nil].
  destruct (requireFlags _ _); [|by intros ?%elem_of_nil].
  destruct (match m with modeLegacy => _ | modeUDS => _ end); [by intros ?%elem_of_nil|].
  destruct (tun_options _) as [o|]; [|by intros ?%elem_of_nil]. destruct (e_tun_open env o); [by intros ?%elem_of_nil|].
  unfold run_services, startDTLSListener, defers.
  destruct (negb (e_url env (f_portalURL cfg))); [|destruct (negb (e_url env (f_tpmURL cfg))); [|destruct (parseDNS _); [|]; [destruct (binding_installer _ _)|]]];
    [| |destruct (is_nil (f_dtlsUDSSocket cfg)); [|destruct (e_dtls _ _)]| |];
    cbn [fst app negb]; rewrite ?elem_of_cons, ?elem_of_nil; intros; try naive_solver.
  - assert (mode = m) as -> by naive_solver. by exists [EOpenTun; EStartBridge].
  - assert (mode = m) as -> by naive_solver. by exists [EOpenTun; EStartBridge; EBindDTLS].
Qed.

(** * Properties *)

(** C31: How a process that got to its listener can end, in either mode. It
    always runs the deferred calls in order: the DTLS listener, the context, the
    TUN device. It succeeds in UDS mode with the waiting goroutine cut off
    anywhere in its closing of the tunnels and of the bridge, before the first
    call included, and in legacy mode anywhere after the beginning of Shutdown;
    it fails only with the listener's error, in UDS mode with nothing closed. *)
Theorem shutdown_outcomes mode dtls r deferred done_ :
  can_exit mode dtls r deferred done_ <->
  deferred = (if dtls then [ECloseDTLS] else []) ++ [ECancel; ECloseTun]
  /\ match r, mode with
  | Ok _, modeUDS => done_ `prefix_of` [Begin SrvClose; Return SrvClose; Begin UdsClose; Return UdsClose]
  | Ok _, modeLegacy => done_ `prefix_of` [Begin HttpShutdown; Return HttpShutdown; Begin SrvClose; Return SrvClose] /\ done_ <> []
  | Err e, modeUDS => e = ServeErr /\ done_ = []
  | Err e, modeLegacy => e = ServeErr /\ done_ `prefix_of` [Begin HttpShutdown; Return HttpShutdown; Begin SrvClose; Return SrvClose]
  end.
Proof.
  split.
  - intros (p & Hp & Hpc & <- & <-). apply reach_pc_ok in Hp. unfold pc_ok in Hp. rewrite Hpc in Hp. destruct Hp as [-> Hp]. split; [done|].
    destruct r as [[]|e].
    + destruct Hp as [E HL]. assert (HP : waiter_trace p `prefix_of` waiter mode) by (by exists (waiting p)).
      destruct mode; [split; [done|by apply HL]|done].
    + destruct Hp as [-> [[_ ->]|[-> E]]]; [destruct mode; [split; [done|apply prefix_nil]|done]|].
      split; [done|by exists (waiting p)].
  - intros [-> Hr]. revert Hr. destruct r as [[]|e], mode.
    + intros [[rest Hw] Hn]. destruct (serving_reach modeLegacy dtls _ _ Hw) as (p & H1 & H2 & H3 & H4 & H5 & H6).
      rewrite <- H5. apply (unwinds _ _ (returns (Ok tt) (defers dtls) p)); [|done|done].
      eapply reach_step; [done|]. apply s_server_closed; [done|done|]. rewrite H5. destruct done_ as [|e l]; [done|].
      injection Hw as <- _. by left.
    + intros [rest Hw]. destruct (serving_reach modeUDS dtls _ _ Hw) as (p & H1 & H2 & H3 & H4 & H5 & H6).
      rewrite <- H5. apply (unwinds _ _ (returns (Ok tt) (defers dtls) p)); [|done|done].
      eapply reach_step; [done|]. by apply s_ctx_done.
    + intros [-> [rest Hw]]. set (p := signalled (returns (Err ServeErr) (defers dtls) (listening modeLegacy start))).
      assert (Hr : reach modeLegacy dtls p).
      { eapply reach_step; [eapply reach_step; [eapply reach_step; [apply rtc_refl|by apply s_listen]|]|by apply s_signal].
        apply s_serve_fails; [done|done|]. by apply not_elem_of_nil. }
      destruct (waiter_runs modeLegacy dtls p done_ rest Hr) as (q & H1 & H2 & H3 & H4 & H5 & H6); [done|done|done|].
      replace done_ with (waiter_trace q) by (rewrite H5; done). by apply unwinds.
    + intros [-> ->]. apply (unwinds modeUDS dtls (returns (Err ServeErr) (defers dtls) start)); [|done|done].
      eapply reach_step; [apply rtc_refl|by apply s_listen_fails].
Qed.
