(* ===== verification/SocketBind.v ===== *)
(** The Unix sockets the listeners of [internal/udshandoff] create themselves:
    [bindStream] of [listener.go] and [bindDatagram] of [datagram_listener.go],
    with the system calls they make, and [ListenStream] and [ListenDatagram]
    over them. *)

From S2P Require Import Prelude HttpLib Handoff Datagram Stream.

(** * System calls *)

Inductive Network : Type := NetStream | NetDatagram.
#[export] Instance Network_eq_dec : EqDecision Network. Proof. solve_decision. Defined.

(** The calls in the order they are made; [SClose] is of the new socket. *)
Inductive SysCall : Type :=
| SMkdirAll (dir : gostring) (perm : Z)
| SRemove (path : gostring)
| SListen (network : Network) (path : gostring)
| SChmod (path : gostring) (mode : Z)
| SClose.
#[export] Instance SysCall_eq_dec : EqDecision SysCall. Proof. solve_decision. Defined.

(** What a call answers: the text of its error, or success. *)
Definition OS : Type := SysCall -> option gostring.

Definition SocketFileMode : Z := 432.
Definition dir_perm : Z := 1533.

(** The bits [os.MkdirAll] passes on of an [os.FileMode]: the nine permission
    bits, and the set-id and sticky bits from their own [ModeSetuid],
    [ModeSetgid] and [ModeSticky]. *)
Definition syscallMode (m : Z) : Z :=
  Z.lor (Z.land m 511)
    (Z.lor (if Z.testbit m 23 then 2048 else 0) (Z.lor (if Z.testbit m 22 then 1024 else 0) (if Z.testbit m 20 then 512 else 0))).

Inductive BindErr : Type :=
| EmptyPath
| MkdirErr (dir e : gostring)
| ListenOn (network : Network) (path e : gostring)
| ChmodErr (path e : gostring).

(** * [bindStream] and [bindDatagram] *)

Definition bind_socket (network : Network) (os : OS) (path : gostring) : list SysCall * result BindErr unit :=
  if is_nil path then ([], Err EmptyPath)
  else
    let dir := Dir path in
    let mkdir := SMkdirAll dir dir_perm in
    let listen := SListen network path in
    let chmod := SChmod path SocketFileMode in
    match os mkdir with
    | Some e => ([mkdir], Err (MkdirErr dir e))
    | None =>
      match os listen with
      | Some e => ([mkdir; SRemove path; listen], Err (ListenOn network path e))
      | None =>
        match os chmod with
        | Some e => ([mkdir; SRemove path; listen; chmod; SClose], Err (ChmodErr path e))
        | None => ([mkdir; SRemove path; listen; chmod], Ok tt)
        end
      end
    end.
Definition bindStream : OS -> gostring -> list SysCall * result BindErr unit := bind_socket NetStream.
Definition bindDatagram : OS -> gostring -> list SysCall * result BindErr unit := bind_socket NetDatagram.

Definition network_name (n : Network) : gostring := match n with NetStream => bs "listen unix " | NetDatagram => bs "listenpacket unixgram " end.
(** The error's text. *)
Definition BindErr_Error (e : BindErr) : gostring :=
  match e with
  | EmptyPath => bs "empty socket path"
  | MkdirErr dir e => bs "mkdir " ++ dir ++ bs ": " ++ e
  | ListenOn n path e => network_name n ++ path ++ bs ": " ++ e
  | ChmodErr path e => bs "chmod " ++ path ++ bs ": " ++ e
  end.
Definition bind_error (r : result BindErr unit) : option gostring :=
  match r with Ok _ => None | Err e => Some (BindErr_Error e) end.

(** * The listeners over them *)

(** The socket is asked for only by a configuration that passed the checks and
    brought none of its own: [listen] is [ListenStream] or [ListenDatagram] for a
    given outcome of the bind, and fails before it exactly when it fails for any
    outcome. *)
Definition bound_listen {A} (listen : option gostring -> result ListenErr A) (prebound : bool) (n : Network) (os : OS) (path : gostring)
    : list SysCall * result ListenErr A :=
  if is_ok (listen None) && negb prebound then
    let '(calls, r) := bind_socket n os path in (calls, listen (bind_error r))
  else ([], listen None).
Definition ListenStream_at (os : OS) (spec : option Spec) (has_logger has_handler : bool) (read_deadline : Z) (prebound : bool) (path : gostring)
    : list SysCall * result ListenErr Z :=
  bound_listen (ListenStream spec has_logger has_handler read_deadline prebound) prebound NetStream os path.
Definition ListenDatagram_at (os : OS) (spec : option Spec) (has_logger has_handler : bool) (prebound : bool) (path : gostring)
    : list SysCall * result ListenErr unit :=
  bound_listen (ListenDatagram spec has_logger has_handler prebound) prebound NetDatagram os path.

(** * Facts *)

(** Sockets the calls leave open. *)
Definition socket_delta (os : OS) (c : SysCall) : Z :=
  match c with SListen _ _ => if os c is Some _ then 0 else 1 | SClose => -1 | _ => 0 end.
Definition open_sockets (os : OS) (calls : list SysCall) : Z := foldr (fun c n => socket_delta os c + n) 0 calls.

(** A bind leaves one socket open when it succeeds and none when it fails. *)
Lemma bind_sockets n os path :
  open_sockets os (bind_socket n os path).1 = if is_ok (bind_socket n os path).2 then 1 else 0.
Proof.
  unfold bind_socket. destruct (is_nil path); [done|]. cbn zeta. destruct (os (SMkdirAll _ _)); [done|].
  destruct (os (SListen n path)) eqn:EL; [cbn; by rewrite EL|]. destruct (os (SChmod _ _)); cbn; by rewrite EL.
Qed.

(** It succeeds exactly when the path is named and the directory, the socket and
    its mode can be made; whether the stale file could be removed does not
    matter. Then the socket is in its directory, with the shared mode, and
    nothing else was asked of the system. *)
Lemma bind_ok_iff n os path calls :
  bind_socket n os path = (calls, Ok tt) <->
  path <> [] /\ os (SMkdirAll (Dir path) dir_perm) = None /\ os (SListen n path) = None /\ os (SChmod path SocketFileMode) = None
  /\ calls = [SMkdirAll (Dir path) dir_perm; SRemove path; SListen n path; SChmod path SocketFileMode].
Proof.
  unfold bind_socket. destruct path as [|c p]; [split; [done|by intros (? & _)]|]. cbn [is_nil]. cbn zeta.
  destruct (os (SMkdirAll _ _)), (os (SListen _ _)), (os (SChmod _ _)); naive_solver.
Qed.

(** The stale file goes before the socket is made, and only once the directory
    is there. *)
Lemma bind_removes_first n os path m :
  SListen m path ∈ (bind_socket n os path).1 -> m = n /\ exists rest,
    (bind_socket n os path).1 = SMkdirAll (Dir path) dir_perm :: SRemove path :: SListen n path :: rest.
Proof.
  unfold bind_socket. destruct (is_nil path); [by intros ?%elem_of_nil|]. cbn zeta.
  destruct (os (SMkdirAll _ _)); [intros [?|?%elem_of_nil]%elem_of_cons; done|].
  destruct (os (SListen n path)); [|destruct (os (SChmod _ _))]; cbn [fst]; rewrite !elem_of_cons, elem_of_nil; naive_solver.
Qed.

(** A listener that failed left no socket open, whatever failed; one that
    listens owns one, unless it was given one. *)
Lemma listen_sockets {A} (listen : option gostring -> result ListenErr A) prebound n os path :
  (forall e, listen (Some e) = if is_ok (listen None) && negb prebound then Err (LBind e) else listen None) ->
  let '(calls, r) := bound_listen listen prebound n os path in
  open_sockets os calls = if is_ok r && negb prebound then 1 else 0.
Proof.
  intros HL. unfold bound_listen. destruct (is_ok (listen None) && negb prebound) eqn:E.
  - apply andb_true_iff in E as [E1 E2]. pose proof (bind_sockets n os path) as HB.
    destruct (bind_socket n os path) as [calls r]. cbn [fst snd] in HB. rewrite HB.
    destruct r as [[]|e]; cbn [bind_error is_ok]; [by rewrite E1, E2|]. rewrite HL. by destruct prebound.
  - by destruct (is_ok (listen None)), prebound.
Qed.
Lemma ListenStream_sockets os spec lg hd rd prebound path :
  let '(calls, r) := ListenStream_at os spec lg hd rd prebound path in
  open_sockets os calls = if is_ok r && negb prebound then 1 else 0.
Proof.
  apply listen_sockets. intros e. unfold ListenStream. destruct spec as [s|]; [|done]. by destruct (bool_decide _), lg, hd, prebound.
Qed.
Lemma ListenDatagram_sockets os spec lg hd prebound path :
  let '(calls, r) := ListenDatagram_at os spec lg hd prebound path in
  open_sockets os calls = if is_ok r && negb prebound then 1 else 0.
Proof.
  apply listen_sockets. intros e. unfold ListenDatagram. destruct spec as [s|]; [|done]. by destruct (bool_decide _), lg, hd, prebound.
Qed.

(** The set-group-id bit of 02775 is not one [os.FileMode] has: the directory is
    made without it. *)
Lemma dir_not_setgid : syscallMode dir_perm = 509 /\ Z.testbit (syscallMode dir_perm) 10 = false.
Proof. split; vm_compute; reflexivity. Qed.

Example bind_sample :
  bindStream (fun c => if bool_decide (c = SChmod (bs "/run/h/s.sock") SocketFileMode) then Some (bs "denied") else None) (bs "/run/h/s.sock")
  = ([SMkdirAll (bs "/run/h") dir_perm; SRemove (bs "/run/h/s.sock"); SListen NetStream (bs "/run/h/s.sock");
      SChmod (bs "/run/h/s.sock") SocketFileMode; SClose], Err (ChmodErr (bs "/run/h/s.sock") (bs "denied"))).
Proof. vm_compute. reflexivity. Qed.
