(* ===== verification/CstpBinding.v ===== *)
(** [internal/cstp/dtls_binding.go]: the installer that publishes a DTLS
    binding to the facade's admin API, with the encodings of its fields and
    their decoders. *)

From S2P Require Import Prelude Netip Utf8 HttpLib CstpSessions CstpConfig CstpHttp.

(** * Encodings *)

(** The alphabets of [base64.RawStdEncoding] and [base64.RawURLEncoding]. *)
Definition b64_common : bytes := bs "ABCDEFGHIJKLMNOPQRSTUVWXYZabcdefghijklmnopqrstuvwxyz0123456789".
Definition std_alphabet : bytes := b64_common ++ bs "+/".
Definition url_alphabet : bytes := b64_common ++ bs "-_".

Section base64.
Context (alphabet : bytes).
Definition sextet (k : Z) : byte := nth (Z.to_nat k) alphabet 0.
(** [EncodeToString], without padding. *)
Fixpoint b64_encode (l : bytes) : bytes :=
  match l with
  | a :: b :: c :: l' =>
    sextet (a / 4) :: sextet (a mod 4 * 16 + b / 16) :: sextet (b mod 16 * 4 + c / 64) :: sextet (c mod 64) :: b64_encode l'
  | [a; b] => [sextet (a / 4); sextet (a mod 4 * 16 + b / 16); sextet (b mod 16 * 4)]
  | [a] => [sextet (a / 4); sextet (a mod 4 * 16)]
  | [] => []
  end.
(** The value of a character. *)
Definition sextet_value (c : byte) : option Z := (fun p => Z.of_nat p.1) <$> list_find (fun x => x = c) alphabet.
Fixpoint b64_decode (s : bytes) : option bytes :=
  match s with
  | p :: q :: r :: t :: s' =>
    match sextet_value p, sextet_value q, sextet_value r, sextet_value t, b64_decode s' with
    | Some p, Some q, Some r, Some t, Some l => Some (p * 4 + q / 16 :: q mod 16 * 16 + r / 4 :: r mod 4 * 64 + t :: l)
    | _, _, _, _, _ => None
    end
  | [p; q; r] =>
    match sextet_value p, sextet_value q, sextet_value r with
    | Some p, Some q, Some r => Some [p * 4 + q / 16; q mod 16 * 16 + r / 4]
    | _, _, _ => None
    end
  | [p; q] => match sextet_value p, sextet_value q with Some p, Some q => Some [p * 4 + q / 16] | _, _ => None end
  | [] => Some []
  | _ => None
  end.

(** Every sextet is the value of its character. *)
Definition alphabet_ok : bool := forallb (fun k => bool_decide (sextet_value (sextet (Z.of_nat k)) = Some (Z.of_nat k))) (seq 0 64).
Lemma sextet_round (Hok : alphabet_ok = true) k : 0 <= k < 64 -> sextet_value (sextet k) = Some k.
Proof.
  intros Hk. unfold alphabet_ok in Hok. rewrite forallb_forall in Hok. specialize (Hok (Z.to_nat k)).
  rewrite Z2Nat.id in Hok by lia. apply bool_decide_eq_true in Hok; [done|]. apply in_seq. lia.
Qed.
Lemma b64_round l : alphabet_ok = true -> bytes_ok l -> b64_decode (b64_encode l) = Some l.
Proof.
  intros Hok. remember (length l) as n eqn:Hn. revert l Hn. induction (lt_wf n) as [n _ IH]. intros l -> Hl. unfold bytes_ok in Hl.
  destruct l as [|a [|b [|c l]]]; [done|..]; rewrite ?Forall_cons in Hl; unfold is_byte in Hl; cbn [b64_encode b64_decode].
  - rewrite !sextet_round by (done || (Z.to_euclidean_division_equations; lia)). do 2 f_equal. Z.to_euclidean_division_equations; lia.
  - rewrite !sextet_round by (done || (Z.to_euclidean_division_equations; lia)). f_equal. f_equal; [|f_equal]; Z.to_euclidean_division_equations; lia.
  - rewrite !sextet_round by (done || (Z.to_euclidean_division_equations; lia)).
    rewrite (IH (length l)) by (cbn; done || lia || tauto). f_equal. f_equal; [|f_equal; [|f_equal]]; Z.to_euclidean_division_equations; lia.
Qed.
End base64.

(** [hex.EncodeToString] *)
Definition hex_encode (l : bytes) : bytes := concat (map (fun b => [hex_lower (b / 16); hex_lower (b mod 16)]) l).
Fixpoint hex_decode (s : bytes) : option bytes :=
  match s with
  | [] => Some []
  | a :: b :: s' => match hex_digit a, hex_digit b, hex_decode s' with Some x, Some y, Some l => Some (x * 16 + y :: l) | _, _, _ => None end
  | [_] => None
  end.
Lemma hex_nibble n : 0 <= n < 16 -> hex_digit (hex_lower n) = Some n.
Proof.
  intros Hn. assert (G : forallb (fun k => bool_decide (hex_digit (hex_lower (Z.of_nat k)) = Some (Z.of_nat k))) (seq 0 16) = true) by (vm_compute; reflexivity).
  rewrite forallb_forall in G. specialize (G (Z.to_nat n)). rewrite Z2Nat.id in G by lia. apply bool_decide_eq_true in G; [done|].
  apply in_seq. lia.
Qed.
Lemma hex_round l : bytes_ok l -> hex_decode (hex_encode l) = Some l.
Proof.
  induction 1 as [|b l Hb Hl IH]; [done|]. unfold hex_encode in *. cbn [map concat app hex_decode]. unfold is_byte in Hb.
  rewrite !hex_nibble by (Z.to_euclidean_division_equations; lia). rewrite IH. do 2 f_equal. Z.to_euclidean_division_equations; lia.
Qed.

(** * The installer *)

Record HTTPDTLSBindingInstaller := mkInstaller { in_url : gostring; in_token : gostring; in_timeout : option Z }.
Inductive InstallErr : Type := NoBaseURL | NoServiceToken | MarshalErr | BuildErr | DoErr | BadStatus (code : Z).

Record HTTPRequest := mkHTTP { hr_method : gostring; hr_url : gostring; hr_header : header; hr_body : bytes }.

Section installer.
(** [URL.ResolveReference] with a path, [json.Marshal], whether a request can
    be built for a URL, and the round trip, with the status it returns. *)
Context (ResolveReference : gostring -> gostring -> gostring) (Marshal : list (gostring * gostring) -> option bytes)
  (valid_request : gostring -> bool) (Do : HTTPRequest -> option Z).

(** A client of the configuration's has its own timeout. *)
Definition NewHTTPDTLSBindingInstaller (base : option gostring) (serviceToken : gostring) (own_client : bool) (timeout : Z)
    : result InstallErr HTTPDTLSBindingInstaller :=
  match base with
  | None => Err NoBaseURL
  | Some u =>
    if is_nil (TrimSpace serviceToken) then Err NoServiceToken
    else Ok (mkInstaller (ResolveReference u (bs "/api/dtls/bindings")) (TrimSpace serviceToken)
               (if own_client then None else Some (if timeout <=? 0 then 5 * Second else timeout)))
  end.

Definition binding_fields (b : DTLSBinding) : list (gostring * gostring) :=
  [(bs "source_ip", addr_string (Unmap (bd_SourceIP b)));
   (bs "dtls_psk", b64_encode std_alphabet (bd_PSK b));
   (bs "device_id", bd_DeviceID b);
   (bs "user_id", bd_UserID b);
   (bs "mtls_subject_dn", bd_MTLSSubjectDN b);
   (bs "source_v6", addr_string (bd_SourceV6 b));
   (bs "token", b64_encode url_alphabet (bd_Token b));
   (bs "dtls_master_secret", hex_encode (bd_MasterSecret b));
   (bs "dtls_session_id", hex_encode (bd_SessionID b));
   (bs "dtls_cipher", bd_Cipher b)].

Definition upsert_request (i : HTTPDTLSBindingInstaller) (body : bytes) : HTTPRequest :=
  mkHTTP (bs "POST") (in_url i)
    (Set_ (bs "Content-Type") (bs "application/json") (Set_ (bs "Authorization") (bs "Bearer " ++ in_token i) ∅)) body.

Definition Upsert (i : HTTPDTLSBindingInstaller) (b : DTLSBinding) : result InstallErr unit :=
  match Marshal (binding_fields b) with
  | None => Err MarshalErr
  | Some body =>
    if negb (valid_request (in_url i)) then Err BuildErr
    else
      match Do (upsert_request i body) with
      | None => Err DoErr
      | Some code => if code =? 200 then Ok tt else Err (BadStatus code)
      end
  end.

(** What the facade reads back from the fields of a request body. *)
Definition field (fs : list (gostring * gostring)) (k : gostring) : gostring := default [] (snd <$> (List.find (fun f => bool_decide (f.1 = k)) fs)).
Record decoded (fs : list (gostring * gostring)) (b : DTLSBinding) : Prop := {
  dc_psk : b64_decode std_alphabet (field fs (bs "dtls_psk")) = Some (bd_PSK b);
  dc_token : b64_decode url_alphabet (field fs (bs "token")) = Some (bd_Token b);
  dc_master : hex_decode (field fs (bs "dtls_master_secret")) = Some (bd_MasterSecret b);
  dc_session : hex_decode (field fs (bs "dtls_session_id")) = Some (bd_SessionID b);
  dc_plain : field fs (bs "device_id") = bd_DeviceID b /\ field fs (bs "user_id") = bd_UserID b
    /\ field fs (bs "mtls_subject_dn") = bd_MTLSSubjectDN b /\ field fs (bs "dtls_cipher") = bd_Cipher b
}.

(** C36: Publishing a binding succeeds exactly when one authorised POST of its
    fields, marshalled, is answered 200; and the fields determine the binding:
    the secrets, the token and the session id decode back to the very bytes,
    the names are as they are. *)
Theorem Upsert_publishes base tok own timeout i b
    (Hnew : NewHTTPDTLSBindingInstaller base tok own timeout = Ok i)
    (Hb : bytes_ok (bd_PSK b) /\ bytes_ok (bd_Token b) /\ bytes_ok (bd_MasterSecret b) /\ bytes_ok (bd_SessionID b)) :
  (Upsert i b = Ok tt <-> exists body, Marshal (binding_fields b) = Some body /\ valid_request (in_url i) = true
     /\ Do (upsert_request i body) = Some 200)
  /\ decoded (binding_fields b) b
  /\ (forall body, Values (hr_header (upsert_request i body)) (bs "Authorization") = [bs "Bearer " ++ TrimSpace tok] /\ TrimSpace tok <> []).
Proof.
  destruct Hb as (H1 & H2 & H3 & H4). split; [|split].
  - unfold Upsert. destruct (Marshal _) as [body|]; [|split; [done|naive_solver]].
    destruct (valid_request _) eqn:Ev; cbn [negb]; [|split; [done|naive_solver]].
    destruct (Do _) as [code|] eqn:Ed; [|split; [done|]; intros (? & [= <-] & _ & ?); congruence].
    destruct (Z.eqb_spec code 200) as [->|Hc]; split; try done; [eauto|]. intros (? & [= <-] & _ & ?). congruence.
  - split; [change (field _ _) with (b64_encode std_alphabet (bd_PSK b)); by apply b64_round
      |change (field _ _) with (b64_encode url_alphabet (bd_Token b)); by apply b64_round
      |change (field _ _) with (hex_encode (bd_MasterSecret b)); by apply hex_round
      |change (field _ _) with (hex_encode (bd_SessionID b)); by apply hex_round|done].
  - intros body. unfold NewHTTPDTLSBindingInstaller in Hnew. destruct base as [u|]; [|done].
    destruct (is_nil (TrimSpace tok)) eqn:En; [done|]. injection Hnew as <-. split; [|by intros E; rewrite E in En].
    unfold Values, upsert_request, Set_. cbn [hr_header in_token]. rewrite lookup_insert_ne by (vm_compute; done).
    by rewrite lookup_insert_eq.
Qed.
End installer.

Definition sample_binding : DTLSBinding :=
  mkBinding (Addr4 [192; 0; 2; 1]) (repeat 0 32) (bs "dev") (bs "user") (bs "CN=dev") (Addr6 (repeat 0 15 ++ [1]) [])
    [1; 2; 3; 4; 5; 6; 7; 8; 9; 250; 251; 255] (repeat 171 48) (repeat 7 32) (bs "AES128-SHA").
Lemma Upsert_publishes_witness :
  exists i, NewHTTPDTLSBindingInstaller (fun u p => u ++ p) (Some (bs "http://f")) (bs " t ") false 0 = Ok i
  /\ Upsert (fun _ => Some []) (fun _ => true) (fun _ => Some 200) i sample_binding = Ok tt
  /\ hex_decode (field (binding_fields sample_binding) (bs "dtls_session_id")) = Some (repeat 7 32).
Proof.
  destruct (Upsert_publishes (fun u p => u ++ p) (fun _ => Some []) (fun _ => true) (fun _ => Some 200) (Some (bs "http://f")) (bs " t ") false 0
    (mkInstaller (bs "http://f/api/dtls/bindings") (bs "t") (Some (5 * Second))) sample_binding) as (H1 & H2 & _).
  - vm_compute. reflexivity.
  - split_and!; decide_closed.
  - eexists. split; [vm_compute; reflexivity|]. split; [apply H1; exists []; split_and!; reflexivity|exact (dc_session _ _ H2)].
Defined.
