(* ===== verification/DtlsListen.v ===== *)
(** The life of the AnyConnect-DTLS listener, [Listen] and [Close] of
    [internal/dtlsuds/listener.go] with [Start] and [Stop] of [table.go]: the
    options and their defaults, what runs after each, and what is released.
    The traffic in between is [Dtls]. *)

From S2P Require Import Prelude Handoff Dtls.

(** * The options *)

Definition DefaultHeartbeatInterval : Z := 10 * 1000000000.
Definition DefaultSocketPath : gostring := bs "/var/run/era-facade/handoffs/anyconnect-dtls.sock".

(** Which of the interfaces are given, and the durations in nanoseconds. *)
Record Options := mkOptions {
  op_SocketPath : gostring;
  op_Resolver : bool;
  op_Sink : bool;
  op_SessionSink : bool;      (* the sink is a [SessionPacketSink] *)
  op_Lifecycle : bool;
  op_Logger : bool;
  op_IdleTimeout : Z;
  op_EvictionTick : Z;
  op_ResolveTimeout : Z;
  op_HeartbeatInterval : Z
}.
Inductive ListenErr : Type := ResolverRequired | SinkRequired | LoggerRequired | NotRegistered | BindFailed (err : gostring).

(** * What runs *)

(** The eviction walkers and [stopOnce]. A second walker would close
    [stopped] again, and without one [Stop] would wait forever. *)
Record TableLife := mkTableLife { tl_walkers : nat; tl_stopped : bool }.
Inductive Outcome (A : Type) : Type := Done (a : A) | DoubleClose | Forever.
Arguments Done {A} a.
Arguments DoubleClose {A}.
Arguments Forever {A}.

Definition Start (t : TableLife) : TableLife := mkTableLife (S (tl_walkers t)) (tl_stopped t).
Definition Stop (t : TableLife) : Outcome TableLife :=
  if tl_stopped t then Done t
  else match tl_walkers t with
       | O => Forever
       | S O => Done (mkTableLife 0 true)
       | _ => DoubleClose
       end.

(** [uds] is whether the socket is bound, [heart] the interval of a running
    heartbeat, whose stop channel is nil otherwise. *)
Record Listener := mkListener {
  ll_path : gostring;
  ll_idle : Z;
  ll_tick : Z;
  ll_resolveTimeout : Z;
  ll_sessionSink : bool;
  ll_table : TableLife;
  ll_uds : bool;
  ll_heart : option Z
}.

(** [ListenDatagram]'s answer is [bind]. On its error the table is stopped. *)
Definition Listen (opts : Options) (bind : option gostring) : Outcome (result ListenErr Listener * TableLife) :=
  let none := mkTableLife 0 false in
  if negb (op_Resolver opts) then Done (Err ResolverRequired, none)
  else if negb (op_Sink opts) then Done (Err SinkRequired, none)
  else if negb (op_Logger opts) then Done (Err LoggerRequired, none)
  else
    match LookupProtocol ProtoAnyConnectDTLS with
    | None => Done (Err NotRegistered, none)
    | Some _ =>
      let path := if is_nil (op_SocketPath opts) then DefaultSocketPath else op_SocketPath opts in
      let resolve := if op_ResolveTimeout opts <=? 0 then 2 * 1000000000 else op_ResolveTimeout opts in
      let heart := if op_HeartbeatInterval opts =? 0 then DefaultHeartbeatInterval else op_HeartbeatInterval opts in
      let idle := if op_IdleTimeout opts <=? 0 then DefaultIdleTimeout else op_IdleTimeout opts in
      let tick := if op_EvictionTick opts <=? 0 then DefaultEvictionTick else op_EvictionTick opts in
      let table := Start none in
      match bind with
      | Some e =>
        match Stop table with
        | Done t => Done (Err (BindFailed e), t)
        | DoubleClose => DoubleClose | Forever => Forever
        end
      | None =>
        Done (Ok (mkListener path idle tick resolve (op_SessionSink opts) table true (if 0 <? heart then Some heart else None)), table)
      end
    end.

(** [uds_err] is what closing the socket returns, if it is still open. *)
Definition Close (l : Listener) (uds_err : option gostring) : Outcome (option gostring * Listener) :=
  match Stop (ll_table l) with
  | Done t =>
    Done (if ll_uds l then uds_err else None,
          mkListener (ll_path l) (ll_idle l) (ll_tick l) (ll_resolveTimeout l) (ll_sessionSink l) t false None)
  | DoubleClose => DoubleClose
  | Forever => Forever
  end.

(** Nothing of the listener runs. *)
Definition quiet (t : TableLife) : Prop := tl_walkers t = 0%nat.

(** [Listen] fails without leaving an eviction walker; the listener it
    returns has exactly one, so [Close] always ends, leaves no walker,
    heartbeat or socket and reports the socket's error, and closing again
    reports nothing and changes nothing. Its intervals are positive, and the
    heartbeat runs unless the interval given is negative. *)
Theorem Listen_Close opts bind :
  exists r t, Listen opts bind = Done (r, t)
  /\ match r with
     | Err _ => quiet t
     | Ok l =>
       op_Resolver opts = true /\ op_Sink opts = true /\ op_Logger opts = true /\ bind = None
       /\ 0 < ll_idle l /\ 0 < ll_tick l /\ 0 < ll_resolveTimeout l /\ ll_path l <> []
       /\ (0 <= op_HeartbeatInterval opts <-> exists i, ll_heart l = Some i /\ 0 < i)
       /\ forall e, exists l', Close l e = Done (e, l') /\ quiet (ll_table l') /\ ll_uds l' = false /\ ll_heart l' = None
            /\ forall e', Close l' e' = Done (None, l')
     end.
Proof.
  unfold Listen. destruct (op_Resolver opts); [|by eexists _, _]. destruct (op_Sink opts); [|by eexists _, _].
  destruct (op_Logger opts); [|by eexists _, _]. cbn [negb]. destruct (LookupProtocol _); [|by eexists _, _].
  destruct bind as [e|]; [by eexists _, _|]. eexists _, _. split; [reflexivity|].
  cbn [ll_idle ll_tick ll_resolveTimeout ll_path ll_heart]. unfold DefaultIdleTimeout, DefaultEvictionTick, DefaultHeartbeatInterval.
  split_and!; try done.
  - destruct (op_IdleTimeout opts <=? 0) eqn:E; simpl_bool; lia.
  - destruct (op_EvictionTick opts <=? 0) eqn:E; simpl_bool; lia.
  - destruct (op_ResolveTimeout opts <=? 0) eqn:E; simpl_bool; lia.
  - by destruct (op_SocketPath opts).
  - destruct (Z.eqb_spec (op_HeartbeatInterval opts) 0) as [->|Hne]; cbn; [split; [intros _; by eexists|done]|].
    destruct (0 <? op_HeartbeatInterval opts) eqn:E; simpl_bool; [split; [eauto|lia]|split; [lia|by intros (? & ? & _)]].
  - intros e. eexists. split; [reflexivity|done].
Qed.

(** Starting the table again starts a second walker, and stopping it then
    panics. *)
Example second_start : Stop (Start (Start (mkTableLife 0 false))) = DoubleClose /\ Stop (mkTableLife 0 false) = Forever.
Proof. split; reflexivity. Qed.
